(** * Frappe Docker custom image builder: a shallow embedding of
    [build_custom_image.py] and the properties of its specification.

    Python values are modelled as follows.
    - [str]: a list of Unicode code points ([list Z]);
    - [bytes]: a list of octets ([list Z], each in [0, 256));
    - [dict] with a fixed key set ([self.config]): a record;
    - [dict] in insertion order (JSON objects, the build arguments):
      an association list without duplicate keys;
    - [os.environ]: a finite map ([gmap]);
    - exceptions, console output and subprocesses: a monad with an
      exception result, a state and an event log, run against a [world]
      that answers every blocking call. *)

From Stdlib Require Import ZArith List Ascii String Decimal DecimalZ DecimalPos Lia Bool.
From stdpp Require Import base tactics option list gmap.

Local Open Scope Z_scope.

(** ** Python strings *)

Module Py.

Definition ord (a : ascii) : Z := Z.of_N (N_of_ascii a).

(** A [str] literal of the source, written with an ASCII Rocq string. *)
Fixpoint str (s : string) : list Z :=
  match s with
  | EmptyString => []
  | String a r => ord a :: str r
  end.

(** [str.isspace] on one code point. *)
Definition isspace (c : Z) : bool :=
  ((9 <=? c) && (c <=? 13)) || ((28 <=? c) && (c <=? 32))
  || (c =? 133) || (c =? 160) || (c =? 5760)
  || ((8192 <=? c) && (c <=? 8202))
  || (c =? 8232) || (c =? 8233) || (c =? 8239) || (c =? 8287) || (c =? 12288).

Fixpoint lstrip (s : list Z) : list Z :=
  match s with
  | c :: r => if isspace c then lstrip r else s
  | [] => []
  end.

Definition rstrip (s : list Z) : list Z := rev (lstrip (rev s)).

(** [s.strip()] *)
Definition strip (s : list Z) : list Z := rstrip (lstrip s).

(** [sep.join(parts)] *)
Fixpoint join (sep : list Z) (parts : list (list Z)) : list Z :=
  match parts with
  | [] => []
  | [p] => p
  | p :: ps => p ++ sep ++ join sep ps
  end.

(** [s.split(sep)] for a one-character separator: never empty. *)
Fixpoint split (sep : Z) (s : list Z) : list (list Z) :=
  match s with
  | [] => [[]]
  | c :: r =>
      if c =? sep then [] :: split sep r
      else match split sep r with
           | p :: ps => (c :: p) :: ps
           | [] => [[c]]
           end
  end.

(** [s.startswith(p)], returning what follows the prefix. *)
Fixpoint strip_prefix (p s : list Z) : option (list Z) :=
  match p, s with
  | [], _ => Some s
  | a :: p', b :: s' => if a =? b then strip_prefix p' s' else None
  | _ :: _, [] => None
  end.

Definition is_ascii (c : Z) : Prop := 0 <= c < 128.
Definition is_byte (c : Z) : Prop := 0 <= c < 256.
Definition is_surrogate (c : Z) : bool := (55296 <=? c) && (c <=? 57343).
Definition is_high_surrogate (c : Z) : bool := (55296 <=? c) && (c <=? 56319).
Definition is_low_surrogate (c : Z) : bool := (56320 <=? c) && (c <=? 57343).

(** The code points a [str] can hold. *)
Definition is_code_point (c : Z) : Prop := 0 <= c < 1114112.

End Py.

Abbreviation pystr := (list Z) (only parsing).
Abbreviation pybytes := (list Z) (only parsing).
Abbreviation py := Py.str.
Arguments Py.str _%_string.

(** ** [str.encode()] and [bytes.decode()]: UTF-8, strict *)

Module Utf8.

Definition encode_char (c : Z) : option pybytes :=
  if c <? 0 then None
  else if c <? 128 then Some [c]
  else if c <? 2048 then
    Some [Z.lor 192 (Z.shiftr c 6); Z.lor 128 (Z.land c 63)]
  else if Py.is_surrogate c then None
  else if c <? 65536 then
    Some [Z.lor 224 (Z.shiftr c 12);
          Z.lor 128 (Z.land (Z.shiftr c 6) 63);
          Z.lor 128 (Z.land c 63)]
  else if c <? 1114112 then
    Some [Z.lor 240 (Z.shiftr c 18);
          Z.lor 128 (Z.land (Z.shiftr c 12) 63);
          Z.lor 128 (Z.land (Z.shiftr c 6) 63);
          Z.lor 128 (Z.land c 63)]
  else None.

(** [s.encode()]; [None] stands for [UnicodeEncodeError]. *)
Fixpoint encode (s : pystr) : option pybytes :=
  match s with
  | [] => Some []
  | c :: r =>
      match encode_char c, encode r with
      | Some bs, Some rs => Some (bs ++ rs)
      | _, _ => None
      end
  end.

(** The payload of a continuation byte. *)
Definition cont (b : Z) : option Z :=
  if (128 <=? b) && (b <=? 191) then Some (Z.land b 63) else None.

Definition glue (hi lo : Z) : Z := Z.lor (Z.shiftl hi 6) lo.

(** [b.decode()]; [None] stands for [UnicodeDecodeError]. Overlong
    forms, surrogates and values above U+10FFFF are refused. *)
Fixpoint decode (bs : pybytes) : option pystr :=
  match bs with
  | [] => Some []
  | b0 :: r =>
      if (0 <=? b0) && (b0 <? 128) then
        match decode r with Some s => Some (b0 :: s) | None => None end
      else if (192 <=? b0) && (b0 <? 224) then
        match r with
        | b1 :: r1 =>
            match cont b1 with
            | Some c1 =>
                let cp := glue (Z.land b0 31) c1 in
                if 128 <=? cp then
                  match decode r1 with Some s => Some (cp :: s) | None => None end
                else None
            | None => None
            end
        | _ => None
        end
      else if (224 <=? b0) && (b0 <? 240) then
        match r with
        | b1 :: b2 :: r2 =>
            match cont b1, cont b2 with
            | Some c1, Some c2 =>
                let cp := glue (glue (Z.land b0 15) c1) c2 in
                if (2048 <=? cp) && negb (Py.is_surrogate cp) then
                  match decode r2 with Some s => Some (cp :: s) | None => None end
                else None
            | _, _ => None
            end
        | _ => None
        end
      else if (240 <=? b0) && (b0 <? 248) then
        match r with
        | b1 :: b2 :: b3 :: r3 =>
            match cont b1, cont b2, cont b3 with
            | Some c1, Some c2, Some c3 =>
                let cp := glue (glue (glue (Z.land b0 7) c1) c2) c3 in
                if (65536 <=? cp) && (cp <? 1114112) then
                  match decode r3 with Some s => Some (cp :: s) | None => None end
                else None
            | _, _, _ => None
            end
        | _ => None
        end
      else None
  end.

End Utf8.

(** ** [base64.b64encode] and the matching decoder *)

Module Base64.

Definition alphabet : pystr :=
  py "ABCDEFGHIJKLMNOPQRSTUVWXYZabcdefghijklmnopqrstuvwxyz0123456789+/".

Definition pad : Z := 61.

Definition char_of (i : Z) : Z := nth (Z.to_nat i) alphabet pad.

Definition index_of (c : Z) : option Z :=
  if (65 <=? c) && (c <=? 90) then Some (c - 65)
  else if (97 <=? c) && (c <=? 122) then Some (c - 71)
  else if (48 <=? c) && (c <=? 57) then Some (c + 4)
  else if c =? 43 then Some 62
  else if c =? 47 then Some 63
  else None.

(** Three octets give four sextets; a tail of one or two octets is
    padded with [=]. *)
Fixpoint b64encode (bs : pybytes) : pybytes :=
  match bs with
  | [] => []
  | [a] =>
      [char_of (Z.shiftr a 2); char_of (Z.shiftl (Z.land a 3) 4); pad; pad]
  | [a; b] =>
      [char_of (Z.shiftr a 2);
       char_of (Z.lor (Z.shiftl (Z.land a 3) 4) (Z.shiftr b 4));
       char_of (Z.shiftl (Z.land b 15) 2); pad]
  | a :: b :: c :: r =>
      char_of (Z.shiftr a 2)
      :: char_of (Z.lor (Z.shiftl (Z.land a 3) 4) (Z.shiftr b 4))
      :: char_of (Z.lor (Z.shiftl (Z.land b 15) 2) (Z.shiftr c 6))
      :: char_of (Z.land c 63)
      :: b64encode r
  end.

Definition octet (x : Z) : Z := Z.land x 255.

(** [base64 -d] / [b64decode]: groups of four characters, padding only
    in the last group. *)
Fixpoint b64decode (cs : pybytes) : option pybytes :=
  match cs with
  | [] => Some []
  | c1 :: c2 :: c3 :: c4 :: r =>
      match index_of c1, index_of c2 with
      | Some i1, Some i2 =>
          let b0 := octet (Z.lor (Z.shiftl i1 2) (Z.shiftr i2 4)) in
          if c3 =? pad then
            if (c4 =? pad) && bool_decide (r = []) then Some [b0] else None
          else
            match index_of c3 with
            | Some i3 =>
                let b1 := octet (Z.lor (Z.shiftl i2 4) (Z.shiftr i3 2)) in
                if c4 =? pad then
                  if bool_decide (r = []) then Some [b0; b1] else None
                else
                  match index_of c4, b64decode r with
                  | Some i4, Some rest =>
                      Some (b0 :: b1 :: octet (Z.lor (Z.shiftl i3 6) i4) :: rest)
                  | _, _ => None
                  end
            | None => None
            end
      | _, _ => None
      end
  | _ => None
  end.

End Base64.

(** ** The [json] module: values, [dumps(indent=2)] and [loads] *)

Module Json.

(** *** Lexical level *)

Definition dquote : Z := 34.
Definition backslash : Z := 92.

Definition is_ws (c : Z) : bool :=
  (c =? 32) || (c =? 9) || (c =? 10) || (c =? 13).

Fixpoint skip_ws (s : pystr) : pystr :=
  match s with
  | c :: r => if is_ws c then skip_ws r else s
  | [] => []
  end.

Definition is_digit (c : Z) : bool := (48 <=? c) && (c <=? 57).

(** The longest run of decimal digits at the head of [s]. *)
Fixpoint span_digits (s : pystr) : pystr * pystr :=
  match s with
  | c :: r =>
      if is_digit c then let '(ds, r') := span_digits r in (c :: ds, r')
      else ([], s)
  | [] => ([], [])
  end.

(** The integer group of [NUMBER_RE]: an optional minus sign, then
    either a single zero or a non-zero digit followed by digits. *)
Definition match_integer (s : pystr) : option (pystr * pystr) :=
  let '(sign, s1) :=
    match s with
    | c :: r => if c =? 45 then ([45], r) else ([], s)
    | [] => ([], s)
    end in
  match s1 with
  | c :: r =>
      if c =? 48 then Some (sign ++ [48], r)
      else if is_digit c then
        let '(ds, r') := span_digits r in Some (sign ++ c :: ds, r')
      else None
  | [] => None
  end.

(** The optional fraction group: a dot and at least one digit. *)
Definition match_frac (s : pystr) : pystr * pystr :=
  match s with
  | c :: r =>
      if c =? 46 then
        match span_digits r with
        | ([], _) => ([], s)
        | (ds, r') => (c :: ds, r')
        end
      else ([], s)
  | [] => ([], s)
  end.

(** The optional exponent group: [e] or [E], an optional sign and at
    least one digit. *)
Definition match_exp (s : pystr) : pystr * pystr :=
  match s with
  | c :: r =>
      if (c =? 101) || (c =? 69) then
        let '(sg, r1) :=
          match r with
          | c' :: r2 => if (c' =? 45) || (c' =? 43) then ([c'], r2) else ([], r)
          | [] => ([], r)
          end in
        match span_digits r1 with
        | ([], _) => ([], s)
        | (ds, r') => (c :: sg ++ ds, r')
        end
      else ([], s)
  | [] => ([], s)
  end.

(** [NUMBER_RE.match]: the integer, fraction and exponent groups and
    the text after the match. *)
Definition match_number (s : pystr) : option (pystr * pystr * pystr * pystr) :=
  match match_integer s with
  | Some (i, r) =>
      let '(fr, r1) := match_frac r in
      let '(ex, r2) := match_exp r1 in
      Some (i, fr, ex, r2)
  | None => None
  end.

(** A number literal ends where no character could extend it. *)
Definition number_ends (rest : pystr) : Prop :=
  match rest with
  | [] => True
  | c :: _ => is_digit c = false /\ c <> 46 /\ c <> 101 /\ c <> 69
  end.

(** Decimal digits and [Decimal.uint]. *)
Fixpoint uint_chars (d : Decimal.uint) : pystr :=
  match d with
  | Nil => []
  | D0 d => 48 :: uint_chars d
  | D1 d => 49 :: uint_chars d
  | D2 d => 50 :: uint_chars d
  | D3 d => 51 :: uint_chars d
  | D4 d => 52 :: uint_chars d
  | D5 d => 53 :: uint_chars d
  | D6 d => 54 :: uint_chars d
  | D7 d => 55 :: uint_chars d
  | D8 d => 56 :: uint_chars d
  | D9 d => 57 :: uint_chars d
  end.

Definition digit_cons (c : Z) (d : Decimal.uint) : Decimal.uint :=
  if c =? 48 then D0 d else if c =? 49 then D1 d else if c =? 50 then D2 d
  else if c =? 51 then D3 d else if c =? 52 then D4 d else if c =? 53 then D5 d
  else if c =? 54 then D6 d else if c =? 55 then D7 d else if c =? 56 then D8 d
  else D9 d.

Fixpoint chars_uint (s : pystr) : Decimal.uint :=
  match s with
  | [] => Nil
  | c :: r => digit_cons c (chars_uint r)
  end.

(** [int.__repr__] *)
Definition repr_int (z : Z) : pystr :=
  match Z.to_int z with
  | Decimal.Pos d => uint_chars d
  | Decimal.Neg d => 45 :: uint_chars d
  end.

(** [int(lit)] on the integer group of a number match. *)
Definition parse_int (lit : pystr) : Z :=
  match lit with
  | c :: r =>
      if c =? 45 then Z.of_int (Decimal.Neg (chars_uint r))
      else Z.of_int (Decimal.Pos (chars_uint lit))
  | [] => 0
  end.

(** *** String literals *)

Definition hex_char (d : Z) : Z := if d <? 10 then 48 + d else 87 + d.

(** ['{0:04x}'.format(n)] *)
Definition hex4 (n : Z) : pystr :=
  [hex_char (Z.land (Z.shiftr n 12) 15); hex_char (Z.land (Z.shiftr n 8) 15);
   hex_char (Z.land (Z.shiftr n 4) 15); hex_char (Z.land n 15)].

Definition u_escape (n : Z) : pystr := backslash :: 117 :: hex4 n.

(** The replacement of one character by [py_encode_basestring_ascii]:
    [ESCAPE_ASCII] matches the backslash, the double quote and
    everything outside [' '..'~']. *)
Definition escape_char (c : Z) : pystr :=
  if c =? dquote then [backslash; dquote]
  else if c =? backslash then [backslash; backslash]
  else if (32 <=? c) && (c <=? 126) then [c]
  else if c =? 10 then [backslash; 110]
  else if c =? 13 then [backslash; 114]
  else if c =? 9 then [backslash; 116]
  else if c =? 8 then [backslash; 98]
  else if c =? 12 then [backslash; 102]
  else if c <? 65536 then u_escape c
  else
    let n := c - 65536 in
    u_escape (Z.lor 55296 (Z.land (Z.shiftr n 10) 1023))
    ++ u_escape (Z.lor 56320 (Z.land n 1023)).

Definition escape_body (s : pystr) : pystr := concat (map escape_char s).

Definition encode_basestring_ascii (s : pystr) : pystr :=
  dquote :: escape_body s ++ [dquote].

Definition hex_val (c : Z) : option Z :=
  if (48 <=? c) && (c <=? 57) then Some (c - 48)
  else if (97 <=? c) && (c <=? 102) then Some (c - 87)
  else if (65 <=? c) && (c <=? 70) then Some (c - 55)
  else None.

(** [_decode_uXXXX]: exactly four hexadecimal digits. *)
Definition decode_hex4 (a b c d : Z) : option Z :=
  match hex_val a, hex_val b, hex_val c, hex_val d with
  | Some x, Some y, Some z, Some w =>
      Some (Z.lor (Z.shiftl (Z.lor (Z.shiftl (Z.lor (Z.shiftl x 4) y) 4) z) 4) w)
  | _, _, _, _ => None
  end.

(** [BACKSLASH]: the one-letter escapes. *)
Definition unescape (e : Z) : option Z :=
  if e =? dquote then Some dquote
  else if e =? backslash then Some backslash
  else if e =? 47 then Some 47
  else if e =? 98 then Some 8
  else if e =? 102 then Some 12
  else if e =? 110 then Some 10
  else if e =? 114 then Some 13
  else if e =? 116 then Some 9
  else None.

Definition join_surrogates (hi lo : Z) : Z :=
  65536 + Z.lor (Z.shiftl (hi - 55296) 10) (lo - 56320).

(** [scanstring(s, end, strict=True)], started after the opening
    quote: the decoded string and the text after the closing quote. *)
Fixpoint scanstring (s : pystr) : option (pystr * pystr) :=
  match s with
  | [] => None
  | c :: r =>
      if c =? dquote then Some ([], r)
      else if c =? backslash then
        match r with
        | [] => None
        | e :: r1 =>
            if e =? 117 then
              match r1 with
              | h1 :: h2 :: h3 :: h4 :: r2 =>
                  match decode_hex4 h1 h2 h3 h4 with
                  | None => None
                  | Some uni =>
                      let single :=
                        match scanstring r2 with
                        | Some (t, rest) => Some (uni :: t, rest)
                        | None => None
                        end in
                      if Py.is_high_surrogate uni then
                        match r2 with
                        | b :: u :: r3 =>
                            if (b =? backslash) && (u =? 117) then
                              match r3 with
                              | k1 :: k2 :: k3 :: k4 :: r4 =>
                                  match decode_hex4 k1 k2 k3 k4 with
                                  | None => None
                                  | Some uni2 =>
                                      if Py.is_low_surrogate uni2 then
                                        match scanstring r4 with
                                        | Some (t, rest) =>
                                            Some (join_surrogates uni uni2 :: t, rest)
                                        | None => None
                                        end
                                      else single
                                  end
                              | _ => None
                              end
                            else single
                        | _ => single
                        end
                      else single
                  end
              | _ => None
              end
            else
              match unescape e with
              | None => None
              | Some ch =>
                  match scanstring r1 with
                  | Some (t, rest) => Some (ch :: t, rest)
                  | None => None
                  end
              end
        end
      else if c <? 32 then None
      else
        match scanstring r with
        | Some (t, rest) => Some (c :: t, rest)
        | None => None
        end
  end.

(** No high surrogate is directly followed by a low one: [scanstring]
    joins such a pair when it reads one. *)
Fixpoint no_split_pair (s : pystr) : Prop :=
  match s with
  | a :: r =>
      match r with
      | b :: _ => Py.is_high_surrogate a && Py.is_low_surrogate b = false
      | [] => True
      end /\ no_split_pair r
  | [] => True
  end.

(** The strings [scanstring] returns. *)
Definition str_ok (s : pystr) : Prop :=
  Forall Py.is_code_point s /\ no_split_pair s.

(** *** Floating-point numbers

    [float] values are kept abstract: the development only relies on
    what [json] needs from them, namely that [float.__repr__] of a
    finite value is a number literal with a fraction or an exponent
    which [float] reads back as the same value, and that the three
    non-finite values are printed by name. *)

Inductive float_kind := IsFinite | IsNaN | IsInf | IsNegInf.

Class PyFloat := {
  pyfloat : Type;
  float_nan : pyfloat;
  float_inf : pyfloat;
  float_neginf : pyfloat;
  float_class : pyfloat -> float_kind;
  (** [float(lit)] for a literal matched by [NUMBER_RE] *)
  float_of_literal : pystr -> pyfloat;
  (** [float.__repr__] *)
  float_repr : pyfloat -> pystr;
  float_class_nan : forall f, float_class f = IsNaN <-> f = float_nan;
  float_class_inf : forall f, float_class f = IsInf <-> f = float_inf;
  float_class_neginf : forall f, float_class f = IsNegInf <-> f = float_neginf;
  float_repr_literal : forall f rest,
    float_class f = IsFinite -> number_ends rest ->
    exists i fr ex,
      match_number (float_repr f ++ rest) = Some (i, fr, ex, rest)
      /\ float_repr f = i ++ fr ++ ex
      /\ (fr <> [] \/ ex <> []);
  float_of_repr : forall f,
    float_class f = IsFinite -> float_of_literal (float_repr f) = f
}.

Section Values.
Context {F : PyFloat}.

(** *** Values: what [json.load] returns *)

Unset Elimination Schemes.
Inductive json :=
| JNull
| JBool (b : bool)
| JInt (z : Z)
| JFloat (f : pyfloat)
| JStr (s : pystr)
| JArr (items : list json)
| JObj (fields : list (pystr * json)).
Set Elimination Schemes.

(** Induction over values, with the hypothesis for every element
    of an array and every field of an object. *)
Definition json_ind (P : json -> Prop)
    (HNull : P JNull) (HBool : forall b, P (JBool b))
    (HInt : forall z, P (JInt z)) (HFloat : forall f, P (JFloat f))
    (HStr : forall s, P (JStr s))
    (HArr : forall items, Forall P items -> P (JArr items))
    (HObj : forall fields, Forall (fun kv => P (snd kv)) fields -> P (JObj fields))
  : forall v, P v :=
  fix go (v : json) : P v :=
    match v with
    | JNull => HNull
    | JBool b => HBool b
    | JInt z => HInt z
    | JFloat f => HFloat f
    | JStr s => HStr s
    | JArr items =>
        HArr items
          ((fix all (l : list json) : Forall P l :=
              match l with
              | [] => List.Forall_nil P
              | x :: r => List.Forall_cons P x r (go x) (all r)
              end) items)
    | JObj fields =>
        HObj fields
          ((fix all (l : list (pystr * json)) : Forall (fun kv => P (snd kv)) l :=
              match l with
              | [] => List.Forall_nil _
              | kv :: r => List.Forall_cons _ kv r (go (snd kv)) (all r)
              end) fields)
    end.

(** The values [json.load] returns: strings as [scanstring] makes
    them, objects with distinct keys. *)
Fixpoint loadable (v : json) : Prop :=
  match v with
  | JStr s => str_ok s
  | JArr items => fold_right (fun x acc => loadable x /\ acc) True items
  | JObj fields =>
      NoDup (map fst fields)
      /\ fold_right (fun kv acc => (str_ok (fst kv) /\ loadable (snd kv)) /\ acc)
           True fields
  | _ => True
  end.

(** The number of values in a value, each element and field counted
    once more: an upper bound of the fuel [scan_once] needs. *)
Fixpoint json_size (v : json) : nat :=
  match v with
  | JArr items => S (fold_right (fun x acc => S (json_size x + acc)) O items)
  | JObj fields => S (fold_right (fun kv acc => S (json_size (snd kv) + acc)) O fields)
  | _ => 1%nat
  end.

(** [d[k] = v]: an existing key keeps its place. *)
Fixpoint dict_set (k : pystr) (v : json) (d : list (pystr * json))
  : list (pystr * json) :=
  match d with
  | [] => [(k, v)]
  | (k', v') :: r =>
      if bool_decide (k = k') then (k', v) :: r else (k', v') :: dict_set k v r
  end.

(** [dict(pairs)] *)
Definition dict_of_pairs (pairs : list (pystr * json)) : list (pystr * json) :=
  fold_left (fun d kv => dict_set (fst kv) (snd kv) d) pairs [].

(** [d[k]]; [None] stands for [KeyError]. *)
Fixpoint dict_get (k : pystr) (d : list (pystr * json)) : option json :=
  match d with
  | [] => None
  | (k', v) :: r => if bool_decide (k = k') then Some v else dict_get k r
  end.

(** [k in d] *)
Definition dict_has (k : pystr) (d : list (pystr * json)) : bool :=
  bool_decide (k ∈ map fst d).

(** *** [json.dumps(v, indent=2)] *)

(** [floatstr] of the encoder. *)
Definition floatstr (f : pyfloat) : pystr :=
  match float_class f with
  | IsNaN => py "NaN"
  | IsInf => py "Infinity"
  | IsNegInf => py "-Infinity"
  | IsFinite => float_repr f
  end.

(** ['\n' + '  ' * level] *)
Definition newline_indent (level : nat) : pystr :=
  10 :: repeat 32 (2 * level)%nat.

(** [_iterencode] with [_indent = '  '], [item_separator = ','] and
    [key_separator = ': ']; [level] is [_current_indent_level]. *)
Fixpoint dumps_at (level : nat) (v : json) : pystr :=
  match v with
  | JNull => py "null"
  | JBool true => py "true"
  | JBool false => py "false"
  | JInt z => repr_int z
  | JFloat f => floatstr f
  | JStr s => encode_basestring_ascii s
  | JArr items =>
      match items with
      | [] => py "[]"
      | _ =>
          91 :: newline_indent (S level)
          ++ Py.join (44 :: newline_indent (S level))
               (map (dumps_at (S level)) items)
          ++ newline_indent level ++ [93]
      end
  | JObj fields =>
      match fields with
      | [] => py "{}"
      | _ =>
          123 :: newline_indent (S level)
          ++ Py.join (44 :: newline_indent (S level))
               (map (fun kv => encode_basestring_ascii (fst kv) ++ py ": "
                               ++ dumps_at (S level) (snd kv)) fields)
          ++ newline_indent level ++ [125]
      end
  end.

Definition dumps (v : json) : pystr := dumps_at 0 v.

(** *** [json.loads] *)

(** [scan_once], [JSONArray] and [JSONObject] of the decoder. Each
    takes the remaining text and returns the value with the text
    after it; [None] stands for [JSONDecodeError]. [array_loop] starts
    at an element, [object_loop] just after the opening quote of a
    key. *)
Fixpoint scan_once (fuel : nat) (s : pystr) {struct fuel}
  : option (json * pystr) :=
  match fuel with
  | O => None
  | S n =>
      match s with
      | [] => None
      | c :: r =>
          if c =? dquote then
            match scanstring r with
            | Some (t, r') => Some (JStr t, r')
            | None => None
            end
          else if c =? 123 then
            match skip_ws r with
            | c1 :: r1 =>
                if c1 =? 125 then Some (JObj [], r1)
                else if c1 =? dquote then
                  match object_loop n r1 with
                  | Some (pairs, r') => Some (JObj (dict_of_pairs pairs), r')
                  | None => None
                  end
                else None
            | [] => None
            end
          else if c =? 91 then
            match skip_ws r with
            | c1 :: r1 =>
                if c1 =? 93 then Some (JArr [], r1)
                else
                  match array_loop n (c1 :: r1) with
                  | Some (items, r') => Some (JArr items, r')
                  | None => None
                  end
            | [] => None
            end
          else
            match Py.strip_prefix (py "null") s with
            | Some r' => Some (JNull, r')
            | None =>
            match Py.strip_prefix (py "true") s with
            | Some r' => Some (JBool true, r')
            | None =>
            match Py.strip_prefix (py "false") s with
            | Some r' => Some (JBool false, r')
            | None =>
            match match_number s with
            | Some (i, fr, ex, r') =>
                match fr, ex with
                | [], [] => Some (JInt (parse_int i), r')
                | _, _ => Some (JFloat (float_of_literal (i ++ fr ++ ex)), r')
                end
            | None =>
            match Py.strip_prefix (py "NaN") s with
            | Some r' => Some (JFloat float_nan, r')
            | None =>
            match Py.strip_prefix (py "Infinity") s with
            | Some r' => Some (JFloat float_inf, r')
            | None =>
            match Py.strip_prefix (py "-Infinity") s with
            | Some r' => Some (JFloat float_neginf, r')
            | None => None
            end end end end end end end
      end
  end
with array_loop (fuel : nat) (s : pystr) {struct fuel}
  : option (list json * pystr) :=
  match fuel with
  | O => None
  | S n =>
      match scan_once n s with
      | Some (v, r) =>
          match skip_ws r with
          | c :: r1 =>
              if c =? 93 then Some ([v], r1)
              else if c =? 44 then
                match array_loop n (skip_ws r1) with
                | Some (vs, r') => Some (v :: vs, r')
                | None => None
                end
              else None
          | [] => None
          end
      | None => None
      end
  end
with object_loop (fuel : nat) (s : pystr) {struct fuel}
  : option (list (pystr * json) * pystr) :=
  match fuel with
  | O => None
  | S n =>
      match scanstring s with
      | Some (key, r) =>
          match skip_ws r with
          | c :: r1 =>
              if c =? 58 then
                match scan_once n (skip_ws r1) with
                | Some (v, r2) =>
                    match skip_ws r2 with
                    | c' :: r3 =>
                        if c' =? 125 then Some ([(key, v)], r3)
                        else if c' =? 44 then
                          match skip_ws r3 with
                          | q :: r4 =>
                              if q =? dquote then
                                match object_loop n r4 with
                                | Some (kvs, r') => Some ((key, v) :: kvs, r')
                                | None => None
                                end
                              else None
                          | [] => None
                          end
                        else None
                    | [] => None
                    end
                | None => None
                end
              else None
          | [] => None
          end
      | None => None
      end
  end.

(** Every call of the three scanners consumes a character within
    two steps, so this much fuel is never exhausted. *)
Definition fuel_for (s : pystr) : nat := (2 * length s + 2)%nat.

(** The digits of the integer group of a number match. *)
Definition digits (lit : pystr) : nat :=
  match lit with
  | c :: r => if c =? 45 then length r else length lit
  | [] => O
  end.

(** [int()] refuses a literal of more than [limit] digits with a
    plain [ValueError], which ends the decoder where it stands. The
    three functions follow the three scanners and tell whether they
    reach such an integer literal before anything else stops them. *)
Fixpoint scan_stops (limit fuel : nat) (s : pystr) {struct fuel} : bool :=
  match fuel with
  | O => false
  | S n =>
      match s with
      | [] => false
      | c :: r =>
          if c =? dquote then false
          else if c =? 123 then
            match skip_ws r with
            | c1 :: r1 =>
                if c1 =? 125 then false
                else if c1 =? dquote then object_stops limit n r1
                else false
            | [] => false
            end
          else if c =? 91 then
            match skip_ws r with
            | c1 :: r1 =>
                if c1 =? 93 then false else array_stops limit n (c1 :: r1)
            | [] => false
            end
          else
            match match_number s with
            | Some (i, [], [], _) => (limit <? digits i)%nat
            | _ => false
            end
      end
  end
with array_stops (limit fuel : nat) (s : pystr) {struct fuel} : bool :=
  match fuel with
  | O => false
  | S n =>
      scan_stops limit n s
      || match scan_once n s with
         | Some (_, r) =>
             match skip_ws r with
             | c :: r1 =>
                 if c =? 44 then array_stops limit n (skip_ws r1) else false
             | [] => false
             end
         | None => false
         end
  end
with object_stops (limit fuel : nat) (s : pystr) {struct fuel} : bool :=
  match fuel with
  | O => false
  | S n =>
      match scanstring s with
      | Some (_, r) =>
          match skip_ws r with
          | c :: r1 =>
              if c =? 58 then
                scan_stops limit n (skip_ws r1)
                || match scan_once n (skip_ws r1) with
                   | Some (_, r2) =>
                       match skip_ws r2 with
                       | c' :: r3 =>
                           if c' =? 44 then
                             match skip_ws r3 with
                             | q :: r4 =>
                                 if q =? dquote then object_stops limit n r4
                                 else false
                             | [] => false
                             end
                           else false
                       | [] => false
                       end
                   | None => false
                   end
              else false
          | [] => false
          end
      | None => false
      end
  end.

(** [json.loads(s)]: no byte-order mark, one value, nothing but
    white space around it. *)
Definition loads (s : pystr) : option json :=
  match s with
  | c :: _ => if c =? 65279 then None else
      match scan_once (fuel_for s) (skip_ws s) with
      | Some (v, r) => match skip_ws r with [] => Some v | _ => None end
      | None => None
      end
  | [] => None
  end.

(** [json.loads(s)] ends with the [ValueError] of [int()]: [limit]
    is [sys.get_int_max_str_digits()], and 0 stands for no limit. *)
Definition loads_stops (limit : nat) (s : pystr) : bool :=
  match limit with
  | O => false
  | S _ =>
      match s with
      | c :: _ =>
          if c =? 65279 then false
          else scan_stops limit (fuel_for s) (skip_ws s)
      | [] => false
      end
  end.

End Values.

Arguments json : clear implicits.
Arguments json {F}.

End Json.

(** ** [FrappeImageBuilder] *)

Module Builder.
Import Json.

(** *** Data *)

(** The [choices] of [--build-method]. *)
Inductive method := Layered | Custom.

Definition method_name (m : method) : pystr :=
  match m with
  | Layered => py "layered"
  | Custom => py "custom"
  end.

(** The [argparse.Namespace] returned by [_parse_arguments]. *)
Record Namespace := {
  args_apps_file : pystr;
  args_tag : pystr;
  args_build_method : method;
  args_frappe_path : pystr;
  args_frappe_branch : pystr;
  args_python_version : pystr;
  args_node_version : pystr;
  args_debian_base : pystr;
  args_wkhtmltopdf_version : pystr;
  args_wkhtmltopdf_distro : pystr;
  args_interactive : bool;
  args_dry_run : bool;
  args_verbose : bool;
  args_quiet : bool
}.

(** The defaults declared by [_parse_arguments]. *)
Definition default_args : Namespace := {|
  args_apps_file := py "apps.json";
  args_tag := py "frappe_custom:latest";
  args_build_method := Layered;
  args_frappe_path := py "https://github.com/frappe/frappe";
  args_frappe_branch := py "version-15";
  args_python_version := py "3.11.6";
  args_node_version := py "20.19.2";
  args_debian_base := py "bookworm";
  args_wkhtmltopdf_version := py "0.12.6.1-3";
  args_wkhtmltopdf_distro := py "bookworm";
  args_interactive := false;
  args_dry_run := false;
  args_verbose := false;
  args_quiet := false
|}.

(** [self.config] once [_load_config] has filled it; the key
    [apps_json_base64] is absent until [build] adds it. *)
Record Config := {
  apps_file : pystr;
  tag : pystr;
  build_method : method;
  frappe_path : pystr;
  frappe_branch : pystr;
  python_version : pystr;
  node_version : pystr;
  debian_base : pystr;
  wkhtmltopdf_version : pystr;
  wkhtmltopdf_distro : pystr;
  interactive : bool;
  dry_run : bool;
  verbose : bool;
  quiet : bool;
  apps_json_base64 : option pystr
}.

Definition set_apps_file (v : pystr) (c : Config) : Config :=
  {| apps_file := v; tag := tag c; build_method := build_method c;
     frappe_path := frappe_path c; frappe_branch := frappe_branch c;
     python_version := python_version c; node_version := node_version c;
     debian_base := debian_base c; wkhtmltopdf_version := wkhtmltopdf_version c;
     wkhtmltopdf_distro := wkhtmltopdf_distro c; interactive := interactive c;
     dry_run := dry_run c; verbose := verbose c; quiet := quiet c;
     apps_json_base64 := apps_json_base64 c |}.

Definition set_tag (v : pystr) (c : Config) : Config :=
  {| apps_file := apps_file c; tag := v; build_method := build_method c;
     frappe_path := frappe_path c; frappe_branch := frappe_branch c;
     python_version := python_version c; node_version := node_version c;
     debian_base := debian_base c; wkhtmltopdf_version := wkhtmltopdf_version c;
     wkhtmltopdf_distro := wkhtmltopdf_distro c; interactive := interactive c;
     dry_run := dry_run c; verbose := verbose c; quiet := quiet c;
     apps_json_base64 := apps_json_base64 c |}.

Definition set_build_method (v : method) (c : Config) : Config :=
  {| apps_file := apps_file c; tag := tag c; build_method := v;
     frappe_path := frappe_path c; frappe_branch := frappe_branch c;
     python_version := python_version c; node_version := node_version c;
     debian_base := debian_base c; wkhtmltopdf_version := wkhtmltopdf_version c;
     wkhtmltopdf_distro := wkhtmltopdf_distro c; interactive := interactive c;
     dry_run := dry_run c; verbose := verbose c; quiet := quiet c;
     apps_json_base64 := apps_json_base64 c |}.

Definition set_frappe_path (v : pystr) (c : Config) : Config :=
  {| apps_file := apps_file c; tag := tag c; build_method := build_method c;
     frappe_path := v; frappe_branch := frappe_branch c;
     python_version := python_version c; node_version := node_version c;
     debian_base := debian_base c; wkhtmltopdf_version := wkhtmltopdf_version c;
     wkhtmltopdf_distro := wkhtmltopdf_distro c; interactive := interactive c;
     dry_run := dry_run c; verbose := verbose c; quiet := quiet c;
     apps_json_base64 := apps_json_base64 c |}.

Definition set_frappe_branch (v : pystr) (c : Config) : Config :=
  {| apps_file := apps_file c; tag := tag c; build_method := build_method c;
     frappe_path := frappe_path c; frappe_branch := v;
     python_version := python_version c; node_version := node_version c;
     debian_base := debian_base c; wkhtmltopdf_version := wkhtmltopdf_version c;
     wkhtmltopdf_distro := wkhtmltopdf_distro c; interactive := interactive c;
     dry_run := dry_run c; verbose := verbose c; quiet := quiet c;
     apps_json_base64 := apps_json_base64 c |}.

Definition set_python_version (v : pystr) (c : Config) : Config :=
  {| apps_file := apps_file c; tag := tag c; build_method := build_method c;
     frappe_path := frappe_path c; frappe_branch := frappe_branch c;
     python_version := v; node_version := node_version c;
     debian_base := debian_base c; wkhtmltopdf_version := wkhtmltopdf_version c;
     wkhtmltopdf_distro := wkhtmltopdf_distro c; interactive := interactive c;
     dry_run := dry_run c; verbose := verbose c; quiet := quiet c;
     apps_json_base64 := apps_json_base64 c |}.

Definition set_node_version (v : pystr) (c : Config) : Config :=
  {| apps_file := apps_file c; tag := tag c; build_method := build_method c;
     frappe_path := frappe_path c; frappe_branch := frappe_branch c;
     python_version := python_version c; node_version := v;
     debian_base := debian_base c; wkhtmltopdf_version := wkhtmltopdf_version c;
     wkhtmltopdf_distro := wkhtmltopdf_distro c; interactive := interactive c;
     dry_run := dry_run c; verbose := verbose c; quiet := quiet c;
     apps_json_base64 := apps_json_base64 c |}.

Definition set_apps_json_base64 (v : pystr) (c : Config) : Config :=
  {| apps_file := apps_file c; tag := tag c; build_method := build_method c;
     frappe_path := frappe_path c; frappe_branch := frappe_branch c;
     python_version := python_version c; node_version := node_version c;
     debian_base := debian_base c; wkhtmltopdf_version := wkhtmltopdf_version c;
     wkhtmltopdf_distro := wkhtmltopdf_distro c; interactive := interactive c;
     dry_run := dry_run c; verbose := verbose c; quiet := quiet c;
     apps_json_base64 := Some v |}.

(** The configuration keys that [env_mappings] names. *)
Inductive config_key :=
| KFrappePath | KFrappeBranch | KPythonVersion | KNodeVersion | KTag | KAppsFile.

(** [self.config[key] = v] *)
Definition config_set (k : config_key) (v : pystr) : Config -> Config :=
  match k with
  | KFrappePath => set_frappe_path v
  | KFrappeBranch => set_frappe_branch v
  | KPythonVersion => set_python_version v
  | KNodeVersion => set_node_version v
  | KTag => set_tag v
  | KAppsFile => set_apps_file v
  end.

(** [self.config[key]] *)
Definition config_get (k : config_key) (c : Config) : pystr :=
  match k with
  | KFrappePath => frappe_path c
  | KFrappeBranch => frappe_branch c
  | KPythonVersion => python_version c
  | KNodeVersion => node_version c
  | KTag => tag c
  | KAppsFile => apps_file c
  end.

(** [env_mappings], in the order the loop visits it. *)
Definition env_mappings : list (pystr * config_key) :=
  [(py "FRAPPE_PATH", KFrappePath);
   (py "FRAPPE_BRANCH", KFrappeBranch);
   (py "PYTHON_VERSION", KPythonVersion);
   (py "NODE_VERSION", KNodeVersion);
   (py "DOCKER_TAG", KTag);
   (py "APPS_FILE", KAppsFile)].

(** *** The world outside the process

    Every blocking call is answered by the world; an interruption by
    the user can arrive while the process waits in any of them. *)

(** [subprocess.run(cmd, capture_output=True, text=True)] *)
Inductive run_result :=
| Completed (returncode : Z) (stdout : pystr)
| RunNotFound          (* FileNotFoundError: no such executable *)
| RunError             (* another OSError *)
| RunInterrupted.      (* KeyboardInterrupt *)

(** [input(prompt)] *)
Inductive input_result :=
| Line (s : pystr)
| InputEOF             (* EOFError *)
| InputInterrupted.    (* KeyboardInterrupt *)

(** [open(path, 'r')] followed by [read()] *)
Inductive read_result :=
| FileBytes (content : pybytes)
| NoSuchFile           (* FileNotFoundError *)
| ReadError            (* another OSError *)
| ReadInterrupted.     (* KeyboardInterrupt *)

(** [subprocess.Popen(cmd, ...)], the lines read from its output and
    [process.wait()] *)
Inductive build_result :=
| BuildExited (lines : list pystr) (returncode : Z)
| BuildSpawnError                        (* Popen raised an OSError *)
| BuildInterrupted (lines : list pystr). (* KeyboardInterrupt while streaming *)

Record world := {
  argv : Namespace;
  environ : gmap (list Z) (list Z);
  stdin : list input_result;
  run : list pystr -> run_result;
  path_exists : pystr -> bool;
  read_file : pystr -> read_result;
  remove_file : pystr -> bool;
  popen : list pystr -> build_result
}.

(** *** The runtime

    What a run depends on besides the answers of the world: what
    [argparse] makes of the command line, what the standard output
    does with a character it cannot encode, which paths lie in a
    directory that may not be searched, and how many digits [int()]
    accepts. *)

(** [parser.parse_args()] *)
Inductive parse_result :=
| Parsed               (* the Namespace is [argv] of the world *)
| HelpRequested        (* [-h]: the help is printed, then SystemExit(0) *)
| UsageError.          (* the usage is printed, then SystemExit(2) *)

(** [sys.stdout.errors], the encoding being UTF-8. *)
Inductive error_handler := Strict | SurrogateEscape | BackslashReplace.

Class Runtime := {
  command_line : parse_result;
  stdout_errors : error_handler;
  (** [os.stat(path)] fails with [EACCES] *)
  unsearchable : pystr -> bool;
  (** [sys.get_int_max_str_digits()], 0 for no limit *)
  int_max_str_digits : nat
}.

(** UTF-8 encodes every code point but the surrogates. *)
Definition encodable (c : Z) : bool := negb (Py.is_surrogate c).

(** [surrogateescape] writes U+DC80..U+DCFF as the bytes they stand
    for. *)
Definition escapable (c : Z) : bool :=
  encodable c || ((56448 <=? c) && (c <=? 56575)).

(** *** Exceptions *)

(** The reasons for a plain [ValueError] in [_load_apps_config]:
    those the method raises itself, and the integer of too many
    digits that [json.load] meets. *)
Inductive apps_error :=
| NotAnArray
| AppNotObject (i : nat)
| AppMissingUrl (i : nat)
| AppMissingBranch (i : nat)
| TooManyDigits.

Inductive exception :=
| EOFError
| IndexError
| KeyError
| TypeError
| OSError
| FileNotFoundError          (* an OSError *)
| PermissionError            (* an OSError *)
| JSONDecodeError            (* a ValueError *)
| UnicodeDecodeError         (* a ValueError *)
| UnicodeEncodeError         (* a ValueError *)
| ValueError (why : apps_error).

(** What propagates: [SystemExit] and [KeyboardInterrupt] are not
    subclasses of [Exception]. *)
Inductive raised :=
| SystemExit (code : Z)
| KeyboardInterrupt
| Exception (e : exception).

Inductive result (A : Type) :=
| Return (a : A)
| Raise (e : raised).
Arguments Return {A} a.
Arguments Raise {A} e.

Section Program.
Context {F : PyFloat} {R : Runtime}.

(** *** Observable actions *)

Inductive level := INFO | SUCCESS | WARNING | ERROR | HEADER.

(** The texts handed to [_print_status], one constructor per
    message, with the values interpolated into it. *)
Inductive message :=
| MsgValidating
| MsgDockerNotAccessible
| MsgDockerVersion (stdout : pystr)
| MsgDockerNotFound
| MsgDaemonNotRunning
| MsgDaemonCheckFailed (e : exception)
| MsgRequiredFileMissing (path : pystr)
| MsgPrerequisitesOk
| MsgLoadingApps (path : pystr)
| MsgAppsLoaded (n : nat)
| MsgApp (i : nat) (url branch : json)
| MsgAppsFileNotFound (path : pystr)
| MsgInvalidJson
| MsgInvalidApps (e : exception)
| MsgDryRun
| MsgDryRunCommand (cmdline : pystr)
| MsgStartingBuild
| MsgCommand (cmdline : pystr)
| MsgBuildSucceeded
| MsgBuildFailed (returncode : Z)
| MsgInterrupted            (* "Build interrupted by user" *)
| MsgBuildError (e : exception)
| MsgCleanedUp (path : pystr)
| MsgCleanupFailed (path : pystr)
| MsgInteractiveMode
| MsgFromEnvironment (k : config_key) (v : pystr)
| MsgConfigSummary
| MsgBuildSummary
| MsgBuildFailedSummary
| MsgUnexpectedError (e : exception).

(** The lines written with [print]. *)
Inductive printed :=
| Banner
| BuildMethodMenu
| BuildOutput (line : pystr)
| ConfigItem (label : pystr) (value : pystr)
| SummaryStatus (success : bool)
| SummaryDuration
| SummaryTag (t : pystr)
| SummaryMethod (m : method)
| NextSteps
| NextTest (t : pystr)
| NextPush (t : pystr)
| NextCompose (image t : pystr)
| SummaryLogHint
| HelpText                  (* parser.print_help() *)
| UsageText.                (* parser.error(): usage and message, on stderr *)

Inductive prompt :=
| AskBuildMethod | AskAppsFile | AskTag | AskFrappeBranch
| AskPythonVersion | AskNodeVersion.

Inductive log_action := LogSetLevelError | LogSetLevelDebug | LogException.

Inductive event :=
| EStatus (l : level) (m : message)   (* self._print_status *)
| EPrint (p : printed)                (* print *)
| ELog (a : log_action)               (* self.logger *)
| EInput (p : prompt)                 (* input *)
| ERun (cmd : list pystr)             (* subprocess.run *)
| EPopen (cmd : list pystr)           (* subprocess.Popen *)
| EExists (path : pystr)              (* Path(path).exists() *)
| EOpen (path : pystr)                (* open(path, 'r') *)
| ERemove (path : pystr)              (* os.remove *)
| ECleanup.                           (* self._cleanup() entered *)

(** *** The monad of the methods *)

(** The attributes of the builder object, and what is left of the
    standard input. *)
Record state := {
  config : option Config;
  temp_files : list pystr;
  unread : list input_result
}.

Definition M (A : Type) : Type := world -> state -> result A * state * list event.

Definition ret {A} (a : A) : M A := fun _ s => (Return a, s, []).

Definition bind {A B} (m : M A) (k : A -> M B) : M B :=
  fun w s =>
    match m w s with
    | (Return a, s1, t1) =>
        match k a w s1 with
        | (r, s2, t2) => (r, s2, t1 ++ t2)
        end
    | (Raise e, s1, t1) => (Raise e, s1, t1)
    end.

Definition raise {A} (e : raised) : M A := fun _ s => (Raise e, s, []).

(** [try: body except ...: handler]; the handler answers [None] for
    what no [except] clause matches. *)
Definition try_except {A} (body : M A) (handler : raised -> option (M A)) : M A :=
  fun w s =>
    match body w s with
    | (Return a, s1, t1) => (Return a, s1, t1)
    | (Raise e, s1, t1) =>
        match handler e with
        | Some h =>
            match h w s1 with
            | (r, s2, t2) => (r, s2, t1 ++ t2)
            end
        | None => (Raise e, s1, t1)
        end
    end.

(** [try: body finally: final] *)
Definition try_finally {A} (body : M A) (final : M unit) : M A :=
  fun w s =>
    match body w s with
    | (r, s1, t1) =>
        match final w s1 with
        | (Return _, s2, t2) => (r, s2, t1 ++ t2)
        | (Raise e, s2, t2) => (Raise e, s2, t1 ++ t2)
        end
    end.

Definition emit (e : event) : M unit := fun _ s => (Return tt, s, [e]).
Definition ask : M world := fun w s => (Return w, s, []).
Definition get : M state := fun _ s => (Return s, s, []).
Definition put (s : state) : M unit := fun _ _ => (Return tt, s, []).

(** [sys.exit(code)] *)
Definition sys_exit {A} (code : Z) : M A := raise (SystemExit code).

Notation "'do' x <- m ; k" := (bind m (fun x => k))
  (at level 10, x name, m at level 100, k at level 200).
Notation "m ;; k" := (bind m (fun _ => k))
  (at level 100, right associativity).

(** [self.config[...]]: reading a key of the still empty mapping
    raises [KeyError]. *)
Definition get_config : M Config :=
  do s <- get;
  match config s with
  | Some c => ret c
  | None => raise (Exception KeyError)
  end.

Definition set_config (c : Config) : M unit :=
  do s <- get;
  put {| config := Some c; temp_files := temp_files s; unread := unread s |}.

(** [self.config[key] = value] on the loaded mapping. *)
Definition modify_config (f : Config -> Config) : M unit :=
  do c <- get_config; set_config (f c).

(** What an f-string copies from a value of the apps file: a [str]
    as it is; every other value by its [repr], which escapes what
    cannot be printed. *)
Definition copied (v : json) : list pystr :=
  match v with
  | JStr s => [s]
  | _ => []
  end.

(** The texts from outside the program that a message holds; the
    rest of it can always be encoded. *)
Definition message_texts (m : message) : list pystr :=
  match m with
  | MsgDockerVersion stdout => [stdout]
  | MsgRequiredFileMissing path => [path]
  | MsgLoadingApps path => [path]
  | MsgApp _ url branch => copied url ++ copied branch
  | MsgAppsFileNotFound path => [path]
  | MsgDryRunCommand cmdline => [cmdline]
  | MsgCommand cmdline => [cmdline]
  | MsgCleanedUp path => [path]
  | MsgCleanupFailed path => [path]
  | MsgFromEnvironment _ v => [v]
  | _ => []
  end.

Definition printed_texts (p : printed) : list pystr :=
  match p with
  | BuildOutput line => [line]
  | ConfigItem label value => [label; value]
  | SummaryTag t | NextTest t | NextPush t => [t]
  | NextCompose image t => [image; t]
  | _ => []
  end.

(** Can [sys.stdout.write] encode a line that holds [texts]? With
    [backslashreplace] it writes an escape for what has no encoding. *)
Definition stdout_writes (texts : list pystr) : bool :=
  match stdout_errors with
  | BackslashReplace => true
  | SurrogateEscape => forallb (forallb escapable) texts
  | Strict => forallb (forallb encodable) texts
  end.

(** [print(line)]: the line is encoded as a whole before any of it
    is written. *)
Definition write_line (texts : list pystr) (e : event) : M unit :=
  if stdout_writes texts then emit e else raise (Exception UnicodeEncodeError).

(** [self._print_status(message, status)] *)
Definition print_status (m : message) (l : level) : M unit :=
  write_line (message_texts m) (EStatus l m).

Definition console_print (p : printed) : M unit :=
  write_line (printed_texts p) (EPrint p).

Definition log (a : log_action) : M unit := emit (ELog a).

(** [subprocess.run(cmd, capture_output=True, text=True)]: the
    return code and the captured output. *)
Definition subprocess_run (cmd : list pystr) : M (Z * pystr) :=
  do w <- ask;
  emit (ERun cmd) ;;
  match run w cmd with
  | Completed rc out => ret (rc, out)
  | RunNotFound => raise (Exception FileNotFoundError)
  | RunError => raise (Exception OSError)
  | RunInterrupted => raise KeyboardInterrupt
  end.

(** [Path(path).exists()] *)
Definition exists_path (path : pystr) : M bool :=
  do w <- ask;
  emit (EExists path) ;;
  if unsearchable path then raise (Exception PermissionError)
  else ret (path_exists w path).

(** [input(prompt)] *)
Definition input (p : prompt) : M pystr :=
  do s <- get;
  emit (EInput p) ;;
  match unread s with
  | [] => raise (Exception EOFError)
  | a :: rest =>
      put {| config := config s; temp_files := temp_files s; unread := rest |} ;;
      match a with
      | Line l => ret l
      | InputEOF => raise (Exception EOFError)
      | InputInterrupted => raise KeyboardInterrupt
      end
  end.

(** [with open(path, 'r') as f: f.read()], the text decoded as
    UTF-8. *)
Definition open_read (path : pystr) : M pystr :=
  do w <- ask;
  emit (EOpen path) ;;
  match read_file w path with
  | FileBytes content =>
      match Utf8.decode content with
      | Some text => ret text
      | None => raise (Exception UnicodeDecodeError)
      end
  | NoSuchFile => raise (Exception FileNotFoundError)
  | ReadError => raise (Exception OSError)
  | ReadInterrupted => raise KeyboardInterrupt
  end.

(** *** [_validate_prerequisites] *)

Definition docker_version_cmd : list pystr := [py "docker"; py "--version"].
Definition docker_info_cmd : list pystr := [py "docker"; py "info"].

Definition required_files : list pystr :=
  [py "images/layered/Containerfile"; py "images/custom/Containerfile"].

(** The loop over [required_files]: [false] stands for the
    [return False] inside it. *)
Fixpoint check_required_files (files : list pystr) : M bool :=
  match files with
  | [] => ret true
  | file_path :: rest =>
      do found <- exists_path file_path;
      if negb found then
        print_status (MsgRequiredFileMissing file_path) ERROR ;; ret false
      else check_required_files rest
  end.

(** Each of the three blocks yields [false] where the source returns
    [False] from within it. *)
Definition validate_prerequisites : M bool :=
  print_status MsgValidating INFO ;;
  do docker_ok <-
    try_except
      (do r <- subprocess_run docker_version_cmd;
       if negb (fst r =? 0) then
         print_status MsgDockerNotAccessible ERROR ;; ret false
       else
         print_status (MsgDockerVersion (Py.strip (snd r))) SUCCESS ;; ret true)
      (fun e =>
         match e with
         | Exception FileNotFoundError =>
             Some (print_status MsgDockerNotFound ERROR ;; ret false)
         | _ => None
         end);
  if negb docker_ok then ret false else
  do daemon_ok <-
    try_except
      (do r <- subprocess_run docker_info_cmd;
       if negb (fst r =? 0) then
         print_status MsgDaemonNotRunning ERROR ;; ret false
       else ret true)
      (fun e =>
         match e with
         | Exception x =>
             Some (print_status (MsgDaemonCheckFailed x) ERROR ;; ret false)
         | _ => None
         end);
  if negb daemon_ok then ret false else
  do files_ok <- check_required_files required_files;
  if negb files_ok then ret false else
  print_status MsgPrerequisitesOk SUCCESS ;; ret true.

(** *** [_load_apps_config] *)

(** [json.load(f)] *)
Definition json_load (text : pystr) : M json :=
  if loads_stops int_max_str_digits text then
    raise (Exception (ValueError TooManyDigits))
  else
    match loads text with
    | Some v => ret v
    | None => raise (Exception JSONDecodeError)
    end.

(** The validation loop, [i] being the index [enumerate] gives. *)
Fixpoint validate_apps (i : nat) (apps : list json) : M unit :=
  match apps with
  | [] => ret tt
  | app :: rest =>
      match app with
      | JObj d =>
          if negb (dict_has (py "url") d) then
            raise (Exception (ValueError (AppMissingUrl i)))
          else if negb (dict_has (py "branch") d) then
            raise (Exception (ValueError (AppMissingBranch i)))
          else validate_apps (S i) rest
      | _ => raise (Exception (ValueError (AppNotObject i)))
      end
  end.

(** [app[key]] *)
Definition subscript (app : json) (key : pystr) : M json :=
  match app with
  | JObj d =>
      match dict_get key d with
      | Some v => ret v
      | None => raise (Exception KeyError)
      end
  | _ => raise (Exception TypeError)
  end.

(** The loop that lists the loaded apps, numbered from [i]. *)
Fixpoint list_apps (i : nat) (apps : list json) : M unit :=
  match apps with
  | [] => ret tt
  | app :: rest =>
      do url <- subscript app (py "url");
      do branch <- subscript app (py "branch");
      print_status (MsgApp i url branch) INFO ;;
      list_apps (S i) rest
  end.

Definition load_apps_config (apps_file : pystr) : M (list json) :=
  print_status (MsgLoadingApps apps_file) INFO ;;
  try_except
    (do text <- open_read apps_file;
     do apps_config <- json_load text;
     match apps_config with
     | JArr apps =>
         validate_apps 0 apps ;;
         print_status (MsgAppsLoaded (length apps)) SUCCESS ;;
         list_apps 1 apps ;;
         ret apps
     | _ => raise (Exception (ValueError NotAnArray))
     end)
    (fun e =>
       match e with
       | Exception FileNotFoundError =>
           Some (print_status (MsgAppsFileNotFound apps_file) ERROR ;; sys_exit 1)
       | Exception JSONDecodeError =>
           Some (print_status MsgInvalidJson ERROR ;; sys_exit 1)
       | Exception (ValueError why) =>
           Some (print_status (MsgInvalidApps (ValueError why)) ERROR ;; sys_exit 1)
       | Exception UnicodeDecodeError =>
           Some (print_status (MsgInvalidApps UnicodeDecodeError) ERROR ;; sys_exit 1)
       | Exception UnicodeEncodeError =>
           Some (print_status (MsgInvalidApps UnicodeEncodeError) ERROR ;; sys_exit 1)
       | _ => None
       end).

(** *** [_get_build_args] and [_build_docker_command] *)

(** [d[k] = v] on a [Dict[str, str]] *)
Fixpoint args_set (k v : pystr) (d : list (pystr * pystr)) : list (pystr * pystr) :=
  match d with
  | [] => [(k, v)]
  | (k', v') :: r =>
      if bool_decide (k = k') then (k', v) :: r else (k', v') :: args_set k v r
  end.

(** [d.update(other)] *)
Definition args_update (d other : list (pystr * pystr)) : list (pystr * pystr) :=
  fold_left (fun acc kv => args_set (fst kv) (snd kv) acc) other d.

Definition get_build_args : M (list (pystr * pystr)) :=
  do c <- get_config;
  match apps_json_base64 c with
  | None => raise (Exception KeyError)
  | Some b64 =>
      let build_args :=
        [(py "FRAPPE_PATH", frappe_path c);
         (py "FRAPPE_BRANCH", frappe_branch c);
         (py "APPS_JSON_BASE64", b64)] in
      match build_method c with
      | Custom =>
          ret (args_update build_args
                 [(py "PYTHON_VERSION", python_version c);
                  (py "NODE_VERSION", node_version c);
                  (py "DEBIAN_BASE", debian_base c);
                  (py "WKHTMLTOPDF_VERSION", wkhtmltopdf_version c);
                  (py "WKHTMLTOPDF_DISTRO", wkhtmltopdf_distro c)])
      | Layered => ret build_args
      end
  end.

Definition build_docker_command : M (list pystr) :=
  do build_args <- get_build_args;
  do c <- get_config;
  let cmd := [py "docker"; py "build"] in
  let cmd :=
    cmd ++ flat_map (fun kv => [py "--build-arg"; fst kv ++ py "=" ++ snd kv])
             build_args in
  let cmd := cmd ++ [py "--tag"; tag c] in
  let dockerfile :=
    py "images/" ++ method_name (build_method c) ++ py "/Containerfile" in
  let cmd := cmd ++ [py "--file"; dockerfile] in
  ret (cmd ++ [py "."]).

(** *** [_execute_build] *)

Fixpoint print_build_lines (lines : list pystr) : M unit :=
  match lines with
  | [] => ret tt
  | line :: rest =>
      console_print (BuildOutput (Py.rstrip line)) ;; print_build_lines rest
  end.

(** [Popen], the streaming loop and [process.wait()]: the return
    code of the process. *)
Definition popen_stream (cmd : list pystr) : M Z :=
  do w <- ask;
  emit (EPopen cmd) ;;
  match popen w cmd with
  | BuildExited lines rc => print_build_lines lines ;; ret rc
  | BuildSpawnError => raise (Exception OSError)
  | BuildInterrupted lines => print_build_lines lines ;; raise KeyboardInterrupt
  end.

Definition execute_build (cmd : list pystr) : M bool :=
  do c <- get_config;
  if dry_run c then
    print_status MsgDryRun WARNING ;;
    print_status (MsgDryRunCommand (Py.join (py " ") cmd)) INFO ;;
    ret true
  else
    print_status MsgStartingBuild INFO ;;
    print_status (MsgCommand (Py.join (py " ") cmd)) INFO ;;
    try_except
      (do returncode <- popen_stream cmd;
       if returncode =? 0 then
         print_status MsgBuildSucceeded SUCCESS ;; ret true
       else
         print_status (MsgBuildFailed returncode) ERROR ;; ret false)
      (fun e =>
         match e with
         | KeyboardInterrupt =>
             Some (print_status MsgInterrupted WARNING ;; ret false)
         | Exception x =>
             Some (print_status (MsgBuildError x) ERROR ;; ret false)
         | SystemExit _ => None
         end).

(** *** [_cleanup] *)

Fixpoint cleanup_files (files : list pystr) : M unit :=
  match files with
  | [] => ret tt
  | temp_file :: rest =>
      try_except
        (do found <- exists_path temp_file;
         if found then
           do w <- ask;
           emit (ERemove temp_file) ;;
           if remove_file w temp_file then
             print_status (MsgCleanedUp temp_file) INFO
           else raise (Exception OSError)
         else ret tt)
        (fun e =>
           match e with
           | Exception _ =>
               Some (print_status (MsgCleanupFailed temp_file) WARNING)
           | _ => None
           end) ;;
      cleanup_files rest
  end.

Definition cleanup : M unit :=
  emit ECleanup ;;
  do s <- get;
  cleanup_files (temp_files s).

(** *** [_interactive_config] *)

(** [answer if answer else default] *)
Definition or_default (answer default : pystr) : pystr :=
  match answer with
  | [] => default
  | _ => answer
  end.

Definition interactive_config : M unit :=
  print_status MsgInteractiveMode HEADER ;;
  console_print BuildMethodMenu ;;
  do choice <- input AskBuildMethod;
  modify_config
    (set_build_method
       (if bool_decide (Py.strip choice = py "2") then Custom else Layered)) ;;
  do apps_file <- input AskAppsFile;
  modify_config (set_apps_file (or_default (Py.strip apps_file) (py "apps.json"))) ;;
  do tag <- input AskTag;
  modify_config (set_tag (or_default (Py.strip tag) (py "frappe_custom:latest"))) ;;
  do branch <- input AskFrappeBranch;
  modify_config (set_frappe_branch (or_default (Py.strip branch) (py "version-15"))) ;;
  do c <- get_config;
  match build_method c with
  | Custom =>
      do python_ver <- input AskPythonVersion;
      modify_config
        (set_python_version (or_default (Py.strip python_ver) (py "3.11.6"))) ;;
      do node_ver <- input AskNodeVersion;
      modify_config
        (set_node_version (or_default (Py.strip node_ver) (py "20.19.2")))
  | Layered => ret tt
  end.

(** *** [_parse_arguments] and [_load_config] *)

(** [parser.parse_args()]: the command line as [argparse] has read
    it, or the exit of the parser. *)
Definition parse_arguments : M Namespace :=
  match command_line with
  | Parsed => do w <- ask; ret (argv w)
  | HelpRequested => emit (EPrint HelpText) ;; sys_exit 0
  | UsageError => emit (EPrint UsageText) ;; sys_exit 2
  end.

Definition config_of_args (args : Namespace) : Config := {|
  apps_file := args_apps_file args;
  tag := args_tag args;
  build_method := args_build_method args;
  frappe_path := args_frappe_path args;
  frappe_branch := args_frappe_branch args;
  python_version := args_python_version args;
  node_version := args_node_version args;
  debian_base := args_debian_base args;
  wkhtmltopdf_version := args_wkhtmltopdf_version args;
  wkhtmltopdf_distro := args_wkhtmltopdf_distro args;
  interactive := args_interactive args;
  dry_run := args_dry_run args;
  verbose := args_verbose args;
  quiet := args_quiet args;
  apps_json_base64 := None
|}.

(** The loop over [env_mappings.items()]. *)
Fixpoint apply_env (mappings : list (pystr * config_key)) : M unit :=
  match mappings with
  | [] => ret tt
  | (env_var, config_key) :: rest =>
      do w <- ask;
      match environ w !! env_var with
      | Some v =>
          modify_config (config_set config_key v) ;;
          print_status (MsgFromEnvironment config_key v) INFO
      | None => ret tt
      end ;;
      apply_env rest
  end.

Definition load_config (args : Namespace) : M unit :=
  set_config (config_of_args args) ;;
  apply_env env_mappings.

(** *** [_print_config_summary] and [_print_build_summary] *)

Fixpoint print_config_items (items : list (pystr * pystr)) : M unit :=
  match items with
  | [] => ret tt
  | (key, value) :: rest =>
      console_print (ConfigItem key value) ;; print_config_items rest
  end.

Definition print_config_summary : M unit :=
  print_status MsgConfigSummary HEADER ;;
  do c <- get_config;
  let config_items :=
    [(py "Build Method", method_name (build_method c));
     (py "Apps File", apps_file c);
     (py "Docker Tag", tag c);
     (py "Frappe Path", frappe_path c);
     (py "Frappe Branch", frappe_branch c)] in
  let config_items :=
    match build_method c with
    | Custom =>
        config_items ++
          [(py "Python Version", python_version c);
           (py "Node.js Version", node_version c);
           (py "Debian Base", debian_base c)]
    | Layered => config_items
    end in
  print_config_items config_items.

(** [l[i]]; [None] stands for [IndexError]. *)
Definition index {A} (l : list A) (i : nat) : M A :=
  match l !! i with
  | Some x => ret x
  | None => raise (Exception IndexError)
  end.

(** The elapsed time is a float and is left out of the printed
    lines. *)
Definition print_build_summary (success : bool) : M unit :=
  do c <- get_config;
  if success then
    print_status MsgBuildSummary SUCCESS ;;
    console_print (SummaryStatus true) ;;
    console_print SummaryDuration ;;
    console_print (SummaryTag (tag c)) ;;
    console_print (SummaryMethod (build_method c)) ;;
    console_print NextSteps ;;
    console_print (NextTest (tag c)) ;;
    console_print (NextPush (tag c)) ;;
    do image <- index (Py.split 58 (tag c)) 0;
    do version <- index (Py.split 58 (tag c)) 1;
    console_print (NextCompose image version)
  else
    print_status MsgBuildFailedSummary ERROR ;;
    console_print (SummaryStatus false) ;;
    console_print SummaryDuration ;;
    console_print SummaryLogHint.

(** *** [build] and [main] *)

(** [apps_json_str.encode()] *)
Definition str_encode (s : pystr) : M pybytes :=
  match Utf8.encode s with
  | Some b => ret b
  | None => raise (Exception UnicodeEncodeError)
  end.

(** [b.decode()] *)
Definition bytes_decode (b : pybytes) : M pystr :=
  match Utf8.decode b with
  | Some s => ret s
  | None => raise (Exception UnicodeDecodeError)
  end.

Definition when (b : bool) (m : M unit) : M unit := if b then m else ret tt.

(** The [try] block of [build] is written in two halves, which
    [build] runs one after the other. The first half runs up to the
    interactive mode and leaves the resolved configuration in
    [self.config]. *)
Definition configure : M unit :=
  do args <- parse_arguments;
  (if args_quiet args then log LogSetLevelError
   else if args_verbose args then log LogSetLevelDebug
   else ret tt) ;;
  when (negb (args_quiet args)) (console_print Banner) ;;
  load_config args ;;
  do c <- get_config;
  when (interactive c) interactive_config.

(** The second half: from the prerequisites to [sys.exit]. *)
Definition proceed : M unit :=
  do ok <- validate_prerequisites;
  when (negb ok) (sys_exit 1) ;;
  do c <- get_config;
  do apps_config <- load_apps_config (apps_file c);
  let apps_json_str := dumps (JArr apps_config) in
  do encoded <- str_encode apps_json_str;
  do b64 <- bytes_decode (Base64.b64encode encoded);
  modify_config (set_apps_json_base64 b64) ;;
  do c <- get_config;
  when (negb (quiet c)) print_config_summary ;;
  do cmd <- build_docker_command;
  do success <- execute_build cmd;
  do c <- get_config;
  when (negb (quiet c)) (print_build_summary success) ;;
  sys_exit (if success then 0 else 1).

(** The [except] clauses of [build]. *)
Definition build_handler (e : raised) : option (M unit) :=
  match e with
  | KeyboardInterrupt =>
      Some (print_status MsgInterrupted WARNING ;; sys_exit 130)
  | Exception x =>
      Some (print_status (MsgUnexpectedError x) ERROR ;;
            log LogException ;;
            sys_exit 1)
  | SystemExit _ => None
  end.

Definition build : M unit :=
  try_finally (try_except (configure ;; proceed) build_handler) cleanup.

(** [FrappeImageBuilder()] *)
Definition initial_state (w : world) : state :=
  {| config := None; temp_files := []; unread := stdin w |}.

(** The exit status of the interpreter for what [main] ends with. *)
Definition exit_status (r : result unit) : Z :=
  match r with
  | Return _ => 0
  | Raise (SystemExit code) => code
  | Raise KeyboardInterrupt => 130
  | Raise (Exception _) => 1
  end.

(** One run of the program: its exit status, the final
    configuration and everything it did. *)
Record run_outcome := {
  status : Z;
  final_config : option Config;
  events : list event
}.

Definition main (w : world) : run_outcome :=
  match build w (initial_state w) with
  | (r, s, t) =>
      {| status := exit_status r; final_config := config s; events := t |}
  end.

End Program.

(** The runtime on which none of this goes wrong: [argparse] accepts
    the command line, the standard output escapes what it cannot
    encode ([PYTHONIOENCODING=utf-8:backslashreplace]), every path can
    be searched and there is no limit on the digits of an integer
    ([PYTHONINTMAXSTRDIGITS=0]). A statement that names no runtime is
    about this one. *)
#[export] Instance lenient : Runtime := {|
  command_line := Parsed;
  stdout_errors := BackslashReplace;
  unsearchable := fun _ => false;
  int_max_str_digits := 0
|}.

(** CPython 3.11 as it starts in a UTF-8 locale. *)
Definition cpython : Runtime := {|
  command_line := Parsed;
  stdout_errors := Strict;
  unsearchable := fun _ => false;
  int_max_str_digits := 4300
|}.

End Builder.

(** ** Shapes of texts and values

    The predicates in which the lemmas on the encoder and the decoder
    are stated. *)

Module Shapes.
Import Json.

(** Where a run of digits ends. *)
Definition digits_end (rest : pystr) : Prop :=
match rest with
| [] => True
| c :: _ => is_digit c = false
end.

Definition cons_result (c : Z) (r : option (pystr * pystr)) : option (pystr * pystr) :=
match r with
| Some (t, rest) => Some (c :: t, rest)
| None => None
end.

(** What follows a [\u] escape does not start with the escape of a
  low surrogate. *)
Definition no_low_escape (r : pystr) : Prop :=
forall k1 k2 k3 k4 r4,
  r = backslash :: 117 :: k1 :: k2 :: k3 :: k4 :: r4 ->
  exists lo, decode_hex4 k1 k2 k3 k4 = Some lo /\ Py.is_low_surrogate lo = false.

Definition complete_escape (r : pystr) : Prop :=
forall r3, r = backslash :: 117 :: r3 -> exists k1 k2 k3 k4 r4, r3 = k1 :: k2 :: k3 :: k4 :: r4.

(** The four ways a character is written. *)
Inductive escape_shape (c : Z) : pystr -> Prop :=
| shape_plain :
  32 <= c <= 126 -> c <> dquote -> c <> backslash -> escape_shape c [c]
| shape_letter e :
  e <> 117 -> unescape e = Some c -> escape_shape c [backslash; e]
| shape_u h1 h2 h3 h4 :
  decode_hex4 h1 h2 h3 h4 = Some c ->
  escape_shape c [backslash; 117; h1; h2; h3; h4]
| shape_pair h1 h2 h3 h4 hi k1 k2 k3 k4 lo :
  decode_hex4 h1 h2 h3 h4 = Some hi -> Py.is_high_surrogate hi = true ->
  decode_hex4 k1 k2 k3 k4 = Some lo -> Py.is_low_surrogate lo = true ->
  join_surrogates hi lo = c ->
  escape_shape c [backslash; 117; h1; h2; h3; h4;
                  backslash; 117; k1; k2; k3; k4].

Definition number_char (c : Z) : Prop :=
is_digit c = true \/ c = 45 \/ c = 43 \/ c = 46 \/ c = 101 \/ c = 69.

Definition value_start (c : Z) : Prop :=
is_ws c = false /\ c <> 93 /\ c <> 125 /\ c <> 65279 /\ Py.is_ascii c.

(** A code point that is not a surrogate. *)
Definition is_scalar (c : Z) : Prop :=
Py.is_code_point c /\ Py.is_surrogate c = false.

(** The result [t] of scanning [s], with [r] left over: [t] is a
  well-formed string, and it starts with a low surrogate only if
  [s] starts with the escape of one. *)
Definition scanned (s t r : pystr) : Prop :=
str_ok t /\ Forall is_scalar r
/\ (forall b t', t = b :: t' -> Py.is_low_surrogate b = true ->
    exists k1 k2 k3 k4 r4,
      s = backslash :: 117 :: k1 :: k2 :: k3 :: k4 :: r4
      /\ decode_hex4 k1 k2 k3 k4 = Some b).

Section Values.
Context {F : PyFloat}.

Definition number_value (i fr ex : pystr) : json :=
match fr, ex with
| [], [] => JInt (parse_int i)
| _, _ => JFloat (float_of_literal (i ++ fr ++ ex))
end.

(** What [scan_once] is asked to do for a value [v]. *)
Definition reads_back (v : json) : Prop :=
forall level fuel rest,
(json_size v <= fuel)%nat -> number_ends rest ->
scan_once fuel (dumps_at level v ++ rest) = Some (v, rest).

Definition items_size (items : list json) : nat :=
fold_right (fun x acc => S (json_size x + acc)) O items.

Definition field_text (level : nat) (kv : pystr * json) : pystr :=
encode_basestring_ascii (fst kv) ++ py ": " ++ dumps_at level (snd kv).

Definition fields_size (fields : list (pystr * json)) : nat :=
fold_right (fun kv acc => S (json_size (snd kv) + acc)) O fields.

Definition field_ok (kv : pystr * json) : Prop :=
str_ok (fst kv) /\ loadable (snd kv).

Definition scan_once_ok (fuel : nat) : Prop :=
forall s v r, Forall is_scalar s -> scan_once fuel s = Some (v, r) ->
            loadable v /\ Forall is_scalar r.

Definition array_loop_ok (fuel : nat) : Prop :=
forall s vs r, Forall is_scalar s -> array_loop fuel s = Some (vs, r) ->
             Forall loadable vs /\ Forall is_scalar r.

Definition object_loop_ok (fuel : nat) : Prop :=
forall s kvs r, Forall is_scalar s -> object_loop fuel s = Some (kvs, r) ->
              Forall field_ok kvs /\ Forall is_scalar r.

End Values.

End Shapes.

(** ** Specifications of the methods *)

Module Logic.
Import Json Builder.

Section Program.
Context {F : PyFloat}.

(** [wp m w s Q]: running [m] in world [w] from state [s] ends in a
result, a state and a list of events that satisfy [Q]. *)
Definition wp {A} (m : M A) (w : world) (s : state)
(Q : result A -> state -> list event -> Prop) : Prop :=
match m w s with
| (r, s', t) => Q r s' t
end.

End Program.
End Logic.

(** ** What the methods do, stage by stage *)

Module Spec.
Import Json Builder.

Section Program.
Context {F : PyFloat}.

Definition with_config (s : state) (c : Config) : state :=
  {| config := Some c; temp_files := temp_files s; unread := unread s |}.

(** What the first half of [build] can do: set the log level, print
    the banner, report the environment overrides and prompt. *)
Definition is_setup (e : event) : Prop :=
  match e with
  | ELog LogSetLevelError | ELog LogSetLevelDebug
  | EPrint Banner | EPrint BuildMethodMenu
  | EStatus INFO (MsgFromEnvironment _ _)
  | EStatus HEADER MsgInteractiveMode
  | EInput _ => True
  | _ => False
  end.

(** The lines of [_print_config_summary]. *)
Definition is_config_line (e : event) : Prop :=
  match e with
  | EStatus HEADER MsgConfigSummary | EPrint (ConfigItem _ _) => True
  | _ => False
  end.

(** What [build] does before it calls [_load_config]. *)
Definition opening (args : Namespace) : list event :=
  (if args_quiet args then [ELog LogSetLevelError]
   else if args_verbose args then [ELog LogSetLevelDebug]
   else [])
  ++ (if args_quiet args then [] else [EPrint Banner]).

(** What [_interactive_config] does at the console. *)
Definition is_prompt (e : event) : Prop :=
  match e with
  | EStatus HEADER MsgInteractiveMode | EPrint BuildMethodMenu | EInput _ => True
  | _ => False
  end.

(** The mode flags, which nothing changes after [_load_config]. *)
Definition same_flags (c c' : Config) : Prop :=
  interactive c' = interactive c /\ dry_run c' = dry_run c
  /\ verbose c' = verbose c /\ quiet c' = quiet c
  /\ apps_json_base64 c' = apps_json_base64 c.

(** *** [_load_config] *)

(** The configuration after the loop over [env_mappings]. *)
Fixpoint env_override (env : gmap (list Z) (list Z))
    (mappings : list (pystr * config_key)) (c : Config) : Config :=
  match mappings with
  | [] => c
  | (env_var, key) :: rest =>
      env_override env rest
        (match env !! env_var with
         | Some v => config_set key v c
         | None => c
         end)
  end.

Definition loaded_config (w : world) : Config :=
  env_override (environ w) env_mappings (config_of_args (argv w)).

(** The lines the loop prints, one for each variable that is set. *)
Fixpoint env_lines (env : gmap (list Z) (list Z))
    (mappings : list (pystr * config_key)) : list event :=
  match mappings with
  | [] => []
  | (env_var, key) :: rest =>
      match env !! env_var with
      | Some v => EStatus INFO (MsgFromEnvironment key v) :: env_lines env rest
      | None => env_lines env rest
      end
  end.

(** *** [_interactive_config] *)

(** How a session at the prompts ends. *)
Definition interactive_end (r : result unit) : Prop :=
  r = Return tt \/ r = Raise KeyboardInterrupt \/ r = Raise (Exception EOFError).

(** *** [_validate_prerequisites] *)

Definition checking : event := EStatus INFO MsgValidating.

(** All four checks pass. *)
Inductive prerequisites_pass (w : world) : list event -> Prop :=
| pass_all out1 out2 :
    run w docker_version_cmd = Completed 0 out1 ->
    run w docker_info_cmd = Completed 0 out2 ->
    path_exists w (py "images/layered/Containerfile") = true ->
    path_exists w (py "images/custom/Containerfile") = true ->
    prerequisites_pass w
      [checking; ERun docker_version_cmd;
       EStatus SUCCESS (MsgDockerVersion (Py.strip out1));
       ERun docker_info_cmd;
       EExists (py "images/layered/Containerfile");
       EExists (py "images/custom/Containerfile");
       EStatus SUCCESS MsgPrerequisitesOk].

(** A check fails and the method returns [False]. *)
Inductive prerequisites_fail (w : world) : list event -> Prop :=
| fail_version_code rc out :
    run w docker_version_cmd = Completed rc out -> rc <> 0 ->
    prerequisites_fail w
      [checking; ERun docker_version_cmd; EStatus ERROR MsgDockerNotAccessible]
| fail_version_missing :
    run w docker_version_cmd = RunNotFound ->
    prerequisites_fail w
      [checking; ERun docker_version_cmd; EStatus ERROR MsgDockerNotFound]
| fail_info_code out1 rc out :
    run w docker_version_cmd = Completed 0 out1 ->
    run w docker_info_cmd = Completed rc out -> rc <> 0 ->
    prerequisites_fail w
      [checking; ERun docker_version_cmd;
       EStatus SUCCESS (MsgDockerVersion (Py.strip out1));
       ERun docker_info_cmd; EStatus ERROR MsgDaemonNotRunning]
| fail_info_error out1 x :
    run w docker_version_cmd = Completed 0 out1 ->
    (run w docker_info_cmd = RunNotFound /\ x = FileNotFoundError
     \/ run w docker_info_cmd = RunError /\ x = OSError) ->
    prerequisites_fail w
      [checking; ERun docker_version_cmd;
       EStatus SUCCESS (MsgDockerVersion (Py.strip out1));
       ERun docker_info_cmd; EStatus ERROR (MsgDaemonCheckFailed x)]
| fail_layered_file out1 out2 :
    run w docker_version_cmd = Completed 0 out1 ->
    run w docker_info_cmd = Completed 0 out2 ->
    path_exists w (py "images/layered/Containerfile") = false ->
    prerequisites_fail w
      [checking; ERun docker_version_cmd;
       EStatus SUCCESS (MsgDockerVersion (Py.strip out1));
       ERun docker_info_cmd;
       EExists (py "images/layered/Containerfile");
       EStatus ERROR (MsgRequiredFileMissing (py "images/layered/Containerfile"))]
| fail_custom_file out1 out2 :
    run w docker_version_cmd = Completed 0 out1 ->
    run w docker_info_cmd = Completed 0 out2 ->
    path_exists w (py "images/layered/Containerfile") = true ->
    path_exists w (py "images/custom/Containerfile") = false ->
    prerequisites_fail w
      [checking; ERun docker_version_cmd;
       EStatus SUCCESS (MsgDockerVersion (Py.strip out1));
       ERun docker_info_cmd;
       EExists (py "images/layered/Containerfile");
       EExists (py "images/custom/Containerfile");
       EStatus ERROR (MsgRequiredFileMissing (py "images/custom/Containerfile"))].

(** An exception leaves the method. *)
Inductive prerequisites_abort (w : world) : raised -> list event -> Prop :=
| abort_version_interrupted :
    run w docker_version_cmd = RunInterrupted ->
    prerequisites_abort w KeyboardInterrupt [checking; ERun docker_version_cmd]
| abort_version_error :
    run w docker_version_cmd = RunError ->
    prerequisites_abort w (Exception OSError) [checking; ERun docker_version_cmd]
| abort_info_interrupted out1 :
    run w docker_version_cmd = Completed 0 out1 ->
    run w docker_info_cmd = RunInterrupted ->
    prerequisites_abort w KeyboardInterrupt
      [checking; ERun docker_version_cmd;
       EStatus SUCCESS (MsgDockerVersion (Py.strip out1));
       ERun docker_info_cmd].

(** *** [_load_apps_config] *)

(** What the validation loop asks of an element. *)
Definition valid_app (app : json) : Prop :=
  exists d, app = JObj d
            /\ dict_has (py "url") d = true /\ dict_has (py "branch") d = true.

(** The file at [path] holds the list [apps], which passes the
    validation. *)
Definition accepted_apps (w : world) (path : pystr) (apps : list json) : Prop :=
  exists content text,
    read_file w path = FileBytes content
    /\ Utf8.decode content = Some text
    /\ loads text = Some (JArr apps)
    /\ Forall valid_app apps.

(** The file at [path] is missing, is not JSON, is not an array, or
    has an element that is not an object with [url] and [branch]. *)
Inductive rejected_apps (w : world) (path : pystr) : Prop :=
| rejected_missing :
    read_file w path = NoSuchFile -> rejected_apps w path
| rejected_not_text content :
    read_file w path = FileBytes content -> Utf8.decode content = None ->
    rejected_apps w path
| rejected_not_json content text :
    read_file w path = FileBytes content -> Utf8.decode content = Some text ->
    loads text = None -> rejected_apps w path
| rejected_not_array content text v :
    read_file w path = FileBytes content -> Utf8.decode content = Some text ->
    loads text = Some v -> (forall apps, v <> JArr apps) -> rejected_apps w path
| rejected_element content text apps :
    read_file w path = FileBytes content -> Utf8.decode content = Some text ->
    loads text = Some (JArr apps) -> ~ Forall valid_app apps ->
    rejected_apps w path.

(** The lines that list the loaded apps. *)
Fixpoint app_lines (i : nat) (apps : list json) : list event :=
  match apps with
  | JObj d :: rest =>
      match dict_get (py "url") d, dict_get (py "branch") d with
      | Some url, Some branch =>
          EStatus INFO (MsgApp i url branch) :: app_lines (S i) rest
      | _, _ => []
      end
  | _ => []
  end.

Definition loading (path : pystr) : list event :=
  [EStatus INFO (MsgLoadingApps path); EOpen path].

(** *** [_build_docker_command] *)

Definition build_arg (key value : pystr) : list pystr :=
  [py "--build-arg"; key ++ py "=" ++ value].

(** The command composed for a configuration whose
    [apps_json_base64] is [b64]. *)
Definition docker_command (c : Config) (b64 : pystr) : list pystr :=
  [py "docker"; py "build"]
  ++ build_arg (py "FRAPPE_PATH") (frappe_path c)
  ++ build_arg (py "FRAPPE_BRANCH") (frappe_branch c)
  ++ build_arg (py "APPS_JSON_BASE64") b64
  ++ match build_method c with
     | Custom =>
         build_arg (py "PYTHON_VERSION") (python_version c)
         ++ build_arg (py "NODE_VERSION") (node_version c)
         ++ build_arg (py "DEBIAN_BASE") (debian_base c)
         ++ build_arg (py "WKHTMLTOPDF_VERSION") (wkhtmltopdf_version c)
         ++ build_arg (py "WKHTMLTOPDF_DISTRO") (wkhtmltopdf_distro c)
     | Layered => []
     end
  ++ [py "--tag"; tag c; py "--file";
      py "images/" ++ method_name (build_method c) ++ py "/Containerfile";
      py "."].

(** *** [_execute_build] *)

Definition build_lines (lines : list pystr) : list event :=
  map (fun line => EPrint (BuildOutput (Py.rstrip line))) lines.

Definition dry_run_line (cmd : list pystr) : event :=
  EStatus INFO (MsgDryRunCommand (Py.join (py " ") cmd)).

Definition starting (cmd : list pystr) : list event :=
  [EStatus INFO MsgStartingBuild;
   EStatus INFO (MsgCommand (Py.join (py " ") cmd));
   EPopen cmd].

(** What [_execute_build] returns and does, for a configuration
    [c] and a command [cmd]. *)
Inductive executed (w : world) (c : Config) (cmd : list pystr)
  : bool -> list event -> Prop :=
| executed_dry_run :
    dry_run c = true ->
    executed w c cmd true [EStatus WARNING MsgDryRun; dry_run_line cmd]
| executed_success lines :
    dry_run c = false -> popen w cmd = BuildExited lines 0 ->
    executed w c cmd true
      (starting cmd ++ build_lines lines ++ [EStatus SUCCESS MsgBuildSucceeded])
| executed_failure lines rc :
    dry_run c = false -> popen w cmd = BuildExited lines rc -> rc <> 0 ->
    executed w c cmd false
      (starting cmd ++ build_lines lines ++ [EStatus ERROR (MsgBuildFailed rc)])
| executed_spawn_error :
    dry_run c = false -> popen w cmd = BuildSpawnError ->
    executed w c cmd false
      (starting cmd ++ [EStatus ERROR (MsgBuildError OSError)])
| executed_interrupted lines :
    dry_run c = false -> popen w cmd = BuildInterrupted lines ->
    executed w c cmd false
      (starting cmd ++ build_lines lines ++ [EStatus WARNING MsgInterrupted]).

(** *** [_print_build_summary] *)

Definition failure_summary : list event :=
  [EStatus ERROR MsgBuildFailedSummary; EPrint (SummaryStatus false);
   EPrint SummaryDuration; EPrint SummaryLogHint].

Definition success_summary (c : Config) : list event :=
  [EStatus SUCCESS MsgBuildSummary; EPrint (SummaryStatus true);
   EPrint SummaryDuration; EPrint (SummaryTag (tag c));
   EPrint (SummaryMethod (build_method c)); EPrint NextSteps;
   EPrint (NextTest (tag c)); EPrint (NextPush (tag c))].

End Program.
End Spec.

Module Spec2.
Import Json Builder Spec.

Section Program.
Context {F : PyFloat}.

(** *** The runs of the program *)

(** What the [except] clauses of [build] print for an exception. *)
Definition handler_events (e : raised) : list event :=
  match e with
  | KeyboardInterrupt => [EStatus WARNING MsgInterrupted]
  | Exception x => [EStatus ERROR (MsgUnexpectedError x); ELog LogException]
  | SystemExit _ => []
  end.

(** The exit status after the [except] clauses. *)
Definition handled_status (e : raised) : Z :=
  match e with
  | SystemExit code => code
  | KeyboardInterrupt => 130
  | Exception _ => 1
  end.

(** A run whose [try] block did [body] and ended with [e]. *)
Definition ended (c : Config) (body : list event) (e : raised) : run_outcome :=
  {| status := handled_status e;
     final_config := Some c;
     events := body ++ handler_events e ++ [ECleanup] |}.

(** The first half of [build] ends with [r], having done [pre] and
    left the configuration [c]. *)
Definition configured (w : world) (r : result unit) (pre : list event) (c : Config)
  : Prop :=
  exists s, configure w (initial_state w) = (r, s, pre)
            /\ config s = Some c /\ temp_files s = [].

(** [json.dumps(apps_config, indent=2)], encoded. *)
Definition apps_payload (apps : list json) : pystr :=
  Base64.b64encode (dumps (JArr apps)).

Definition apps_loaded (path : pystr) (apps : list json) : list event :=
  [EStatus INFO (MsgLoadingApps path); EOpen path;
   EStatus SUCCESS (MsgAppsLoaded (length apps))] ++ app_lines 1 apps.

(** How a run ends once [_execute_build] has returned [success]:
    the events of the summary and what leaves the [try] block. *)
Inductive reported (c : Config) : bool -> list event -> raised -> Prop :=
| reported_quiet success :
    quiet c = true ->
    reported c success [] (SystemExit (if success then 0 else 1))
| reported_failure :
    quiet c = false ->
    reported c false failure_summary (SystemExit 1)
| reported_success image version :
    quiet c = false -> 58 ∈ tag c ->
    reported c true (success_summary c ++ [EPrint (NextCompose image version)])
      (SystemExit 0)
| reported_index_error :
    quiet c = false -> 58 ∉ tag c ->
    reported c true (success_summary c) (Exception IndexError).

Inductive run_of (w : world) : run_outcome -> Prop :=
| run_unconfigured pre c e :
    configured w (Raise e) pre c ->
    run_of w (ended c pre e)
| run_prerequisites_fail pre c checks :
    configured w (Return tt) pre c ->
    prerequisites_fail w checks ->
    run_of w (ended c (pre ++ checks) (SystemExit 1))
| run_prerequisites_abort pre c checks e :
    configured w (Return tt) pre c ->
    prerequisites_abort w e checks ->
    run_of w (ended c (pre ++ checks) e)
| run_apps_rejected pre c checks m :
    configured w (Return tt) pre c ->
    prerequisites_pass w checks ->
    rejected_apps w (apps_file c) ->
    run_of w
      (ended c (pre ++ checks ++ loading (apps_file c) ++ [EStatus ERROR m])
         (SystemExit 1))
| run_apps_abort pre c checks e :
    configured w (Return tt) pre c ->
    prerequisites_pass w checks ->
    (read_file w (apps_file c) = ReadInterrupted /\ e = KeyboardInterrupt
     \/ read_file w (apps_file c) = ReadError /\ e = Exception OSError) ->
    run_of w (ended c (pre ++ checks ++ loading (apps_file c)) e)
| run_executed pre c checks apps shown success did tail e :
    configured w (Return tt) pre c ->
    prerequisites_pass w checks ->
    accepted_apps w (apps_file c) apps ->
    let c' := set_apps_json_base64 (apps_payload apps) c in
    Forall is_config_line shown ->
    (quiet c = true -> shown = []) ->
    executed w c' (docker_command c' (apps_payload apps)) success did ->
    reported c' success tail e ->
    run_of w
      (ended c'
         (pre ++ checks ++ apps_loaded (apps_file c) apps ++ shown ++ did ++ tail)
         e).

(** The [try] block always ends with an exception, [SystemExit]
    included, and the run is one of [run_of]. *)
Definition try_block_post (w : world) (r : result unit) (s : state) (t : list event)
  : Prop :=
  exists e c, r = Raise e /\ config s = Some c /\ temp_files s = []
              /\ run_of w (ended c t e).

End Program.
End Spec2.
(** ** What is observed of a run *)

Module Observe.
Import Json Builder Spec Spec2.

Section Program.
Context {F : PyFloat}.

(** The command holds [--build-arg KEY=VALUE]. *)
Definition has_build_arg (cmd : list pystr) (key value : pystr) : Prop :=
  exists i : nat,
    cmd !! i = Some (py "--build-arg")
    /\ cmd !! S i = Some (key ++ py "=" ++ value).

(** The command holds a [--build-arg] that sets [key]. *)
Definition names_build_arg (cmd : list pystr) (key : pystr) : Prop :=
  exists value, has_build_arg cmd key value.

(** The build arguments [_get_build_args] adds for the custom
    method, with the configuration keys they are read from. *)
Definition custom_build_args (c : Config) : list (pystr * pystr) :=
  [(py "PYTHON_VERSION", python_version c);
   (py "NODE_VERSION", node_version c);
   (py "DEBIAN_BASE", debian_base c);
   (py "WKHTMLTOPDF_VERSION", wkhtmltopdf_version c);
   (py "WKHTMLTOPDF_DISTRO", wkhtmltopdf_distro c)].


(** A [subprocess.run] check did not pass: a return code other
    than zero, or no process at all. An interruption is not a
    failed check. *)
Definition run_failed (r : run_result) : Prop :=
  match r with
  | Completed rc _ => rc <> 0
  | RunNotFound | RunError => True
  | RunInterrupted => False
  end.

(** One of the checks made during the run [t] failed. *)
Definition check_failed (w : world) (t : list event) : Prop :=
  (In (ERun docker_version_cmd) t /\ run_failed (run w docker_version_cmd))
  \/ (In (ERun docker_info_cmd) t /\ run_failed (run w docker_info_cmd))
  \/ (exists f, In (EExists f) t /\ path_exists w f = false)
  \/ (exists p, In (EOpen p) t /\ rejected_apps w p).

(** All the checks were made during the run [t], and passed. *)
Definition checks_passed (w : world) (t : list event) : Prop :=
  (In (ERun docker_version_cmd) t
   /\ exists out, run w docker_version_cmd = Completed 0 out)
  /\ (In (ERun docker_info_cmd) t
      /\ exists out, run w docker_info_cmd = Completed 0 out)
  /\ (forall f, In f required_files -> In (EExists f) t /\ path_exists w f = true)
  /\ (exists p apps, In (EOpen p) t /\ accepted_apps w p apps).

(** The six answers of a session of [_interactive_config], applied
    to the configuration [c] in the order of the prompts. *)
Definition answered (a1 a2 a3 a4 a5 a6 : pystr) (c : Config) : Config :=
  let c := set_build_method
             (if bool_decide (Py.strip a1 = py "2") then Custom else Layered) c in
  let c := set_apps_file (or_default (Py.strip a2) (py "apps.json")) c in
  let c := set_tag (or_default (Py.strip a3) (py "frappe_custom:latest")) c in
  let c := set_frappe_branch (or_default (Py.strip a4) (py "version-15")) c in
  match build_method c with
  | Custom =>
      set_node_version (or_default (Py.strip a6) (py "20.19.2"))
        (set_python_version (or_default (Py.strip a5) (py "3.11.6")) c)
  | Layered => c
  end.

End Program.
End Observe.

(** ** The methods on any runtime *)

Module General.
Import Json Builder Spec Spec2 Observe.

Section Program.
Context {F : PyFloat} {R : Runtime}.

(** An action that the runtime lets through: a line that the
    standard output can encode, a path that can be searched. *)
Definition calm (e : event) : Prop :=
  match e with
  | EStatus _ m => stdout_writes (message_texts m) = true
  | EPrint p => stdout_writes (printed_texts p) = true
  | EExists path => unsearchable path = false
  | _ => True
  end.

(** *** [_load_config] *)

(** The standard output can write the value of every variable of
    [mappings] that is set. *)
Definition env_writable (env : gmap (list Z) (list Z))
    (mappings : list (pystr * config_key)) : Prop :=
  Forall calm (env_lines env mappings).

(** The loop over [env_mappings] stops at [var], whose value
    cannot be written. *)
Definition env_stops (env : gmap (list Z) (list Z))
    (before : list (pystr * config_key)) (var : pystr) (key : config_key)
    (v : pystr) : Prop :=
  (exists after, env_mappings = before ++ (var, key) :: after)
  /\ env_writable env before
  /\ env !! var = Some v
  /\ stdout_writes [v] = false.

(** The first half of [build] on the runtime [R]. *)
Definition set_up (w : world) (r : result unit) (pre : list event) (c : Config)
  : Prop :=
  exists s, configure w (initial_state w) = (r, s, pre)
            /\ config s = Some c /\ temp_files s = [].

(** *** [_validate_prerequisites] *)

Definition version_checked (out : pystr) : list event :=
  [checking; ERun docker_version_cmd;
   EStatus SUCCESS (MsgDockerVersion (Py.strip out)); ERun docker_info_cmd].

Inductive checked (w : world) : result bool -> list event -> Prop :=
| checked_pass t :
    prerequisites_pass w t -> Forall calm t -> checked w (Return true) t
| checked_fail t :
    prerequisites_fail w t -> Forall calm t -> checked w (Return false) t
| checked_abort e t :
    prerequisites_abort w e t -> Forall calm t -> checked w (Raise e) t
| checked_version_line out :
    run w docker_version_cmd = Completed 0 out ->
    stdout_writes [Py.strip out] = false ->
    checked w (Raise (Exception UnicodeEncodeError))
      [checking; ERun docker_version_cmd]
| checked_denied out1 out2 found f rest :
    run w docker_version_cmd = Completed 0 out1 ->
    stdout_writes [Py.strip out1] = true ->
    run w docker_info_cmd = Completed 0 out2 ->
    required_files = found ++ f :: rest ->
    Forall (fun g => unsearchable g = false /\ path_exists w g = true) found ->
    unsearchable f = true ->
    checked w (Raise (Exception PermissionError))
      (version_checked out1 ++ map EExists found ++ [EExists f]).

(** *** [_load_apps_config] *)

(** [json.load] meets no integer of too many digits in the file
    at [path]. *)
Definition within_digits (w : world) (path : pystr) : Prop :=
  forall content text,
    read_file w path = FileBytes content ->
    Utf8.decode content = Some text ->
    loads_stops int_max_str_digits text = false.

(** The file at [path] holds the list [apps], which the method
    returns on the runtime [R]. *)
Definition accepted_on (w : world) (path : pystr) (apps : list json) : Prop :=
  stdout_writes [path] = true
  /\ accepted_apps w path apps
  /\ within_digits w path
  /\ Forall calm (app_lines 1 apps).

(** The messages of the [except] clauses of the method. *)
Definition refusal (path : pystr) (m : message) : Prop :=
  m = MsgAppsFileNotFound path \/ m = MsgInvalidJson
  \/ exists x, m = MsgInvalidApps x.

(** The ways in which the method does not return. *)
Inductive apps_refused (w : world) (path : pystr)
  : raised -> list event -> Prop :=
| refused_path :
    stdout_writes [path] = false ->
    apps_refused w path (Exception UnicodeEncodeError) []
| refused_rejected m :
    stdout_writes [path] = true -> rejected_apps w path -> refusal path m ->
    apps_refused w path (SystemExit 1) (loading path ++ [EStatus ERROR m])
| refused_digits content text :
    stdout_writes [path] = true ->
    read_file w path = FileBytes content ->
    Utf8.decode content = Some text ->
    loads_stops int_max_str_digits text = true ->
    apps_refused w path (SystemExit 1)
      (loading path ++ [EStatus ERROR (MsgInvalidApps (ValueError TooManyDigits))])
| refused_line apps shown app rest :
    stdout_writes [path] = true ->
    accepted_apps w path apps -> within_digits w path ->
    apps = shown ++ app :: rest ->
    Forall calm (app_lines 1 shown) ->
    ~ Forall calm (app_lines (S (length shown)) [app]) ->
    apps_refused w path (SystemExit 1)
      (loading path
       ++ EStatus SUCCESS (MsgAppsLoaded (length apps)) :: app_lines 1 shown
       ++ [EStatus ERROR (MsgInvalidApps UnicodeEncodeError)])
| refused_interrupted :
    stdout_writes [path] = true -> read_file w path = ReadInterrupted ->
    apps_refused w path KeyboardInterrupt (loading path)
| refused_error :
    stdout_writes [path] = true -> read_file w path = ReadError ->
    apps_refused w path (Exception OSError) (loading path).

(** *** [_execute_build] *)

(** The lines read from the process before it ended or the user
    interrupted it. *)
Definition build_output (b : build_result) : option (list pystr) :=
  match b with
  | BuildExited lines _ | BuildInterrupted lines => Some lines
  | BuildSpawnError => None
  end.

Inductive executed_on (w : world) (c : Config) (cmd : list pystr)
  : result bool -> list event -> Prop :=
| on_executed success did :
    executed w c cmd success did -> Forall calm did ->
    executed_on w c cmd (Return success) did
| on_dry_command :
    dry_run c = true -> stdout_writes [Py.join (py " ") cmd] = false ->
    executed_on w c cmd (Raise (Exception UnicodeEncodeError))
      [EStatus WARNING MsgDryRun]
| on_command :
    dry_run c = false -> stdout_writes [Py.join (py " ") cmd] = false ->
    executed_on w c cmd (Raise (Exception UnicodeEncodeError))
      [EStatus INFO MsgStartingBuild]
| on_output lines shown line rest :
    dry_run c = false -> stdout_writes [Py.join (py " ") cmd] = true ->
    build_output (popen w cmd) = Some lines ->
    lines = shown ++ line :: rest ->
    Forall calm (build_lines shown) ->
    stdout_writes [Py.rstrip line] = false ->
    executed_on w c cmd (Return false)
      (starting cmd ++ build_lines shown
       ++ [EStatus ERROR (MsgBuildError UnicodeEncodeError)]).

(** *** [_print_build_summary] and the end of the [try] block *)

Inductive reported_on (c : Config) : bool -> list event -> raised -> Prop :=
| on_reported success tail e :
    reported c success tail e -> Forall calm tail ->
    reported_on c success tail e
| on_summary_stopped :
    quiet c = false -> stdout_writes [tag c] = false ->
    reported_on c true
      [EStatus SUCCESS MsgBuildSummary; EPrint (SummaryStatus true);
       EPrint SummaryDuration]
      (Exception UnicodeEncodeError).

(** *** The runs of the program *)

Definition parser_exit (code : Z) (p : printed) : run_outcome :=
  {| status := code; final_config := None; events := [EPrint p; ECleanup] |}.

Inductive run_on (w : world) : run_outcome -> Prop :=
| on_help :
    command_line = HelpRequested -> run_on w (parser_exit 0 HelpText)
| on_usage :
    command_line = UsageError -> run_on w (parser_exit 2 UsageText)
| on_unconfigured pre c e :
    set_up w (Raise e) pre c -> run_on w (ended c pre e)
| on_prerequisites_fail pre c checks :
    set_up w (Return tt) pre c ->
    checked w (Return false) checks ->
    run_on w (ended c (pre ++ checks) (SystemExit 1))
| on_prerequisites_abort pre c checks e :
    set_up w (Return tt) pre c ->
    checked w (Raise e) checks ->
    run_on w (ended c (pre ++ checks) e)
| on_apps_refused pre c checks loaded e :
    set_up w (Return tt) pre c ->
    checked w (Return true) checks ->
    apps_refused w (apps_file c) e loaded ->
    run_on w (ended c (pre ++ checks ++ loaded) e)
| on_config_summary_stopped pre c checks apps shown :
    set_up w (Return tt) pre c ->
    checked w (Return true) checks ->
    accepted_on w (apps_file c) apps ->
    quiet c = false -> Forall is_config_line shown ->
    run_on w
      (ended (set_apps_json_base64 (apps_payload apps) c)
         (pre ++ checks ++ apps_loaded (apps_file c) apps ++ shown)
         (Exception UnicodeEncodeError))
| on_command_stopped pre c checks apps shown did e :
    set_up w (Return tt) pre c ->
    checked w (Return true) checks ->
    accepted_on w (apps_file c) apps ->
    let c' := set_apps_json_base64 (apps_payload apps) c in
    Forall is_config_line shown ->
    (quiet c = true -> shown = []) ->
    executed_on w c' (docker_command c' (apps_payload apps)) (Raise e) did ->
    run_on w
      (ended c' (pre ++ checks ++ apps_loaded (apps_file c) apps ++ shown ++ did) e)
| on_built pre c checks apps shown success did tail e :
    set_up w (Return tt) pre c ->
    checked w (Return true) checks ->
    accepted_on w (apps_file c) apps ->
    let c' := set_apps_json_base64 (apps_payload apps) c in
    Forall is_config_line shown ->
    (quiet c = true -> shown = []) ->
    executed_on w c' (docker_command c' (apps_payload apps)) (Return success) did ->
    reported_on c' success tail e ->
    run_on w
      (ended c'
         (pre ++ checks ++ apps_loaded (apps_file c) apps ++ shown ++ did ++ tail)
         e).

(** The runs that the runtime stops: those that are not among
    [run_of]. *)
Inductive stopped (w : world) : run_outcome -> Prop :=
| stopped_help :
    command_line = HelpRequested -> stopped w (parser_exit 0 HelpText)
| stopped_usage :
    command_line = UsageError -> stopped w (parser_exit 2 UsageText)
| stopped_env before var key v :
    command_line = Parsed ->
    env_stops (environ w) before var key v ->
    stopped w
      (ended (config_set key v
                (env_override (environ w) before (config_of_args (argv w))))
         (opening (argv w) ++ env_lines (environ w) before)
         (Exception UnicodeEncodeError))
| stopped_version pre c out :
    configured w (Return tt) pre c ->
    run w docker_version_cmd = Completed 0 out ->
    stdout_writes [Py.strip out] = false ->
    stopped w
      (ended c (pre ++ [checking; ERun docker_version_cmd])
         (Exception UnicodeEncodeError))
| stopped_denied pre c out1 out2 found f rest :
    configured w (Return tt) pre c ->
    run w docker_version_cmd = Completed 0 out1 ->
    run w docker_info_cmd = Completed 0 out2 ->
    required_files = found ++ f :: rest ->
    Forall (fun g => unsearchable g = false /\ path_exists w g = true) found ->
    unsearchable f = true ->
    stopped w
      (ended c (pre ++ version_checked out1 ++ map EExists found ++ [EExists f])
         (Exception PermissionError))
| stopped_path pre c checks :
    configured w (Return tt) pre c ->
    prerequisites_pass w checks ->
    stdout_writes [apps_file c] = false ->
    stopped w (ended c (pre ++ checks) (Exception UnicodeEncodeError))
| stopped_digits pre c checks content text :
    configured w (Return tt) pre c ->
    prerequisites_pass w checks ->
    read_file w (apps_file c) = FileBytes content ->
    Utf8.decode content = Some text ->
    loads_stops int_max_str_digits text = true ->
    stopped w
      (ended c
         (pre ++ checks ++ loading (apps_file c)
          ++ [EStatus ERROR (MsgInvalidApps (ValueError TooManyDigits))])
         (SystemExit 1))
| stopped_line pre c checks apps shown app rest :
    configured w (Return tt) pre c ->
    prerequisites_pass w checks ->
    accepted_apps w (apps_file c) apps ->
    apps = shown ++ app :: rest ->
    ~ Forall calm (app_lines (S (length shown)) [app]) ->
    stopped w
      (ended c
         (pre ++ checks ++ loading (apps_file c)
          ++ EStatus SUCCESS (MsgAppsLoaded (length apps)) :: app_lines 1 shown
          ++ [EStatus ERROR (MsgInvalidApps UnicodeEncodeError)])
         (SystemExit 1))
| stopped_config_summary pre c checks apps shown :
    configured w (Return tt) pre c ->
    prerequisites_pass w checks ->
    accepted_apps w (apps_file c) apps ->
    quiet c = false -> Forall is_config_line shown ->
    stopped w
      (ended (set_apps_json_base64 (apps_payload apps) c)
         (pre ++ checks ++ apps_loaded (apps_file c) apps ++ shown)
         (Exception UnicodeEncodeError))
| stopped_command pre c checks apps shown :
    configured w (Return tt) pre c ->
    prerequisites_pass w checks ->
    accepted_apps w (apps_file c) apps ->
    let c' := set_apps_json_base64 (apps_payload apps) c in
    Forall is_config_line shown ->
    stdout_writes [Py.join (py " ") (docker_command c' (apps_payload apps))] = false ->
    stopped w
      (ended c'
         (pre ++ checks ++ apps_loaded (apps_file c) apps ++ shown
          ++ [if dry_run c' then EStatus WARNING MsgDryRun
              else EStatus INFO MsgStartingBuild])
         (Exception UnicodeEncodeError))
| stopped_output pre c checks apps shown lines printed line rest tail e :
    configured w (Return tt) pre c ->
    prerequisites_pass w checks ->
    accepted_apps w (apps_file c) apps ->
    let c' := set_apps_json_base64 (apps_payload apps) c in
    let cmd := docker_command c' (apps_payload apps) in
    Forall is_config_line shown ->
    dry_run c' = false ->
    build_output (popen w cmd) = Some lines ->
    lines = printed ++ line :: rest ->
    stdout_writes [Py.rstrip line] = false ->
    reported c' false tail e ->
    stopped w
      (ended c'
         (pre ++ checks ++ apps_loaded (apps_file c) apps ++ shown
          ++ (starting cmd ++ build_lines printed
              ++ [EStatus ERROR (MsgBuildError UnicodeEncodeError)])
          ++ tail)
         e).

(** What the second half of [build] can do, from the checks to
    the summary. *)
Definition proceeds (e : event) : Prop :=
  match e with
  | EStatus _ m =>
      match m with
      | MsgInteractiveMode | MsgFromEnvironment _ _ | MsgUnexpectedError _
      | MsgCleanedUp _ | MsgCleanupFailed _ => False
      | _ => True
      end
  | EPrint p =>
      match p with
      | Banner | BuildMethodMenu | HelpText | UsageText => False
      | _ => True
      end
  | ERun _ | EPopen _ | EExists _ | EOpen _ => True
  | ELog _ | EInput _ | ERemove _ | ECleanup => False
  end.

(** What leaves the [try] block of a run that parsed its command
    line. *)
Definition leaves (e : raised) : Prop :=
  match e with
  | SystemExit code => code = 0 \/ code = 1
  | KeyboardInterrupt => True
  | Exception x =>
      x = EOFError \/ x = OSError \/ x = PermissionError
      \/ x = UnicodeEncodeError \/ x = IndexError
  end.

(** The [try] block on the runtime [R]. *)
Definition try_block_on (w : world) (r : result unit) (s : state) (t : list event)
  : Prop :=
  exists e c, r = Raise e /\ config s = Some c /\ temp_files s = []
              /\ run_on w (ended c t e).

End Program.
End General.

(** ** Concrete worlds *)

Module Worlds.
Import Json Builder.

Section Program.
Context {F : PyFloat}.

Definition erpnext : json :=
  JObj [(py "url", JStr (py "https://github.com/frappe/erpnext"));
        (py "branch", JStr (py "version-15"))].

(** The command line with the given tag and build method, and the
    flags [--interactive], [--dry-run] and [--quiet]. *)
Definition args_with (t : pystr) (m : method) (i d q : bool) : Namespace := {|
  args_apps_file := py "apps.json";
  args_tag := t;
  args_build_method := m;
  args_frappe_path := py "https://github.com/frappe/frappe";
  args_frappe_branch := py "version-15";
  args_python_version := py "3.11.6";
  args_node_version := py "20.19.2";
  args_debian_base := py "bookworm";
  args_wkhtmltopdf_version := py "0.12.6.1-3";
  args_wkhtmltopdf_distro := py "bookworm";
  args_interactive := i;
  args_dry_run := d;
  args_verbose := false;
  args_quiet := q
|}.

(** A machine with docker and both build files, where [apps.json]
    reads as [file] and the build ends as [build]. *)
Definition machine (args : Namespace) (env : gmap (list Z) (list Z))
    (answers : list input_result) (file : read_result) (build : build_result)
  : world := {|
  argv := args;
  environ := env;
  stdin := answers;
  run := fun _ => Completed 0 (py "Docker version 24.0.7");
  path_exists := fun _ => true;
  read_file := fun path =>
    if bool_decide (path = py "apps.json") then file else NoSuchFile;
  remove_file := fun _ => true;
  popen := fun _ => build
|}.

(** The file [json.dump] writes for [apps]. *)
Definition apps_file_of (apps : list json) : read_result :=
  FileBytes (dumps (JArr apps)).

Definition plain_args : Namespace :=
  args_with (py "frappe_custom:latest") Layered false false false.

Definition built : build_result := BuildExited [py "Step 1/1"] 0.

(** A build that succeeds. *)
Definition plain : world :=
  machine plain_args ∅ [] (apps_file_of [erpnext]) built.

(** The user interrupts the build while its output is read. *)
Definition interrupted : world :=
  machine plain_args ∅ [] (apps_file_of [erpnext])
    (BuildInterrupted [py "Step 1/1"]).


(** [--dry-run --tag myimage] *)
Definition dry_no_colon : world :=
  machine (args_with (py "myimage") Layered false true false) ∅ []
    (apps_file_of [erpnext]) built.

(** [DOCKER_TAG=foo:bar] *)
Definition tagged_env : gmap (list Z) (list Z) :=
  {[ py "DOCKER_TAG" := py "foo:bar" ]}.

(** [DOCKER_TAG=foo:bar] and [--interactive], where the user
    answers [baz:qux] to the prompt for the tag. *)
Definition interactive_tag : world :=
  machine (args_with (py "frappe_custom:latest") Layered true false false) tagged_env
    [Line (py "1"); Line []; Line (py "baz:qux"); Line []; Line []; Line []]
    (apps_file_of [erpnext]) built.

(** [DOCKER_TAG=foo:bar] and [--tag baz:qux --interactive], where
    the user answers every prompt with the return key. *)
Definition interactive_flag : world :=
  machine (args_with (py "baz:qux") Layered true false false) tagged_env
    [Line []; Line []; Line []; Line []; Line []; Line []]
    (apps_file_of [erpnext]) built.

(** [DOCKER_TAG=foo:bar] and [--tag baz:qux] *)
Definition flag_and_env : world :=
  machine (args_with (py "baz:qux") Layered false false false) tagged_env []
    (apps_file_of [erpnext]) built.

(** The apps file holds a JSON object. *)
Definition object_file : world :=
  machine plain_args ∅ [] (FileBytes (py "{}")) built.

(** An app with an empty [url] and a number as [branch]. *)
Definition loose_app : json :=
  JObj [(py "url", JStr []); (py "branch", JInt 5)].

Definition loose : world :=
  machine (args_with (py "frappe_custom:latest") Layered false true false) ∅ []
    (apps_file_of [loose_app]) built.

(** A configuration as [build] leaves it before the command is
    composed, for the method [m]. *)
Definition ready (m : method) : state :=
  {| config :=
       Some (set_apps_json_base64 (py "W10=")
               (config_of_args (args_with (py "frappe_custom:latest") m false false false)));
     temp_files := [];
     unread := [] |}.

(** The world [w] with another answer to the docker commands. *)
Definition with_docker (docker : list pystr -> run_result) (w : world) : world := {|
  argv := argv w;
  environ := environ w;
  stdin := stdin w;
  run := docker;
  path_exists := path_exists w;
  read_file := read_file w;
  remove_file := remove_file w;
  popen := popen w
|}.

(** There is no docker executable. *)
Definition no_docker : world := with_docker (fun _ => RunNotFound) plain.

(** The docker executable cannot be started. *)
Definition broken_docker : world := with_docker (fun _ => RunError) plain.

(** The user interrupts [docker info]. *)
Definition interrupted_check : world :=
  with_docker (fun cmd =>
                 if bool_decide (cmd = docker_info_cmd) then RunInterrupted
                 else Completed 0 (py "Docker version 24.0.7"))
    plain.




(** A builder object with two temporary files, of which the world
    holds the first only and refuses to remove it. *)
Definition littered : state :=
  {| config := None; temp_files := [py "a.tmp"; py "b.tmp"]; unread := [] |}.

Definition sticky : world := {|
  argv := plain_args;
  environ := ∅;
  stdin := [];
  run := fun _ => RunNotFound;
  path_exists := fun path => bool_decide (path = py "a.tmp");
  read_file := fun _ => NoSuchFile;
  remove_file := fun _ => false;
  popen := fun _ => BuildSpawnError
|}.

(** The bytes of a JSON text with an escape, a character beyond
    ASCII, a negative number and an object in an array. *)
Definition sample_text : pybytes :=
  [91; 34; 195; 169; 92; 110; 34] ++ py ", -20, true, null, {"
  ++ [34; 107; 34] ++ py ": []}]".

(** The docker daemon does not answer. *)
Definition no_daemon (args : Namespace) : world := {|
  argv := args;
  environ := ∅;
  stdin := [];
  run := fun cmd =>
    if bool_decide (cmd = docker_info_cmd) then Completed 1 []
    else Completed 0 (py "Docker version 24.0.7");
  path_exists := fun _ => true;
  read_file := fun _ => apps_file_of [erpnext];
  remove_file := fun _ => true;
  popen := fun _ => built
|}.

(** [DOCKER_TAG=foo:bar] and [--interactive], where the user
    answers the four prompts of the layered method and closes
    the standard input. *)
Definition short_session : world :=
  machine (args_with (py "frappe_custom:latest") Layered true false false) tagged_env
    [Line (py "1"); Line []; Line (py "baz:qux"); Line []]
    (apps_file_of [erpnext]) built.

(** [FRAPPE_PATH=https://example.org/frappe] and
    [--interactive], where the user answers every prompt with
    the return key. *)
Definition interactive_path : world :=
  machine (args_with (py "frappe_custom:latest") Layered true false false)
    {[ py "FRAPPE_PATH" := py "https://example.org/frappe" ]}
    [Line []; Line []; Line []; Line []]
    (apps_file_of [erpnext]) built.

(** The apps file [[{"url": "\ud800", "branch": "b"}]], in a
    dry run. *)
Definition surrogate_url : world :=
  machine (args_with (py "frappe_custom:latest") Layered false true false) ∅ []
    (FileBytes ([91; 123; 34] ++ py "url" ++ [34; 58; 32; 34; 92] ++ py "ud800"
                ++ [34; 44; 32; 34] ++ py "branch" ++ [34; 58; 32; 34; 98; 34; 125; 93]))
    built.

(** The apps file [[{"url": 11...1, "branch": "b"}]], where the
    number has 4301 digits, in a dry run. *)
Definition long_integer : world :=
  machine (args_with (py "frappe_custom:latest") Layered false true false) ∅ []
    (FileBytes ([91; 123; 34] ++ py "url" ++ [34; 58; 32] ++ repeat 49 4301
                ++ [44; 32; 34] ++ py "branch" ++ [34; 58; 32; 34; 98; 34; 125; 93]))
    built.

End Program.

(** [--help] on CPython. *)
Definition asking_help : Runtime := {|
  command_line := HelpRequested;
  stdout_errors := Strict;
  unsearchable := fun _ => false;
  int_max_str_digits := 4300
|}.

End Worlds.

(** ** A model of the float interface

    Floats with integral values, written [z.0], and the three special
    values: enough to run the program on concrete files. *)

Module FloatModel.
Import Json.

Inductive model_float :=
| Finite (z : Z)
| NaN
| PosInf
| NegInf.

Definition model_class (f : model_float) : float_kind :=
  match f with
  | Finite _ => IsFinite
  | NaN => IsNaN
  | PosInf => IsInf
  | NegInf => IsNegInf
  end.

Definition model_repr (f : model_float) : pystr :=
  match f with
  | Finite z => repr_int z ++ py ".0"
  | NaN => py "nan"
  | PosInf => py "inf"
  | NegInf => py "-inf"
  end.

(** The literal is read up to its decimal point. *)
Definition model_of_literal (lit : pystr) : model_float :=
  match match_integer lit with
  | Some (i, _) => Finite (parse_int i)
  | None => NaN
  end.

End FloatModel.

(** * Theorems *)

(** ** Shifts and masks as arithmetic *)

Module Bits.

Lemma land_shiftl_small x y k :
  0 <= k -> 0 <= y < 2 ^ k -> Z.land (Z.shiftl x k) y = 0.
Proof.
  intros Hk Hy. apply Z.bits_inj'. intros n Hn.
  rewrite Z.land_spec, Z.bits_0.
  destruct (Z.lt_ge_cases n k) as [Hlt | Hge].
  - rewrite Z.shiftl_spec_low by lia. reflexivity.
  - rewrite <- (Z.mod_small y (2 ^ k)) by lia.
    rewrite Z.mod_pow2_bits_high by lia. apply andb_false_r.
Qed.

(** In each lemma [d] is the power of two that the shift or the mask
    stands for, given as a literal. *)
Lemma shiftr_div k d x : d = 2 ^ k -> 0 <= k -> Z.shiftr x k = x / d.
Proof. intros -> Hk. now apply Z.shiftr_div_pow2. Qed.

Lemma shiftl_mul k d x : d = 2 ^ k -> 0 <= k -> Z.shiftl x k = x * d.
Proof. intros -> Hk. now apply Z.shiftl_mul_pow2. Qed.

Lemma land_mask k d x m : d = 2 ^ k -> 0 <= k -> m = d - 1 -> Z.land x m = x mod d.
Proof.
  intros -> Hk ->. rewrite <- Z.land_ones by assumption.
  f_equal. rewrite Z.ones_equiv. lia.
Qed.

(** Joining a shifted value with a smaller one is an addition. *)
Lemma lor_shiftl k d x y :
  d = 2 ^ k -> 0 <= k -> 0 <= y < d -> Z.lor (Z.shiftl x k) y = x * d + y.
Proof.
  intros -> Hk Hy.
  pose proof (Z.add_lor_land (Z.shiftl x k) y) as H.
  rewrite land_shiftl_small in H by assumption.
  rewrite <- Z.shiftl_mul_pow2 by assumption. lia.
Qed.

(** The same for a constant whose low bits are clear. *)
Lemma lor_const k d c y :
  d = 2 ^ k -> 0 <= k -> c mod d = 0 -> 0 <= y < d -> Z.lor c y = c + y.
Proof.
  intros Hd Hk Hc Hy.
  assert (c = Z.shiftl (c / d) k) as Hs.
  { rewrite (shiftl_mul k d) by assumption.
    pose proof (Z.div_mod c d). lia. }
  rewrite Hs at 1. rewrite (lor_shiftl k d) by assumption.
  pose proof (Z.div_mod c d). lia.
Qed.

End Bits.

Module Base64Facts.
Import Base64.

Ltac arith := Z.div_mod_to_equations; lia.

(** Any number in a small range is one of its members, each of which
    is then handled by computation. *)
Lemma below_64_cases (P : Z -> Prop) :
  Forall P (map Z.of_nat (seq 0 64)) -> forall i, 0 <= i < 64 -> P i.
Proof.
  intros H i Hi. rewrite Forall_forall in H. apply H.
  apply list_elem_of_In, in_map_iff. exists (Z.to_nat i). split; [lia |].
  apply in_seq. lia.
Qed.

Lemma index_of_char_of i : 0 <= i < 64 -> index_of (char_of i) = Some i.
Proof.
  revert i. apply below_64_cases. vm_compute.
  repeat (constructor; [reflexivity |]). constructor.
Qed.

Lemma char_of_not_pad i : 0 <= i < 64 -> (char_of i =? pad) = false.
Proof.
  revert i. apply below_64_cases. vm_compute.
  repeat (constructor; [reflexivity |]). constructor.
Qed.

Lemma char_of_ascii i : 0 <= i < 64 -> Py.is_ascii (char_of i).
Proof.
  intros Hi. unfold Py.is_ascii.
  enough ((0 <=? char_of i) && (char_of i <? 128) = true) by lia.
  revert i Hi. apply below_64_cases. vm_compute.
  repeat (constructor; [reflexivity |]). constructor.
Qed.

(** The four sextets of a group, as arithmetic on the octets. *)
Lemma sextet1 a : Z.shiftr a 2 = a / 4.
Proof. now apply (Bits.shiftr_div 2 4). Qed.

Lemma sextet2 a b :
  0 <= b < 256 ->
  Z.lor (Z.shiftl (Z.land a 3) 4) (Z.shiftr b 4) = a mod 4 * 16 + b / 16.
Proof.
  intros Hb. rewrite (Bits.shiftr_div 4 16) by easy.
  rewrite (Bits.lor_shiftl 4 16) by (easy || arith).
  now rewrite (Bits.land_mask 2 4 a 3).
Qed.

Lemma sextet2_tail a : Z.shiftl (Z.land a 3) 4 = a mod 4 * 16.
Proof. rewrite (Bits.shiftl_mul 4 16) by easy. now rewrite (Bits.land_mask 2 4 a 3). Qed.

Lemma sextet3 b c :
  0 <= c < 256 ->
  Z.lor (Z.shiftl (Z.land b 15) 2) (Z.shiftr c 6) = b mod 16 * 4 + c / 64.
Proof.
  intros Hc. rewrite (Bits.shiftr_div 6 64) by easy.
  rewrite (Bits.lor_shiftl 2 4) by (easy || arith).
  now rewrite (Bits.land_mask 4 16 b 15).
Qed.

Lemma sextet3_tail b : Z.shiftl (Z.land b 15) 2 = b mod 16 * 4.
Proof. rewrite (Bits.shiftl_mul 2 4) by easy. now rewrite (Bits.land_mask 4 16 b 15). Qed.

Lemma sextet4 c : Z.land c 63 = c mod 64.
Proof. now apply (Bits.land_mask 6 64). Qed.

(** The octets read back from the sextets. *)
Lemma octet1 i1 i2 :
  0 <= i2 < 64 ->
  octet (Z.lor (Z.shiftl i1 2) (Z.shiftr i2 4)) = (i1 * 4 + i2 / 16) mod 256.
Proof.
  intros H. unfold octet. rewrite (Bits.shiftr_div 4 16) by easy.
  rewrite (Bits.lor_shiftl 2 4) by (easy || arith).
  now apply (Bits.land_mask 8 256).
Qed.

Lemma octet2 i2 i3 :
  0 <= i3 < 64 ->
  octet (Z.lor (Z.shiftl i2 4) (Z.shiftr i3 2)) = (i2 * 16 + i3 / 4) mod 256.
Proof.
  intros H. unfold octet. rewrite (Bits.shiftr_div 2 4) by easy.
  rewrite (Bits.lor_shiftl 4 16) by (easy || arith).
  now apply (Bits.land_mask 8 256).
Qed.

Lemma octet3 i3 i4 :
  0 <= i4 < 64 ->
  octet (Z.lor (Z.shiftl i3 6) i4) = (i3 * 64 + i4) mod 256.
Proof.
  intros H. unfold octet.
  rewrite (Bits.lor_shiftl 6 64) by (easy || lia).
  now apply (Bits.land_mask 8 256).
Qed.

Lemma encode_three a b c r :
  b64encode (a :: b :: c :: r) =
    char_of (Z.shiftr a 2)
    :: char_of (Z.lor (Z.shiftl (Z.land a 3) 4) (Z.shiftr b 4))
    :: char_of (Z.lor (Z.shiftl (Z.land b 15) 2) (Z.shiftr c 6))
    :: char_of (Z.land c 63)
    :: b64encode r.
Proof. reflexivity. Qed.

Lemma decode_encode_three a b c r :
  Py.is_byte a -> Py.is_byte b -> Py.is_byte c ->
  b64decode (b64encode r) = Some r ->
  b64decode (b64encode (a :: b :: c :: r)) = Some (a :: b :: c :: r).
Proof.
  unfold Py.is_byte. intros Ha Hb Hc IH.
  rewrite encode_three, sextet1, sextet2, sextet3, sextet4 by assumption.
  cbn [b64decode].
  rewrite !index_of_char_of, !char_of_not_pad by arith.
  rewrite IH, octet1, octet2, octet3 by arith.
  do 4 f_equal; [ | f_equal | do 2 f_equal ]; arith.
Qed.

Lemma decode_encode_two a b :
  Py.is_byte a -> Py.is_byte b -> b64decode (b64encode [a; b]) = Some [a; b].
Proof.
  unfold Py.is_byte. intros Ha Hb.
  cbn [b64encode]. rewrite sextet1, sextet2, sextet3_tail by assumption.
  cbn [b64decode].
  rewrite !index_of_char_of, !char_of_not_pad by arith.
  rewrite octet1, octet2 by arith.
  rewrite Z.eqb_refl. cbn.
  do 2 f_equal; [ | f_equal ]; arith.
Qed.

Lemma decode_encode_one a :
  Py.is_byte a -> b64decode (b64encode [a]) = Some [a].
Proof.
  unfold Py.is_byte. intros Ha.
  cbn [b64encode]. rewrite sextet1, sextet2_tail.
  cbn [b64decode].
  rewrite !index_of_char_of by arith.
  rewrite octet1 by arith.
  rewrite Z.eqb_refl. cbn.
  do 2 f_equal. arith.
Qed.

(** Lists are taken apart three elements at a time. *)
Lemma list_ind3 {A} (P : list A -> Prop) :
  P [] -> (forall a, P [a]) -> (forall a b, P [a; b]) ->
  (forall a b c r, P r -> P (a :: b :: c :: r)) ->
  forall l, P l.
Proof.
  intros H0 H1 H2 H3.
  assert (forall l, P l /\ (forall a, P (a :: l)) /\ (forall a b, P (a :: b :: l)))
    as H.
  { induction l as [| x l (IH0 & IH1 & IH2)]; [now auto |].
    split; [apply IH1 |]. split; [intros a; apply IH2 |].
    intros a b. now apply H3. }
  intros l. apply H.
Qed.

(** Decoding undoes encoding. *)
Lemma b64decode_b64encode bs :
  Forall Py.is_byte bs -> b64decode (b64encode bs) = Some bs.
Proof.
  induction bs as [| a | a b | a b c r IH] using list_ind3; intros H.
  - reflexivity.
  - inversion_clear H. now apply decode_encode_one.
  - inversion_clear H as [| ? ? ? H1]. inversion_clear H1.
    now apply decode_encode_two.
  - inversion_clear H as [| ? ? ? H1]. inversion_clear H1 as [| ? ? ? H2].
    inversion_clear H2. apply decode_encode_three; auto.
Qed.

(** The encoded text is made of ASCII characters. *)
Lemma b64encode_ascii bs :
  Forall Py.is_byte bs -> Forall Py.is_ascii (b64encode bs).
Proof.
  assert (Py.is_ascii pad) as Hpad by (unfold Py.is_ascii, pad; lia).
  unfold Py.is_byte.
  induction bs as [| a | a b | a b c r IH] using list_ind3; intros H.
  - constructor.
  - inversion_clear H. cbn [b64encode]. rewrite sextet1, sextet2_tail.
    repeat (apply List.Forall_cons; [first [exact Hpad | apply char_of_ascii; arith] |]).
    apply List.Forall_nil.
  - inversion_clear H as [| ? ? ? H1]. inversion_clear H1.
    cbn [b64encode]. rewrite sextet1, sextet2, sextet3_tail by assumption.
    repeat (apply List.Forall_cons; [first [exact Hpad | apply char_of_ascii; arith] |]).
    apply List.Forall_nil.
  - inversion_clear H as [| ? ? ? H1]. inversion_clear H1 as [| ? ? ? H2].
    inversion_clear H2.
    rewrite encode_three, sextet1, sextet2, sextet3, sextet4 by assumption.
    repeat (apply List.Forall_cons; [apply char_of_ascii; arith |]). auto.
Qed.

End Base64Facts.

Module NumberFacts.
Import Json Shapes.

Lemma is_digit_spec c : is_digit c = true <-> 48 <= c <= 57.
Proof. unfold is_digit. lia. Qed.

(** The characters of a decimal number are digits. *)
Lemma uint_chars_digits d : Forall (fun c => is_digit c = true) (uint_chars d).
Proof. induction d; cbn; constructor; auto. Qed.

Lemma chars_uint_chars d : chars_uint (uint_chars d) = d.
Proof. induction d; cbn; unfold digit_cons; cbn; congruence. Qed.

Lemma span_digits_app ds rest :
  Forall (fun c => is_digit c = true) ds -> digits_end rest ->
  span_digits (ds ++ rest) = (ds, rest).
Proof.
  intros Hds Hrest. induction Hds as [| c ds Hc _ IH]; cbn [app span_digits].
  - destruct rest as [| c r]; [reflexivity |].
    cbn [digits_end] in Hrest. cbn [span_digits]. now rewrite Hrest.
  - now rewrite Hc, IH.
Qed.

(** [Pos.to_uint] writes no leading zero. *)
Lemma unorm_head d : unorm d = zero \/ match unorm d with D0 _ => False | Nil => False | _ => True end.
Proof. induction d; cbn; auto. Qed.

Lemma to_uint_normal p : unorm (Pos.to_uint p) = Pos.to_uint p.
Proof.
  rewrite <- DecimalPos.Unsigned.to_of, DecimalPos.Unsigned.of_to. reflexivity.
Qed.

Lemma to_uint_head p :
  exists c ds, uint_chars (Pos.to_uint p) = c :: ds
               /\ 49 <= c <= 57
               /\ Forall (fun c => is_digit c = true) ds.
Proof.
  pose proof (unorm_head (Pos.to_uint p)) as H.
  rewrite to_uint_normal in H.
  destruct H as [H | H]; [now apply DecimalPos.Unsigned.to_uint_nonzero in H |].
  destruct (Pos.to_uint p) as [| d | d | d | d | d | d | d | d | d | d];
    try contradiction; cbn;
    eexists _, _; (split; [reflexivity |]); (split; [lia |]);
    apply uint_chars_digits.
Qed.

(** The shapes of [int.__repr__]. *)
Lemma repr_int_shape z :
  exists sign body,
    repr_int z = sign ++ body
    /\ (sign = [] \/ sign = [45])
    /\ (body = [48] \/
        exists c ds, body = c :: ds /\ 49 <= c <= 57
                     /\ Forall (fun c => is_digit c = true) ds).
Proof.
  unfold repr_int. destruct z as [| p | p]; cbn.
  - exists [], [48]. auto.
  - exists [], (uint_chars (Pos.to_uint p)). split; [reflexivity |].
    split; [now left |]. right. apply to_uint_head.
  - exists [45], (uint_chars (Pos.to_uint p)). split; [reflexivity |].
    split; [now right |]. right. apply to_uint_head.
Qed.

Lemma number_ends_digits rest : number_ends rest -> digits_end rest.
Proof. destruct rest; cbn; tauto. Qed.

Lemma match_frac_none rest : number_ends rest -> match_frac rest = ([], rest).
Proof.
  destruct rest as [| c r]; [reflexivity |]. cbn. intros (_ & H & _).
  now destruct (Z.eqb_spec c 46).
Qed.

Lemma match_exp_none rest : number_ends rest -> match_exp rest = ([], rest).
Proof.
  destruct rest as [| c r]; [reflexivity |]. cbn. intros (_ & _ & H1 & H2).
  destruct (Z.eqb_spec c 101), (Z.eqb_spec c 69); cbn; congruence.
Qed.

Lemma match_integer_repr z rest :
  digits_end rest -> match_integer (repr_int z ++ rest) = Some (repr_int z, rest).
Proof.
  intros Hrest.
  destruct (repr_int_shape z) as (sign & body & -> & Hsign & Hbody).
  assert (match_integer (body ++ rest) = Some (body, rest)) as Hb.
  { destruct Hbody as [-> | (c & ds & -> & Hc & Hds)]; [reflexivity |].
    unfold match_integer. cbn [app].
    destruct (Z.eqb_spec c 45); [lia |].
    destruct (Z.eqb_spec c 48); [lia |].
    assert (is_digit c = true) as -> by (apply is_digit_spec; lia).
    now rewrite span_digits_app. }
  destruct Hsign as [-> | ->]; [exact Hb |].
  unfold match_integer in *. cbn [app Z.eqb Pos.eqb].
  destruct Hbody as [-> | (c & ds & -> & Hc & Hds)]; [reflexivity |].
  cbn [app] in *.
  destruct (Z.eqb_spec c 45); [lia |].
  destruct (Z.eqb_spec c 48); [lia |].
  assert (is_digit c = true) as Hd by (apply is_digit_spec; lia).
  rewrite Hd in *. now rewrite span_digits_app.
Qed.

(** [NUMBER_RE] matches the whole of a printed integer, as an integer. *)
Lemma match_number_repr z rest :
  number_ends rest ->
  match_number (repr_int z ++ rest) = Some (repr_int z, [], [], rest).
Proof.
  intros H. unfold match_number.
  rewrite match_integer_repr by now apply number_ends_digits.
  now rewrite match_frac_none, match_exp_none.
Qed.

(** [int] reads a printed integer back. *)
Lemma parse_int_repr z : parse_int (repr_int z) = z.
Proof.
  rewrite <- (DecimalZ.of_to z) at 2.
  unfold repr_int, parse_int.
  destruct (Z.to_int z) as [d | d] eqn:E.
  - destruct (uint_chars d) as [| c r] eqn:Ed.
    + destruct d; try discriminate. 
      destruct z; cbn in E; try discriminate.
      injection E as E. now apply DecimalPos.Unsigned.to_uint_nonnil in E.
    + assert (is_digit c = true) as Hc.
      { pose proof (uint_chars_digits d) as H. rewrite Ed in H. now inversion H. }
      apply is_digit_spec in Hc. destruct (Z.eqb_spec c 45); [lia |].
      now rewrite <- Ed, chars_uint_chars.
  - cbn. now rewrite chars_uint_chars.
Qed.

(** What an integer match looks like. *)
Lemma match_integer_head s i r :
  match_integer s = Some (i, r) ->
  exists c t, s = c :: t /\ (c = 45 \/ is_digit c = true) /\ i <> [].
Proof.
  unfold match_integer. destruct s as [| c t]; [discriminate |].
  intros H. exists c, t. split; [reflexivity |].
  destruct (Z.eqb_spec c 45) as [-> | Hc].
  - split; [now left |]. destruct t as [| c' t']; [discriminate |].
    destruct (c' =? 48); [now inversion H |].
    destruct (is_digit c'); [| discriminate].
    destruct (span_digits t'). now inversion H.
  - destruct (Z.eqb_spec c 48) as [-> | Hc0]; [split; [now right | now inversion H] |].
    destruct (is_digit c) eqn:Hd; [| discriminate].
    split; [now right |]. destruct (span_digits t). now inversion H.
Qed.

End NumberFacts.

Module StringFacts.
Import Json Shapes.

Ltac arith := Z.div_mod_to_equations; lia.

Lemma below_16_cases (P : Z -> Prop) :
  Forall P (map Z.of_nat (seq 0 16)) -> forall i, 0 <= i < 16 -> P i.
Proof.
  intros H i Hi. rewrite Forall_forall in H. apply H.
  apply list_elem_of_In, in_map_iff. exists (Z.to_nat i). split; [lia |].
  apply in_seq. lia.
Qed.

Lemma hex_val_hex_char d : 0 <= d < 16 -> hex_val (hex_char d) = Some d.
Proof.
  revert d. apply below_16_cases. vm_compute.
  repeat (constructor; [reflexivity |]). constructor.
Qed.

Lemma hex_char_range d :
  0 <= d < 16 -> 48 <= hex_char d <= 57 \/ 97 <= hex_char d <= 102.
Proof. unfold hex_char. intros H. destruct (d <? 10) eqn:E; lia. Qed.

Lemma nibble n k d : d = 2 ^ k -> 0 <= k ->
  Z.land (Z.shiftr n k) 15 = n / d mod 16.
Proof.
  intros Hd Hk. rewrite (Bits.shiftr_div k d) by assumption.
  now apply (Bits.land_mask 4 16).
Qed.

Lemma hex4_eq n :
  hex4 n = [hex_char (n / 4096 mod 16); hex_char (n / 256 mod 16);
            hex_char (n / 16 mod 16); hex_char (n mod 16)].
Proof.
  unfold hex4.
  rewrite (nibble n 12 4096), (nibble n 8 256), (nibble n 4 16) by easy.
  now rewrite (Bits.land_mask 4 16 n 15).
Qed.

Lemma decode_hex4_eq x y z w :
  0 <= x < 16 -> 0 <= y < 16 -> 0 <= z < 16 -> 0 <= w < 16 ->
  Z.lor (Z.shiftl (Z.lor (Z.shiftl (Z.lor (Z.shiftl x 4) y) 4) z) 4) w
  = ((x * 16 + y) * 16 + z) * 16 + w.
Proof.
  intros. now rewrite !(Bits.lor_shiftl 4 16) by easy.
Qed.

(** Four hexadecimal digits are read back as the number printed. *)
Lemma decode_hex4_hex4 n :
  0 <= n < 65536 ->
  exists h1 h2 h3 h4,
    hex4 n = [h1; h2; h3; h4] /\ decode_hex4 h1 h2 h3 h4 = Some n.
Proof.
  intros Hn. rewrite hex4_eq. eexists _, _, _, _. split; [reflexivity |].
  unfold decode_hex4. rewrite !hex_val_hex_char by arith.
  rewrite decode_hex4_eq by arith. f_equal. arith.
Qed.

Lemma decode_hex4_range h1 h2 h3 h4 n :
  decode_hex4 h1 h2 h3 h4 = Some n -> 0 <= n < 65536.
Proof.
  unfold decode_hex4.
  assert (forall c d, hex_val c = Some d -> 0 <= d < 16) as Hv.
  { unfold hex_val. intros c d H.
    repeat match type of H with
           | (if ?b then _ else _) = _ => destruct b eqn:?
           end; inversion H; lia. }
  destruct (hex_val h1) as [x |] eqn:E1; [| discriminate].
  destruct (hex_val h2) as [y |] eqn:E2; [| discriminate].
  destruct (hex_val h3) as [z |] eqn:E3; [| discriminate].
  destruct (hex_val h4) as [w |] eqn:E4; [| discriminate].
  apply Hv in E1, E2, E3, E4. rewrite decode_hex4_eq by assumption.
  intros [= <-]. lia.
Qed.

(** *** The equations of [scanstring] *)

Lemma scanstring_quote r : scanstring (dquote :: r) = Some ([], r).
Proof. reflexivity. Qed.

Lemma scanstring_plain c r :
  c <> dquote -> c <> backslash -> 32 <= c ->
  scanstring (c :: r) = cons_result c (scanstring r).
Proof.
  intros H1 H2 H3. cbn [scanstring].
  destruct (Z.eqb_spec c dquote); [contradiction |].
  destruct (Z.eqb_spec c backslash); [contradiction |].
  destruct (Z.ltb_spec c 32); [lia |]. reflexivity.
Qed.

Lemma scanstring_letter e ch r :
  e <> 117 -> unescape e = Some ch ->
  scanstring (backslash :: e :: r) = cons_result ch (scanstring r).
Proof.
  intros H1 H2. cbn [scanstring]. cbn.
  destruct (Z.eqb_spec e 117); [contradiction |]. now rewrite H2.
Qed.

Lemma scanstring_u_single h1 h2 h3 h4 uni r :
  decode_hex4 h1 h2 h3 h4 = Some uni ->
  Py.is_high_surrogate uni = false \/ (complete_escape r /\ no_low_escape r) ->
  scanstring (backslash :: 117 :: h1 :: h2 :: h3 :: h4 :: r)
  = cons_result uni (scanstring r).
Proof.
  intros Hd H. cbn [scanstring]. cbn. rewrite Hd.
  destruct H as [-> | [Hc Hl]]; [reflexivity |].
  destruct (Py.is_high_surrogate uni); [| reflexivity].
  destruct r as [| b [| u r3]]; try reflexivity.
  destruct (Z.eqb_spec b backslash) as [-> | ?]; [| reflexivity].
  destruct (Z.eqb_spec u 117) as [-> | ?]; [| reflexivity].
  cbn [andb].
  destruct (Hc r3 eq_refl) as (k1 & k2 & k3 & k4 & r4 & ->).
  destruct (Hl _ _ _ _ _ eq_refl) as (lo & -> & ->). reflexivity.
Qed.

Lemma scanstring_u_pair h1 h2 h3 h4 hi k1 k2 k3 k4 lo r :
  decode_hex4 h1 h2 h3 h4 = Some hi -> Py.is_high_surrogate hi = true ->
  decode_hex4 k1 k2 k3 k4 = Some lo -> Py.is_low_surrogate lo = true ->
  scanstring (backslash :: 117 :: h1 :: h2 :: h3 :: h4
              :: backslash :: 117 :: k1 :: k2 :: k3 :: k4 :: r)
  = cons_result (join_surrogates hi lo) (scanstring r).
Proof.
  intros H1 H2 H3 H4. cbn [scanstring]. cbn. rewrite H1, H2. cbn.
  rewrite H3, H4. reflexivity.
Qed.

End StringFacts.

Module EscapeFacts.
Import Json StringFacts Shapes.

Lemma u_escape_shape n :
  0 <= n < 65536 ->
  exists h1 h2 h3 h4,
    u_escape n = [backslash; 117; h1; h2; h3; h4]
    /\ decode_hex4 h1 h2 h3 h4 = Some n.
Proof.
  intros Hn. destruct (decode_hex4_hex4 n Hn) as (h1 & h2 & h3 & h4 & E & D).
  exists h1, h2, h3, h4. unfold u_escape. now rewrite E.
Qed.

(** The two halves written for a character beyond U+FFFF. *)
Lemma surrogate_halves c :
  65536 <= c < 1114112 ->
  let n := c - 65536 in
  let hi := Z.lor 55296 (Z.land (Z.shiftr n 10) 1023) in
  let lo := Z.lor 56320 (Z.land n 1023) in
  55296 <= hi <= 56319 /\ 56320 <= lo <= 57343 /\ join_surrogates hi lo = c.
Proof.
  intros Hc n hi lo. subst hi lo.
  rewrite (Bits.shiftr_div 10 1024), !(Bits.land_mask 10 1024 _ 1023) by easy.
  rewrite !(Bits.lor_const 10 1024) by (easy || arith).
  unfold join_surrogates.
  rewrite (Bits.lor_shiftl 10 1024) by (easy || arith).
  subst n. repeat split; arith.
Qed.

Lemma escape_char_shape c : Py.is_code_point c -> escape_shape c (escape_char c).
Proof.
  unfold Py.is_code_point, escape_char. intros Hc.
  destruct (Z.eqb_spec c dquote) as [-> | ?]; [now apply shape_letter |].
  destruct (Z.eqb_spec c backslash) as [-> | ?]; [now apply shape_letter |].
  destruct ((32 <=? c) && (c <=? 126)) eqn:?; [apply shape_plain; (lia || assumption) |].
  destruct (Z.eqb_spec c 10) as [-> | ?]; [now apply shape_letter |].
  destruct (Z.eqb_spec c 13) as [-> | ?]; [now apply shape_letter |].
  destruct (Z.eqb_spec c 9) as [-> | ?]; [now apply shape_letter |].
  destruct (Z.eqb_spec c 8) as [-> | ?]; [now apply shape_letter |].
  destruct (Z.eqb_spec c 12) as [-> | ?]; [now apply shape_letter |].
  destruct (Z.ltb_spec c 65536).
  - destruct (u_escape_shape c) as (h1 & h2 & h3 & h4 & -> & D); [lia |].
    now apply shape_u.
  - destruct (surrogate_halves c) as (Hhi & Hlo & Hj); [lia |].
    destruct (u_escape_shape (Z.lor 55296 (Z.land (Z.shiftr (c - 65536) 10) 1023)))
      as (h1 & h2 & h3 & h4 & -> & D1); [lia |].
    destruct (u_escape_shape (Z.lor 56320 (Z.land (c - 65536) 1023)))
      as (k1 & k2 & k3 & k4 & -> & D2); [lia |].
    eapply shape_pair; eauto; unfold Py.is_high_surrogate, Py.is_low_surrogate; lia.
Qed.

(** After the escape of a high surrogate that stands alone, the text
    does not go on with the escape of a low one. *)
Lemma follow_ok s rest :
  Forall Py.is_code_point s ->
  match s with c :: _ => Py.is_low_surrogate c = false | [] => True end ->
  let text := escape_body s ++ dquote :: rest in
  complete_escape text /\ no_low_escape text.
Proof.
  intros Hs Hhead text. subst text. unfold complete_escape, no_low_escape.
  destruct s as [| c s]; [split; intros; discriminate |].
  inversion_clear Hs as [| ? ? Hc _].
  unfold escape_body. cbn [map concat].
  destruct (escape_char_shape c Hc)
    as [? ? ? | e ? ? | h1 h2 h3 h4 D | h1 h2 h3 h4 hi k1 k2 k3 k4 lo D1 Hhi D2 Hlo J];
    cbn [app]; split; intros; simplify_eq; try (do 5 eexists; reflexivity);
    (eexists; split; [eassumption |]); try assumption.
  unfold Py.is_high_surrogate, Py.is_low_surrogate in *. lia.
Qed.

Lemma str_ok_cons c s :
  str_ok (c :: s) ->
  Py.is_code_point c /\ str_ok s
  /\ (Py.is_high_surrogate c = true ->
      match s with c' :: _ => Py.is_low_surrogate c' = false | [] => True end).
Proof.
  intros [Hc Hp]. inversion_clear Hc as [| ? ? Hc0 Hcs].
  cbn [no_split_pair] in Hp. destruct Hp as [Hh Hp].
  split; [exact Hc0 |]. split; [now split |].
  intros Hhi. destruct s; [exact I |]. rewrite Hhi in Hh. exact Hh.
Qed.

(** Reading a written string gives the string back. *)
Lemma scanstring_escape_body s rest :
  str_ok s -> scanstring (escape_body s ++ dquote :: rest) = Some (s, rest).
Proof.
  induction s as [| c s IH]; intros Hs; [reflexivity |].
  apply str_ok_cons in Hs. destruct Hs as (Hc & Hs & Hpair).
  specialize (IH Hs).
  unfold escape_body in *. cbn [map concat]. rewrite <- app_assoc.
  destruct (escape_char_shape c Hc)
    as [? ? ? | e ? ? | h1 h2 h3 h4 D | h1 h2 h3 h4 hi k1 k2 k3 k4 lo D1 Hhi D2 Hlo J];
    cbn [app].
  - rewrite scanstring_plain by (assumption || lia). now rewrite IH.
  - rewrite (scanstring_letter e c) by assumption. now rewrite IH.
  - rewrite (scanstring_u_single _ _ _ _ c); [now rewrite IH | exact D |].
    destruct (Py.is_high_surrogate c) eqn:E; [right | now left].
    apply (follow_ok s rest); [apply Hs | now apply Hpair].
  - rewrite (scanstring_u_pair _ _ _ _ hi _ _ _ _ lo) by assumption.
    rewrite IH. cbn. now rewrite J.
Qed.

(** The characters written are ASCII. *)
Lemma escape_shape_ascii c t : escape_shape c t -> Forall Py.is_ascii t.
Proof.
  assert (forall h d, hex_val h = Some d -> Py.is_ascii h) as Hh.
  { unfold hex_val, Py.is_ascii. intros h d H.
    repeat match type of H with
           | (if ?b then _ else _) = _ => destruct b eqn:?
           end; inversion H; lia. }
  assert (forall h1 h2 h3 h4 n, decode_hex4 h1 h2 h3 h4 = Some n ->
            Py.is_ascii h1 /\ Py.is_ascii h2 /\ Py.is_ascii h3 /\ Py.is_ascii h4) as H4.
  { unfold decode_hex4. intros h1 h2 h3 h4 n H.
    destruct (hex_val h1) eqn:E1; [| discriminate].
    destruct (hex_val h2) eqn:E2; [| discriminate].
    destruct (hex_val h3) eqn:E3; [| discriminate].
    destruct (hex_val h4) eqn:E4; [| discriminate]. eauto 10. }
  assert (Py.is_ascii backslash /\ Py.is_ascii 117) as [Hb Hu]
      by (unfold Py.is_ascii, backslash; lia).
  destruct 1 as [? ? ? | e ? U | h1 h2 h3 h4 D | h1 h2 h3 h4 hi k1 k2 k3 k4 lo D1 _ D2 _ _].
  - repeat apply List.Forall_cons; try apply List.Forall_nil. unfold Py.is_ascii. lia.
  - repeat apply List.Forall_cons; try apply List.Forall_nil; try assumption.
    unfold unescape, Py.is_ascii in *.
    repeat match type of U with
           | (if ?b then _ else _) = _ => destruct b eqn:?
           end; try discriminate; unfold dquote, backslash in *; lia.
  - destruct (H4 _ _ _ _ _ D) as (? & ? & ? & ?).
    repeat apply List.Forall_cons; try apply List.Forall_nil; assumption.
  - destruct (H4 _ _ _ _ _ D1) as (? & ? & ? & ?).
    destruct (H4 _ _ _ _ _ D2) as (? & ? & ? & ?).
    repeat apply List.Forall_cons; try apply List.Forall_nil; assumption.
Qed.

End EscapeFacts.

(** Replaces the string literals of the goal by their code points. *)
Ltac eval_py :=
  repeat match goal with
         | |- context [Py.str ?s] =>
             let v := eval vm_compute in (Py.str s) in
             change (Py.str s) with v
         end.

Module LexFacts.
Import Json NumberFacts StringFacts EscapeFacts Shapes.

(** *** What the number pattern consumes *)

Lemma span_digits_spec s ds r :
  span_digits s = (ds, r) ->
  s = ds ++ r /\ Forall (fun c => is_digit c = true) ds /\ digits_end r.
Proof.
  revert ds r. induction s as [| c s IH]; intros ds r H; cbn [span_digits] in H.
  - inversion H. repeat split; constructor.
  - destruct (is_digit c) eqn:Hc.
    + destruct (span_digits s) as [ds' r'] eqn:E. inversion H; subst.
      destruct (IH _ _ eq_refl) as (-> & Hds & Hr).
      repeat split; [constructor; assumption | assumption].
    + inversion H; subst. repeat split; [constructor | exact Hc].
Qed.

Lemma number_char_ascii c : number_char c -> Py.is_ascii c.
Proof. unfold number_char, Py.is_ascii, is_digit. lia. Qed.

Lemma digits_number_chars ds :
  Forall (fun c => is_digit c = true) ds -> Forall number_char ds.
Proof. apply List.Forall_impl. intros c H. now left. Qed.

Lemma match_integer_chars s i r :
  match_integer s = Some (i, r) -> s = i ++ r /\ Forall number_char i.
Proof.
  unfold match_integer.
  assert (forall sign s1 i r, match s1 with
            | c :: t =>
                if c =? 48 then Some (sign ++ [48], t)
                else if is_digit c then
                  let '(ds, r') := span_digits t in Some (sign ++ c :: ds, r')
                else None
            | [] => None
            end = Some (i, r) ->
            exists body, i = sign ++ body /\ s1 = body ++ r /\ Forall number_char body)
    as Hbody.
  { clear. intros sign [| c t] i r H; [discriminate |].
    destruct (Z.eqb_spec c 48) as [-> | ?].
    - inversion H; subst. exists [48]. repeat split.
      constructor; [now left | constructor].
    - destruct (is_digit c) eqn:Hc; [| discriminate].
      destruct (span_digits t) as [ds r'] eqn:E. inversion H; subst.
      destruct (span_digits_spec _ _ _ E) as (-> & Hds & _).
      exists (c :: ds). repeat split. constructor; [now left |].
      now apply digits_number_chars. }
  destruct s as [| c t]; [discriminate |].
  destruct (Z.eqb_spec c 45) as [-> | Hc]; intros H.
  - apply (Hbody [45] t) in H. destruct H as (body & -> & E & HF).
    rewrite E. split; [reflexivity |].
    constructor; [right; now left | assumption].
  - apply (Hbody [] (c :: t)) in H. destruct H as (body & -> & E & HF).
    rewrite E. now split.
Qed.

Lemma match_frac_chars s fr r :
  match_frac s = (fr, r) -> s = fr ++ r /\ Forall number_char fr.
Proof.
  unfold match_frac. destruct s as [| c t]; [intros [= <- <-]; now split |].
  destruct (Z.eqb_spec c 46) as [-> | ?]; [| intros [= <- <-]; now split].
  destruct (span_digits t) as [ds r'] eqn:E.
  destruct (span_digits_spec _ _ _ E) as (-> & Hds & _).
  destruct ds as [| d ds]; intros [= <- <-]; [now split |].
  split; [reflexivity |]. constructor; [unfold number_char; lia |].
  now apply digits_number_chars.
Qed.

Lemma match_exp_chars s ex r :
  match_exp s = (ex, r) -> s = ex ++ r /\ Forall number_char ex.
Proof.
  unfold match_exp. destruct s as [| c t]; [intros [= <- <-]; now split |].
  destruct ((c =? 101) || (c =? 69)) eqn:Hc; [| intros [= <- <-]; now split].
  assert (number_char c) as Hnc by (unfold number_char; lia).
  assert (exists sg r1, (match t with
            | c' :: r2 => if (c' =? 45) || (c' =? 43) then ([c'], r2) else ([], t)
            | [] => ([], t)
            end) = (sg, r1) /\ t = sg ++ r1 /\ Forall number_char sg)
    as (sg & r1 & -> & -> & Hsg).
  { destruct t as [| c' r2]; [now exists [], [] |].
    destruct ((c' =? 45) || (c' =? 43)) eqn:Hs.
    - exists [c'], r2. repeat split.
      constructor; [unfold number_char; lia | constructor].
    - exists [], (c' :: r2). now repeat split. }
  destruct (span_digits r1) as [ds r'] eqn:E.
  destruct (span_digits_spec _ _ _ E) as (-> & Hds & _).
  destruct ds as [| d ds]; intros [= <- <-]; [now split |].
  split; [cbn [app]; now rewrite <- app_assoc |]. constructor; [assumption |].
  apply Forall_app. split; [assumption | now apply digits_number_chars].
Qed.

Lemma match_number_chars s i fr ex r :
  match_number s = Some (i, fr, ex, r) ->
  s = i ++ fr ++ ex ++ r /\ Forall Py.is_ascii (i ++ fr ++ ex) /\ i <> [].
Proof.
  unfold match_number. destruct (match_integer s) as [[i' r0] |] eqn:Ei; [| discriminate].
  destruct (match_frac r0) as [fr' r1] eqn:Ef.
  destruct (match_exp r1) as [ex' r2] eqn:Ee.
  intros [= <- <- <- <-].
  destruct (match_integer_head _ _ _ Ei) as (_ & _ & _ & _ & Hne).
  destruct (match_integer_chars _ _ _ Ei) as (-> & Hi).
  destruct (match_frac_chars _ _ _ Ef) as (-> & Hf).
  destruct (match_exp_chars _ _ _ Ee) as (-> & He).
  repeat split; [| assumption].
  rewrite !Forall_app. repeat split;
    (eapply List.Forall_impl; [apply number_char_ascii | eassumption]).
Qed.

(** *** White space *)

Lemma skip_ws_stop c t : is_ws c = false -> skip_ws (c :: t) = c :: t.
Proof. intros H. cbn [skip_ws]. now rewrite H. Qed.

Lemma skip_ws_spaces n t : skip_ws (repeat 32 n ++ t) = skip_ws t.
Proof. induction n as [| n IH]; [reflexivity | exact IH]. Qed.

Section Floats.
Context {F : PyFloat}.

Lemma skip_ws_indent level t : skip_ws (newline_indent level ++ t) = skip_ws t.
Proof. unfold newline_indent. cbn [app skip_ws is_ws Z.eqb orb]. apply skip_ws_spaces. Qed.

Lemma newline_indent_ascii level : Forall Py.is_ascii (newline_indent level).
Proof.
  unfold newline_indent. constructor; [unfold Py.is_ascii; lia |].
  induction (2 * level)%nat; constructor; [unfold Py.is_ascii; lia | assumption].
Qed.

(** *** [floatstr] *)

Lemma floatstr_ascii f : Forall Py.is_ascii (floatstr f).
Proof.
  unfold floatstr. destruct (float_class f) eqn:E; eval_py;
    try (repeat (apply List.Forall_cons; [unfold Py.is_ascii; lia |]);
         apply List.Forall_nil).
  destruct (float_repr_literal f [] E I) as (i & fr & ex & Hm & -> & _).
  now apply match_number_chars in Hm.
Qed.

(** *** The first character of a written value *)

Lemma number_start c : c = 45 \/ is_digit c = true -> value_start c.
Proof. unfold value_start, is_ws, is_digit, Py.is_ascii. lia. Qed.

Lemma repr_int_start z : exists c t, repr_int z = c :: t /\ value_start c.
Proof.
  destruct (repr_int_shape z) as (sign & body & -> & [-> | ->] & Hbody).
  - destruct Hbody as [-> | (c & ds & -> & Hc & _)].
    + exists 48, []. split; [reflexivity |]. apply number_start. now right.
    + exists c, ds. split; [reflexivity |]. apply number_start. right.
      apply is_digit_spec. lia.
  - eexists 45, _. split; [reflexivity |]. apply number_start. now left.
Qed.

Lemma floatstr_start f : exists c t, floatstr f = c :: t /\ value_start c.
Proof.
  unfold floatstr. destruct (float_class f) eqn:E.
  - destruct (float_repr_literal f [] E I) as (i & fr & ex & Hm & Hr & _).
    unfold match_number in Hm.
    destruct (match_integer (float_repr f ++ [])) as [[i' r0] |] eqn:Ei; [| discriminate].
    destruct (match_integer_head _ _ _ Ei) as (c & t & Ht & Hc & _).
    rewrite app_nil_r in Ht. exists c, t. split; [assumption |].
    now apply number_start.
  - eval_py. eexists _, _. split; [reflexivity |].
    unfold value_start, is_ws, Py.is_ascii. lia.
  - eval_py. eexists _, _. split; [reflexivity |].
    unfold value_start, is_ws, Py.is_ascii. lia.
  - eval_py. eexists _, _. split; [reflexivity |].
    unfold value_start, is_ws, Py.is_ascii. lia.
Qed.

Lemma dumps_at_start level v : exists c t, dumps_at level v = c :: t /\ value_start c.
Proof.
  assert (forall c t, value_start c -> exists c' t', c :: t = c' :: t' /\ value_start c')
    as Hk by eauto.
  destruct v as [| [|] | z | f | s | [| x items] | [| kv fields]];
    cbn [dumps_at encode_basestring_ascii]; eval_py;
    try (apply Hk; unfold value_start, is_ws, Py.is_ascii, dquote; lia).
  - apply repr_int_start.
  - apply floatstr_start.
Qed.

Lemma skip_ws_dumps level v t : skip_ws (dumps_at level v ++ t) = dumps_at level v ++ t.
Proof.
  destruct (dumps_at_start level v) as (c & t' & -> & Hc & _).
  now apply skip_ws_stop.
Qed.

End Floats.

End LexFacts.

Module RoundTrip.
Import Json NumberFacts StringFacts EscapeFacts LexFacts Shapes.

Section Floats.
Context {F : PyFloat}.

(** *** [loadable], unfolded *)

Lemma loadable_array items : loadable (JArr items) <-> Forall loadable items.
Proof.
  cbn [loadable]. induction items as [| x items IH]; cbn [fold_right].
  - split; constructor.
  - rewrite IH. split; [intros []; now constructor | now inversion 1].
Qed.

Lemma loadable_object fields :
  loadable (JObj fields) <->
  NoDup (map fst fields)
  /\ Forall (fun kv => str_ok (fst kv) /\ loadable (snd kv)) fields.
Proof.
  cbn [loadable]. apply and_iff_compat_l.
  induction fields as [| kv fields IH]; cbn [fold_right].
  - split; constructor.
  - rewrite IH. split; [intros []; now constructor | now inversion 1].
Qed.

(** *** [dict(pairs)] of pairs with distinct keys *)

Lemma dict_set_fresh k v (d : list (pystr * json)) :
  k ∉ map fst d -> dict_set k v d = d ++ [(k, v)].
Proof.
  induction d as [| [k' v'] d IH]; intros Hk; [reflexivity |].
  cbn [dict_set map fst] in *. rewrite not_elem_of_cons in Hk. destruct Hk as [Hne Hk].
  rewrite bool_decide_eq_false_2 by assumption. cbn [app]. now rewrite IH.
Qed.

Lemma dict_of_pairs_nodup (pairs : list (pystr * json)) :
  NoDup (map fst pairs) -> dict_of_pairs pairs = pairs.
Proof.
  unfold dict_of_pairs.
  enough (forall acc, NoDup (map fst (acc ++ pairs)) ->
            fold_left (fun d kv => dict_set (fst kv) (snd kv) d) pairs acc
            = acc ++ pairs) as H by (intros Hn; now apply (H [])).
  induction pairs as [| [k v] pairs IH]; intros acc Hn; cbn [fold_left fst snd].
  - now rewrite app_nil_r.
  - rewrite dict_set_fresh.
    + rewrite IH; rewrite <- app_assoc; [reflexivity | exact Hn].
    + rewrite map_app in Hn. apply NoDup_app in Hn. destruct Hn as (_ & Hd & _).
      intros Hin. apply (Hd k Hin). cbn. left.
Qed.

(** *** The equations of [scan_once] *)

Lemma scan_once_number n s i fr ex r :
  match_number s = Some (i, fr, ex, r) ->
  scan_once (S n) s = Some (number_value i fr ex, r).
Proof.
  intros Hm.
  assert (exists c t, s = c :: t /\ (c = 45 \/ is_digit c = true)) as (c & t & -> & Hc).
  { unfold match_number in Hm.
    destruct (match_integer s) as [[i' r0] |] eqn:Ei; [| discriminate].
    destruct (match_integer_head _ _ _ Ei) as (c & t & ? & ? & _). eauto. }
  assert (c = 45 \/ 48 <= c <= 57) as Hc' by (unfold is_digit in Hc; lia).
  cbn [scan_once].
  destruct (Z.eqb_spec c dquote); [unfold dquote in *; lia |].
  destruct (Z.eqb_spec c 123); [lia |].
  destruct (Z.eqb_spec c 91); [lia |].
  eval_py. cbn [Py.strip_prefix].
  destruct (Z.eqb_spec 110 c); [lia |].
  destruct (Z.eqb_spec 116 c); [lia |].
  destruct (Z.eqb_spec 102 c); [lia |].
  rewrite Hm. unfold number_value. destruct fr, ex; reflexivity.
Qed.

Lemma scan_once_string n r :
  scan_once (S n) (dquote :: r)
  = match scanstring r with
    | Some (t, r') => Some (JStr t, r')
    | None => None
    end.
Proof. reflexivity. Qed.

Lemma scan_once_array n r :
  scan_once (S n) (91 :: r)
  = match skip_ws r with
    | c1 :: r1 =>
        if c1 =? 93 then Some (JArr [], r1)
        else
          match array_loop n (c1 :: r1) with
          | Some (items, r') => Some (JArr items, r')
          | None => None
          end
    | [] => None
    end.
Proof. reflexivity. Qed.

Lemma scan_once_object n r :
  scan_once (S n) (123 :: r)
  = match skip_ws r with
    | c1 :: r1 =>
        if c1 =? 125 then Some (JObj [], r1)
        else if c1 =? dquote then
          match object_loop n r1 with
          | Some (pairs, r') => Some (JObj (dict_of_pairs pairs), r')
          | None => None
          end
        else None
    | [] => None
    end.
Proof. reflexivity. Qed.

Lemma array_loop_eq n s :
  array_loop (S n) s
  = match scan_once n s with
    | Some (v, r) =>
        match skip_ws r with
        | c :: r1 =>
            if c =? 93 then Some ([v], r1)
            else if c =? 44 then
              match array_loop n (skip_ws r1) with
              | Some (vs, r') => Some (v :: vs, r')
              | None => None
              end
            else None
        | [] => None
        end
    | None => None
    end.
Proof. reflexivity. Qed.

Lemma object_loop_eq n s :
  object_loop (S n) s
  = match scanstring s with
    | Some (key, r) =>
        match skip_ws r with
        | c :: r1 =>
            if c =? 58 then
              match scan_once n (skip_ws r1) with
              | Some (v, r2) =>
                  match skip_ws r2 with
                  | c' :: r3 =>
                      if c' =? 125 then Some ([(key, v)], r3)
                      else if c' =? 44 then
                        match skip_ws r3 with
                        | q :: r4 =>
                            if q =? dquote then
                              match object_loop n r4 with
                              | Some (kvs, r') => Some ((key, v) :: kvs, r')
                              | None => None
                              end
                            else None
                        | [] => None
                        end
                      else None
                  | [] => None
                  end
              | None => None
              end
            else None
        | [] => None
        end
    | None => None
    end.
Proof. reflexivity. Qed.

(** *** Reading what was written *)

Lemma number_ends_indent level t : number_ends (newline_indent level ++ t).
Proof. cbn. unfold is_digit. lia. Qed.

Lemma number_ends_comma t : number_ends (44 :: t).
Proof. cbn. unfold is_digit. lia. Qed.

Lemma array_loop_items level0 level items :
  Forall reads_back items -> items <> [] ->
  forall fuel rest,
    (items_size items <= fuel)%nat ->
    array_loop fuel
      (Py.join (44 :: newline_indent level) (map (dumps_at level) items)
       ++ newline_indent level0 ++ 93 :: rest)
    = Some (items, rest).
Proof.
  induction 1 as [| x items Hx Hitems IH]; intros Hne fuel rest Hfuel;
    [contradiction |].
  cbn [items_size fold_right] in Hfuel. fold (items_size items) in Hfuel.
  destruct fuel as [| n]; [lia |]. rewrite array_loop_eq.
  destruct items as [| y items].
  - cbn [map Py.join].
    rewrite (Hx level n) by (lia || apply number_ends_indent).
    rewrite skip_ws_indent. cbn [skip_ws is_ws Z.eqb Pos.eqb orb]. reflexivity.
  - change (Py.join ?sep (map ?f (x :: y :: items)))
      with (f x ++ sep ++ Py.join sep (map f (y :: items))).
    rewrite <- !app_assoc. cbn [app].
    rewrite (Hx level n) by (lia || apply number_ends_comma).
    cbn [skip_ws is_ws Z.eqb Pos.eqb orb].
    rewrite skip_ws_indent.
    assert (exists c t, Py.join (44 :: newline_indent level)
                          (map (dumps_at level) (y :: items)) = c :: t
                        /\ is_ws c = false) as (c & t & E & Hc).
    { destruct (dumps_at_start level y) as (c & t & E & Hc & _).
      destruct items; cbn [map Py.join]; rewrite E; cbn [app]; eauto. }
    rewrite E at 1. cbn [app]. rewrite skip_ws_stop by assumption.
    rewrite app_comm_cons, <- E.
    rewrite IH by (try discriminate; lia). reflexivity.
Qed.

Lemma object_loop_fields level0 level fields :
  Forall (fun kv => reads_back (snd kv)) fields ->
  Forall (fun kv => str_ok (fst kv)) fields -> fields <> [] ->
  forall fuel rest,
    (fields_size fields <= fuel)%nat ->
    exists text,
      Py.join (44 :: newline_indent level) (map (field_text level) fields)
      ++ newline_indent level0 ++ 125 :: rest
      = dquote :: text
      /\ object_loop fuel text = Some (fields, rest).
Proof.
  induction 1 as [| [k v] fields Hv Hfields IH]; intros Hks Hne fuel rest Hfuel;
    [contradiction |].
  inversion_clear Hks as [| ? ? Hk Hks'].
  cbn [fields_size fold_right snd] in Hfuel. fold (fields_size fields) in Hfuel.
  cbn [fst snd] in *.
  destruct fuel as [| n]; [lia |].
  destruct fields as [| kv' fields].
  - cbn [map Py.join]. unfold field_text, encode_basestring_ascii. cbn [fst snd].
    eval_py. rewrite <- !app_assoc. cbn [app]. eexists. split; [reflexivity |].
    rewrite object_loop_eq. rewrite <- !app_assoc. cbn [app].
    rewrite scanstring_escape_body by assumption.
    cbn [skip_ws is_ws Z.eqb Pos.eqb orb].
    rewrite skip_ws_dumps.
    rewrite (Hv level n) by (lia || apply number_ends_indent).
    rewrite skip_ws_indent. cbn [skip_ws is_ws Z.eqb Pos.eqb orb]. reflexivity.
  - change (Py.join ?sep (map ?f ((k, v) :: kv' :: fields)))
      with (f (k, v) ++ sep ++ Py.join sep (map f (kv' :: fields))).
    destruct (IH Hks' ltac:(discriminate) n rest ltac:(lia)) as (text & E & Hloop).
    unfold field_text at 1, encode_basestring_ascii. cbn [fst snd].
    eval_py. rewrite <- !app_assoc. cbn [app]. eexists. split; [reflexivity |].
    rewrite object_loop_eq. rewrite <- !app_assoc. cbn [app].
    rewrite scanstring_escape_body by assumption.
    cbn [skip_ws is_ws Z.eqb Pos.eqb orb].
    rewrite skip_ws_dumps.
    rewrite (Hv level n) by (lia || apply number_ends_comma).
    cbn [skip_ws is_ws Z.eqb Pos.eqb orb].
    rewrite skip_ws_indent. rewrite E.
    cbn [skip_ws is_ws dquote Z.eqb Pos.eqb orb]. rewrite Hloop. reflexivity.
Qed.

Lemma reads_back_all v : loadable v -> reads_back v.
Proof.
  induction v as [| b | z | f | s | items IH | fields IH] using json_ind;
    intros Hv level fuel rest Hfuel Hrest;
    (destruct fuel as [| n]; [cbn in Hfuel; lia |]).
  - reflexivity.
  - destruct b; reflexivity.
  - cbn [dumps_at].
    rewrite (scan_once_number n _ _ _ _ _ (match_number_repr z rest Hrest)).
    unfold number_value. now rewrite parse_int_repr.
  - cbn [dumps_at]. unfold floatstr. destruct (float_class f) eqn:E.
    + destruct (float_repr_literal f rest E Hrest) as (i & fr & ex & Hm & Hr & Hne).
      rewrite (scan_once_number n _ _ _ _ _ Hm). unfold number_value.
      rewrite <- Hr, float_of_repr by assumption.
      destruct fr, ex; try reflexivity. now destruct Hne.
    + apply float_class_nan in E. subst f. reflexivity.
    + apply float_class_inf in E. subst f. reflexivity.
    + apply float_class_neginf in E. subst f. reflexivity.
  - cbn [dumps_at loadable] in *. unfold encode_basestring_ascii.
    cbn [app]. rewrite scan_once_string, <- app_assoc. cbn [app].
    now rewrite scanstring_escape_body.
  - apply loadable_array in Hv.
    assert (Forall reads_back items) as Hall.
    { clear Hfuel. induction IH as [| x items Hx _ IHi]; [constructor |].
      inversion_clear Hv. constructor; auto. }
    destruct items as [| x items]; [reflexivity |].
    cbn [dumps_at]. cbn [app]. rewrite scan_once_array.
    rewrite <- !app_assoc, skip_ws_indent.
    assert (exists c t, Py.join (44 :: newline_indent (S level))
                          (map (dumps_at (S level)) (x :: items)) = c :: t
                        /\ is_ws c = false /\ c <> 93) as (c & t & E & Hc & Hb).
    { destruct (dumps_at_start (S level) x) as (c & t & E & Hc & Hb & _).
      destruct items; cbn [map Py.join]; rewrite E; cbn [app]; eauto. }
    rewrite E at 1. cbn [app]. rewrite skip_ws_stop by assumption.
    destruct (Z.eqb_spec c 93); [contradiction |].
    rewrite app_comm_cons, <- E.
    rewrite array_loop_items; try reflexivity; try discriminate; try assumption.
    cbn [json_size] in Hfuel. unfold items_size. lia.
  - apply loadable_object in Hv. destruct Hv as [Hnd Hv].
    assert (Forall (fun kv => reads_back (snd kv)) fields
            /\ Forall (fun kv => str_ok (fst kv)) fields) as [Hall Hkeys].
    { clear Hfuel Hnd. induction IH as [| kv fields Hx _ IHi]; [split; constructor |].
      inversion_clear Hv as [| ? ? [? ?] Hv']. destruct (IHi Hv').
      split; constructor; auto. }
    destruct fields as [| kv fields]; [reflexivity |].
    cbn [dumps_at]. cbn [app]. rewrite scan_once_object.
    rewrite <- !app_assoc, skip_ws_indent.
    destruct (object_loop_fields level (S level) (kv :: fields) Hall Hkeys
                ltac:(discriminate) n rest) as (text & E & Hloop).
    { cbn [json_size] in Hfuel. unfold fields_size. lia. }
    unfold field_text in E. change ([125] ++ rest) with (125 :: rest).
    rewrite E.
    cbn [skip_ws is_ws dquote Z.eqb Pos.eqb orb]. rewrite Hloop.
    now rewrite dict_of_pairs_nodup.
Qed.

End Floats.

End RoundTrip.

Module Utf8Facts.
Import Utf8 Shapes.

Ltac arith := Z.div_mod_to_equations; lia.

Lemma ascii_is_byte c : Py.is_ascii c -> Py.is_byte c.
Proof. unfold Py.is_ascii, Py.is_byte. lia. Qed.

(** ASCII text is encoded as itself. *)
Lemma encode_ascii s : Forall Py.is_ascii s -> encode s = Some s.
Proof.
  induction 1 as [| c s Hc _ IH]; [reflexivity |].
  cbn [encode]. rewrite IH. unfold encode_char, Py.is_ascii in *.
  destruct (Z.ltb_spec c 0); [lia |]. destruct (Z.ltb_spec c 128); [| lia].
  reflexivity.
Qed.

(** ASCII bytes are decoded as themselves. *)
Lemma decode_ascii bs : Forall Py.is_ascii bs -> decode bs = Some bs.
Proof.
  induction 1 as [| b bs Hb _ IH]; [reflexivity |].
  cbn [decode]. rewrite IH. unfold Py.is_ascii in *.
  destruct (Z.leb_spec 0 b); [| lia]. destruct (Z.ltb_spec b 128); [| lia].
  reflexivity.
Qed.

Lemma cont_range b c : cont b = Some c -> 0 <= c < 64.
Proof.
  unfold cont. destruct ((128 <=? b) && (b <=? 191)); [| discriminate].
  intros [= <-]. rewrite (Bits.land_mask 6 64 b 63) by easy. arith.
Qed.

Lemma glue_eq hi lo : 0 <= lo < 64 -> glue hi lo = hi * 64 + lo.
Proof. intros H. unfold glue. now rewrite (Bits.lor_shiftl 6 64). Qed.

(** Decoded text holds no surrogate and nothing beyond U+10FFFF. *)
Lemma decode_scalar_bounded n :
  forall bs s, (length bs <= n)%nat -> decode bs = Some s -> Forall is_scalar s.
Proof.
  unfold is_scalar, Py.is_code_point, Py.is_surrogate.
  induction n as [| n IH]; intros bs s Hlen H.
  - destruct bs; [| cbn in Hlen; lia]. inversion H. constructor.
  - destruct bs as [| b0 r]; [inversion H; constructor |].
    cbn [length] in Hlen. cbn [decode] in H.
    destruct ((0 <=? b0) && (b0 <? 128)) eqn:E1.
    { destruct (decode r) as [s' |] eqn:Er; [| discriminate]. inversion H; subst.
      constructor; [lia |]. apply (IH r); [lia | assumption]. }
    destruct ((192 <=? b0) && (b0 <? 224)) eqn:E2.
    { destruct r as [| b1 r1]; [discriminate |].
      destruct (cont b1) as [c1 |] eqn:C1; [| discriminate].
      apply cont_range in C1. rewrite glue_eq in H by assumption.
      rewrite (Bits.land_mask 5 32 b0 31) in H by easy.
      destruct (Z.leb_spec 128 (b0 mod 32 * 64 + c1)); [| discriminate].
      destruct (decode r1) as [s' |] eqn:Er; [| discriminate]. inversion H; subst.
      constructor; [arith |]. apply (IH r1); [cbn [length] in Hlen; lia | assumption]. }
    destruct ((224 <=? b0) && (b0 <? 240)) eqn:E3.
    { destruct r as [| b1 [| b2 r2]]; try discriminate.
      destruct (cont b1) as [c1 |] eqn:C1; [| discriminate].
      destruct (cont b2) as [c2 |] eqn:C2; [| discriminate].
      apply cont_range in C1, C2. rewrite !glue_eq in H by assumption.
      rewrite (Bits.land_mask 4 16 b0 15) in H by easy.
      unfold Py.is_surrogate in H.
      match type of H with
      | (if ?b then _ else _) = _ => destruct b eqn:Eb; [| discriminate]
      end.
      destruct (decode r2) as [s' |] eqn:Er; [| discriminate]. inversion H; subst.
      constructor; [arith |]. apply (IH r2); [cbn [length] in Hlen; lia | assumption]. }
    destruct ((240 <=? b0) && (b0 <? 248)) eqn:E4; [| discriminate].
    destruct r as [| b1 [| b2 [| b3 r3]]]; try discriminate.
    destruct (cont b1) as [c1 |] eqn:C1; [| discriminate].
    destruct (cont b2) as [c2 |] eqn:C2; [| discriminate].
    destruct (cont b3) as [c3 |] eqn:C3; [| discriminate].
    match type of H with
    | (if ?b then _ else _) = _ => destruct b eqn:Eb; [| discriminate]
    end.
    destruct (decode r3) as [s' |] eqn:Er; [| discriminate]. inversion H; subst.
    constructor; [lia |]. apply (IH r3); [cbn [length] in Hlen; lia | assumption].
Qed.

Lemma decode_scalar bs s : decode bs = Some s -> Forall is_scalar s.
Proof. now apply (decode_scalar_bounded (length bs)). Qed.

End Utf8Facts.

Module DumpsFacts.
Import Json NumberFacts StringFacts EscapeFacts LexFacts RoundTrip Shapes.

Ltac arith := Z.div_mod_to_equations; lia.

Lemma hex_char_ascii d : 0 <= d < 16 -> Py.is_ascii (hex_char d).
Proof. intros H. pose proof (hex_char_range d H). unfold Py.is_ascii. lia. Qed.

Lemma u_escape_ascii n : Forall Py.is_ascii (u_escape n).
Proof.
  unfold u_escape. rewrite hex4_eq.
  repeat (apply List.Forall_cons;
          [first [apply hex_char_ascii; arith | unfold Py.is_ascii, backslash; lia] |]).
  apply List.Forall_nil.
Qed.

(** Whatever the character, its escape is ASCII. *)
Lemma escape_char_ascii c : Forall Py.is_ascii (escape_char c).
Proof.
  unfold escape_char.
  repeat match goal with
         | |- context [if ?b then _ else _] => destruct b eqn:?
         end;
    try (apply Forall_app; split); try apply u_escape_ascii;
    repeat (apply List.Forall_cons; [unfold Py.is_ascii, backslash, dquote in *; lia |]);
    apply List.Forall_nil.
Qed.

Lemma encode_basestring_ascii_ascii s : Forall Py.is_ascii (encode_basestring_ascii s).
Proof.
  unfold encode_basestring_ascii, escape_body.
  apply List.Forall_cons; [unfold Py.is_ascii, dquote; lia |].
  apply Forall_app. split;
    [| apply List.Forall_cons; [unfold Py.is_ascii, dquote; lia | apply List.Forall_nil]].
  induction s as [| c s IH]; cbn [map concat]; [constructor |].
  apply Forall_app. split; [apply escape_char_ascii | exact IH].
Qed.

Lemma repr_int_ascii z : Forall Py.is_ascii (repr_int z).
Proof.
  pose proof (match_number_repr z [] I) as H. rewrite app_nil_r in H.
  apply match_number_chars in H. destruct H as (_ & H & _).
  now rewrite !app_nil_r in H.
Qed.

Lemma join_ascii sep parts :
  Forall Py.is_ascii sep -> Forall (Forall Py.is_ascii) parts ->
  Forall Py.is_ascii (Py.join sep parts).
Proof.
  intros Hsep. induction 1 as [| p parts Hp Hparts IH]; [constructor |].
  destruct parts as [| q parts]; [exact Hp |].
  change (Py.join sep (p :: q :: parts)) with (p ++ sep ++ Py.join sep (q :: parts)).
  rewrite !Forall_app. auto.
Qed.

Section Floats.
Context {F : PyFloat}.

(** [dumps] writes ASCII only: [ensure_ascii] is in force. *)
Lemma dumps_at_ascii v : forall level, Forall Py.is_ascii (dumps_at level v).
Proof.
  assert (Forall Py.is_ascii [44]) as Hcomma
      by (repeat constructor; unfold Py.is_ascii; lia).
  induction v as [| b | z | f | s | items IH | fields IH] using json_ind;
    intros level; cbn [dumps_at].
  - eval_py. repeat (apply List.Forall_cons; [unfold Py.is_ascii; lia |]). constructor.
  - destruct b; eval_py;
      repeat (apply List.Forall_cons; [unfold Py.is_ascii; lia |]); constructor.
  - apply repr_int_ascii.
  - apply floatstr_ascii.
  - apply encode_basestring_ascii_ascii.
  - destruct items as [| x items];
      [eval_py; repeat (apply List.Forall_cons; [unfold Py.is_ascii; lia |]); constructor |].
    apply List.Forall_cons; [unfold Py.is_ascii; lia |].
    rewrite !Forall_app. repeat split.
    + apply newline_indent_ascii.
    + apply join_ascii.
      * apply List.Forall_cons; [unfold Py.is_ascii; lia | apply newline_indent_ascii].
      * apply Forall_map. eapply List.Forall_impl; [| exact IH].
        intros v Hv. apply Hv.
    + apply newline_indent_ascii.
    + repeat constructor; unfold Py.is_ascii; lia.
  - destruct fields as [| kv fields];
      [eval_py; repeat (apply List.Forall_cons; [unfold Py.is_ascii; lia |]); constructor |].
    apply List.Forall_cons; [unfold Py.is_ascii; lia |].
    rewrite !Forall_app. repeat split.
    + apply newline_indent_ascii.
    + apply join_ascii.
      * apply List.Forall_cons; [unfold Py.is_ascii; lia | apply newline_indent_ascii].
      * apply Forall_map. eapply List.Forall_impl; [| exact IH].
        intros [k v] Hv. cbn [fst snd] in *. rewrite !Forall_app. repeat split.
        -- apply encode_basestring_ascii_ascii.
        -- eval_py. repeat (apply List.Forall_cons; [unfold Py.is_ascii; lia |]).
           constructor.
        -- apply Hv.
    + apply newline_indent_ascii.
    + repeat constructor; unfold Py.is_ascii; lia.
Qed.

(** *** The fuel [loads] gives is enough *)

Lemma join_length {A} sep (text : A -> pystr) (size : A -> nat) (l : list A) :
  sep <> [] -> Forall (fun x => (size x <= length (text x))%nat) l ->
  (fold_right (fun x acc => S (size x + acc)) O l
   <= S (length (Py.join sep (map text l))))%nat.
Proof.
  intros Hsep. induction 1 as [| x l Hx Hl IH]; [cbn; lia |].
  cbn [fold_right]. destruct l as [| y l].
  - cbn [fold_right map Py.join]. lia.
  - change (Py.join sep (map text (x :: y :: l)))
      with (text x ++ sep ++ Py.join sep (map text (y :: l))).
    rewrite !length_app. destruct sep; [contradiction |]. cbn [length] in *. lia.
Qed.

Lemma json_size_dumps v : forall level, (json_size v <= length (dumps_at level v))%nat.
Proof.
  assert (forall level u, (1 <= length (dumps_at level u))%nat) as Hpos.
  { intros level u. destruct (dumps_at_start level u) as (c & t & -> & _).
    cbn [length]. lia. }
  induction v as [| b | z | f | s | items IH | fields IH] using json_ind;
    intros level; try apply Hpos.
  - cbn [json_size dumps_at]. destruct items as [| x items]; [cbn; lia |].
    cbn [length]. rewrite !length_app. cbn [length].
    pose proof (join_length (44 :: newline_indent (S level))
                  (dumps_at (S level)) json_size (x :: items)
                  ltac:(discriminate)) as H.
    lapply H; [lia |].
    eapply List.Forall_impl; [| exact IH]. intros v Hv. apply Hv.
  - cbn [json_size dumps_at]. destruct fields as [| kv fields]; [cbn; lia |].
    cbn [length]. rewrite !length_app. cbn [length].
    pose proof (join_length (44 :: newline_indent (S level))
                  (fun kv => encode_basestring_ascii (fst kv) ++ py ": "
                             ++ dumps_at (S level) (snd kv))
                  (fun kv => json_size (snd kv)) (kv :: fields)
                  ltac:(discriminate)) as H.
    lapply H; [lia |].
    eapply List.Forall_impl; [| exact IH]. intros [k v] Hv. cbn [fst snd] in *.
    rewrite !length_app. specialize (Hv (S level)). lia.
Qed.

(** [json.loads(json.dumps(v, indent=2)) == v] *)
Lemma loads_dumps v : loadable v -> loads (dumps v) = Some v.
Proof.
  intros Hv. unfold loads, dumps.
  destruct (dumps_at_start 0 v) as (c & t & E & Hws & _ & _ & Hbom & _).
  pose proof (json_size_dumps v 0) as Hsize.
  pose proof (reads_back_all v Hv O (fuel_for (dumps_at 0 v)) []) as H.
  rewrite app_nil_r in H. rewrite E in *.
  destruct (Z.eqb_spec c 65279); [contradiction |].
  rewrite skip_ws_stop by assumption.
  rewrite H; [reflexivity | unfold fuel_for; lia | exact I].
Qed.

End Floats.

End DumpsFacts.

Module LoadFacts.
Import Json NumberFacts StringFacts EscapeFacts LexFacts RoundTrip Utf8Facts Shapes.

(** *** What [scanstring] returns *)

Lemma str_ok_nil : str_ok [].
Proof. split; [constructor | exact I]. Qed.

(** A character that is no surrogate can be put in front. *)
Lemma scanned_cons_plain s0 s c t r :
  Py.is_code_point c -> Py.is_surrogate c = false ->
  scanned s t r -> scanned s0 (c :: t) r.
Proof.
  intros Hc Hs ([Ht Hp] & Hr & _). split; [split |]; [now constructor | | split].
  - cbn [no_split_pair]. split; [| assumption].
    destruct t; [exact I |].
    unfold Py.is_surrogate, Py.is_high_surrogate in *. lia.
  - assumption.
  - intros b t' [= <- <-] Hlow.
    unfold Py.is_surrogate, Py.is_low_surrogate in *. lia.
Qed.

(** The character of a lone [\u] escape can be put in front when what
    follows does not start with the escape of a low surrogate. *)
Lemma scanned_cons_escape h1 h2 h3 h4 uni s t r :
  decode_hex4 h1 h2 h3 h4 = Some uni ->
  (Py.is_high_surrogate uni = true ->
   forall k1 k2 k3 k4 r4 lo,
     s = backslash :: 117 :: k1 :: k2 :: k3 :: k4 :: r4 ->
     decode_hex4 k1 k2 k3 k4 = Some lo -> Py.is_low_surrogate lo = false) ->
  scanned s t r ->
  scanned (backslash :: 117 :: h1 :: h2 :: h3 :: h4 :: s) (uni :: t) r.
Proof.
  intros Hd Hfollow ([Ht Hp] & Hr & Hhead).
  pose proof (decode_hex4_range _ _ _ _ _ Hd) as Hrange.
  split; [split |]; [constructor; [unfold Py.is_code_point; lia | assumption] | | split].
  - cbn [no_split_pair]. split; [| assumption].
    destruct t as [| b t']; [exact I |].
    destruct (Py.is_high_surrogate uni) eqn:Hhi; [| reflexivity].
    destruct (Py.is_low_surrogate b) eqn:Hlo; [| reflexivity].
    destruct (Hhead b t' eq_refl Hlo) as (k1 & k2 & k3 & k4 & r4 & E & D).
    rewrite (Hfollow eq_refl _ _ _ _ _ _ E D) in Hlo. discriminate.
  - assumption.
  - intros b t' [= <- <-] _. eauto 10.
Qed.

Lemma join_surrogates_range hi lo :
  Py.is_high_surrogate hi = true -> Py.is_low_surrogate lo = true ->
  65536 <= join_surrogates hi lo < 1114112.
Proof.
  unfold Py.is_high_surrogate, Py.is_low_surrogate, join_surrogates. intros Hh Hl.
  rewrite (Bits.lor_shiftl 10 1024) by (easy || lia). lia.
Qed.

Lemma unescape_range e ch : unescape e = Some ch -> 0 <= ch < 128.
Proof.
  unfold unescape, dquote, backslash. intros H.
  repeat match type of H with
         | (if ?b then _ else _) = _ => destruct b
         end; inversion H; lia.
Qed.

Lemma cons_result_some c o t r :
  cons_result c o = Some (t, r) -> exists t', t = c :: t' /\ o = Some (t', r).
Proof. destruct o as [[t' r'] |]; [| discriminate]. intros [= <- <-]. eauto. Qed.

Lemma scanstring_scanned_bounded n :
  forall s t r, (length s <= n)%nat -> Forall is_scalar s ->
                scanstring s = Some (t, r) -> scanned s t r.
Proof.
  induction n as [| n IH]; intros s t r Hlen Hs H.
  { destruct s; [discriminate | cbn in Hlen; lia]. }
  destruct s as [| c s1]; [discriminate |].
  cbn [length] in Hlen. inversion_clear Hs as [| ? ? Hc Hs1].
  cbn [scanstring] in H.
  destruct (Z.eqb_spec c dquote) as [-> | Hq].
  { inversion H; subst. split; [apply str_ok_nil |]. split; [assumption |].
    intros; discriminate. }
  destruct (Z.eqb_spec c backslash) as [-> | Hb].
  2:{ destruct (Z.ltb_spec c 32); [discriminate |].
      fold (cons_result c (scanstring s1)) in H.
      apply cons_result_some in H. destruct H as (t' & -> & H).
      destruct Hc as [Hc Hsur].
      apply (scanned_cons_plain _ s1); try assumption.
      apply IH; [lia | assumption | assumption]. }
  destruct s1 as [| e s2]; [discriminate |].
  inversion_clear Hs1 as [| ? ? _ Hs2]. cbn [length] in Hlen.
  destruct (Z.eqb_spec e 117) as [-> | He].
  2:{ destruct (unescape e) as [ch |] eqn:Hu; [| discriminate].
      fold (cons_result ch (scanstring s2)) in H.
      apply cons_result_some in H. destruct H as (t' & -> & H).
      apply unescape_range in Hu.
      apply (scanned_cons_plain _ s2);
        [unfold Py.is_code_point; lia | unfold Py.is_surrogate; lia |].
      apply IH; [lia | assumption | assumption]. }
  destruct s2 as [| h1 [| h2 [| h3 [| h4 s3]]]]; try discriminate.
  do 4 (apply Forall_cons in Hs2; destruct Hs2 as [_ Hs2]).
  cbn [length] in Hlen.
  destruct (decode_hex4 h1 h2 h3 h4) as [uni |] eqn:Hd; [| discriminate].
  fold (cons_result uni (scanstring s3)) in H.
  (* The result when the escape stands alone. *)
  assert (forall follow,
            follow ->
            (follow -> Py.is_high_surrogate uni = true ->
             forall k1 k2 k3 k4 r4 lo,
               s3 = backslash :: 117 :: k1 :: k2 :: k3 :: k4 :: r4 ->
               decode_hex4 k1 k2 k3 k4 = Some lo -> Py.is_low_surrogate lo = false) ->
            cons_result uni (scanstring s3) = Some (t, r) ->
            scanned (backslash :: 117 :: h1 :: h2 :: h3 :: h4 :: s3) t r) as Hsingle.
  { intros follow Hf Hfollow Hr.
    apply cons_result_some in Hr. destruct Hr as (t' & -> & Hr).
    apply scanned_cons_escape; [assumption | now apply Hfollow |].
    apply IH; [lia | assumption | assumption]. }
  destruct (Py.is_high_surrogate uni) eqn:Hhi;
    [| apply (Hsingle True I); [discriminate | exact H]].
  destruct s3 as [| b [| u s4]];
    try (apply (Hsingle True I); [intros; discriminate | exact H]).
  destruct ((b =? backslash) && (u =? 117)) eqn:Hbu.
  2:{ apply (Hsingle True I); [| exact H].
      intros _ _ k1 k2 k3 k4 r4 lo [= -> -> _]. discriminate. }
  destruct s4 as [| k1 [| k2 [| k3 [| k4 s5]]]]; try discriminate.
  destruct (decode_hex4 k1 k2 k3 k4) as [uni2 |] eqn:Hd2; [| discriminate].
  destruct (Py.is_low_surrogate uni2) eqn:Hlo.
  2:{ apply (Hsingle True I); [| exact H].
      intros _ _ k1' k2' k3' k4' r4 lo [= _ _ <- <- <- <- _] D.
      rewrite Hd2 in D. now inversion D; subst. }
  fold (cons_result (join_surrogates uni uni2) (scanstring s5)) in H.
  apply cons_result_some in H. destruct H as (t' & -> & H).
  pose proof (join_surrogates_range _ _ Hhi Hlo) as Hj.
  apply (scanned_cons_plain _ s5);
    [unfold Py.is_code_point; lia | unfold Py.is_surrogate; lia |].
  do 6 (apply Forall_cons in Hs2; destruct Hs2 as [_ Hs2]).
  apply IH; [cbn [length] in Hlen; lia | assumption | assumption].
Qed.

Lemma scanstring_ok s t r :
  Forall is_scalar s -> scanstring s = Some (t, r) -> str_ok t /\ Forall is_scalar r.
Proof.
  intros Hs H.
  destruct (scanstring_scanned_bounded (length s) s t r) as (? & ? & _); auto.
Qed.

End LoadFacts.

Module ParseFacts.
Import Json NumberFacts StringFacts EscapeFacts LexFacts RoundTrip Utf8Facts LoadFacts Shapes.

Lemma skip_ws_suffix (P : Z -> Prop) s : Forall P s -> Forall P (skip_ws s).
Proof.
  induction 1 as [| c s Hc Hs IH]; [constructor |].
  cbn [skip_ws]. destruct (is_ws c); [exact IH | now constructor].
Qed.

Lemma strip_prefix_suffix (P : Z -> Prop) p s r :
  Py.strip_prefix p s = Some r -> Forall P s -> Forall P r.
Proof.
  revert s. induction p as [| a p IH]; intros s H Hs; [now inversion H; subst |].
  destruct s as [| b s]; [discriminate |]. cbn [Py.strip_prefix] in H.
  destruct (a =? b); [| discriminate]. inversion_clear Hs. eauto.
Qed.

Lemma match_number_suffix (P : Z -> Prop) s i fr ex r :
  match_number s = Some (i, fr, ex, r) -> Forall P s -> Forall P r.
Proof.
  intros H Hs. apply match_number_chars in H. destruct H as (-> & _).
  rewrite !Forall_app in Hs. tauto.
Qed.

Section Floats.
Context {F : PyFloat}.

(** *** [dict(pairs)] *)

Lemma dict_set_keys k v (d : list (pystr * json)) :
  map fst (dict_set k v d)
  = if bool_decide (k ∈ map fst d) then map fst d else map fst d ++ [k].
Proof.
  induction d as [| [k' v'] d IH]; [reflexivity |].
  cbn [dict_set map fst]. destruct (decide (k = k')) as [-> | Hne].
  - rewrite bool_decide_eq_true_2 by reflexivity.
    rewrite bool_decide_eq_true_2 by left. reflexivity.
  - rewrite bool_decide_eq_false_2 by assumption. cbn [map fst]. rewrite IH.
    destruct (decide (k ∈ map fst d)) as [Hin | Hnin].
    + rewrite !bool_decide_eq_true_2; [reflexivity | now right | assumption].
    + rewrite !bool_decide_eq_false_2; [reflexivity | | assumption].
      rewrite not_elem_of_cons. now split.
Qed.

Lemma dict_set_nodup k v (d : list (pystr * json)) :
  NoDup (map fst d) -> NoDup (map fst (dict_set k v d)).
Proof.
  intros Hd. rewrite dict_set_keys.
  destruct (decide (k ∈ map fst d)) as [Hin | Hnin].
  - now rewrite bool_decide_eq_true_2.
  - rewrite bool_decide_eq_false_2 by assumption.
    apply NoDup_app. split; [assumption |]. split; [| apply NoDup_singleton].
    intros x Hx Hx'. apply list_elem_of_singleton in Hx'. now subst.
Qed.

Lemma dict_set_fields k v (d : list (pystr * json)) :
  field_ok (k, v) -> Forall field_ok d -> Forall field_ok (dict_set k v d).
Proof.
  intros [Hk Hv]. induction 1 as [| [k' v'] d [Hk' Hv'] Hd IH];
    [apply List.Forall_cons; [now split | apply List.Forall_nil] |].
  cbn [dict_set]. destruct (bool_decide (k = k')).
  - constructor; [now split | assumption].
  - constructor; [now split | exact IH].
Qed.

Lemma dict_of_pairs_loadable (pairs : list (pystr * json)) :
  Forall field_ok pairs -> loadable (JObj (dict_of_pairs pairs)).
Proof.
  intros Hp. apply loadable_object. unfold dict_of_pairs.
  enough (forall acc : list (pystr * json),
            NoDup (map fst acc) -> Forall field_ok acc ->
            let d := fold_left (fun d kv => dict_set (fst kv) (snd kv) d) pairs acc in
            NoDup (map fst d) /\ Forall field_ok d) as H.
  { apply (H []); constructor. }
  induction Hp as [| [k v] pairs Hkv _ IH]; intros acc Hn Ha; [now split |].
  cbn [fold_left fst snd]. apply IH.
  - now apply dict_set_nodup.
  - now apply dict_set_fields.
Qed.

(** *** What the scanners return *)

Lemma scan_once_step n :
  array_loop_ok n -> object_loop_ok n -> scan_once_ok (S n).
Proof.
  intros Harr Hobj s v r Hs H.
  destruct s as [| c s1]; [discriminate |].
  pose proof Hs as Hs0. inversion_clear Hs as [| ? ? _ Hs1].
  cbn [scan_once] in H.
  destruct (c =? dquote).
  { destruct (scanstring s1) as [[t r'] |] eqn:E; [| discriminate].
    inversion H; subst. now apply scanstring_ok in E. }
  destruct (c =? 123).
  { pose proof (skip_ws_suffix _ _ Hs1) as Hw.
    destruct (skip_ws s1) as [| c1 r1]; [discriminate |].
    inversion_clear Hw as [| ? ? _ Hr1].
    destruct (c1 =? 125); [inversion H; subst; split; [repeat constructor | assumption] |].
    destruct (c1 =? dquote); [| discriminate].
    destruct (object_loop n r1) as [[pairs r'] |] eqn:E; [| discriminate].
    inversion H; subst. apply Hobj in E; [| assumption]. destruct E as [Hp Hr].
    split; [now apply dict_of_pairs_loadable | assumption]. }
  destruct (c =? 91).
  { pose proof (skip_ws_suffix _ _ Hs1) as Hw.
    destruct (skip_ws s1) as [| c1 r1]; [discriminate |].
    destruct (c1 =? 93).
    { inversion H; subst. inversion_clear Hw. split; [exact I | assumption]. }
    destruct (array_loop n (c1 :: r1)) as [[items r'] |] eqn:E; [| discriminate].
    inversion H; subst. apply Harr in E; [| assumption]. destruct E as [Hi Hr].
    split; [now apply loadable_array | assumption]. }
  destruct (Py.strip_prefix (py "null") (c :: s1)) eqn:E1.
  { inversion H; subst. split; [exact I | eapply strip_prefix_suffix; eauto]. }
  destruct (Py.strip_prefix (py "true") (c :: s1)) eqn:E2.
  { inversion H; subst. split; [exact I | eapply strip_prefix_suffix; eauto]. }
  destruct (Py.strip_prefix (py "false") (c :: s1)) eqn:E3.
  { inversion H; subst. split; [exact I | eapply strip_prefix_suffix; eauto]. }
  destruct (match_number (c :: s1)) as [[[[i fr] ex] r'] |] eqn:E4.
  { assert (Forall is_scalar r') by (eapply match_number_suffix; eauto).
    destruct fr, ex; inversion H; subst; now split. }
  destruct (Py.strip_prefix (py "NaN") (c :: s1)) eqn:E5.
  { inversion H; subst. split; [exact I | eapply strip_prefix_suffix; eauto]. }
  destruct (Py.strip_prefix (py "Infinity") (c :: s1)) eqn:E6.
  { inversion H; subst. split; [exact I | eapply strip_prefix_suffix; eauto]. }
  destruct (Py.strip_prefix (py "-Infinity") (c :: s1)) eqn:E7; [| discriminate].
  inversion H; subst. split; [exact I | eapply strip_prefix_suffix; eauto].
Qed.

Lemma array_loop_step n :
  scan_once_ok n -> array_loop_ok n -> array_loop_ok (S n).
Proof.
  intros Hscan Harr s vs r Hs H. rewrite array_loop_eq in H.
  destruct (scan_once n s) as [[v r0] |] eqn:E; [| discriminate].
  apply Hscan in E; [| assumption]. destruct E as [Hv Hr0].
  pose proof (skip_ws_suffix _ _ Hr0) as Hw.
  destruct (skip_ws r0) as [| c r1]; [discriminate |].
  inversion_clear Hw as [| ? ? _ Hr1].
  destruct (c =? 93); [inversion H; subst; split; [now repeat constructor | assumption] |].
  destruct (c =? 44); [| discriminate].
  destruct (array_loop n (skip_ws r1)) as [[vs' r'] |] eqn:E; [| discriminate].
  inversion H; subst. apply Harr in E; [| now apply skip_ws_suffix].
  destruct E. split; [now constructor | assumption].
Qed.

Lemma object_loop_step n :
  scan_once_ok n -> object_loop_ok n -> object_loop_ok (S n).
Proof.
  intros Hscan Hobj s kvs r Hs H. rewrite object_loop_eq in H.
  destruct (scanstring s) as [[key r0] |] eqn:E; [| discriminate].
  apply scanstring_ok in E; [| assumption]. destruct E as [Hkey Hr0].
  pose proof (skip_ws_suffix _ _ Hr0) as Hw.
  destruct (skip_ws r0) as [| c r1]; [discriminate |].
  inversion_clear Hw as [| ? ? _ Hr1].
  destruct (c =? 58); [| discriminate].
  destruct (scan_once n (skip_ws r1)) as [[v r2] |] eqn:E; [| discriminate].
  apply Hscan in E; [| now apply skip_ws_suffix]. destruct E as [Hv Hr2].
  pose proof (skip_ws_suffix _ _ Hr2) as Hw.
  destruct (skip_ws r2) as [| c' r3]; [discriminate |].
  inversion_clear Hw as [| ? ? _ Hr3].
  destruct (c' =? 125);
    [inversion H; subst; split;
     [apply List.Forall_cons; [now split | apply List.Forall_nil] | assumption] |].
  destruct (c' =? 44); [| discriminate].
  pose proof (skip_ws_suffix _ _ Hr3) as Hw.
  destruct (skip_ws r3) as [| q r4]; [discriminate |].
  inversion_clear Hw as [| ? ? _ Hr4].
  destruct (q =? dquote); [| discriminate].
  destruct (object_loop n r4) as [[kvs' r'] |] eqn:E; [| discriminate].
  inversion H; subst. apply Hobj in E; [| assumption].
  destruct E. split; [constructor; [now split | assumption] | assumption].
Qed.

Lemma scanners_ok fuel : scan_once_ok fuel /\ array_loop_ok fuel /\ object_loop_ok fuel.
Proof.
  induction fuel as [| n (Hscan & Harr & Hobj)].
  - split; [| split]; intros a1 a2 a3 _ E; discriminate.
  - split; [now apply scan_once_step |].
    split; [now apply array_loop_step | now apply object_loop_step].
Qed.

(** [json.loads] returns a [loadable] value for any text without
    surrogates, as every decoded file is. *)
Lemma loads_loadable s v : Forall is_scalar s -> loads s = Some v -> loadable v.
Proof.
  unfold loads. intros Hs H. destruct s as [| c s1]; [discriminate |].
  destruct (c =? 65279); [discriminate |].
  destruct (scan_once (fuel_for (c :: s1)) (skip_ws (c :: s1))) as [[v' r] |] eqn:E;
    [| discriminate].
  destruct (skip_ws r); [| discriminate]. inversion H; subst.
  destruct (scanners_ok (fuel_for (c :: s1))) as (Hscan & _).
  apply Hscan in E; [tauto | now apply skip_ws_suffix].
Qed.

End Floats.

End ParseFacts.

(** ** The float model satisfies the interface *)

Module FloatLaws.
Import Json Shapes NumberFacts LexFacts FloatModel.

Lemma model_repr_literal f rest :
  model_class f = IsFinite -> number_ends rest ->
  exists i fr ex,
    match_number (model_repr f ++ rest) = Some (i, fr, ex, rest)
    /\ model_repr f = i ++ fr ++ ex
    /\ (fr <> [] \/ ex <> []).
Proof.
  destruct f as [z | | |]; try discriminate. intros _ Hrest.
  exists (repr_int z), (py ".0"), []. cbn [model_repr].
  split; [| split; [now rewrite app_nil_r | left; discriminate]].
  unfold match_number. rewrite <- app_assoc.
  rewrite match_integer_repr by (cbn; reflexivity).
  assert (span_digits (48 :: rest) = ([48], rest)) as Hs.
  { apply (span_digits_app [48]); [repeat constructor | now apply number_ends_digits]. }
  change (py ".0" ++ rest) with (46 :: 48 :: rest). cbn [match_frac Z.eqb Pos.eqb].
  rewrite Hs. now rewrite match_exp_none.
Qed.

Lemma model_of_repr f :
  model_class f = IsFinite -> model_of_literal (model_repr f) = f.
Proof.
  destruct f as [z | | |]; try discriminate. intros _.
  unfold model_of_literal. cbn [model_repr].
  rewrite match_integer_repr by (cbn; reflexivity). now rewrite parse_int_repr.
Qed.

Lemma model_class_nan f : model_class f = IsNaN <-> f = NaN.
Proof. destruct f; cbn; split; intros H; (reflexivity || discriminate H). Qed.

Lemma model_class_inf f : model_class f = IsInf <-> f = PosInf.
Proof. destruct f; cbn; split; intros H; (reflexivity || discriminate H). Qed.

Lemma model_class_neginf f : model_class f = IsNegInf <-> f = NegInf.
Proof. destruct f; cbn; split; intros H; (reflexivity || discriminate H). Qed.

#[export] Instance model : PyFloat := {|
  pyfloat := model_float;
  float_nan := NaN;
  float_inf := PosInf;
  float_neginf := NegInf;
  float_class := model_class;
  float_of_literal := model_of_literal;
  float_repr := model_repr;
  float_class_nan := model_class_nan;
  float_class_inf := model_class_inf;
  float_class_neginf := model_class_neginf;
  float_repr_literal := model_repr_literal;
  float_of_repr := model_of_repr
|}.

(** The same floats under a name that evaluation does not unfold:
    the runs below are evaluated on worlds whose files hold no
    float, and every event carries the float interface in its
    type. *)
Definition floats : PyFloat.
Proof. exact model. Qed.

End FloatLaws.

Module LogicFacts.
Import Json Builder Logic.

Section Program.
Context {F : PyFloat}.

Lemma wp_run {A} (m : M A) w s Q r s' t :
  m w s = (r, s', t) -> Q r s' t -> wp m w s Q.
Proof. unfold wp. intros E. rewrite E. exact id. Qed.

Lemma wp_inv {A} (m : M A) w s Q r s' t :
  wp m w s Q -> m w s = (r, s', t) -> Q r s' t.
Proof. unfold wp. intros H E. rewrite E in H. exact H. Qed.

Lemma wp_mono {A} (m : M A) w s (Q Q' : result A -> state -> list event -> Prop) :
  wp m w s Q -> (forall r s' t, Q r s' t -> Q' r s' t) -> wp m w s Q'.
Proof. unfold wp. destruct (m w s) as [[r s'] t]. auto. Qed.

Lemma wp_ret {A} (a : A) w s Q : Q (Return a) s [] -> wp (ret a) w s Q.
Proof. exact id. Qed.

Lemma wp_raise {A} e w s (Q : result A -> state -> list event -> Prop) :
  Q (Raise e) s [] -> wp (raise e) w s Q.
Proof. exact id. Qed.

Lemma wp_emit e w s Q : Q (Return tt) s [e] -> wp (emit e) w s Q.
Proof. exact id. Qed.

Lemma wp_bind {A B} (m : M A) (k : A -> M B) w s Q :
  wp m w s (fun r s1 t1 =>
    match r with
    | Return a => wp (k a) w s1 (fun r' s2 t2 => Q r' s2 (t1 ++ t2))
    | Raise e => Q (Raise e) s1 t1
    end) ->
  wp (bind m k) w s Q.
Proof.
  unfold wp, bind. destruct (m w s) as [[[a | e] s1] t1]; [| exact id].
  destruct (k a w s1) as [[r' s2] t2]. exact id.
Qed.

Lemma wp_try_except {A} (m : M A) h w s Q :
  wp m w s (fun r s1 t1 =>
    match r with
    | Return a => Q (Return a) s1 t1
    | Raise e =>
        match h e with
        | Some k => wp k w s1 (fun r' s2 t2 => Q r' s2 (t1 ++ t2))
        | None => Q (Raise e) s1 t1
        end
    end) ->
  wp (try_except m h) w s Q.
Proof.
  unfold wp, try_except. destruct (m w s) as [[[a | e] s1] t1]; [exact id |].
  destruct (h e) as [k |]; [| exact id].
  destruct (k w s1) as [[r' s2] t2]. exact id.
Qed.

Lemma wp_try_finally {A} (m : M A) final w s Q :
  wp m w s (fun r s1 t1 =>
    wp final w s1 (fun r' s2 t2 =>
      match r' with
      | Return _ => Q r s2 (t1 ++ t2)
      | Raise e => Q (Raise e) s2 (t1 ++ t2)
      end)) ->
  wp (try_finally m final) w s Q.
Proof.
  unfold wp, try_finally. destruct (m w s) as [[r s1] t1].
  destruct (final w s1) as [[[u | e] s2] t2]; exact id.
Qed.

End Program.
End LogicFacts.

Module StageFacts.
Import Json Builder Logic LogicFacts Spec.

Arguments Py.str : simpl never.
Arguments docker_version_cmd : simpl never.
Arguments docker_info_cmd : simpl never.
Arguments Py.strip : simpl never.
Arguments Py.rstrip : simpl never.
Arguments Py.join : simpl never.
Arguments Py.split : simpl never.
Arguments loads : simpl never.
Arguments dumps : simpl never.
Arguments Utf8.decode : simpl never.
Arguments Utf8.encode : simpl never.
Arguments Base64.b64encode : simpl never.
Arguments dict_has : simpl never.
Arguments dict_get : simpl never.
Arguments checking : simpl never.

Section Program.
Context {F : PyFloat}.

(** Unfolds the monad and the methods that are straight-line code. *)
Ltac run_monad :=
  cbv beta iota zeta delta
    [wp bind ret raise try_except try_finally emit ask get put sys_exit when
     get_config set_config modify_config print_status console_print log
     subprocess_run exists_path input open_read json_load str_encode bytes_decode
     index write_line stdout_writes loads_stops];
  cbn [fst snd negb app config temp_files unread
       stdout_errors unsearchable int_max_str_digits command_line lenient].

Lemma validate_prerequisites_wp w s Q :
  (forall t, prerequisites_pass w t -> Q (Return true) s t) ->
  (forall t, prerequisites_fail w t -> Q (Return false) s t) ->
  (forall e t, prerequisites_abort w e t -> Q (Raise e) s t) ->
  wp validate_prerequisites w s Q.
Proof.
  intros Hpass Hfail Habort.
  unfold validate_prerequisites, required_files, check_required_files. run_monad.
  destruct (run w docker_version_cmd) as [rc1 out1 | | |] eqn:E1; run_monad.
  2:{ apply Hfail. now constructor. }
  2:{ apply Habort. now constructor. }
  2:{ apply Habort. now constructor. }
  destruct (Z.eqb_spec rc1 0) as [-> | Hrc1]; run_monad.
  2:{ apply Hfail. econstructor; eassumption. }
  destruct (run w docker_info_cmd) as [rc2 out2 | | |] eqn:E2; run_monad.
  2:{ apply Hfail. econstructor; eauto. }
  2:{ apply Hfail. econstructor; eauto. }
  2:{ apply Habort. econstructor; eassumption. }
  destruct (Z.eqb_spec rc2 0) as [-> | Hrc2]; run_monad.
  2:{ apply Hfail. econstructor; eassumption. }
  destruct (path_exists w (py "images/layered/Containerfile")) eqn:E3; run_monad.
  2:{ apply Hfail. econstructor; eassumption. }
  destruct (path_exists w (py "images/custom/Containerfile")) eqn:E4; run_monad.
  2:{ apply Hfail. econstructor; eassumption. }
  apply Hpass. econstructor; eassumption.
Qed.

(** *** [_load_config] *)

Lemma with_config_same s c : config s = Some c -> with_config s c = s.
Proof. destruct s. cbn. now intros ->. Qed.

Lemma apply_env_run mappings : forall w s c,
  config s = Some c ->
  exists t,
    apply_env mappings w s
    = (Return tt, with_config s (env_override (environ w) mappings c), t)
    /\ Forall is_setup t.
Proof.
  induction mappings as [| [env_var key] rest IH]; intros w s c Hc.
  - exists []. cbn [apply_env env_override]. run_monad.
    now rewrite with_config_same.
  - cbn [apply_env env_override]. run_monad.
    destruct (environ w !! env_var) as [v |]; run_monad.
    + rewrite Hc. run_monad.
      destruct (IH w (with_config s (config_set key v c)) (config_set key v c) eq_refl)
        as (t & E & Ht).
      unfold with_config in *. cbn [config temp_files unread] in *. rewrite E.
      eexists. split; [reflexivity |]. apply List.Forall_cons; [exact I | exact Ht].
    + destruct (IH w s c Hc) as (t & -> & Ht). eauto.
Qed.

Lemma load_config_run w s :
  exists t,
    load_config (argv w) w s = (Return tt, with_config s (loaded_config w), t)
    /\ Forall is_setup t.
Proof.
  unfold load_config. run_monad.
  destruct (apply_env_run env_mappings w (with_config s (config_of_args (argv w)))
              (config_of_args (argv w)) eq_refl) as (t & E & Ht).
  unfold with_config in *. cbn [config temp_files unread] in *. rewrite E. eauto.
Qed.

Lemma env_override_flags env mappings : forall c,
  same_flags c (env_override env mappings c).
Proof.
  induction mappings as [| [env_var key] rest IH]; intros c; [now repeat split |].
  cbn [env_override]. destruct (env !! env_var) as [v |]; [| apply IH].
  destruct (IH (config_set key v c)) as (H1 & H2 & H3 & H4 & H5).
  destruct key; repeat split; assumption.
Qed.

End Program.
End StageFacts.

Module StageFacts2.
Import Json Builder Logic LogicFacts Spec StageFacts.

Arguments Py.str : simpl never.
Arguments docker_version_cmd : simpl never.
Arguments docker_info_cmd : simpl never.
Arguments Py.strip : simpl never.
Arguments Py.rstrip : simpl never.
Arguments Py.join : simpl never.
Arguments Py.split : simpl never.
Arguments loads : simpl never.
Arguments dumps : simpl never.
Arguments Utf8.decode : simpl never.
Arguments Utf8.encode : simpl never.
Arguments Base64.b64encode : simpl never.
Arguments dict_has : simpl never.
Arguments dict_get : simpl never.
Arguments checking : simpl never.

Ltac run_monad :=
  cbv beta iota zeta delta
    [wp bind ret raise try_except try_finally emit ask get put sys_exit when
     get_config set_config modify_config print_status console_print log
     subprocess_run exists_path input open_read json_load str_encode bytes_decode
     index write_line stdout_writes loads_stops];
  cbn [fst snd negb app config temp_files unread
       stdout_errors unsearchable int_max_str_digits command_line lenient].

(** Reads a field of a configuration through the assignments made
    to it. *)
Ltac read_config :=
  cbn [apps_file tag build_method frappe_path frappe_branch python_version
       node_version debian_base wkhtmltopdf_version wkhtmltopdf_distro
       interactive dry_run verbose quiet apps_json_base64
       set_apps_file set_tag set_build_method set_frappe_path set_frappe_branch
       set_python_version set_node_version set_apps_json_base64
       config_set config_get config_of_args].

Section Program.
Context {F : PyFloat}.

(** *** [_interactive_config] *)

Lemma interactive_config_wp w s c Q :
  config s = Some c ->
  (forall r s' t c',
      config s' = Some c' -> temp_files s' = temp_files s -> same_flags c c' ->
      Forall is_setup t -> interactive_end r -> Q r s' t) ->
  wp interactive_config w s Q.
Proof.
  intros Hc HQ. unfold interactive_config.
  destruct s as [cfg files u]. cbn [config temp_files] in *. subst cfg.
  repeat
    (run_monad; read_config;
     match goal with
     | |- context [match ?u with _ => _ end] =>
         match type of u with
         | list input_result => destruct u as [| [? | |] ?]
         end
     | |- context [bool_decide ?P] => destruct (bool_decide P)
     end);
    run_monad; read_config;
    (eapply HQ;
     [reflexivity | reflexivity | now repeat split
     | repeat (apply List.Forall_cons; [exact I |]); apply List.Forall_nil
     | unfold interactive_end; auto]).
Qed.

(** *** [_load_apps_config] *)

Lemma dict_get_has k (d : list (pystr * json)) :
  dict_has k d = true -> exists v, dict_get k d = Some v.
Proof.
  unfold dict_has. rewrite bool_decide_eq_true.
  induction d as [| [k' v'] d IH]; cbn [map fst].
  - intros H. now apply not_elem_of_nil in H.
  - intros H.
    change (dict_get k ((k', v') :: d))
      with (if bool_decide (k = k') then Some v' else dict_get k d).
    destruct (decide (k = k')) as [-> | Hne].
    + rewrite bool_decide_eq_true_2 by reflexivity. eauto.
    + rewrite bool_decide_eq_false_2 by assumption.
      apply IH. apply elem_of_cons in H. now destruct H.
Qed.

Lemma validate_apps_run apps : forall i w s,
  (Forall valid_app apps /\ validate_apps i apps w s = (Return tt, s, []))
  \/ (~ Forall valid_app apps
      /\ exists why, validate_apps i apps w s
                     = (Raise (Exception (ValueError why)), s, [])).
Proof.
  induction apps as [| app apps IH]; intros i w s; [left; now split |].
  assert (forall (x : result unit * state * list event) (why : apps_error),
            ~ valid_app app ->
            x = (Raise (Exception (ValueError why)), s, []) ->
            ~ Forall valid_app (app :: apps)
            /\ exists why, x = (Raise (Exception (ValueError why)), s, [])) as Hbad.
  { intros x why Hno E. split; [| eauto]. intros H. now inversion H. }
  cbn [validate_apps].
  destruct app as [| b | z | f | t | items | d];
    try (right; eapply Hbad; [intros (d & E & _); discriminate | reflexivity]).
  destruct (dict_has (py "url") d) eqn:Hurl; cbn [negb].
  2:{ right. eapply Hbad; [| reflexivity].
      intros (d' & [= <-] & Hu & _). congruence. }
  destruct (dict_has (py "branch") d) eqn:Hbranch; cbn [negb].
  2:{ right. eapply Hbad; [| reflexivity].
      intros (d' & [= <-] & _ & Hb). congruence. }
  destruct (IH (S i) w s) as [[Hall E] | [Hnot [why E]]].
  - left. split; [| exact E]. constructor; [| exact Hall]. now exists d.
  - right. split; [| eauto]. intros H. now inversion H.
Qed.

Lemma list_apps_run apps : forall i w s,
  Forall valid_app apps -> list_apps i apps w s = (Return tt, s, app_lines i apps).
Proof.
  induction apps as [| app apps IH]; intros i w s Hall; [reflexivity |].
  inversion_clear Hall as [| ? ? (d & -> & Hurl & Hbranch) Hrest].
  destruct (dict_get_has _ _ Hurl) as (url & Eu).
  destruct (dict_get_has _ _ Hbranch) as (branch & Eb).
  cbn [list_apps app_lines subscript]. rewrite Eu, Eb. run_monad.
  now rewrite IH.
Qed.

Lemma load_apps_config_wp path w s Q :
  (forall apps,
      accepted_apps w path apps ->
      Q (Return apps) s
        (loading path ++ EStatus SUCCESS (MsgAppsLoaded (length apps))
                         :: app_lines 1 apps)) ->
  (forall m,
      rejected_apps w path ->
      Q (Raise (SystemExit 1)) s (loading path ++ [EStatus ERROR m])) ->
  (read_file w path = ReadInterrupted ->
   Q (Raise KeyboardInterrupt) s (loading path)) ->
  (read_file w path = ReadError ->
   Q (Raise (Exception OSError)) s (loading path)) ->
  wp (load_apps_config path) w s Q.
Proof.
  intros Hok Hbad Hint Herr. unfold load_apps_config, loading. run_monad.
  destruct (read_file w path) as [content | | |] eqn:Er; run_monad.
  2:{ apply (Hbad (MsgAppsFileNotFound path)). now apply rejected_missing. }
  2:{ now apply Herr. }
  2:{ now apply Hint. }
  destruct (Utf8.decode content) as [text |] eqn:Ed; run_monad.
  2:{ apply (Hbad (MsgInvalidApps UnicodeDecodeError)).
      eapply rejected_not_text; eassumption. }
  destruct (loads text) as [v |] eqn:El; run_monad.
  2:{ apply (Hbad MsgInvalidJson). eapply rejected_not_json; eassumption. }
  destruct v as [| b | z | f | t | apps | d]; run_monad;
    try (apply (Hbad (MsgInvalidApps (ValueError NotAnArray)));
         eapply rejected_not_array; [eassumption .. | discriminate]).
  destruct (validate_apps_run apps 0%nat w s) as [[Hall E] | [Hnot [why E]]];
    rewrite E; run_monad.
  - rewrite (list_apps_run apps 1%nat w s Hall). run_monad.
    rewrite app_nil_r. apply Hok. exists content, text. auto.
  - apply (Hbad (MsgInvalidApps (ValueError why))).
    eapply rejected_element; eassumption.
Qed.

End Program.
End StageFacts2.

Module StageFacts3.
Import Json Builder Logic LogicFacts Spec StageFacts StageFacts2.
Import Base64Facts Utf8Facts DumpsFacts.

Arguments Py.str : simpl never.
Arguments docker_version_cmd : simpl never.
Arguments docker_info_cmd : simpl never.
Arguments Py.strip : simpl never.
Arguments Py.rstrip : simpl never.
Arguments Py.join : simpl never.
Arguments Py.split : simpl never.
Arguments loads : simpl never.
Arguments dumps : simpl never.
Arguments Utf8.decode : simpl never.
Arguments Utf8.encode : simpl never.
Arguments Base64.b64encode : simpl never.
Arguments dict_has : simpl never.
Arguments dict_get : simpl never.
Arguments checking : simpl never.

Section Program.
Context {F : PyFloat}.

(** *** The encoding of the apps list *)

Lemma str_encode_dumps v w s :
  str_encode (dumps v) w s = (Return (dumps v), s, []).
Proof.
  unfold str_encode. rewrite encode_ascii by apply dumps_at_ascii. reflexivity.
Qed.

Lemma bytes_decode_b64encode v w s :
  bytes_decode (Base64.b64encode (dumps v)) w s
  = (Return (Base64.b64encode (dumps v)), s, []).
Proof.
  unfold bytes_decode. rewrite decode_ascii; [reflexivity |].
  apply b64encode_ascii.
  eapply List.Forall_impl; [apply ascii_is_byte | apply dumps_at_ascii].
Qed.

(** *** [_build_docker_command] *)

Lemma build_docker_command_run w s c b64 :
  config s = Some c -> apps_json_base64 c = Some b64 ->
  build_docker_command w s = (Return (docker_command c b64), s, []).
Proof.
  intros Hc Hb. unfold build_docker_command, get_build_args. run_monad.
  rewrite Hc. run_monad. rewrite Hb. unfold docker_command, build_arg.
  destruct (build_method c) eqn:Hm; run_monad; rewrite Hc; run_monad;
    rewrite Hm; reflexivity.
Qed.

(** *** [_execute_build] *)

Lemma print_build_lines_run lines w s :
  print_build_lines lines w s = (Return tt, s, build_lines lines).
Proof.
  induction lines as [| line lines IH]; [reflexivity |].
  cbn [print_build_lines build_lines map]. run_monad. now rewrite IH.
Qed.

Lemma execute_build_wp cmd w s c Q :
  config s = Some c ->
  (forall success t, executed w c cmd success t -> Q (Return success) s t) ->
  wp (execute_build cmd) w s Q.
Proof.
  intros Hc HQ. unfold execute_build, popen_stream. run_monad. rewrite Hc. run_monad.
  destruct (dry_run c) eqn:Hdry; run_monad.
  { apply HQ. now constructor. }
  destruct (popen w cmd) as [lines rc | | lines] eqn:Ep; run_monad;
    rewrite ?print_build_lines_run; run_monad.
  - destruct (Z.eqb_spec rc 0) as [-> | Hrc]; run_monad; rewrite app_nil_r.
    + apply HQ. eapply executed_success; eassumption.
    + apply HQ. eapply executed_failure; eassumption.
  - apply HQ. now apply executed_spawn_error.
  - rewrite app_nil_r. apply HQ. eapply executed_interrupted; eassumption.
Qed.

(** *** [_print_build_summary] and [_print_config_summary] *)

Lemma split_head sep s : exists p ps, Py.split sep s = p :: ps.
Proof.
  destruct s as [| c s]; [now exists [], [] |].
  unfold Py.split; fold (Py.split sep s).
  destruct (c =? sep); [eauto |]. destruct (Py.split sep s); eauto.
Qed.

(** [s.split(sep)[1]] exists exactly when [sep] occurs in [s]. *)
Lemma split_second sep s : Py.split sep s !! 1%nat = None <-> sep ∉ s.
Proof.
  induction s as [| c s IH].
  - split; [intros _ H; now apply not_elem_of_nil in H | reflexivity].
  - unfold Py.split; fold (Py.split sep s).
    destruct (Z.eqb_spec c sep) as [-> | Hne].
    + destruct (split_head sep s) as (p & ps & ->). cbn.
      split; [discriminate | intros H; exfalso; apply H; left].
    + rewrite not_elem_of_cons.
      destruct (split_head sep s) as (p & ps & E). rewrite E in *. cbn in *.
      rewrite IH. intuition congruence.
Qed.

Lemma print_build_summary_failure w s c :
  config s = Some c ->
  print_build_summary false w s = (Return tt, s, failure_summary).
Proof. intros Hc. unfold print_build_summary. run_monad. now rewrite Hc. Qed.

Lemma print_build_summary_success w s c :
  config s = Some c ->
  exists r last,
    print_build_summary true w s = (r, s, success_summary c ++ last)
    /\ (58 ∈ tag c ->
        r = Return tt
        /\ exists image version, last = [EPrint (NextCompose image version)])
    /\ (58 ∉ tag c -> r = Raise (Exception IndexError) /\ last = []).
Proof.
  intros Hc. unfold print_build_summary. run_monad. rewrite Hc. run_monad.
  destruct (split_head 58 (tag c)) as (image & rest & E). rewrite E.
  pose proof (split_second 58 (tag c)) as H2. rewrite E in H2.
  cbn [lookup list_lookup]. run_monad.
  destruct rest as [| version rest]; cbn [lookup list_lookup] in *; run_monad.
  - exists (Raise (Exception IndexError)), []. split; [reflexivity |].
    split; [| auto]. intros Hin. exfalso. now apply H2.
  - eexists (Return tt), _. split; [reflexivity |].
    split; [intros _; split; [reflexivity | eauto] |].
    intros Hnot. apply H2 in Hnot. discriminate.
Qed.

Lemma print_config_items_run items w s :
  exists t, print_config_items items w s = (Return tt, s, t) /\ Forall is_config_line t.
Proof.
  induction items as [| [key value] items (t & E & Ht)]; [now exists [] |].
  cbn [print_config_items]. run_monad. rewrite E.
  eexists. split; [reflexivity |]. apply List.Forall_cons; [exact I | exact Ht].
Qed.

Lemma print_config_summary_run w s c :
  config s = Some c ->
  exists t, print_config_summary w s = (Return tt, s, t) /\ Forall is_config_line t.
Proof.
  intros Hc. unfold print_config_summary. run_monad. rewrite Hc. run_monad.
  match goal with
  | |- context [print_config_items ?items w s] =>
      destruct (print_config_items_run items w s) as (t & -> & Ht)
  end.
  eexists. split; [reflexivity |]. apply List.Forall_cons; [exact I | exact Ht].
Qed.

(** *** [_cleanup] *)

Lemma cleanup_run w s :
  temp_files s = [] -> cleanup w s = (Return tt, s, [ECleanup]).
Proof. intros H. unfold cleanup. run_monad. now rewrite H. Qed.

End Program.
End StageFacts3.

Module RunFacts.
Import Json Builder Logic LogicFacts Spec Spec2 StageFacts StageFacts2 StageFacts3.

Arguments Py.str : simpl never.
Arguments docker_version_cmd : simpl never.
Arguments docker_info_cmd : simpl never.
Arguments Py.strip : simpl never.
Arguments Py.rstrip : simpl never.
Arguments Py.join : simpl never.
Arguments Py.split : simpl never.
Arguments loads : simpl never.
Arguments dumps : simpl never.
Arguments Utf8.decode : simpl never.
Arguments Utf8.encode : simpl never.
Arguments Base64.b64encode : simpl never.
Arguments dict_has : simpl never.
Arguments dict_get : simpl never.
Arguments checking : simpl never.

Section Program.
Context {F : PyFloat}.

(** *** The first half *)

Lemma configure_wp w Q :
  (forall r s t c,
      config s = Some c -> temp_files s = [] -> Forall is_setup t ->
      same_flags (loaded_config w) c ->
      (interactive (loaded_config w) = false -> c = loaded_config w /\ r = Return tt) ->
      interactive_end r ->
      Q r s t) ->
  wp configure w (initial_state w) Q.
Proof.
  intros HQ. unfold configure.
  destruct (load_config_run w (initial_state w)) as (tl & El & Hl).
  apply wp_bind. eapply wp_run; [reflexivity |]. cbv beta iota.
  apply wp_bind.
  apply wp_run with (r := Return tt) (s' := initial_state w)
                    (t := if args_quiet (argv w) then [ELog LogSetLevelError]
                          else if args_verbose (argv w) then [ELog LogSetLevelDebug]
                          else []);
    [destruct (args_quiet (argv w)), (args_verbose (argv w)); reflexivity |].
  apply wp_bind.
  apply wp_run with (r := Return tt) (s' := initial_state w)
                    (t := if args_quiet (argv w) then [] else [EPrint Banner]);
    [destruct (args_quiet (argv w)); reflexivity |].
  apply wp_bind. eapply wp_run; [exact El |]. cbv beta iota.
  apply wp_bind. eapply wp_run; [reflexivity |]. cbv beta iota.
  assert (Forall is_setup
            ((if args_quiet (argv w) then [ELog LogSetLevelError]
              else if args_verbose (argv w) then [ELog LogSetLevelDebug] else [])
             ++ (if args_quiet (argv w) then [] else [EPrint Banner]) ++ tl)) as Hpre.
  { rewrite !Forall_app. repeat split; [| | exact Hl];
      destruct (args_quiet (argv w)), (args_verbose (argv w));
      repeat (apply List.Forall_cons; [exact I |]); apply List.Forall_nil. }
  unfold when. destruct (interactive (loaded_config w)) eqn:Hi.
  - eapply interactive_config_wp; [reflexivity |].
    intros r s' t c' Hc' Hf Hflags Ht Hr.
    apply (HQ r s' _ c');
      first [ assumption | exact Hf | discriminate
            | pose proof (List.Forall_nil is_setup);
              rewrite !Forall_app in *; tauto ].
  - apply (HQ (Return tt) _ _ (loaded_config w)); try reflexivity.
    + pose proof (List.Forall_nil is_setup). rewrite !Forall_app in *. tauto.
    + now repeat split.
    + auto.
    + now left.
Qed.

Lemma configure_run w :
  exists r s t c,
    configure w (initial_state w) = (r, s, t)
    /\ config s = Some c /\ temp_files s = [] /\ Forall is_setup t
    /\ same_flags (loaded_config w) c
    /\ (interactive (loaded_config w) = false -> c = loaded_config w /\ r = Return tt)
    /\ interactive_end r.
Proof.
  pose proof (configure_wp w
                (fun r s t =>
                   exists c, config s = Some c /\ temp_files s = []
                             /\ Forall is_setup t
                             /\ same_flags (loaded_config w) c
                             /\ (interactive (loaded_config w) = false ->
                                 c = loaded_config w /\ r = Return tt)
                             /\ interactive_end r)) as H.
  unfold wp in H. destruct (configure w (initial_state w)) as [[r s] t].
  destruct H as (c & H); [intros; eexists; eauto 10 |].
  exists r, s, t, c. auto.
Qed.

(** *** From the [try] block to the exit status *)

Lemma build_ends w s c body e :
  bind configure (fun _ => proceed) w (initial_state w) = (Raise e, s, body) ->
  config s = Some c -> temp_files s = [] ->
  main w = ended c body e.
Proof.
  intros Hbody Hc Hf. unfold main, build, try_finally, try_except.
  rewrite Hbody. unfold ended.
  destruct e as [code | | x]; cbn [build_handler]; run_monad;
    rewrite (cleanup_run w s Hf); cbn [exit_status handled_status handler_events];
    rewrite Hc, <- ?app_assoc, ?app_nil_r; reflexivity.
Qed.

Lemma run_of_eq w o o' : run_of w o -> o = o' -> run_of w o'.
Proof. now intros H <-. Qed.

End Program.
End RunFacts.

Module RunFacts2.
Import Json Builder Logic LogicFacts Spec Spec2 StageFacts StageFacts2 StageFacts3 RunFacts.

Arguments Py.str : simpl never.
Arguments docker_version_cmd : simpl never.
Arguments docker_info_cmd : simpl never.
Arguments Py.strip : simpl never.
Arguments Py.rstrip : simpl never.
Arguments Py.join : simpl never.
Arguments Py.split : simpl never.
Arguments loads : simpl never.
Arguments dumps : simpl never.
Arguments Utf8.decode : simpl never.
Arguments Utf8.encode : simpl never.
Arguments Base64.b64encode : simpl never.
Arguments dict_has : simpl never.
Arguments dict_get : simpl never.
Arguments checking : simpl never.

Section Program.
Context {F : PyFloat}.

Ltac close_run ctor :=
  eexists _, _; split; [reflexivity |]; split; [eassumption || reflexivity |];
  split; [eassumption || reflexivity |];
  eapply run_of_eq;
  [ eapply ctor; eauto
  | unfold ended; f_equal; rewrite <- ?app_assoc, ?app_nil_r; reflexivity ].

Ltac close_executed shown0 did0 summary exc :=
  eexists _, _; split; [reflexivity |]; split; [reflexivity |];
  split; [eassumption |];
  eapply run_of_eq;
  [ eapply run_executed with (shown := shown0) (did := did0)
                             (tail := summary) (e := exc); try eassumption
  | unfold ended; f_equal; rewrite <- ?app_assoc, ?app_nil_r; reflexivity ].

Lemma proceed_wp w s pre c :
  configured w (Return tt) pre c -> config s = Some c -> temp_files s = [] ->
  wp proceed w s (fun r s' t => try_block_post w r s' (pre ++ t)).
Proof.
  intros Hcfg Hc Hf. unfold proceed, try_block_post.
  apply wp_bind, validate_prerequisites_wp.
  2:{ intros checks Hfail. eapply wp_run; [reflexivity |]. cbv beta iota.
      close_run run_prerequisites_fail. }
  2:{ intros e checks Habort. close_run run_prerequisites_abort. }
  intros checks Hpass. apply wp_bind. eapply wp_run; [reflexivity |]. cbv beta iota.
  apply wp_bind.
  apply wp_run with (r := Return c) (s' := s) (t := []);
    [unfold get_config; run_monad; now rewrite Hc |].
  apply wp_bind, load_apps_config_wp.
  2:{ intros m Hrej. close_run run_apps_rejected. }
  2:{ intros Hread. close_run run_apps_abort. }
  2:{ intros Hread. close_run run_apps_abort. }
  intros apps Hacc. cbv zeta.
  apply wp_bind. eapply wp_run; [apply str_encode_dumps |]. cbv beta iota.
  apply wp_bind. eapply wp_run; [apply bytes_decode_b64encode |]. cbv beta iota.
  fold (apps_payload apps).
  set (c' := set_apps_json_base64 (apps_payload apps) c).
  apply wp_bind.
  apply wp_run with (r := Return tt) (s' := with_config s c') (t := []);
    [unfold modify_config, get_config; run_monad; rewrite Hc; reflexivity |].
  apply wp_bind.
  apply wp_run with (r := Return c') (s' := with_config s c') (t := []);
    [reflexivity |].
  assert (exists shown,
            when (negb (quiet c')) print_config_summary w (with_config s c')
            = (Return tt, with_config s c', shown)
            /\ Forall is_config_line shown /\ (quiet c = true -> shown = []))
    as (shown & Eshown & Hshown & Hquiet).
  { change (quiet c') with (quiet c). destruct (quiet c); cbn [negb when].
    - exists []. repeat split. constructor.
    - destruct (print_config_summary_run w (with_config s c') c' eq_refl)
        as (t & E & Ht).
      exists t. repeat split; [assumption | assumption | discriminate]. }
  apply wp_bind. eapply wp_run; [exact Eshown |]. cbv beta iota.
  apply wp_bind.
  eapply wp_run;
    [apply (build_docker_command_run w (with_config s c') c' (apps_payload apps));
     reflexivity |].
  cbv beta iota.
  apply wp_bind. eapply execute_build_wp; [reflexivity |].
  intros success did Hdid.
  apply wp_bind.
  apply wp_run with (r := Return c') (s' := with_config s c') (t := []);
    [reflexivity |].
  destruct (quiet c') eqn:Hq; cbn [negb when].
  - apply wp_bind. eapply wp_run; [reflexivity |]. cbv beta iota.
    eapply wp_run; [reflexivity |].
    close_executed shown did (@nil event) (SystemExit (if success then 0 else 1)).
    now constructor.
  - destruct success.
    + destruct (print_build_summary_success w (with_config s c') c' eq_refl)
        as (r & last & Es & Hin & Hnot).
      apply wp_bind. eapply wp_run; [exact Es |].
      destruct (decide (58 ∈ tag c')) as [Htag | Htag].
      * destruct (Hin Htag) as (-> & image & version & ->).
        eapply wp_run; [reflexivity |].
        close_executed shown did
          (success_summary c' ++ [EPrint (NextCompose image version)]) (SystemExit 0).
        now apply reported_success.
      * destruct (Hnot Htag) as [-> ->].
        close_executed shown did (success_summary c') (Exception IndexError).
        now apply reported_index_error.
    + apply wp_bind.
      eapply wp_run; [apply (print_build_summary_failure w _ c'); reflexivity |].
      cbv beta iota. eapply wp_run; [reflexivity |].
      close_executed shown did failure_summary (SystemExit 1). now constructor.
Qed.

(** Every run of the program is one of [run_of]. *)
Lemma main_runs w : run_of w (main w).
Proof.
  destruct (configure_run w) as (r & s & pre & c & Ec & Hc & Hf & Hpre & Hflags & Hni & Hr).
  pose proof (proceed_wp w s pre c) as Hp.
  assert (wp (bind configure (fun _ => proceed)) w (initial_state w)
            (try_block_post w)) as H.
  { apply wp_bind. eapply wp_run; [exact Ec |].
    destruct Hr as [-> | [-> | ->]].
    - apply Hp; [exists s; auto | assumption | assumption].
    - exists KeyboardInterrupt, c. repeat split; try assumption.
      apply run_unconfigured. exists s. auto.
    - exists (Exception EOFError), c. repeat split; try assumption.
      apply run_unconfigured. exists s. auto. }
  unfold wp in H.
  destruct (bind configure (fun _ => proceed) w (initial_state w))
    as [[r' s'] t'] eqn:Eb.
  destruct H as (e & c' & -> & Hc' & Hf' & Hrun).
  now rewrite (build_ends w s' c' t' e Eb Hc' Hf').
Qed.

End Program.
End RunFacts2.

(** ** What the runs have in common *)

Module Traces.
Import Json Builder Logic LogicFacts Spec Spec2 Observe.
Import StageFacts StageFacts2 StageFacts3 RunFacts RunFacts2.

Section Program.
Context {F : PyFloat}.

Lemma main_cases w (P : run_outcome -> Prop) :
  (forall o, run_of w o -> P o) -> P (main w).
Proof. intros H. apply H, main_runs. Qed.

Lemma loaded_flags w :
  same_flags (config_of_args (argv w)) (loaded_config w).
Proof. apply env_override_flags. Qed.

Lemma configured_facts w r pre c :
  configured w r pre c ->
  Forall is_setup pre
  /\ interactive c = args_interactive (argv w)
  /\ dry_run c = args_dry_run (argv w)
  /\ quiet c = args_quiet (argv w)
  /\ apps_json_base64 c = None
  /\ (args_interactive (argv w) = false -> c = loaded_config w /\ r = Return tt)
  /\ interactive_end r.
Proof.
  intros (s & E & Hc & _).
  destruct (configure_run w)
    as (r' & s' & t' & c' & E' & Hc' & _ & Hpre & Hflags & Hni & Hr).
  rewrite E in E'. injection E' as <- <- <-.
  rewrite Hc in Hc'. injection Hc' as <-.
  destruct (loaded_flags w) as (L1 & L2 & L3 & L4 & L5).
  destruct Hflags as (H1 & H2 & H3 & H4 & H5).
  cbn [config_of_args interactive dry_run verbose quiet apps_json_base64] in *.
  repeat split; try congruence; apply Hni; congruence.
Qed.

Lemma final_config_ended c t e : final_config (ended c t e) = Some c.
Proof. reflexivity. Qed.

(** Every run leaves a configuration. *)
Lemma final_config_some w : exists c, final_config (main w) = Some c.
Proof. apply main_cases. intros o []; eexists; reflexivity. Qed.

Lemma accepted_not_rejected w p apps :
  accepted_apps w p apps -> rejected_apps w p -> False.
Proof.
  intros (content & text & Er & Ed & El & Hall) Hrej.
  destruct Hrej as [E | ? E E' | ? ? E E' E'' | ? ? v E E' E'' Hv | ? ? ? E E' E'' Hno];
    rewrite Er in E; try discriminate; injection E as <-;
    rewrite Ed in E'; try discriminate; injection E' as <-;
    rewrite El in E''; try discriminate; injection E'' as <-.
  - now apply (Hv apps).
  - now apply Hno.
Qed.

Lemma in_setup pre e : Forall is_setup pre -> In e pre -> is_setup e.
Proof. intros H Hin. rewrite List.Forall_forall in H. now apply H. Qed.

Lemma in_config_lines shown e :
  Forall is_config_line shown -> In e shown -> is_config_line e.
Proof. intros H Hin. rewrite List.Forall_forall in H. now apply H. Qed.

Lemma in_app_lines e apps : forall i,
  In e (app_lines i apps) -> exists j url branch, e = EStatus INFO (MsgApp j url branch).
Proof.
  induction apps as [| app apps IH]; intros i H; [destruct H |].
  cbn [app_lines] in H. destruct app as [| | | | | | d]; try destruct H.
  destruct (dict_get (py "url") d) as [url |]; [| destruct H].
  destruct (dict_get (py "branch") d) as [branch |]; [| destruct H].
  destruct H as [<- | H]; [eauto | eauto].
Qed.

Lemma in_build_lines e lines :
  In e (build_lines lines) -> exists line, e = EPrint (BuildOutput line).
Proof.
  unfold build_lines. rewrite in_map_iff. intros (line & <- & _). eauto.
Qed.

End Program.

(** Splits the hypotheses that an event belongs to the events of a
    run into the places it can come from. *)
Ltac in_trace :=
  repeat match goal with
    | H : In _ (_ ++ _) |- _ => apply in_app_or in H; destruct H as [H | H]
    | H : In _ (_ :: _) |- _ => destruct H as [H | H]
    | H : In _ [] |- _ => destruct H
    | H : In _ ?pre, Hp : Forall is_setup ?pre |- _ =>
        apply (in_setup _ _ Hp) in H; cbn in H; try contradiction
    | H : In _ ?shown, Hp : Forall is_config_line ?shown |- _ =>
        apply (in_config_lines _ _ Hp) in H; cbn in H; try contradiction
    | H : In _ (app_lines _ _) |- _ =>
        apply in_app_lines in H; destruct H as (? & ? & ? & H)
    | H : In _ (build_lines _) |- _ =>
        apply in_build_lines in H; destruct H as (? & H)
    | H : In _ (events (ended _ _ _)) |- _ => cbn [events ended] in H
    | H : In _ (handler_events _) |- _ => cbn [handler_events] in H
    | H : In _ (loading _) |- _ => unfold loading in H
    | H : In _ (apps_loaded _ _) |- _ => unfold apps_loaded in H
    | H : In _ (starting _) |- _ => unfold starting in H
    | H : In _ failure_summary |- _ => unfold failure_summary in H
    | H : In _ (success_summary _) |- _ => unfold success_summary in H
    end.

End Traces.

Module Traces2.
Import Json Builder Logic LogicFacts Spec Spec2 Observe Traces.
Import StageFacts StageFacts2 StageFacts3 RunFacts RunFacts2.

Section Program.
Context {F : PyFloat}.

Lemma version_not_info : docker_version_cmd <> docker_info_cmd.
Proof. intros H. vm_compute in H. discriminate H. Qed.

Lemma rejected_read w p :
  rejected_apps w p ->
  read_file w p = NoSuchFile \/ exists content, read_file w p = FileBytes content.
Proof. intros []; eauto. Qed.

End Program.

(** Proves that an event is among the events of a run. *)
Ltac find_in :=
  match goal with
  | |- _ \/ _ => (left; find_in) || (right; find_in)
  | |- _ = _ => reflexivity
  | |- In _ _ => assumption
  end.

Ltac in_run :=
  cbn [events ended handler_events];
  try unfold failure_summary; try unfold success_summary; try unfold starting;
  try unfold loading; try unfold apps_loaded;
  repeat progress (rewrite ?in_app_iff; cbn [In]); find_in.

(** Closes a case in which a check is said to have failed although
    the run shows that it passed, or was not made. *)
Ltac absurd_check :=
  repeat match goal with
    | H : ?x = ?x |- _ => clear H
    | H : ERun _ = ERun _ |- _ => injection H as H
    | H : EExists _ = EExists _ |- _ => injection H as H
    | H : EOpen _ = EOpen _ |- _ => injection H as H
    end;
  subst;
  try discriminate; try contradiction;
  try match goal with
    | H : docker_version_cmd = docker_info_cmd |- _ =>
        exfalso; exact (version_not_info H)
    | H : docker_info_cmd = docker_version_cmd |- _ =>
        exfalso; symmetry in H; exact (version_not_info H)
    | Hf : run_failed (run ?w ?cmd), E : run ?w ?cmd = _ |- _ =>
        exfalso; rewrite E in Hf; cbn in Hf; first [contradiction | congruence]
    | Hf : path_exists ?w ?f = false, E : path_exists ?w ?f = true |- _ =>
        exfalso; congruence
    | Ha : accepted_apps ?w ?p _, Hr : rejected_apps ?w ?p |- _ =>
        exfalso; exact (accepted_not_rejected _ _ _ Ha Hr)
    | Hr : rejected_apps ?w ?p, E : read_file ?w ?p = _ |- _ =>
        exfalso; destruct (rejected_read _ _ Hr) as [E' | [? E']]; congruence
    end.

(** Replaces the string literals of a hypothesis by their code
    points. *)
Ltac eval_py_in H :=
  repeat match type of H with
         | context [Py.str ?s] =>
             let v := eval vm_compute in (Py.str s) in
             change (Py.str s) with v in H
         end.

End Traces2.

Module Traces3.
Import Json Builder Logic LogicFacts Spec Spec2 Observe Traces Traces2.
Import StageFacts StageFacts2 StageFacts3 RunFacts RunFacts2.
Import Base64Facts Utf8Facts DumpsFacts ParseFacts.

Section Program.
Context {F : PyFloat}.


Lemma accepted_loadable w p apps : accepted_apps w p apps -> loadable (JArr apps).
Proof.
  intros (content & text & _ & Ed & El & _).
  eapply loads_loadable; [eapply decode_scalar; exact Ed | exact El].
Qed.

(** The configuration a run leaves is the one the first half
    resolved, with [apps_json_base64] added when the apps file was
    accepted. *)
Lemma final_config_cases w c :
  final_config (main w) = Some c ->
  exists r pre c0,
    configured w r pre c0
    /\ (c = c0
        \/ exists apps,
             accepted_apps w (apps_file c0) apps
             /\ c = set_apps_json_base64 (apps_payload apps) c0).
Proof.
  apply (main_cases w). intros o Hrun Hc.
  destruct Hrun; injection Hc as <-; eauto 10.
Qed.

(** *** The environment *)

Lemma env_override_get env var key v c :
  In (var, key) env_mappings -> env !! var = Some v ->
  config_get key (env_override env env_mappings c) = v.
Proof.
  unfold env_mappings. intros Hin Hv.
  destruct Hin as [[= <- <-] | [[= <- <-] | [[= <- <-] | [[= <- <-] | [[= <- <-] | [[= <- <-] | []]]]]]];
    cbn [env_override]; rewrite Hv;
    repeat match goal with
           | |- context [env !! ?k] => destruct (env !! k)
           end;
    reflexivity.
Qed.

Lemma config_get_payload key b c :
  config_get key (set_apps_json_base64 b c) = config_get key c.
Proof. now destruct key. Qed.

(** *** The interactive session *)

Lemma interactive_config_answered w c0 files a1 a2 a3 a4 a5 a6 rest :
  exists t u,
    interactive_config w
      {| config := Some c0; temp_files := files;
         unread := Line a1 :: Line a2 :: Line a3 :: Line a4 :: Line a5 :: Line a6 :: rest |}
    = (Return tt,
       {| config := Some (answered a1 a2 a3 a4 a5 a6 c0); temp_files := files;
          unread := u |},
       t).
Proof.
  unfold interactive_config, answered.
  do 6 (run_monad; read_config).
  destruct (bool_decide (Py.strip a1 = py "2"));
    do 4 (run_monad; read_config); eexists _, _; reflexivity.
Qed.

Lemma configured_answered w r pre c a1 a2 a3 a4 a5 a6 rest :
  args_interactive (argv w) = true ->
  stdin w = Line a1 :: Line a2 :: Line a3 :: Line a4 :: Line a5 :: Line a6 :: rest ->
  configured w r pre c ->
  c = answered a1 a2 a3 a4 a5 a6 (loaded_config w) /\ r = Return tt.
Proof.
  intros Hi Hin (s & E & Hc & _).
  assert (wp configure w (initial_state w)
            (fun r s t => config s = Some (answered a1 a2 a3 a4 a5 a6 (loaded_config w))
                          /\ r = Return tt)) as H.
  { unfold configure.
    destruct (load_config_run w (initial_state w)) as (tl & El & _).
    apply wp_bind. eapply wp_run; [reflexivity |]. cbv beta iota.
    apply wp_bind.
    apply wp_run with (r := Return tt) (s' := initial_state w)
                      (t := if args_quiet (argv w) then [ELog LogSetLevelError]
                            else if args_verbose (argv w) then [ELog LogSetLevelDebug]
                            else []);
      [destruct (args_quiet (argv w)), (args_verbose (argv w)); reflexivity |].
    apply wp_bind.
    apply wp_run with (r := Return tt) (s' := initial_state w)
                      (t := if args_quiet (argv w) then [] else [EPrint Banner]);
      [destruct (args_quiet (argv w)); reflexivity |].
    apply wp_bind. eapply wp_run; [exact El |]. cbv beta iota.
    apply wp_bind. eapply wp_run; [reflexivity |]. cbv beta iota.
    destruct (loaded_flags w) as (L1 & _).
    cbn [config_of_args interactive] in L1. rewrite L1, Hi. cbn [when].
    unfold with_config, initial_state. cbn [config temp_files unread]. rewrite Hin.
    destruct (interactive_config_answered w (loaded_config w) [] a1 a2 a3 a4 a5 a6 rest)
      as (t & u & Ei).
    eapply wp_run; [exact Ei |]. split; reflexivity. }
  unfold wp in H. rewrite E in H. destruct H as [H ->]. split; [congruence | reflexivity].
Qed.

End Program.
End Traces3.

(** ** The first half of [build], event by event *)

Module SetupFacts.
Import Json Builder.
Import Logic LogicFacts Spec Spec2 Observe Traces Traces2 Traces3.
Import StageFacts StageFacts2 StageFacts3 RunFacts RunFacts2.

Section Program.
Context {F : PyFloat}.

Lemma apply_env_lines mappings : forall w s c,
  config s = Some c ->
  apply_env mappings w s
  = (Return tt, with_config s (env_override (environ w) mappings c),
     env_lines (environ w) mappings).
Proof.
  induction mappings as [| [env_var key] rest IH]; intros w s c Hc.
  - cbn [apply_env env_override env_lines]. run_monad.
    now rewrite with_config_same.
  - cbn [apply_env env_override env_lines]. run_monad.
    destruct (environ w !! env_var) as [v |]; run_monad.
    + rewrite Hc. run_monad.
      pose proof (IH w (with_config s (config_set key v c)) (config_set key v c) eq_refl)
        as E.
      unfold with_config in *. cbn [config temp_files unread] in *. now rewrite E.
    + now rewrite (IH w s c Hc).
Qed.

Lemma load_config_lines w s :
  load_config (argv w) w s
  = (Return tt, with_config s (loaded_config w), env_lines (environ w) env_mappings).
Proof.
  unfold load_config. run_monad.
  pose proof (apply_env_lines env_mappings w
                (with_config s (config_of_args (argv w)))
                (config_of_args (argv w)) eq_refl) as E.
  unfold with_config in *. cbn [config temp_files unread] in *. now rewrite E.
Qed.

Lemma env_override_unset env var key c :
  In (var, key) env_mappings -> env !! var = None ->
  config_get key (env_override env env_mappings c) = config_get key c.
Proof.
  unfold env_mappings. intros Hin Hv.
  destruct Hin as [[= <- <-] | [[= <- <-] | [[= <- <-] | [[= <- <-] | [[= <- <-] | [[= <- <-] | []]]]]]];
    cbn [env_override]; rewrite Hv;
    repeat match goal with
           | |- context [env !! ?k] => destruct (env !! k)
           end;
    reflexivity.
Qed.

Lemma interactive_config_asks w s c Q :
  config s = Some c ->
  (forall r s' t,
      Forall is_prompt t -> In (EInput AskBuildMethod) t ->
      (r = Raise KeyboardInterrupt -> In InputInterrupted (unread s)) ->
      Q r s' t) ->
  wp interactive_config w s Q.
Proof.
  intros Hc HQ. unfold interactive_config.
  destruct s as [cfg files u]. cbn [config temp_files unread] in *. subst cfg.
  repeat
    (run_monad; read_config;
     match goal with
     | |- context [match ?u with _ => _ end] =>
         match type of u with
         | list input_result => destruct u as [| [? | |] ?]
         end
     | |- context [bool_decide ?P] => destruct (bool_decide P)
     end);
    run_monad; read_config;
    (eapply HQ;
     [ repeat (apply List.Forall_cons; [exact I |]); apply List.Forall_nil
     | cbn [In]; find_in
     | first [discriminate | intros _; cbn [In]; find_in] ]).
Qed.

(** The events of the first half: the log level and the banner,
    the lines of the environment, the prompts. *)
Lemma configure_events w :
  exists r s asked,
    configure w (initial_state w)
    = (r, s, opening (argv w) ++ env_lines (environ w) env_mappings ++ asked)
    /\ Forall is_prompt asked
    /\ (args_interactive (argv w) = false -> asked = [])
    /\ (args_interactive (argv w) = true -> In (EInput AskBuildMethod) asked)
    /\ (r = Raise KeyboardInterrupt -> In InputInterrupted (stdin w)).
Proof.
  assert (wp configure w (initial_state w)
            (fun r s t =>
               exists asked,
                 t = opening (argv w) ++ env_lines (environ w) env_mappings ++ asked
                 /\ Forall is_prompt asked
                 /\ (args_interactive (argv w) = false -> asked = [])
                 /\ (args_interactive (argv w) = true ->
                     In (EInput AskBuildMethod) asked)
                 /\ (r = Raise KeyboardInterrupt -> In InputInterrupted (stdin w))))
    as H.
  { unfold configure, opening.
    apply wp_bind. eapply wp_run; [reflexivity |]. cbv beta iota.
    apply wp_bind.
    apply wp_run with (r := Return tt) (s' := initial_state w)
                      (t := if args_quiet (argv w) then [ELog LogSetLevelError]
                            else if args_verbose (argv w) then [ELog LogSetLevelDebug]
                            else []);
      [destruct (args_quiet (argv w)), (args_verbose (argv w)); reflexivity |].
    apply wp_bind.
    apply wp_run with (r := Return tt) (s' := initial_state w)
                      (t := if args_quiet (argv w) then [] else [EPrint Banner]);
      [destruct (args_quiet (argv w)); reflexivity |].
    apply wp_bind. eapply wp_run; [apply load_config_lines |]. cbv beta iota.
    apply wp_bind. eapply wp_run; [reflexivity |]. cbv beta iota.
    destruct (loaded_flags w) as (L1 & _).
    cbn [config_of_args interactive] in L1. rewrite L1.
    destruct (args_interactive (argv w)); cbn [when].
    - eapply interactive_config_asks; [reflexivity |].
      intros r s' t Ht Hfirst Hint. exists t. cbn [app]. rewrite <- !app_assoc.
      split; [reflexivity |]. split; [exact Ht |]. split; [discriminate |].
      split; [intros _; exact Hfirst | exact Hint].
    - exists []. cbn [app]. rewrite <- !app_assoc, !app_nil_r.
      split; [reflexivity |]. split; [constructor |]. split; [reflexivity |].
      split; discriminate. }
  unfold wp in H. destruct (configure w (initial_state w)) as [[r s] t].
  destruct H as (asked & -> & H). exists r, s, asked. auto.
Qed.

Lemma configured_events w r pre c :
  configured w r pre c ->
  exists asked,
    pre = opening (argv w) ++ env_lines (environ w) env_mappings ++ asked
    /\ Forall is_prompt asked
    /\ (args_interactive (argv w) = false -> asked = [])
    /\ (args_interactive (argv w) = true -> In (EInput AskBuildMethod) asked)
    /\ (r = Raise KeyboardInterrupt -> In InputInterrupted (stdin w)).
Proof.
  intros (s & E & _).
  destruct (configure_events w) as (r' & s' & asked & E' & H).
  rewrite E in E'. injection E' as <- _ ->. eauto.
Qed.

Lemma configured_functional w r pre c r' pre' c' :
  configured w r pre c -> configured w r' pre' c' ->
  r = r' /\ pre = pre' /\ c = c'.
Proof.
  intros (s & E & Hc & _) (s' & E' & Hc' & _).
  rewrite E in E'. injection E' as <- <- <-.
  repeat split. congruence.
Qed.

Lemma in_env_lines e env mappings :
  In e (env_lines env mappings) ->
  exists var key v,
    In (var, key) mappings /\ env !! var = Some v
    /\ e = EStatus INFO (MsgFromEnvironment key v).
Proof.
  induction mappings as [| [var key] rest IH]; [intros [] |].
  cbn [env_lines]. destruct (env !! var) as [v |] eqn:E.
  - intros [<- | H].
    + exists var, key, v. repeat split; [now left | assumption].
    + destruct (IH H) as (var' & key' & v' & Hin & Hv & ->).
      exists var', key', v'. repeat split; [now right | assumption].
  - intros H. destruct (IH H) as (var' & key' & v' & Hin & Hv & ->).
    exists var', key', v'. repeat split; [now right | assumption].
Qed.

Lemma env_lines_in env mappings var key v :
  In (var, key) mappings -> env !! var = Some v ->
  In (EStatus INFO (MsgFromEnvironment key v)) (env_lines env mappings).
Proof.
  induction mappings as [| [var' key'] rest IH]; [intros [] |].
  intros [[= -> ->] | Hin] Hv; cbn [env_lines].
  - rewrite Hv. now left.
  - destruct (env !! var'); [right |]; now apply IH.
Qed.

(** When the checks passed and the apps file was accepted, the
    events show it. *)
Lemma executed_checks_passed w c pre checks p apps rest e :
  prerequisites_pass w checks -> accepted_apps w p apps ->
  checks_passed w
    (events (ended c (pre ++ checks ++ apps_loaded p apps ++ rest) e)).
Proof.
  intros Hpass Hacc. destruct Hpass. unfold checks_passed.
  split; [split; [in_run | eauto] |].
  split; [split; [in_run | eauto] |].
  split.
  - intros f Hf. unfold required_files in Hf.
    destruct Hf as [<- | [<- | []]]; (split; [in_run | assumption]).
  - exists p, apps. split; [in_run | assumption].
Qed.




Lemma in_prompts asked e : Forall is_prompt asked -> In e asked -> is_prompt e.
Proof. intros H Hin. rewrite List.Forall_forall in H. now apply H. Qed.

End Program.

(** Splits the hypotheses that an event belongs to the first half. *)
Ltac in_setup_trace :=
  repeat match goal with
    | H : In _ (opening _) |- _ => unfold opening in H
    | H : In _ (_ ++ _) |- _ => apply in_app_or in H; destruct H as [H | H]
    | H : In _ (if ?b then _ else _) |- _ => destruct b
    | H : In _ (_ :: _) |- _ => destruct H as [H | H]
    | H : In _ [] |- _ => destruct H
    | H : In _ (env_lines _ _) |- _ =>
        apply in_env_lines in H; destruct H as (? & ? & ? & _ & _ & H)
    | H : In _ ?asked, Hp : Forall is_prompt ?asked |- _ =>
        apply (in_prompts _ _ Hp) in H; cbn in H; try contradiction
    end.


End SetupFacts.

(** ** The runtime: the methods one by one *)

Module GeneralFacts.
Import Json Builder.
Import Logic LogicFacts Spec Spec2 Observe General Traces Traces2 Traces3.
Import StageFacts StageFacts2 StageFacts3 RunFacts RunFacts2 SetupFacts.

(** Unfolds the monad and the straight-line methods, leaving the
    questions put to the runtime. *)
Ltac run_step :=
  cbv beta iota zeta delta
    [wp bind ret raise try_except try_finally emit ask get put sys_exit when
     get_config set_config modify_config print_status console_print log
     subprocess_run exists_path input open_read json_load str_encode bytes_decode
     index write_line];
  cbn [fst snd negb app config temp_files unread message_texts printed_texts copied].

Section Program.
Context {F : PyFloat} {R : Runtime}.

Lemma writes_nil : stdout_writes [] = true.
Proof. unfold stdout_writes. now destruct stdout_errors. Qed.

Lemma writes_cons t ts :
  stdout_writes (t :: ts) = stdout_writes [t] && stdout_writes ts.
Proof.
  unfold stdout_writes. destruct stdout_errors; cbn [forallb];
    rewrite ?andb_true_r; reflexivity.
Qed.

Lemma writes_app ts us :
  stdout_writes (ts ++ us) = stdout_writes ts && stdout_writes us.
Proof.
  induction ts as [| t ts IH]; cbn [app]; [now rewrite writes_nil |].
  rewrite writes_cons, (writes_cons t ts), IH. now rewrite andb_assoc.
Qed.

(** A text of the program itself can be written. *)
Lemma writes_literal s : stdout_writes [py s] = true.
Proof.
  unfold stdout_writes.
  assert (forallb encodable (py s) = true) as H.
  { induction s as [| a s IH]; [reflexivity |].
    change (py (String a s)) with (Py.ord a :: py s).
    cbn [forallb]. rewrite IH, andb_true_r.
    unfold encodable, Py.is_surrogate, Py.ord.
    pose proof (N_ascii_bounded a) as Hb.
    destruct (Z.leb_spec 55296 (Z.of_N (N_of_ascii a))); [lia | reflexivity]. }
  assert (forallb escapable (py s) = true) as H'.
  { clear H. induction s as [| a s IH]; [reflexivity |].
    change (py (String a s)) with (Py.ord a :: py s).
    cbn [forallb]. rewrite IH, andb_true_r.
    unfold escapable, encodable, Py.is_surrogate, Py.ord.
    pose proof (N_ascii_bounded a) as Hb.
    destruct (Z.leb_spec 55296 (Z.of_N (N_of_ascii a))); [lia | reflexivity]. }
  destruct stdout_errors; cbn [forallb]; rewrite ?H, ?H'; reflexivity.
Qed.

Lemma calm_cons e t : calm e -> Forall calm t -> Forall calm (e :: t).
Proof. now constructor. Qed.

(** A text made of characters of a text that can be written can
    be written. *)
Lemma writes_sub s t :
  (forall x, In x s -> In x t) ->
  stdout_writes [t] = true -> stdout_writes [s] = true.
Proof.
  unfold stdout_writes. intros Hsub.
  destruct stdout_errors; cbn [forallb]; rewrite ?andb_true_r;
    try reflexivity; rewrite !forallb_forall; auto.
Qed.

Lemma split_sub sep s : forall p x, In p (Py.split sep s) -> In x p -> In x s.
Proof.
  induction s as [| c s IH]; intros p x.
  - intros [<- | []] [].
  - unfold Py.split; fold (Py.split sep s).
    destruct (c =? sep).
    + intros [<- | Hp] Hx; [destruct Hx | right; eauto].
    + destruct (Py.split sep s) as [| q qs] eqn:E.
      * intros [<- | []] [<- | []]. now left.
      * intros [<- | Hp] Hx.
        -- destruct Hx as [<- | Hx]; [now left | right].
           apply (IH q); [now left | exact Hx].
        -- right. apply (IH p); [now right | exact Hx].
Qed.

Lemma join_sub sep parts : forall p x,
  In p parts -> In x p -> In x (Py.join sep parts).
Proof.
  induction parts as [| q qs IH]; intros p x; [intros [] |].
  intros Hp Hx.
  change (Py.join sep (q :: qs))
    with (match qs with [] => q | _ => q ++ sep ++ Py.join sep qs end).
  destruct Hp as [<- | Hp].
  - destruct qs; [exact Hx | apply in_or_app; now left].
  - destruct qs as [| q' qs']; [destruct Hp |].
    apply in_or_app. right. apply in_or_app. right. now apply (IH p).
Qed.

(** *** [_load_config] *)

Lemma apply_env_on mappings : forall w s c,
  config s = Some c ->
  (env_writable (environ w) mappings
   /\ apply_env mappings w s
      = (Return tt, with_config s (env_override (environ w) mappings c),
         env_lines (environ w) mappings))
  \/ exists before var key v after,
       mappings = before ++ (var, key) :: after
       /\ env_writable (environ w) before
       /\ environ w !! var = Some v /\ stdout_writes [v] = false
       /\ apply_env mappings w s
          = (Raise (Exception UnicodeEncodeError),
             with_config s (config_set key v (env_override (environ w) before c)),
             env_lines (environ w) before).
Proof.
  unfold env_writable.
  induction mappings as [| [env_var key] rest IH]; intros w s c Hc.
  - left. split; [constructor |]. cbn [apply_env env_override env_lines]. run_step.
    now rewrite with_config_same.
  - cbn [apply_env env_override env_lines]. run_step.
    destruct (environ w !! env_var) as [v |] eqn:Ev; run_step.
    + rewrite Hc. run_step.
      destruct (stdout_writes [v]) eqn:Hv; run_step.
      * destruct (IH w (with_config s (config_set key v c)) (config_set key v c)
                    eq_refl)
          as [[Hall E] | (before & var & key' & v' & after & -> & Hall & Ev' & Hv' & E)];
          unfold with_config in *; cbn [config temp_files unread] in *; rewrite E.
        -- left. split; [| reflexivity]. now constructor.
        -- right. exists ((env_var, key) :: before), var, key', v', after.
           cbn [app env_lines env_override]. rewrite Ev.
           repeat split; try assumption. now constructor.
      * right. exists [], env_var, key, v, rest.
        cbn [app env_lines env_override].
        repeat split; try assumption. constructor.
    + destruct (IH w s c Hc)
        as [[Hall E] | (before & var & key' & v' & after & -> & Hall & Ev' & Hv' & E)];
        rewrite E.
      * left. now split.
      * right. exists ((env_var, key) :: before), var, key', v', after.
        cbn [app env_lines env_override]. rewrite Ev. repeat split; assumption.
Qed.

Lemma load_config_on w s :
  (env_writable (environ w) env_mappings
   /\ load_config (argv w) w s
      = (Return tt, with_config s (loaded_config w),
         env_lines (environ w) env_mappings))
  \/ exists before var key v,
       env_stops (environ w) before var key v
       /\ load_config (argv w) w s
          = (Raise (Exception UnicodeEncodeError),
             with_config s
               (config_set key v
                  (env_override (environ w) before (config_of_args (argv w)))),
             env_lines (environ w) before).
Proof.
  unfold load_config, env_stops. run_step.
  destruct (apply_env_on env_mappings w (with_config s (config_of_args (argv w)))
              (config_of_args (argv w)) eq_refl)
    as [[Hall E] | (before & var & key & v & after & Em & Hall & Ev & Hv & E)];
    unfold with_config in *; cbn [config temp_files unread] in *; rewrite E.
  - left. now split.
  - right. exists before, var, key, v. repeat split; eauto.
Qed.


(** *** [_interactive_config] and the first half of [build] *)

Lemma print_status_const m l :
  message_texts m = [] -> print_status m l = emit (EStatus l m).
Proof. intros H. unfold print_status, write_line. now rewrite H, writes_nil. Qed.

Lemma console_print_const p :
  printed_texts p = [] -> console_print p = emit (EPrint p).
Proof. intros H. unfold console_print, write_line. now rewrite H, writes_nil. Qed.

(** The prompts are texts of the program: the session does not
    depend on the runtime. *)
Lemma interactive_config_same :
  interactive_config = interactive_config (R := lenient).
Proof.
  unfold interactive_config.
  rewrite (print_status_const MsgInteractiveMode HEADER eq_refl).
  rewrite (console_print_const BuildMethodMenu eq_refl).
  reflexivity.
Qed.

Lemma configure_on w :
  command_line = Parsed ->
  (env_writable (environ w) env_mappings
   /\ configure w (initial_state w) = configure (R := lenient) w (initial_state w))
  \/ exists before var key v,
       env_stops (environ w) before var key v
       /\ configure w (initial_state w)
          = (Raise (Exception UnicodeEncodeError),
             with_config (initial_state w)
               (config_set key v
                  (env_override (environ w) before (config_of_args (argv w)))),
             opening (argv w) ++ env_lines (environ w) before).
Proof.
  intros HP. unfold configure, parse_arguments, opening. rewrite HP.
  cbn [command_line lenient].
  rewrite (console_print_const Banner eq_refl), interactive_config_same.
  change (console_print (R := lenient) Banner) with (emit (EPrint Banner)).
  destruct (load_config_on w (initial_state w))
    as [[Hall E] | (before & var & key & v & Hstop & E)].
  - left. split; [exact Hall |].
    pose proof (load_config_lines w (initial_state w)) as E'.
    run_step. destruct (args_quiet (argv w)), (args_verbose (argv w));
      run_step; rewrite E, E'; reflexivity.
  - right. exists before, var, key, v. split; [exact Hstop |].
    run_step. destruct (args_quiet (argv w)), (args_verbose (argv w));
      run_step; rewrite E; reflexivity.
Qed.

(** What the first half of [build] leaves on the runtime [R]. *)
Lemma set_up_cases w r pre c :
  set_up w r pre c ->
  command_line = Parsed
  /\ ((env_writable (environ w) env_mappings /\ configured w r pre c)
      \/ exists before var key v,
           env_stops (environ w) before var key v
           /\ r = Raise (Exception UnicodeEncodeError)
           /\ pre = opening (argv w) ++ env_lines (environ w) before
           /\ c = config_set key v
                    (env_override (environ w) before (config_of_args (argv w)))).
Proof.
  intros (s & E & Hc & Hf).
  destruct command_line eqn:HP.
  - split; [reflexivity |].
    destruct (configure_on w HP) as [[Hall E'] | (before & var & key & v & Hstop & E')].
    + left. split; [exact Hall |]. exists s. rewrite <- E'. auto.
    + right. exists before, var, key, v. rewrite E in E'.
      injection E' as -> -> ->. cbn [with_config config] in Hc.
      injection Hc as <-. auto.
  - exfalso. unfold configure, parse_arguments in E. rewrite HP in E.
    revert E. run_step. intros [= <- <- <-]. discriminate Hc.
  - exfalso. unfold configure, parse_arguments in E. rewrite HP in E.
    revert E. run_step. intros [= <- <- <-]. discriminate Hc.
Qed.

(** On the runtime [R] too the first half leaves a
    configuration, once the command line is parsed. *)
Lemma set_up_run w :
  command_line = Parsed ->
  exists r s pre c,
    configure w (initial_state w) = (r, s, pre)
    /\ config s = Some c /\ temp_files s = [].
Proof.
  intros HP.
  destruct (configure_on w HP) as [[Hall E] | (before & var & key & v & Hstop & E)].
  - destruct (configure_run w) as (r & s & t & c & E' & Hc & Hf & _).
    exists r, s, t, c. rewrite E. auto.
  - eexists _, _, _, _. split; [exact E |]. split; reflexivity.
Qed.


Ltac run_on :=
  run_step;
  repeat (first [rewrite writes_nil | rewrite writes_literal]; run_step).

Ltac calm_one :=
  try unfold checking; cbn [calm message_texts printed_texts copied];
  first [exact I | apply writes_nil | apply writes_literal | assumption
        | reflexivity].

Ltac calm_all :=
  repeat first [ apply List.Forall_nil
               | apply List.Forall_cons; [calm_one |]
               | apply Forall_app_2
               | assumption ].

(** *** [_validate_prerequisites] *)

Lemma validate_prerequisites_on w s Q :
  (forall r t, checked w r t -> Q r s t) ->
  wp validate_prerequisites w s Q.
Proof.
  intros HQ.
  unfold validate_prerequisites, required_files, check_required_files. run_on.
  destruct (run w docker_version_cmd) as [rc1 out1 | | |] eqn:E1; run_on.
  2:{ apply HQ, checked_fail; [now constructor | calm_all]. }
  2:{ apply HQ, checked_abort; [now constructor | calm_all]. }
  2:{ apply HQ, checked_abort; [now constructor | calm_all]. }
  destruct (Z.eqb_spec rc1 0) as [-> | Hrc1]; run_on.
  2:{ apply HQ, checked_fail; [econstructor; eassumption | calm_all]. }
  destruct (stdout_writes [Py.strip out1]) eqn:Hv; run_on.
  2:{ apply HQ. eapply checked_version_line; eassumption. }
  destruct (run w docker_info_cmd) as [rc2 out2 | | |] eqn:E2; run_on.
  2:{ apply HQ, checked_fail; [econstructor; eauto | calm_all]. }
  2:{ apply HQ, checked_fail; [econstructor; eauto | calm_all]. }
  2:{ apply HQ, checked_abort; [econstructor; eassumption | calm_all]. }
  destruct (Z.eqb_spec rc2 0) as [-> | Hrc2]; run_on.
  2:{ apply HQ, checked_fail; [econstructor; eassumption | calm_all]. }
  destruct (unsearchable (py "images/layered/Containerfile")) eqn:U1; run_on.
  { apply HQ.
    apply (checked_denied w out1 out2 [] (py "images/layered/Containerfile")
             [py "images/custom/Containerfile"]); try assumption;
      [reflexivity | constructor]. }
  destruct (path_exists w (py "images/layered/Containerfile")) eqn:E3; run_on.
  2:{ apply HQ, checked_fail; [econstructor; eassumption | calm_all]. }
  destruct (unsearchable (py "images/custom/Containerfile")) eqn:U2; run_on.
  { apply HQ.
    apply (checked_denied w out1 out2 [py "images/layered/Containerfile"]
             (py "images/custom/Containerfile") []); try assumption;
      [reflexivity | now repeat constructor]. }
  destruct (path_exists w (py "images/custom/Containerfile")) eqn:E4; run_on.
  2:{ apply HQ, checked_fail; [econstructor; eassumption | calm_all]. }
  apply HQ, checked_pass; [econstructor; eassumption | calm_all].
Qed.

(** *** [_load_apps_config] *)

Lemma list_apps_on apps : forall i w s,
  Forall valid_app apps ->
  (Forall calm (app_lines i apps)
   /\ list_apps i apps w s = (Return tt, s, app_lines i apps))
  \/ exists shown app rest,
       apps = shown ++ app :: rest
       /\ Forall calm (app_lines i shown)
       /\ ~ Forall calm (app_lines (length shown + i) [app])
       /\ list_apps i apps w s
          = (Raise (Exception UnicodeEncodeError), s, app_lines i shown).
Proof.
  induction apps as [| x apps IH]; intros i w s Hall.
  - left. split; [constructor | reflexivity].
  - inversion_clear Hall as [| ? ? (d & -> & Hurl & Hbranch) Hrest].
    destruct (dict_get_has _ _ Hurl) as (url & Eu).
    destruct (dict_get_has _ _ Hbranch) as (branch & Eb).
    cbn [list_apps app_lines subscript]. rewrite Eu, Eb. run_step.
    destruct (stdout_writes (copied url ++ copied branch)) eqn:Hw; run_step.
    + destruct (IH (S i) w s Hrest)
        as [[Hc E] | (shown & a & rest & -> & Hc & Hn & E)]; rewrite E.
      * left. split; [| reflexivity]. constructor; [exact Hw | exact Hc].
      * right. exists (JObj d :: shown), a, rest.
        split; [reflexivity |]. split.
        { cbn [app_lines]. rewrite Eu, Eb. constructor; assumption. }
        split; [| cbn [app_lines]; rewrite Eu, Eb; reflexivity].
        cbn [length].
        replace (S (length shown) + i)%nat with (length shown + S i)%nat by lia.
        exact Hn.
    + right. exists [], (JObj d), apps.
      split; [reflexivity |]. split; [constructor |]. split; [| reflexivity].
      cbn [length Nat.add app_lines]. rewrite Eu, Eb.
      intros H. inversion_clear H as [| ? ? Hc _].
      cbn [calm message_texts] in Hc. congruence.
Qed.

Lemma load_apps_config_on path w s Q :
  (forall apps,
      accepted_on w path apps -> Q (Return apps) s (apps_loaded path apps)) ->
  (forall e t, apps_refused w path e t -> Q (Raise e) s t) ->
  wp (load_apps_config path) w s Q.
Proof.
  intros Hok Hbad. unfold load_apps_config. run_step.
  destruct (stdout_writes [path]) eqn:Hp; run_step.
  2:{ apply Hbad. now constructor. }
  destruct (read_file w path) as [content | | |] eqn:Er; run_on;
    rewrite ?Hp; run_on.
  2:{ apply (Hbad _ _ (refused_rejected w path (MsgAppsFileNotFound path) Hp
                         (rejected_missing w path Er) ltac:(now left))). }
  2:{ apply (Hbad _ _ (refused_error w path Hp Er)). }
  2:{ apply (Hbad _ _ (refused_interrupted w path Hp Er)). }
  destruct (Utf8.decode content) as [text |] eqn:Ed; run_on.
  2:{ apply (Hbad _ _ (refused_rejected w path (MsgInvalidApps UnicodeDecodeError) Hp
                         (rejected_not_text w path content Er Ed)
                         ltac:(right; right; eauto))). }
  destruct (loads_stops int_max_str_digits text) eqn:Hd; run_on.
  { apply (Hbad _ _ (refused_digits w path content text Hp Er Ed Hd)). }
  assert (within_digits w path) as Hwithin.
  { intros content' text' Er' Ed'. rewrite Er in Er'. injection Er' as <-.
    rewrite Ed in Ed'. now injection Ed' as <-. }
  destruct (loads text) as [v |] eqn:El; run_on.
  2:{ apply (Hbad _ _ (refused_rejected w path MsgInvalidJson Hp
                         (rejected_not_json w path content text Er Ed El)
                         ltac:(right; now left))). }
  destruct v as [| b | z | f | t | apps | d]; run_on;
    try (apply (Hbad _ _ (refused_rejected w path
                            (MsgInvalidApps (ValueError NotAnArray)) Hp
                            (rejected_not_array w path content text _ Er Ed El
                               ltac:(discriminate))
                            ltac:(right; right; eauto)))).
  destruct (validate_apps_run apps 0%nat w s) as [[Hall E] | [Hnot [why E]]];
    rewrite E; run_on.
  2:{ apply (Hbad _ _ (refused_rejected w path (MsgInvalidApps (ValueError why)) Hp
                         (rejected_element w path content text apps Er Ed El Hnot)
                         ltac:(right; right; eauto))). }
  assert (accepted_apps w path apps) as Hacc by (exists content, text; auto).
  destruct (list_apps_on apps 1%nat w s Hall)
    as [[Hc El'] | (shown & a & rest & Eapps & Hc & Hn & El')];
    rewrite El'; run_on.
  - rewrite app_nil_r. apply Hok. repeat split; assumption.
  - rewrite Nat.add_1_r in Hn.
    apply (Hbad _ _ (refused_line w path apps shown a rest Hp Hacc Hwithin
                       Eapps Hc Hn)).
Qed.

(** *** [_print_config_summary] *)

Lemma print_config_items_on items w s :
  exists r t,
    print_config_items items w s = (r, s, t)
    /\ Forall is_config_line t
    /\ (r = Return tt \/ r = Raise (Exception UnicodeEncodeError)).
Proof.
  induction items as [| [key value] items (r & t & E & Ht & Hr)].
  - exists (Return tt), []. repeat split; [constructor | now left].
  - cbn [print_config_items]. run_step.
    destruct (stdout_writes [key; value]); run_step.
    + rewrite E. destruct r as [[] | e].
      * eexists _, _. split; [reflexivity |].
        split; [apply List.Forall_cons; [exact I | exact Ht] | now left].
      * destruct Hr as [Hr | Hr]; [discriminate |]. injection Hr as ->.
        eexists _, _. split; [reflexivity |].
        split; [apply List.Forall_cons; [exact I | exact Ht] | now right].
    + eexists _, _. split; [reflexivity |]. split; [constructor | now right].
Qed.

Lemma print_config_summary_on w s c :
  config s = Some c ->
  exists r t,
    print_config_summary w s = (r, s, t)
    /\ Forall is_config_line t
    /\ (r = Return tt \/ r = Raise (Exception UnicodeEncodeError)).
Proof.
  intros Hc. unfold print_config_summary. run_on. rewrite Hc. run_on.
  match goal with
  | |- context [print_config_items ?items w s] =>
      destruct (print_config_items_on items w s) as (r & t & -> & Ht & Hr)
  end.
  destruct r as [[] | e].
  - eexists _, _. split; [reflexivity |].
    split; [apply List.Forall_cons; [exact I | exact Ht] | now left].
  - destruct Hr as [Hr | Hr]; [discriminate |]. injection Hr as ->.
    eexists _, _. split; [reflexivity |].
    split; [apply List.Forall_cons; [exact I | exact Ht] | now right].
Qed.

(** *** [_execute_build] *)

Lemma print_build_lines_on lines : forall w s,
  (Forall calm (build_lines lines)
   /\ print_build_lines lines w s = (Return tt, s, build_lines lines))
  \/ exists shown line rest,
       lines = shown ++ line :: rest
       /\ Forall calm (build_lines shown)
       /\ stdout_writes [Py.rstrip line] = false
       /\ print_build_lines lines w s
          = (Raise (Exception UnicodeEncodeError), s, build_lines shown).
Proof.
  induction lines as [| line lines IH]; intros w s.
  - left. split; [constructor | reflexivity].
  - cbn [print_build_lines build_lines map]. run_step.
    destruct (stdout_writes [Py.rstrip line]) eqn:Hw; run_step.
    + destruct (IH w s) as [[Hc E] | (shown & l & rest & -> & Hc & Hn & E)];
        rewrite E.
      * left. split; [| reflexivity]. constructor; [exact Hw | exact Hc].
      * right. exists (line :: shown), l, rest.
        split; [reflexivity |].
        split; [cbn [build_lines map]; constructor; assumption |].
        split; [exact Hn | reflexivity].
    + right. exists [], line, lines.
      split; [reflexivity |]. split; [constructor |]. now split.
Qed.

Lemma execute_build_on cmd w s c Q :
  config s = Some c ->
  (forall r t, executed_on w c cmd r t -> Q r s t) ->
  wp (execute_build cmd) w s Q.
Proof.
  intros Hc HQ. unfold execute_build, popen_stream. run_on. rewrite Hc. run_on.
  destruct (dry_run c) eqn:Hdry; run_on.
  { destruct (stdout_writes [Py.join (py " ") cmd]) eqn:Hw; run_on.
    - apply HQ, on_executed; [now constructor | unfold dry_run_line; calm_all].
    - apply HQ. now apply on_dry_command. }
  destruct (stdout_writes [Py.join (py " ") cmd]) eqn:Hw; run_on.
  2:{ apply HQ. now apply on_command. }
  destruct (popen w cmd) as [lines rc | | lines] eqn:Ep; run_on.
  - destruct (print_build_lines_on lines w s)
      as [[Hcalm E] | (shown & line & rest & El & Hcalm & Hn & E)];
      rewrite E; run_on.
    + destruct (Z.eqb_spec rc 0) as [-> | Hrc]; run_on; rewrite app_nil_r.
      * apply HQ, on_executed; [eapply executed_success; eassumption |].
        unfold starting. calm_all.
      * apply HQ, on_executed; [eapply executed_failure; eassumption |].
        unfold starting. calm_all.
    + apply HQ.
      apply (on_output w c cmd lines shown line rest); try assumption.
      now rewrite Ep.
  - apply HQ, on_executed; [now apply executed_spawn_error |].
    unfold starting. calm_all.
  - destruct (print_build_lines_on lines w s)
      as [[Hcalm E] | (shown & line & rest & El & Hcalm & Hn & E)];
      rewrite E; run_on.
    + rewrite app_nil_r.
      apply HQ, on_executed; [eapply executed_interrupted; eassumption |].
      unfold starting. calm_all.
    + apply HQ.
      apply (on_output w c cmd lines shown line rest); try assumption.
      now rewrite Ep.
Qed.


(** *** [_print_build_summary] and [sys.exit] *)

Lemma report_on success w s c :
  config s = Some c ->
  exists tail e,
    bind (when (negb (quiet c)) (print_build_summary success))
      (fun _ => sys_exit (A := unit) (if success then 0 else 1)) w s
    = (Raise e, s, tail)
    /\ reported_on c success tail e.
Proof.
  intros Hc. destruct (quiet c) eqn:Hq; cbn [negb when].
  { run_on. eexists _, _. split; [reflexivity |].
    apply on_reported; [now constructor | constructor]. }
  destruct success.
  - unfold print_build_summary. run_on. rewrite Hc. run_on.
    destruct (stdout_writes [tag c]) eqn:Ht; run_on.
    2:{ eexists _, _. split; [reflexivity |]. now apply on_summary_stopped. }
    repeat (rewrite Ht; run_on).
    destruct (split_head 58 (tag c)) as (image & rest & E). rewrite E.
    pose proof (split_second 58 (tag c)) as H2. rewrite E in H2.
    cbn [lookup list_lookup]. run_on.
    destruct rest as [| version rest]; cbn [lookup list_lookup] in *; run_on.
    + eexists _, _. split; [reflexivity |].
      apply on_reported.
      * apply reported_index_error; [exact Hq | now apply H2].
      * unfold success_summary. calm_all.
    + assert (58 ∈ tag c) as Hin.
      { destruct (decide (58 ∈ tag c)) as [Hin | Hno]; [exact Hin |].
        apply H2 in Hno. discriminate. }
      assert (stdout_writes [image; version] = true) as Hv.
      { rewrite writes_cons, andb_true_iff.
        split; (eapply writes_sub; [| exact Ht]); intros x Hx;
          apply (split_sub 58 (tag c) _ x) in Hx; try exact Hx;
          rewrite E; cbn [In]; auto. }
      rewrite Hv. run_on.
      eexists _, _. split; [reflexivity |].
      apply (on_reported c true
               (success_summary c ++ [EPrint (NextCompose image version)])
               (SystemExit 0)).
      * now apply reported_success.
      * unfold success_summary. calm_all.
  - unfold print_build_summary. run_on. rewrite Hc. run_on.
    eexists _, _. split; [reflexivity |].
    apply (on_reported c false failure_summary (SystemExit 1)).
    + now constructor.
    + unfold failure_summary. calm_all.
Qed.

(** *** The second half of [build] *)

Lemma run_on_eq w o o' : run_on w o -> o = o' -> run_on w o'.
Proof. now intros H <-. Qed.

Ltac close_on ctor :=
  eexists _, _; split; [reflexivity |]; split; [eassumption || reflexivity |];
  split; [eassumption || reflexivity |];
  eapply run_on_eq;
  [ eapply ctor; eauto
  | unfold ended; f_equal; rewrite <- ?app_assoc, ?app_nil_r; reflexivity ].

Lemma proceed_on w s pre c :
  set_up w (Return tt) pre c -> config s = Some c -> temp_files s = [] ->
  wp proceed w s (fun r s' t => try_block_on w r s' (pre ++ t)).
Proof.
  intros Hcfg Hc Hf. unfold proceed, try_block_on.
  apply wp_bind, validate_prerequisites_on. intros r checks Hchk.
  destruct r as [[|] | e].
  2:{ eapply wp_run; [reflexivity |]. cbv beta iota.
      close_on on_prerequisites_fail. }
  2:{ close_on on_prerequisites_abort. }
  apply wp_bind. eapply wp_run; [reflexivity |]. cbv beta iota.
  apply wp_bind.
  apply wp_run with (r := Return c) (s' := s) (t := []);
    [unfold get_config; run_step; now rewrite Hc |].
  apply wp_bind, load_apps_config_on.
  2:{ intros e loaded Href. close_on on_apps_refused. }
  intros apps Hacc. cbv zeta.
  apply wp_bind. eapply wp_run; [apply str_encode_dumps |]. cbv beta iota.
  apply wp_bind. eapply wp_run; [apply bytes_decode_b64encode |]. cbv beta iota.
  fold (apps_payload apps).
  set (c' := set_apps_json_base64 (apps_payload apps) c).
  apply wp_bind.
  apply wp_run with (r := Return tt) (s' := with_config s c') (t := []);
    [unfold modify_config, get_config; run_step; rewrite Hc; reflexivity |].
  apply wp_bind.
  apply wp_run with (r := Return c') (s' := with_config s c') (t := []);
    [reflexivity |].
  assert (exists r shown,
            when (negb (quiet c')) print_config_summary w (with_config s c')
            = (r, with_config s c', shown)
            /\ Forall is_config_line shown /\ (quiet c = true -> shown = [])
            /\ (r = Return tt
                \/ quiet c = false /\ r = Raise (Exception UnicodeEncodeError)))
    as (r & shown & Eshown & Hshown & Hquiet & Hr).
  { change (quiet c') with (quiet c). destruct (quiet c); cbn [negb when].
    - exists (Return tt), []. repeat split; [constructor | now left].
    - destruct (print_config_summary_on w (with_config s c') c' eq_refl)
        as (r & t & E & Ht & Hr).
      exists r, t. repeat split; [assumption | assumption | discriminate |].
      destruct Hr as [-> | ->]; [now left | now right]. }
  apply wp_bind. eapply wp_run; [exact Eshown |].
  destruct Hr as [-> | [Hq ->]].
  2:{ eexists _, _. split; [reflexivity |]. split; [reflexivity |].
      split; [assumption |].
      eapply run_on_eq;
        [ eapply on_config_summary_stopped with (shown := shown); eassumption
        | unfold ended; f_equal; rewrite <- ?app_assoc, ?app_nil_r; reflexivity ]. }
  apply wp_bind.
  eapply wp_run;
    [apply (build_docker_command_run w (with_config s c') c' (apps_payload apps));
     reflexivity |].
  cbv beta iota.
  apply wp_bind. eapply execute_build_on; [reflexivity |].
  intros r did Hdid. destruct r as [success | e].
  2:{ eexists _, _. split; [reflexivity |]. split; [reflexivity |].
      split; [assumption |].
      eapply run_on_eq;
        [ eapply on_command_stopped with (shown := shown) (did := did);
          eassumption
        | unfold ended; f_equal; rewrite <- ?app_assoc, ?app_nil_r; reflexivity ]. }
  apply wp_bind.
  apply wp_run with (r := Return c') (s' := with_config s c') (t := []);
    [reflexivity |].
  destruct (report_on success w (with_config s c') c' eq_refl)
    as (tail & e & Etail & Hrep).
  eapply wp_run; [exact Etail |].
  eexists _, _. split; [reflexivity |]. split; [reflexivity |].
  split; [assumption |].
  eapply run_on_eq;
    [ eapply on_built with (shown := shown) (did := did) (tail := tail);
      eassumption
    | unfold ended; f_equal; rewrite <- ?app_assoc, ?app_nil_r; reflexivity ].
Qed.

(** *** From the [try] block to the exit status *)

Lemma cleanup_on w s :
  temp_files s = [] -> cleanup w s = (Return tt, s, [ECleanup]).
Proof. intros H. unfold cleanup. run_step. now rewrite H. Qed.

Lemma build_ends_on w s c body e :
  bind configure (fun _ => proceed) w (initial_state w) = (Raise e, s, body) ->
  config s = Some c -> temp_files s = [] ->
  main w = ended c body e.
Proof.
  intros Hbody Hc Hf. unfold main, build, try_finally, try_except.
  rewrite Hbody. unfold ended.
  destruct e as [code | | x]; cbn [build_handler]; run_on;
    rewrite (cleanup_on w s Hf); cbn [exit_status handled_status handler_events];
    rewrite Hc, <- ?app_assoc, ?app_nil_r; reflexivity.
Qed.

Lemma parser_exits w code p :
  configure w (initial_state w) = (Raise (SystemExit code), initial_state w, [EPrint p]) ->
  main w = parser_exit code p.
Proof.
  intros E. unfold main, build, try_finally, try_except, bind. rewrite E.
  cbn [build_handler]. rewrite (cleanup_on w (initial_state w) eq_refl).
  reflexivity.
Qed.

(** Every run of the program, on every runtime, is one of
    [run_on]. *)
Lemma main_on w : run_on w (main w).
Proof.
  destruct command_line eqn:HP.
  - destruct (set_up_run w HP) as (r & s & pre & c & Ec & Hc & Hf).
    assert (wp (bind configure (fun _ => proceed)) w (initial_state w)
              (try_block_on w)) as H.
    { apply wp_bind. eapply wp_run; [exact Ec |].
      destruct r as [[] | e].
      - apply (proceed_on w s pre c); [exists s; auto | assumption | assumption].
      - exists e, c. repeat split; try assumption.
        apply on_unconfigured. exists s. auto. }
    unfold wp in H.
    destruct (bind configure (fun _ => proceed) w (initial_state w))
      as [[r' s'] t'] eqn:Eb.
    destruct H as (e & c' & -> & Hc' & Hf' & Hrun).
    now rewrite (build_ends_on w s' c' t' e Eb Hc' Hf').
  - rewrite (parser_exits w 0 HelpText); [now apply on_help |].
    unfold configure, parse_arguments. rewrite HP. reflexivity.
  - rewrite (parser_exits w 2 UsageText); [now apply on_usage |].
    unfold configure, parse_arguments. rewrite HP. reflexivity.
Qed.

End Program.
End GeneralFacts.

(** ** What the runs have in common on any runtime *)

Module RuntimeFacts.
Import Json Builder.
Import Logic LogicFacts Spec Spec2 Observe General Traces Traces2 Traces3.
Import StageFacts StageFacts2 StageFacts3 RunFacts RunFacts2 SetupFacts GeneralFacts.

Section Program.
Context {F : PyFloat} {R : Runtime}.

(** *** The environment *)

Lemma env_lines_app env l1 l2 :
  env_lines env (l1 ++ l2) = env_lines env l1 ++ env_lines env l2.
Proof.
  induction l1 as [| [var key] l1 IH]; [reflexivity |].
  cbn [app env_lines]. destruct (env !! var); now rewrite IH.
Qed.

Lemma env_stops_not_writable env before var key v :
  env_stops env before var key v -> ~ env_writable env env_mappings.
Proof.
  intros ((after & E) & _ & Hv & Hw) Hall. unfold env_writable in Hall.
  rewrite E, env_lines_app, Forall_app in Hall. destruct Hall as [_ Hall].
  cbn [env_lines] in Hall. rewrite Hv in Hall.
  inversion_clear Hall as [| ? ? Hc _]. cbn [calm message_texts] in Hc.
  congruence.
Qed.

(** *** The first half *)

Lemma opening_setup args : Forall is_setup (opening args).
Proof.
  unfold opening. destruct (args_quiet args), (args_verbose args);
    repeat constructor.
Qed.

Lemma env_lines_setup env mappings : Forall is_setup (env_lines env mappings).
Proof.
  induction mappings as [| [var key] rest IH]; [constructor |].
  cbn [env_lines]. destruct (env !! var); [constructor; [exact I |] |]; exact IH.
Qed.

Lemma set_up_setup w r pre c : set_up w r pre c -> Forall is_setup pre.
Proof.
  intros H. destruct (set_up_cases w r pre c H)
    as [_ [[_ Hcfg] | (before & var & key & v & _ & _ & -> & _)]].
  - now destruct (configured_facts _ _ _ _ Hcfg).
  - apply Forall_app_2; [apply opening_setup | apply env_lines_setup].
Qed.

Lemma set_up_raised w e pre c :
  set_up w (Raise e) pre c ->
  e = KeyboardInterrupt \/ e = Exception EOFError
  \/ e = Exception UnicodeEncodeError.
Proof.
  intros H. destruct (set_up_cases w _ pre c H)
    as [_ [[_ Hcfg] | (before & var & key & v & _ & [= ->] & _)]]; [| auto].
  destruct (configured_facts _ _ _ _ Hcfg) as (_ & _ & _ & _ & _ & _ & Hend).
  destruct Hend as [? | [[= ->] | [= ->]]]; [discriminate | auto ..].
Qed.

(** *** The events of the second half *)

Lemma is_config_line_proceeds e : is_config_line e -> proceeds e.
Proof.
  destruct e as [l m | p | | | | | | | |]; try contradiction.
  - destruct l, m; intros H; try contradiction; exact I.
  - destruct p; intros H; try contradiction; exact I.
Qed.

Lemma config_lines_proceed shown :
  Forall is_config_line shown -> Forall proceeds shown.
Proof. apply List.Forall_impl, is_config_line_proceeds. Qed.

Lemma app_lines_proceed apps : forall i, Forall proceeds (app_lines i apps).
Proof.
  induction apps as [| x apps IH]; intros i; [constructor |].
  cbn [app_lines]. destruct x; try constructor.
  destruct (dict_get (py "url") fields); [| constructor].
  destruct (dict_get (py "branch") fields); [| constructor].
  constructor; [exact I | apply IH].
Qed.

Lemma build_lines_proceed lines : Forall proceeds (build_lines lines).
Proof. induction lines; constructor; [exact I | assumption]. Qed.

Lemma exists_proceed found : Forall proceeds (map EExists found).
Proof. induction found; constructor; [exact I | assumption]. Qed.

Ltac proceeds_all :=
  repeat first [ apply List.Forall_nil
               | apply List.Forall_cons; [exact I |]
               | apply Forall_app_2
               | apply app_lines_proceed
               | apply build_lines_proceed
               | apply exists_proceed
               | apply config_lines_proceed; assumption
               | assumption ].

Lemma checked_proceeds w r t : checked w r t -> Forall proceeds t.
Proof.
  intros [t' H _ | t' H _ | e t' H _ | out _ _ | out1 out2 found f rest _ _ _ _ _ _];
    try destruct H; unfold checking, version_checked; proceeds_all.
Qed.

Lemma apps_loaded_proceeds path apps : Forall proceeds (apps_loaded path apps).
Proof. unfold apps_loaded. proceeds_all. Qed.

Lemma apps_refused_proceeds w path e t :
  apps_refused w path e t -> Forall proceeds t.
Proof.
  intros [| m _ _ [-> | [-> | [x ->]]] | | | |]; unfold loading; proceeds_all.
Qed.

Lemma executed_proceeds w c cmd r t :
  executed_on w c cmd r t -> Forall proceeds t.
Proof.
  intros [success did H _ | | |]; try destruct H;
    unfold starting, dry_run_line; proceeds_all.
Qed.

Lemma success_summary_proceeds c : Forall proceeds (success_summary c).
Proof. unfold success_summary. proceeds_all. Qed.

Lemma reported_proceeds c success tail e :
  reported_on c success tail e -> Forall proceeds tail.
Proof.
  intros [success' tail' e' H _ | _ _].
  - destruct H; unfold failure_summary; proceeds_all;
      apply success_summary_proceeds.
  - proceeds_all.
Qed.

(** *** The shape of a run *)

Lemma checked_leaves w e t : checked w (Raise e) t -> leaves e.
Proof.
  intros H. inversion H as [| | e' t' Ha _ | |]; subst; cbn; auto.
  destruct Ha; cbn; auto.
Qed.

Lemma apps_refused_leaves w path e t : apps_refused w path e t -> leaves e.
Proof. intros []; cbn; auto. Qed.

Lemma executed_leaves w c cmd e t :
  executed_on w c cmd (Raise e) t -> leaves e.
Proof. intros H. inversion H; subst; cbn; auto. Qed.

Lemma reported_leaves c success tail e :
  reported_on c success tail e -> leaves e.
Proof.
  intros [success' tail' e' H _ |]; [| cbn; auto].
  destruct H as [[] | | |]; cbn; auto.
Qed.

Ltac stage_events :=
  repeat first
    [ eapply checked_proceeds; eassumption
    | apply apps_loaded_proceeds
    | eapply apps_refused_proceeds; eassumption
    | apply config_lines_proceed; assumption
    | eapply executed_proceeds; eassumption
    | eapply reported_proceeds; eassumption
    | apply Forall_app_2 ].

(** A run that parsed its command line set up a configuration,
    went on with events of the second half, and changed nothing
    of the configuration but the payload. *)
Lemma run_on_shape w o :
  run_on w o ->
  (command_line = HelpRequested /\ o = parser_exit 0 HelpText)
  \/ (command_line = UsageError /\ o = parser_exit 2 UsageText)
  \/ exists r pre c0 rest e c,
       set_up w r pre c0
       /\ o = ended c (pre ++ rest) e
       /\ Forall proceeds rest
       /\ leaves e
       /\ (r = Return tt \/ r = Raise e /\ rest = [])
       /\ (c = c0
           \/ exists apps, accepted_on w (apps_file c0) apps
                           /\ c = set_apps_json_base64 (apps_payload apps) c0).
Proof.
  intros [Hh | Hu | pre c e Hs | pre c checks Hs Hc | pre c checks e Hs Hc
          | pre c checks loaded e Hs Hc Hl
          | pre c checks apps shown Hs Hc Ha Hq Hsh
          | pre c checks apps shown did e Hs Hc Ha c' Hsh Hq Hx
          | pre c checks apps shown success did tail e Hs Hc Ha c' Hsh Hq Hx Hr];
    [now left | right; now left | right; right ..].
  - exists (Raise e), pre, c, [], e, c. rewrite app_nil_r.
    repeat split; auto.
    destruct (set_up_raised _ _ _ _ Hs) as [-> | [-> | ->]]; cbn; auto.
  - exists (Return tt), pre, c, checks, (SystemExit 1), c.
    repeat split; eauto using checked_proceeds. cbn; auto.
  - exists (Return tt), pre, c, checks, e, c.
    repeat split; eauto using checked_proceeds, checked_leaves.
  - exists (Return tt), pre, c, (checks ++ loaded), e, c.
    repeat split; eauto using apps_refused_leaves. stage_events.
  - eexists (Return tt), pre, c, _, _, _. split; [exact Hs |].
    split; [reflexivity |]. split.
    { stage_events. }
    split; [cbn; auto |]. split; [now left |]. right. now exists apps.
  - eexists (Return tt), pre, c, _, _, _. split; [exact Hs |].
    split; [reflexivity |]. split.
    { stage_events. }
    split; [eauto using executed_leaves |]. split; [now left |].
    right. now exists apps.
  - eexists (Return tt), pre, c, _, _, _. split; [exact Hs |].
    split; [reflexivity |]. split.
    { stage_events. }
    split; [eauto using reported_leaves |]. split; [now left |].
    right. now exists apps.
Qed.

Lemma final_config_on w c :
  final_config (main w) = Some c ->
  exists r pre c0,
    set_up w r pre c0
    /\ (c = c0
        \/ exists apps, accepted_on w (apps_file c0) apps
                        /\ c = set_apps_json_base64 (apps_payload apps) c0).
Proof.
  intros Hc.
  destruct (run_on_shape w _ (main_on w))
    as [[_ E] | [[_ E] | (r & pre & c0 & rest & e & c' & Hs & E & _ & _ & _ & Hcase)]];
    rewrite E in Hc; try discriminate Hc.
  injection Hc as <-. eauto.
Qed.

(** *** The keys of the environment *)

Lemma env_writable_app env l1 l2 :
  env_writable env (l1 ++ l2) <-> env_writable env l1 /\ env_writable env l2.
Proof. unfold env_writable. now rewrite env_lines_app, Forall_app. Qed.

Lemma env_lines_split env key v mappings :
  In (EStatus INFO (MsgFromEnvironment key v)) (env_lines env mappings) ->
  exists before var after,
    mappings = before ++ (var, key) :: after /\ env !! var = Some v.
Proof.
  induction mappings as [| [var' key'] rest IH]; [intros [] |].
  cbn [env_lines]. destruct (env !! var') as [v' |] eqn:E.
  - intros [[= <- <-] | H].
    + now exists [], var', rest.
    + destruct (IH H) as (before & var & after & -> & Hv).
      now exists ((var', key') :: before), var, after.
  - intros H. destruct (IH H) as (before & var & after & -> & Hv).
    now exists ((var', key') :: before), var, after.
Qed.

Lemma config_get_set key v c : config_get key (config_set key v c) = v.
Proof. now destruct key. Qed.

Lemma config_get_set_other key key' v c :
  key <> key' -> config_get key (config_set key' v c) = config_get key c.
Proof. destruct key, key'; intros H; try reflexivity; now destruct H. Qed.

Lemma env_override_other env key mappings : forall c,
  ~ In key (map snd mappings) ->
  config_get key (env_override env mappings c) = config_get key c.
Proof.
  induction mappings as [| [var' key'] rest IH]; intros c Hn; [reflexivity |].
  cbn [env_override]. cbn [map snd In] in Hn. rewrite IH by tauto.
  destruct (env !! var'); [| reflexivity].
  apply config_get_set_other. intros ->. tauto.
Qed.

Lemma env_override_reads env before var key after v c :
  ~ In key (map snd after) -> env !! var = Some v ->
  config_get key (env_override env (before ++ (var, key) :: after) c) = v.
Proof.
  revert c. induction before as [| [var' key'] before IH]; intros c Hn Hv.
  - cbn [app env_override]. rewrite Hv, env_override_other by exact Hn.
    apply config_get_set.
  - cbn [app env_override]. now apply IH.
Qed.

Lemma env_keys_nodup : NoDup (map snd env_mappings).
Proof.
  unfold env_mappings. cbn [map snd].
  repeat (apply NoDup_cons_2; [cbn; rewrite ?elem_of_cons, elem_of_nil;
                               intuition discriminate |]).
  apply NoDup_nil_2.
Qed.

Lemma env_key_once before var key after :
  env_mappings = before ++ (var, key) :: after ->
  ~ In key (map snd before) /\ ~ In key (map snd after).
Proof.
  intros E. pose proof env_keys_nodup as H. rewrite E, map_app in H.
  cbn [map snd] in H. rewrite NoDup_ListNoDup in H.
  apply List.NoDup_remove_2 in H. rewrite in_app_iff in H. tauto.
Qed.

(** Where the loop stops, given that it got past [before]. *)
Lemma env_stops_later env before var key after v before0 var0 key0 v0 :
  env_mappings = before ++ (var, key) :: after ->
  env_writable env before -> env !! var = Some v ->
  env_stops env before0 var0 key0 v0 ->
  (before0 = before /\ var0 = var /\ key0 = key /\ v0 = v)
  \/ exists between, before0 = before ++ (var, key) :: between.
Proof.
  intros E Hw Hv ((after0 & E0) & _ & Hv0 & Hn).
  rewrite E in E0. apply app_eq_app in E0.
  destruct E0 as (l & [[-> E0] | [-> E0]]).
  - destruct l as [| x l].
    + cbn [app] in E0. injection E0 as <- <- _. rewrite app_nil_r.
      left. repeat split. congruence.
    + exfalso. cbn [app] in E0. injection E0 as <- _.
      apply env_writable_app in Hw. destruct Hw as [_ Hw].
      unfold env_writable in Hw. cbn [env_lines] in Hw. rewrite Hv0 in Hw.
      inversion_clear Hw as [| ? ? Hc _]. cbn [calm message_texts] in Hc.
      congruence.
  - destruct l as [| x l].
    + cbn [app] in E0. injection E0 as <- <- _. rewrite app_nil_r.
      left. repeat split. congruence.
    + cbn [app] in E0. injection E0 as <- _. right. now exists l.
Qed.

(** The value of a variable that the loop reaches is in the
    configuration when the loop ends, also when it ends at a
    value that cannot be written. *)
Lemma set_up_reads w r pre c before var key after v :
  env_mappings = before ++ (var, key) :: after ->
  env_writable (environ w) before -> environ w !! var = Some v ->
  set_up w r pre c ->
  configured w r pre c \/ config_get key c = v.
Proof.
  intros E Hw Hv Hs.
  destruct (set_up_cases _ _ _ _ Hs)
    as [_ [[_ Hcfg] | (before0 & var0 & key0 & v0 & Hstop & _ & _ & ->)]];
    [now left | right].
  destruct (env_stops_later _ _ _ _ _ _ _ _ _ _ E Hw Hv Hstop)
    as [(-> & -> & -> & ->) | [between ->]].
  - apply config_get_set.
  - destruct Hstop as ((after0 & E0) & _).
    rewrite <- app_assoc in E0. cbn [app] in E0.
    destruct (env_key_once _ _ _ _ E0) as [_ Hafter].
    rewrite map_app in Hafter. cbn [map snd] in Hafter.
    rewrite in_app_iff in Hafter. cbn [In] in Hafter.
    rewrite config_get_set_other by (intros ->; tauto).
    apply env_override_reads; [tauto | exact Hv].
Qed.

(** *** The apps that are listed *)




(** *** The stages *)

Lemma checked_passed w t : checked w (Return true) t -> prerequisites_pass w t.
Proof. intros H. now inversion H. Qed.

Lemma checked_run_error w r t :
  run w docker_version_cmd = RunError -> checked w r t ->
  r = Raise (Exception OSError) /\ t = [checking; ERun docker_version_cmd].
Proof.
  intros E [t' H _ | t' H _ | e t' H _ | out E' _ | out1 out2 found f rest E' _ _ _ _ _];
    try destruct H; try congruence.
  now split.
Qed.


(** *** The runs that the runtime lets through, and the others *)

Lemma set_up_returned w pre c :
  set_up w (Return tt) pre c -> configured w (Return tt) pre c.
Proof.
  intros H. destruct (set_up_cases _ _ _ _ H)
    as [_ [[_ Hcfg] | (before & var & key & v & _ & [=] & _)]].
  exact Hcfg.
Qed.

(** The tag is an argument of the command: when the line of the
    command can be written, so can the tag. *)
Lemma command_writes_tag c b64 :
  stdout_writes [Py.join (py " ") (docker_command c b64)] = true ->
  stdout_writes [tag c] = true.
Proof.
  apply writes_sub. intros x Hx.
  apply (join_sub _ _ (tag c)); [| exact Hx].
  unfold docker_command. rewrite !in_app_iff. do 5 right.
  right. now left.
Qed.

Lemma run_on_cases w o : run_on w o -> run_of w o \/ stopped w o.
Proof.
  intros [Hh | Hu | pre c e Hs | pre c checks Hs Hc | pre c checks e Hs Hc
          | pre c checks loaded e Hs Hc Hl
          | pre c checks apps shown Hs Hc Ha Hq Hsh
          | pre c checks apps shown did e Hs Hc Ha c' Hsh Hq Hx
          | pre c checks apps shown success did tail e Hs Hc Ha c' Hsh Hq Hx Hr].
  - right. now apply stopped_help.
  - right. now apply stopped_usage.
  - destruct (set_up_cases _ _ _ _ Hs)
      as [HP [[_ Hcfg] | (before & var & key & v & Hstop & [= ->] & -> & ->)]].
    + left. now constructor.
    + right. now apply (stopped_env w before var key v).
  - apply set_up_returned in Hs. left.
    inversion Hc; subst. now apply run_prerequisites_fail.
  - apply set_up_returned in Hs.
    inversion Hc; subst.
    + left. now apply run_prerequisites_abort.
    + right. eapply stopped_version; eassumption.
    + right. eapply stopped_denied; eassumption.
  - apply set_up_returned in Hs. apply checked_passed in Hc.
    destruct Hl as [Hn | m Hp Hrej Hm | content text Hp Er Ed Hd
                    | apps shown x rest Hp Hacc Hd E Hshown Hline | Hp Er | Hp Er].
    + right. rewrite app_nil_r. now apply stopped_path.
    + left. now apply run_apps_rejected.
    + right. eapply stopped_digits; eassumption.
    + right. eapply stopped_line; eassumption.
    + left. apply run_apps_abort; auto.
    + left. apply run_apps_abort; auto.
  - apply set_up_returned in Hs. apply checked_passed in Hc.
    destruct Ha as (_ & Ha & _). right. now apply stopped_config_summary.
  - apply set_up_returned in Hs. apply checked_passed in Hc.
    destruct Ha as (_ & Ha & _). right.
    inversion Hx as [| Hd Hw | Hd Hw |]; subst;
      pose proof (stopped_command w pre c checks apps shown Hs Hc Ha Hsh Hw) as H;
      cbv zeta in H; fold c' in H; rewrite Hd in H; exact H.
  - apply set_up_returned in Hs. apply checked_passed in Hc.
    destruct Ha as (_ & Ha & _).
    inversion Hx; subst.
    + inversion Hr; subst.
      * left. eapply run_executed; eassumption.
      * exfalso.
        assert (stdout_writes
                  [Py.join (py " ") (docker_command c' (apps_payload apps))] = true)
          as Hw.
        { match goal with
          | Hdid : executed _ _ _ _ _, Hcalm : Forall calm _ |- _ =>
              inversion Hdid; subst; unfold starting, dry_run_line in Hcalm;
              repeat (apply Forall_cons in Hcalm; destruct Hcalm as [? Hcalm]);
              assumption
          end. }
        apply command_writes_tag in Hw. congruence.
    + right. inversion Hr; subst. eapply stopped_output; eauto.
Qed.

(** What the [except Exception] clause of [build] can report. *)
Lemma unexpected_only w x :
  In (EStatus ERROR (MsgUnexpectedError x)) (events (main w)) ->
  status (main w) = 1
  /\ (x = EOFError \/ x = OSError \/ x = PermissionError
      \/ x = UnicodeEncodeError \/ x = IndexError).
Proof.
  destruct (run_on_shape w _ (main_on w))
    as [[_ ->] | [[_ ->] | (r & pre & c0 & rest & e & c & Hs & -> & Hrest & He
                             & _ & _)]].
  - intros [[=] | [[=] | []]].
  - intros [[=] | [[=] | []]].
  - cbn [events ended status]. rewrite <- app_assoc, !in_app_iff.
    intros [Hin | [Hin | [Hin | Hin]]].
    + pose proof (set_up_setup _ _ _ _ Hs) as Hpre.
      rewrite List.Forall_forall in Hpre. destruct (Hpre _ Hin).
    + rewrite List.Forall_forall in Hrest. destruct (Hrest _ Hin).
    + destruct e as [code | | x']; cbn in Hin; [destruct Hin | |].
      * destruct Hin as [[=] | []].
      * destruct Hin as [[= ->] | [[=] | []]]. split; [reflexivity | exact He].
    + destruct Hin as [[=] | []].
Qed.

Lemma main_cases_on w : run_of w (main w) \/ stopped w (main w).
Proof. apply run_on_cases, main_on. Qed.

Lemma validate_prerequisites_checked w s r s' t :
  validate_prerequisites w s = (r, s', t) -> s' = s /\ checked w r t.
Proof.
  intros E.
  pose proof (validate_prerequisites_on w s
                (fun r s' t => s' = s /\ checked w r t)) as H.
  unfold wp in H. rewrite E in H. apply H. auto.
Qed.



End Program.
End RuntimeFacts.

Module SessionFacts.
Import Json Builder.
Import Logic LogicFacts Spec Spec2 Observe General Traces Traces2 Traces3.
Import StageFacts StageFacts2 StageFacts3 RunFacts RunFacts2 SetupFacts.

Section Program.
Context {F : PyFloat}.

(** A session at the prompts, however it ends, leaves alone the
    keys that it does not ask. *)
Lemma interactive_config_keeps w s c0 :
  config s = Some c0 ->
  wp interactive_config w s
    (fun _ s' _ =>
       exists c, config s' = Some c
                 /\ frappe_path c = frappe_path c0
                 /\ (build_method c = Layered ->
                     python_version c = python_version c0
                     /\ node_version c = node_version c0)).
Proof.
  intros Hc. unfold interactive_config.
  destruct s as [cfg files u]. cbn [config temp_files] in *. subst cfg.
  repeat
    (run_monad; read_config;
     match goal with
     | |- context [match ?u with _ => _ end] =>
         match type of u with
         | list input_result => destruct u as [| [? | |] ?]
         end
     | |- context [bool_decide ?P] => destruct (bool_decide P)
     end);
    run_monad; read_config;
    (eexists; split; [reflexivity |]; read_config;
     split; [reflexivity |]; intros Hm; first [discriminate Hm | now split]).
Qed.

(** After four answers the keys of the first four prompts hold
    them; the two versions hold the next two answers when the
    method is custom and the answers are given. *)
Lemma interactive_config_first_four w c0 files a1 a2 a3 a4 more :
  wp interactive_config w
    {| config := Some c0; temp_files := files;
       unread := Line a1 :: Line a2 :: Line a3 :: Line a4 :: more |}
    (fun _ s' _ =>
       exists c,
         config s' = Some c
         /\ build_method c
            = (if bool_decide (Py.strip a1 = py "2") then Custom else Layered)
         /\ apps_file c = or_default (Py.strip a2) (py "apps.json")
         /\ tag c = or_default (Py.strip a3) (py "frappe_custom:latest")
         /\ frappe_branch c = or_default (Py.strip a4) (py "version-15")
         /\ forall a5 a6 rest,
              more = Line a5 :: Line a6 :: rest ->
              build_method c = Custom ->
              python_version c = or_default (Py.strip a5) (py "3.11.6")
              /\ node_version c = or_default (Py.strip a6) (py "20.19.2")).
Proof.
  unfold interactive_config.
  do 6 (run_monad; read_config).
  destruct (bool_decide (Py.strip a1 = py "2"));
    repeat
      (run_monad; read_config;
       match goal with
       | |- context [match ?u with _ => _ end] =>
           match type of u with
           | list input_result => destruct u as [| [? | |] ?]
           end
       end);
    run_monad; read_config;
    (eexists; split; [reflexivity |]; read_config;
     repeat (split; [reflexivity |]);
     intros a5 a6 rest Hm Hb; first [discriminate | injection Hm as -> -> _; now split]).
Qed.

(** What holds after every session holds of the configuration
    that the first half of an interactive run leaves. *)
Lemma configured_after_session w (P : Config -> Prop) r pre c :
  args_interactive (argv w) = true ->
  wp interactive_config w
    {| config := Some (loaded_config w); temp_files := []; unread := stdin w |}
    (fun _ s' _ => exists c', config s' = Some c' /\ P c') ->
  configured w r pre c -> P c.
Proof.
  intros Hi Hsession (s & E & Hc & _).
  assert (wp configure w (initial_state w)
            (fun _ s _ => exists c', config s = Some c' /\ P c')) as H.
  { unfold configure.
    destruct (load_config_run w (initial_state w)) as (tl & El & _).
    apply wp_bind. eapply wp_run; [reflexivity |]. cbv beta iota.
    apply wp_bind.
    apply wp_run with (r := Return tt) (s' := initial_state w)
                      (t := if args_quiet (argv w) then [ELog LogSetLevelError]
                            else if args_verbose (argv w) then [ELog LogSetLevelDebug]
                            else []);
      [destruct (args_quiet (argv w)), (args_verbose (argv w)); reflexivity |].
    apply wp_bind.
    apply wp_run with (r := Return tt) (s' := initial_state w)
                      (t := if args_quiet (argv w) then [] else [EPrint Banner]);
      [destruct (args_quiet (argv w)); reflexivity |].
    apply wp_bind. eapply wp_run; [exact El |]. cbv beta iota.
    apply wp_bind. eapply wp_run; [reflexivity |]. cbv beta iota.
    destruct (loaded_flags w) as (L1 & _).
    cbn [config_of_args interactive] in L1. rewrite L1, Hi. cbn [when].
    unfold with_config, initial_state. cbn [config temp_files unread].
    exact Hsession. }
  unfold wp in H. rewrite E in H. destruct H as (c' & Hc' & HP). congruence.
Qed.

(** The first half of a run leaves alone the keys that no
    prompt asks. *)
Lemma configured_keeps w r pre c :
  configured w r pre c ->
  frappe_path c = frappe_path (loaded_config w)
  /\ (build_method c = Layered ->
      python_version c = python_version (loaded_config w)
      /\ node_version c = node_version (loaded_config w)).
Proof.
  intros Hcfg. destruct (args_interactive (argv w)) eqn:Hi.
  - apply (configured_after_session w
             (fun c => frappe_path c = frappe_path (loaded_config w)
                       /\ (build_method c = Layered ->
                           python_version c = python_version (loaded_config w)
                           /\ node_version c = node_version (loaded_config w)))
             r pre c Hi); [| exact Hcfg].
    now apply interactive_config_keeps.
  - destruct (configured_facts _ _ _ _ Hcfg) as (_ & _ & _ & _ & _ & Hni & _).
    destruct (Hni Hi) as [-> _]. now split.
Qed.

End Program.
End SessionFacts.

(** ** The runs that the runtime lets through, and those it stops *)

Module OutcomeFacts.
Import Json Builder.
Import Logic LogicFacts Spec Spec2 Observe Traces Traces2 Traces3.
Import StageFacts StageFacts2 StageFacts3 RunFacts RunFacts2 SetupFacts.

(** The six kinds of run, with the names used below. *)
Ltac run_cases Hrun :=
  destruct Hrun as [pre c0 e Hcfg | pre c0 checks Hcfg Hfail
                   | pre c0 checks e Hcfg Habort | pre c0 checks m Hcfg Hpass Hrej
                   | pre c0 checks e Hcfg Hpass Hread
                   | pre c0 checks apps shown success did tail e Hcfg Hpass Hacc c'
                       Hshown Hquiet Hdid Hrep];
  destruct (configured_facts _ _ _ _ Hcfg)
    as (Hpre & Hinteractive & Hdry & Hq & Hnone & Hni & Hend).

Section Program.
Context {F : PyFloat}.

Lemma rejected_stops w o c :
  run_of w o ->
  final_config o = Some c ->
  rejected_apps w (apps_file c) ->
  status o <> 0
  /\ forall cmd, ~ In (EPopen cmd) (events o).
Proof.
  intros Hrun Hc Hrej.

  destruct Hrun as [pre c0 e Hcfg | pre c0 checks Hcfg Hfail
                   | pre c0 checks e Hcfg Habort | pre c0 checks m Hcfg Hpass _
                   | pre c0 checks e Hcfg Hpass Hread
                   | pre c0 checks apps shown success did tail e Hcfg Hpass Hacc c'
                       Hshown _ Hdid Hrep];
    destruct (configured_facts _ _ _ _ Hcfg) as (Hpre & _ & _ & _ & _ & _ & Hend).
  - split.
    + destruct Hend as [? | [[= ->] | [= ->]]]; [discriminate | cbn; lia | cbn; lia].
    + intros cmd Hin. destruct e; in_trace; try discriminate; try contradiction.
  - split; [cbn; lia |].
    intros cmd Hin. destruct Hfail; in_trace; try discriminate; try contradiction.
  - split; [destruct Habort; cbn; lia |].
    intros cmd Hin. destruct Habort; in_trace; try discriminate; try contradiction.
  - split; [cbn; lia |].
    intros cmd Hin. destruct Hpass; in_trace; try discriminate; try contradiction.
  - split; [destruct Hread as [[_ ->] | [_ ->]]; cbn; lia |].
    intros cmd Hin.
    destruct Hpass, Hread as [[_ ->] | [_ ->]]; in_trace; try discriminate; try contradiction.
  - exfalso. injection Hc as <-. exact (accepted_not_rejected _ _ _ Hacc Hrej).
Qed.

Lemma dry_run_status w o :
  run_of w o ->
  args_dry_run (argv w) = true ->
  (forall cmd, ~ In (EPopen cmd) (events o))
  /\ (forall c cmd,
        final_config o = Some c ->
        In (dry_run_line cmd) (events o) ->
        In (EStatus WARNING MsgDryRun) (events o)
        /\ (quiet c = true \/ 58 ∈ tag c -> status o = 0)
        /\ (quiet c = false -> 58 ∉ tag c ->
            status o = 1
            /\ In (EStatus ERROR (MsgUnexpectedError IndexError)) (events o))).
Proof.
  intros Hrun Hdry.

  destruct Hrun as [pre c0 e Hcfg | pre c0 checks Hcfg Hfail
                   | pre c0 checks e Hcfg Habort | pre c0 checks m Hcfg Hpass Hrej
                   | pre c0 checks e Hcfg Hpass Hread
                   | pre c0 checks apps shown success did tail e Hcfg Hpass Hacc c'
                       Hshown _ Hdid Hrep];
    destruct (configured_facts _ _ _ _ Hcfg) as (Hpre & _ & Hd & _ & _ & _ & Hend).
  - split; [intros cmd Hin | intros c cmd _ Hin; unfold dry_run_line in Hin];
      exfalso; destruct e; in_trace; discriminate.
  - split; [intros cmd Hin | intros c cmd _ Hin; unfold dry_run_line in Hin];
      exfalso; destruct Hfail; in_trace; discriminate.
  - split; [intros cmd Hin | intros c cmd _ Hin; unfold dry_run_line in Hin];
      exfalso; destruct Habort; in_trace; discriminate.
  - split; [intros cmd Hin | intros c cmd _ Hin; unfold dry_run_line in Hin];
      exfalso; destruct Hpass; in_trace; discriminate.
  - split; [intros cmd Hin | intros c cmd _ Hin; unfold dry_run_line in Hin];
      exfalso; destruct Hpass, Hread as [[_ ->] | [_ ->]]; in_trace; discriminate.
  - assert (dry_run c' = true) as Hd' by (cbn; congruence).
    subst c'. destruct Hdid; try congruence. clear Hd'.
    split.
    + intros cmd Hin. destruct Hpass.
      inversion Hrep; subst; unfold dry_run_line in Hin; in_trace; discriminate.
    + intros c cmd [= <-] _.
      split; [in_run |].
      split.
      * intros Hok. inversion Hrep; subst; try reflexivity.
        destruct Hok as [Hq | Ht]; [congruence | contradiction].
      * intros Hq Ht. inversion Hrep; subst; try congruence; try contradiction.
        split; [reflexivity | in_run].
Qed.

Lemma dry_run_checks w o :
  run_of w o ->
  args_dry_run (argv w) = true ->
  (forall cmd, In (dry_run_line cmd) (events o) -> checks_passed w (events o))
  /\ (check_failed w (events o) ->
      status o = 1
      /\ forall cmd, ~ In (dry_run_line cmd) (events o)).
Proof.
  intros Hrun Hdry.

  destruct Hrun as [pre c0 e Hcfg | pre c0 checks Hcfg Hfail
                   | pre c0 checks e Hcfg Habort | pre c0 checks m Hcfg Hpass Hrej
                   | pre c0 checks e Hcfg Hpass Hread
                   | pre c0 checks apps shown success did tail e Hcfg Hpass Hacc c'
                       Hshown _ Hdid Hrep];
    destruct (configured_facts _ _ _ _ Hcfg) as (Hpre & _ & Hd & _ & _ & _ & Hend).
  - (* the first half raised *)
    split.
    + intros cmd Hin. unfold dry_run_line in Hin.
      destruct e; in_trace; try discriminate; try contradiction.
    + intros Hcf. exfalso.
      destruct Hcf as [[Hin Hf] | [[Hin Hf] | [(f & Hin & Hf) | (p & Hin & Hf)]]];
        destruct e; in_trace; try discriminate; try contradiction.
  - (* a prerequisite failed *)
    split.
    + intros cmd Hin. unfold dry_run_line in Hin.
      destruct Hfail; in_trace; try discriminate; try contradiction.
    + intros _. split; [reflexivity |].
      intros cmd Hin. unfold dry_run_line in Hin.
      destruct Hfail; in_trace; try discriminate; try contradiction.
  - (* a prerequisite check raised *)
    split.
    + intros cmd Hin. unfold dry_run_line in Hin.
      destruct Habort; in_trace; try discriminate; try contradiction.
    + intros Hcf.
      destruct Habort.
      * exfalso.
        destruct Hcf as [[Hin Hf] | [[Hin Hf] | [(f & Hin & Hf) | (p & Hin & Hf)]]];
          in_trace; absurd_check.
      * split; [reflexivity |].
        intros cmd Hin. unfold dry_run_line in Hin.
        in_trace; try discriminate; try contradiction.
      * exfalso.
        destruct Hcf as [[Hin Hf] | [[Hin Hf] | [(f & Hin & Hf) | (p & Hin & Hf)]]];
          in_trace; absurd_check.
  - (* the apps file was rejected *)
    split.
    + intros cmd Hin. unfold dry_run_line in Hin.
      destruct Hpass; in_trace; try discriminate; try contradiction.
    + intros _. split; [reflexivity |].
      intros cmd Hin. unfold dry_run_line in Hin.
      destruct Hpass; in_trace; try discriminate; try contradiction.
  - (* reading the apps file raised *)
    split.
    + intros cmd Hin. unfold dry_run_line in Hin.
      destruct Hpass, Hread as [[_ ->] | [_ ->]]; in_trace;
        try discriminate; try contradiction.
    + intros Hcf.
      destruct Hread as [[Hr ->] | [Hr ->]].
      * exfalso. destruct Hpass.
        destruct Hcf as [[Hin Hf] | [[Hin Hf] | [(f & Hin & Hf) | (p & Hin & Hf)]]];
          in_trace; absurd_check.
      * split; [reflexivity |].
        intros cmd Hin. unfold dry_run_line in Hin.
        destruct Hpass; in_trace; try discriminate; try contradiction.
  - (* the build step was reached *)
    assert (dry_run c' = true) as Hd' by (cbn; congruence).
    subst c'. destruct Hdid; try congruence.
    split.
    + intros cmd' _. destruct Hpass. unfold checks_passed, apps_loaded.
      split; [split; [in_run | eauto] |].
      split; [split; [in_run | eauto] |].
      split.
      * intros f Hf. unfold required_files in Hf.
        destruct Hf as [<- | [<- | []]]; (split; [in_run | assumption]).
      * exists (apps_file c0), apps. split; [in_run | assumption].
    + intros Hcf. exfalso. destruct Hpass.
      destruct Hcf as [[Hin Hf] | [[Hin Hf] | [(f & Hin & Hf) | (p & Hin & Hf)]]];
        inversion Hrep; subst; in_trace; absurd_check.
Qed.

Lemma status_130 w o :
  run_of w o ->
  status o = 130 ->
  (exists t, events o = t ++ [EStatus WARNING MsgInterrupted; ECleanup])
  /\ (forall cmd, ~ In (EPopen cmd) (events o))
  /\ (args_interactive (argv w) = true /\ In InputInterrupted (stdin w)
      \/ run w docker_version_cmd = RunInterrupted
      \/ run w docker_info_cmd = RunInterrupted
      \/ exists c, final_config o = Some c
                   /\ read_file w (apps_file c) = ReadInterrupted).
Proof.
  intros Hrun Hs. run_cases Hrun.

  - destruct (configured_events _ _ _ _ Hcfg) as (asked & _ & _ & _ & _ & Hint).
    destruct Hend as [? | [[= ->] | [= ->]]]; try discriminate.
    split; [exists pre; reflexivity |].
    split; [intros cmd Hin; in_trace; discriminate |].
    left. split; [| now apply Hint].
    destruct (args_interactive (argv w)); [reflexivity |].
    destruct (Hni eq_refl) as [_ ?]. discriminate.
  - discriminate.
  - destruct Habort; try discriminate.
    + split; [eexists (pre ++ _); reflexivity |].
      split; [intros cmd Hin; in_trace; discriminate | auto].
    + split; [eexists (pre ++ _); reflexivity |].
      split; [intros cmd Hin; in_trace; discriminate | auto].
  - discriminate.
  - destruct Hread as [[Hr ->] | [_ ->]]; try discriminate.
    split; [exists (pre ++ checks ++ loading (apps_file c0)); reflexivity |].
    split; [intros cmd Hin; destruct Hpass; in_trace; discriminate |].
    do 3 right. exists c0. split; [reflexivity | assumption].
  - exfalso. subst c'. inversion Hrep; subst; try destruct success; discriminate.
Qed.

Lemma interrupted_build w o cmd lines :
  run_of w o ->
  In (EPopen cmd) (events o) ->
  popen w cmd = BuildInterrupted lines ->
  status o = 1
  /\ In (EStatus WARNING MsgInterrupted) (events o)
  /\ forall rc, ~ In (EStatus ERROR (MsgBuildFailed rc)) (events o).
Proof.
  intros Hrun Hin Hp.
  destruct Hrun as [pre c0 e Hcfg | pre c0 checks Hcfg Hfail
                   | pre c0 checks e Hcfg Habort | pre c0 checks m Hcfg Hpass Hrej
                   | pre c0 checks e Hcfg Hpass Hread
                   | pre c0 checks apps shown success did tail e Hcfg Hpass Hacc c'
                       Hshown _ Hdid Hrep];
    destruct (configured_facts _ _ _ _ Hcfg) as (Hpre & _ & Hd & _ & _ & _ & Hend).
  - exfalso. destruct e; in_trace; discriminate.
  - exfalso. destruct Hfail; in_trace; discriminate.
  - exfalso. destruct Habort; in_trace; discriminate.
  - exfalso. destruct Hpass; in_trace; discriminate.
  - exfalso. destruct Hpass, Hread as [[_ ->] | [_ ->]]; in_trace; discriminate.
  - subst c'.
    assert (did = starting cmd ++ build_lines lines ++ [EStatus WARNING MsgInterrupted]
            /\ success = false
            /\ cmd = docker_command (set_apps_json_base64 (apps_payload apps) c0)
                       (apps_payload apps)) as (-> & -> & Hcmd).
    { destruct Hpass.
      inversion Hdid; subst; inversion Hrep; subst; in_trace;
        try discriminate;
        match goal with
        | H : EPopen _ = EPopen _ |- _ => injection H as <-
        end;
        solve [congruence | repeat split; congruence]. }
    inversion Hrep; subst.
    + split; [reflexivity |]. split; [in_run |].
      intros rc Hbad. destruct Hpass. in_trace; discriminate.
    + split; [reflexivity |]. split; [in_run |].
      intros rc Hbad. destruct Hpass. in_trace; discriminate.
Qed.


(** The build file that the command names after [--file] is one
    of the two whose existence was checked. *)
Lemma command_names_file w c b64 checks :
  prerequisites_pass w checks ->
  exists (i : nat) f,
    docker_command c b64 !! i = Some (py "--file")
    /\ docker_command c b64 !! S i = Some f
    /\ In f required_files /\ path_exists w f = true.
Proof.
  intros [out1 out2 _ _ E3 E4].
  unfold docker_command, build_arg. destruct (build_method c).
  + exists 10%nat, (py "images/layered/Containerfile").
    split; [reflexivity |]. split; [reflexivity |].
    split; [left; reflexivity | exact E3].
  + exists 20%nat, (py "images/custom/Containerfile").
    split; [reflexivity |]. split; [reflexivity |].
    split; [right; left; reflexivity | exact E4].
Qed.

Lemma spawned w o cmd :
  run_of w o ->
  In (EPopen cmd) (events o) ->
  exists c apps,
    final_config o = Some c
    /\ dry_run c = false
    /\ accepted_apps w (apps_file c) apps
    /\ cmd = docker_command c (apps_payload apps)
    /\ checks_passed w (events o)
    /\ exists (i : nat) f,
         cmd !! i = Some (py "--file") /\ cmd !! S i = Some f
         /\ In f required_files /\ path_exists w f = true.
Proof.
  intros Hrun Hin. run_cases Hrun.

  - exfalso. destruct e; in_trace; discriminate.
  - exfalso. destruct Hfail; in_trace; discriminate.
  - exfalso. destruct Habort; in_trace; discriminate.
  - exfalso. destruct Hpass; in_trace; discriminate.
  - exfalso. destruct Hpass, Hread as [[_ ->] | [_ ->]]; in_trace; discriminate.
  - subst c'. exists (set_apps_json_base64 (apps_payload apps) c0), apps.
    pose proof (executed_checks_passed w
                  (set_apps_json_base64 (apps_payload apps) c0) pre checks
                  (apps_file c0) apps (shown ++ did ++ tail) e Hpass Hacc) as Hchecks.
    assert (dry_run (set_apps_json_base64 (apps_payload apps) c0) = false
            /\ cmd = docker_command (set_apps_json_base64 (apps_payload apps) c0)
                       (apps_payload apps)) as [Hd ->].
    { destruct Hpass.
      inversion Hdid; subst; inversion Hrep; subst; in_trace; try discriminate;
        match goal with
        | H : EPopen _ = EPopen _ |- _ => injection H as <-
        end; auto. }
    split; [reflexivity |]. split; [exact Hd |]. split; [exact Hacc |].
    split; [reflexivity |]. split; [exact Hchecks |].
    destruct Hpass as [out1 out2 _ _ E3 E4].
    unfold docker_command, build_arg. cbn [build_method set_apps_json_base64].
    destruct (build_method c0).
    + exists 10%nat, (py "images/layered/Containerfile").
      split; [reflexivity |]. split; [reflexivity |].
      split; [left; reflexivity | exact E3].
    + exists 20%nat, (py "images/custom/Containerfile").
      split; [reflexivity |]. split; [reflexivity |].
      split; [right; left; reflexivity | exact E4].
Qed.

End Program.
End OutcomeFacts.

Module StoppedFacts.
Import Json Builder.
Import Logic LogicFacts Spec Spec2 Observe General Traces Traces2 Traces3.
Import StageFacts StageFacts2 StageFacts3 RunFacts RunFacts2 SetupFacts.
Import GeneralFacts RuntimeFacts.

(** The eleven kinds of stopped run, with the names used below. *)
Ltac stopped_cases Hstop :=
  destruct Hstop
    as [HP | HP | before var key v HP Hstop
        | pre c0 out Hcfg E1 Hn
        | pre c0 out1 out2 found f rest Hcfg E1 E2 Ef Hfound Hf
        | pre c0 checks Hcfg Hpass Hn
        | pre c0 checks content text Hcfg Hpass Er Ed Hdigits
        | pre c0 checks apps shown x rest Hcfg Hpass Hacc Eapps Hline
        | pre c0 checks apps shown Hcfg Hpass Hacc Hquiet Hshown
        | pre c0 checks apps shown Hcfg Hpass Hacc c' Hshown Hw
        | pre c0 checks apps shown lines printed line rest tail e
            Hcfg Hpass Hacc c' cmd0 Hshown Hd Hp El Hline Hrep];
  try (destruct (configured_facts _ _ _ _ Hcfg)
         as (Hpre & Hinteractive & Hdry & Hq & Hnone & Hni & Hend)).

(** Splits the hypotheses that an event belongs to a stopped run. *)
Ltac in_stopped :=
  repeat first
    [ progress Traces.in_trace
    | progress in_setup_trace
    | match goal with
      | H : In _ (events (parser_exit _ _)) |- _ => cbn [events parser_exit] in H
      | H : In _ (version_checked _) |- _ => unfold version_checked in H
      | H : In _ (map EExists _) |- _ =>
          apply in_map_iff in H; destruct H as (? & H & ?)
      | H : (if ?b then _ else _) = _ |- _ => destruct b
      end ].

End StoppedFacts.

(** ** The claims of the specification *)

Module Claims.
Import Json Builder Logic LogicFacts Spec Spec2 Observe Traces Traces2 Traces3 Worlds.
Import StageFacts StageFacts2 StageFacts3 RunFacts RunFacts2.
Import Base64Facts Utf8Facts DumpsFacts ParseFacts.
Import General SetupFacts GeneralFacts RuntimeFacts SessionFacts.
Import OutcomeFacts StoppedFacts.

(** *** On the lenient runtime *)

Section Program.
Context {F : PyFloat}.

(** C2. The command composed for a configuration holds
    [--build-arg] entries for [FRAPPE_PATH], [FRAPPE_BRANCH] and
    [APPS_JSON_BASE64]; for the custom method it also holds the
    five entries of the custom build, and for the layered method
    no [--build-arg] names one of the five. *)
Theorem build_command_arguments w s c b64 :
  config s = Some c -> apps_json_base64 c = Some b64 ->
  exists cmd,
    build_docker_command w s = (Return cmd, s, [])
    /\ has_build_arg cmd (py "FRAPPE_PATH") (frappe_path c)
    /\ has_build_arg cmd (py "FRAPPE_BRANCH") (frappe_branch c)
    /\ has_build_arg cmd (py "APPS_JSON_BASE64") b64
    /\ (build_method c = Custom ->
        forall key value, In (key, value) (custom_build_args c) ->
                          has_build_arg cmd key value)
    /\ (build_method c = Layered ->
        forall key value, In (key, value) (custom_build_args c) ->
                          ~ names_build_arg cmd key).
Proof.
  intros Hc Hb. exists (docker_command c b64).
  split; [now apply build_docker_command_run |].
  unfold docker_command, build_arg.
  split; [exists 2%nat; split; reflexivity |].
  split; [exists 4%nat; split; reflexivity |].
  split; [exists 6%nat; split; reflexivity |].
  split; intros Hm key value Hin; rewrite Hm; unfold custom_build_args in Hin.
  - destruct Hin as [[= <- <-] | [[= <- <-] | [[= <- <-] | [[= <- <-] | [[= <- <-] | []]]]]].
    + exists 8%nat; split; reflexivity.
    + exists 10%nat; split; reflexivity.
    + exists 12%nat; split; reflexivity.
    + exists 14%nat; split; reflexivity.
    + exists 16%nat; split; reflexivity.
  - intros (value' & i & H1 & H2). cbn [method_name app] in H1, H2.
    destruct Hin as [[= <- <-] | [[= <- <-] | [[= <- <-] | [[= <- <-] | [[= <- <-] | []]]]]];
      do 13 (destruct i as [| i];
             [cbn in H1, H2; eval_py_in H1; eval_py_in H2; cbn [app] in H2;
              first [discriminate H1 | discriminate H2] |]);
      discriminate H1.
Qed.

(** C6. An interruption that arrives while the output of
    [docker build] is read is reported as such, and the run ends
    with status 1. *)
Theorem interrupted_build_exits_1 w cmd lines :
  In (EPopen cmd) (events (main w)) ->
  popen w cmd = BuildInterrupted lines ->
  status (main w) = 1
  /\ In (EStatus WARNING MsgInterrupted) (events (main w))
  /\ forall rc, ~ In (EStatus ERROR (MsgBuildFailed rc)) (events (main w)).
Proof.
  apply (main_cases w). intros o Hrun.
  exact (interrupted_build w o cmd lines Hrun).
Qed.


End Program.

(** *** On any runtime *)

Section Runtimes.
Context {F : PyFloat} {R : Runtime}.


(** C3. With [--interactive] the environment is read first, inside
    [_load_config], and the answers are written over it: once the
    loop over the environment is done and the first four prompts
    are answered, the keys that they ask hold the answers (or
    the defaults of the prompts); the two versions hold the
    fifth and the sixth answer when the method is custom and
    these are given, and the values of [_load_config] when it is
    layered; [frappe_path], which is not asked, keeps the value
    [_load_config] gave it. *)
Theorem interactive_answers_win w a1 a2 a3 a4 more c :
  args_interactive (argv w) = true ->
  env_writable (environ w) env_mappings ->
  stdin w = Line a1 :: Line a2 :: Line a3 :: Line a4 :: more ->
  final_config (main w) = Some c ->
  build_method c = (if bool_decide (Py.strip a1 = py "2") then Custom else Layered)
  /\ apps_file c = or_default (Py.strip a2) (py "apps.json")
  /\ tag c = or_default (Py.strip a3) (py "frappe_custom:latest")
  /\ frappe_branch c = or_default (Py.strip a4) (py "version-15")
  /\ (forall a5 a6 rest,
         more = Line a5 :: Line a6 :: rest ->
         build_method c = Custom ->
         python_version c = or_default (Py.strip a5) (py "3.11.6")
         /\ node_version c = or_default (Py.strip a6) (py "20.19.2"))
  /\ (build_method c = Layered ->
      python_version c = python_version (loaded_config w)
      /\ node_version c = node_version (loaded_config w))
  /\ frappe_path c = frappe_path (loaded_config w).
Proof.
  intros Hi Hw Hin Hc.
  destruct (final_config_on w c Hc) as (r & pre & c0 & Hs & Hcase).
  destruct (set_up_cases _ _ _ _ Hs)
    as [_ [[_ Hcfg] | (before & var & key & v & Hstop & _)]];
    [| now destruct (env_stops_not_writable _ _ _ _ _ Hstop)].
  destruct (configured_keeps _ _ _ _ Hcfg) as [Hpath Hlayered].
  pose proof (configured_after_session w _ r pre c0 Hi
                ltac:(rewrite Hin; apply interactive_config_first_four) Hcfg)
    as (Hm & Hfile & Htag & Hbranch & Hcustom).
  destruct Hcase as [-> | (apps & _ & ->)]; read_config; auto 10.
Qed.

(** C4. A configuration key whose environment variable is set has
    the value of that variable in the final configuration,
    whatever the command line gave, when the loop of
    [_load_config] reaches the variable and no prompt asks the
    key: in a run without [--interactive], for [frappe_path],
    and for the two versions when the method is layered. *)
Theorem environment_beats_flags w before var key after v c :
  env_mappings = before ++ (var, key) :: after ->
  env_writable (environ w) before ->
  environ w !! var = Some v ->
  final_config (main w) = Some c ->
  args_interactive (argv w) = false
  \/ key = KFrappePath
  \/ build_method c = Layered /\ (key = KPythonVersion \/ key = KNodeVersion) ->
  config_get key c = v.
Proof.
  intros E Hw Hv Hc Hkey.
  destruct (final_config_on w c Hc) as (r & pre & c0 & Hs & Hcase).
  assert (config_get key c = config_get key c0
          /\ build_method c = build_method c0) as [-> Hm].
  { destruct Hcase as [-> | (apps & _ & ->)];
      [now split | split; [apply config_get_payload | reflexivity]]. }
  rewrite Hm in Hkey. clear Hcase Hm Hc.
  destruct (set_up_reads w r pre c0 _ _ _ _ _ E Hw Hv Hs) as [Hcfg | Hget];
    [| exact Hget].
  assert (In (var, key) env_mappings) as Hin
      by (rewrite E; apply in_elt).
  pose proof (env_override_get (environ w) var key v (config_of_args (argv w)) Hin Hv)
    as Hloaded.
  fold (loaded_config w) in Hloaded.
  destruct (configured_keeps _ _ _ _ Hcfg) as [Hpath Hlayered].
  destruct Hkey as [Hi | [-> | [Hl [-> | ->]]]].
  - destruct (configured_facts _ _ _ _ Hcfg) as (_ & _ & _ & _ & _ & Hni & _).
    now destruct (Hni Hi) as [-> _].
  - cbn [config_get] in *. congruence.
  - cbn [config_get] in *. destruct (Hlayered Hl). congruence.
  - cbn [config_get] in *. destruct (Hlayered Hl). congruence.
Qed.

(** C5. When the apps file of the resolved configuration is
    missing, is not JSON, is not an array or has an element without
    [url] or [branch], the program ends with a status other than
    zero, and [subprocess.Popen] is never called. *)
Theorem rejected_apps_stop_the_run w c :
  final_config (main w) = Some c ->
  rejected_apps w (apps_file c) ->
  status (main w) <> 0
  /\ forall cmd, ~ In (EPopen cmd) (events (main w)).
Proof.
  destruct (main_cases_on w) as [Hrun | Hstop];
    [exact (rejected_stops w _ c Hrun) |].
  intros Hc Hrej. stopped_cases Hstop; try discriminate Hc;
    try (split; [discriminate | intros cmd Hin; try destruct Hpass; in_stopped;
                                discriminate]).
  exfalso. injection Hc as <-. exact (accepted_not_rejected _ _ _ Hacc Hrej).
Qed.

(** C7. With [--dry-run] no run calls [subprocess.Popen]. A run
    that prints the command ends with status 0 when it is quiet or
    the tag holds a colon; when it is not quiet and the tag holds no
    colon, the summary raises [IndexError] and the run ends with
    status 1. *)
Theorem dry_run_exit_status w :
  args_dry_run (argv w) = true ->
  (forall cmd, ~ In (EPopen cmd) (events (main w)))
  /\ (forall c cmd,
        final_config (main w) = Some c ->
        In (dry_run_line cmd) (events (main w)) ->
        In (EStatus WARNING MsgDryRun) (events (main w))
        /\ (quiet c = true \/ 58 ∈ tag c -> status (main w) = 0)
        /\ (quiet c = false -> 58 ∉ tag c ->
            status (main w) = 1
            /\ In (EStatus ERROR (MsgUnexpectedError IndexError))
                 (events (main w)))).
Proof.
  destruct (main_cases_on w) as [Hrun | Hstop];
    [exact (dry_run_status w _ Hrun) |].
  intros Hdry0. stopped_cases Hstop;
    try (assert (dry_run c' = true) as Hd' by (cbn; congruence); congruence);
    (split; [intros cmd Hin | intros c cmd _ Hin; unfold dry_run_line in Hin]);
    exfalso; try destruct Hpass; in_stopped; discriminate.
Qed.


(** C10. In a dry run the line that shows the command is printed
    only after the two docker checks, the two file checks and the
    validation of the apps file were made and passed; and when one
    of the checks that were made failed, the run ends with status
    1 and never prints that line. *)
Theorem dry_run_keeps_the_checks w :
  args_dry_run (argv w) = true ->
  (forall cmd, In (dry_run_line cmd) (events (main w)) ->
               checks_passed w (events (main w)))
  /\ (check_failed w (events (main w)) ->
      status (main w) = 1
      /\ forall cmd, ~ In (dry_run_line cmd) (events (main w))).
Proof.
  destruct (main_cases_on w) as [Hrun | Hstop];
    [exact (dry_run_checks w _ Hrun) |].
  intros Hdry0.
  assert (forall o,
            (forall cmd, ~ In (dry_run_line cmd) (events o)) ->
            (check_failed w (events o) -> status o = 1) ->
            (forall cmd, In (dry_run_line cmd) (events o) ->
                         checks_passed w (events o))
            /\ (check_failed w (events o) ->
                status o = 1 /\ forall cmd, ~ In (dry_run_line cmd) (events o)))
    as Hgoal.
  { intros o Hno Hst. split; [intros cmd Hin; now destruct (Hno cmd) | auto]. }
  stopped_cases Hstop;
    try (assert (dry_run c' = true) as Hd' by (cbn; congruence); congruence);
    apply Hgoal;
    try (intros cmd Hin; unfold dry_run_line in Hin; try destruct Hpass;
         in_stopped; discriminate);
    try (intros _; reflexivity);
    intros [[Hin _] | [[Hin _] | [(f & Hin & _) | (p & Hin & _)]]];
    in_stopped; discriminate.
Qed.

End Runtimes.

(** *** The claims on concrete worlds *)

#[local] Existing Instance FloatLaws.floats.



Lemma build_command_arguments_witness :
  exists cmd,
    build_docker_command plain (ready Layered) = (Return cmd, ready Layered, [])
    /\ has_build_arg cmd (py "FRAPPE_BRANCH") (py "version-15")
    /\ ~ names_build_arg cmd (py "PYTHON_VERSION").
Proof.
  destruct (build_command_arguments plain (ready Layered) _ (py "W10=") eq_refl eq_refl)
    as (cmd & E & _ & Hbranch & _ & _ & Hlayered).
  exists cmd. split; [exact E |]. split; [exact Hbranch |].
  apply (Hlayered eq_refl _ (py "3.11.6")). left. reflexivity.
Defined.

(** *** Environment and interactive answers *)

Ltac final_config_on_of w c :=
  destruct (final_config (main (R := cpython) w)) as [c |] eqn:Hfinal;
  [| vm_compute in Hfinal; discriminate Hfinal].

(** Counterexample to C3: [DOCKER_TAG] is set and the user answers
    the prompt for the tag; the final tag is the answer. *)
Lemma interactive_answer_replaces_environment :
  environ interactive_tag !! py "DOCKER_TAG" = Some (py "foo:bar")
  /\ args_interactive (argv interactive_tag) = true
  /\ In (EInput AskTag) (events (main (R := cpython) interactive_tag))
  /\ tag <$> final_config (main (R := cpython) interactive_tag) = Some (py "baz:qux").
Proof.
  split; [vm_compute; reflexivity |]. split; [reflexivity |].
  split; [vm_compute; find_in | vm_compute; reflexivity].
Defined.

Lemma interactive_answers_win_witness :
  exists c,
    final_config (main (R := cpython) short_session) = Some c
    /\ tag c = py "baz:qux"
    /\ apps_file c = py "apps.json"
    /\ build_method c = Layered.
Proof.
  final_config_on_of short_session c. exists c.
  destruct (interactive_answers_win (R := cpython) short_session
              (py "1") [] (py "baz:qux") [] [] c eq_refl
              ltac:(unfold env_writable; vm_compute; repeat constructor)
              eq_refl Hfinal) as (Hm & Hfile & Htag & _).
  split; [reflexivity |]. split; [exact Htag |]. split; [exact Hfile | exact Hm].
Defined.

(** Counterexample to C4: [DOCKER_TAG] and [--tag] are both given,
    with [--interactive]; the final tag is the default of the prompt,
    and neither of the two. *)
Lemma interactive_default_replaces_environment :
  environ interactive_flag !! py "DOCKER_TAG" = Some (py "foo:bar")
  /\ args_tag (argv interactive_flag) = py "baz:qux"
  /\ tag <$> final_config (main (R := cpython) interactive_flag)
     = Some (py "frappe_custom:latest").
Proof.
  split; [vm_compute; reflexivity |]. split; [reflexivity | vm_compute; reflexivity].
Defined.

Lemma environment_beats_flags_witness :
  exists c,
    args_interactive (argv interactive_path) = true
    /\ final_config (main (R := cpython) interactive_path) = Some c
    /\ frappe_path c = py "https://example.org/frappe".
Proof.
  final_config_on_of interactive_path c. exists c.
  split; [reflexivity |]. split; [reflexivity |].
  apply (environment_beats_flags (R := cpython) interactive_path
           [] (py "FRAPPE_PATH") KFrappePath (tl env_mappings)
           (py "https://example.org/frappe") c).
  - reflexivity.
  - constructor.
  - vm_compute. reflexivity.
  - exact Hfinal.
  - right. left. reflexivity.
Defined.

(** *** Failures *)

Lemma rejected_apps_stop_the_run_witness :
  rejected_apps object_file (py "apps.json")
  /\ status (main object_file) <> 0
  /\ forall cmd, ~ In (EPopen cmd) (events (main object_file)).
Proof.
  assert (rejected_apps object_file (py "apps.json")) as Hrej.
  { apply (rejected_not_array _ _ (py "{}") (py "{}") (JObj []));
      [vm_compute; reflexivity .. | discriminate]. }
  split; [exact Hrej |].
  apply (rejected_apps_stop_the_run object_file (config_of_args plain_args));
    [vm_compute; reflexivity | exact Hrej].
Defined.

Lemma interrupted_build_exits_1_witness :
  status (main interrupted) = 1
  /\ In (EStatus WARNING MsgInterrupted) (events (main interrupted)).
Proof.
  pose (c := set_apps_json_base64 (apps_payload [erpnext]) (config_of_args plain_args)).
  destruct (interrupted_build_exits_1 interrupted
              (docker_command c (apps_payload [erpnext])) [py "Step 1/1"])
    as (Hstatus & Hshown & _).
  - vm_compute. find_in.
  - reflexivity.
  - split; assumption.
Defined.

Lemma dry_run_exit_status_witness :
  status (main dry_no_colon) = 1
  /\ In (EStatus ERROR (MsgUnexpectedError IndexError)) (events (main dry_no_colon))
  /\ forall cmd, ~ In (EPopen cmd) (events (main dry_no_colon)).
Proof.
  pose (c := set_apps_json_base64 (apps_payload [erpnext])
               (config_of_args (argv dry_no_colon))).
  destruct (dry_run_exit_status dry_no_colon eq_refl) as [Hnone Hexit].
  destruct (Hexit c (docker_command c (apps_payload [erpnext]))) as (_ & _ & Hbad).
  - vm_compute. reflexivity.
  - vm_compute. find_in.
  - destruct Hbad as [Hstatus Herror].
    + reflexivity.
    + apply (proj1 (bool_decide_eq_false _)). vm_compute. reflexivity.
    + split; [exact Hstatus |]. split; [exact Herror | exact Hnone].
Defined.



Lemma dry_run_keeps_the_checks_witness :
  check_failed (no_daemon (argv dry_no_colon)) (events (main (no_daemon (argv dry_no_colon))))
  /\ status (main (no_daemon (argv dry_no_colon))) = 1
  /\ forall cmd, ~ In (dry_run_line cmd) (events (main (no_daemon (argv dry_no_colon)))).
Proof.
  assert (check_failed (no_daemon (argv dry_no_colon))
            (events (main (no_daemon (argv dry_no_colon))))) as Hfailed.
  { right. left. split; [vm_compute; find_in | vm_compute; discriminate]. }
  split; [exact Hfailed |].
  exact (proj2 (dry_run_keeps_the_checks (no_daemon (argv dry_no_colon)) eq_refl) Hfailed).
Defined.


End Claims.

(** ** The methods one by one *)

Module Methods.
Import Json Builder.
Import Logic LogicFacts Spec Spec2 Observe Traces Traces2 Traces3 Worlds.
Import StageFacts StageFacts2 StageFacts3 RunFacts RunFacts2.
Import General SetupFacts GeneralFacts RuntimeFacts SessionFacts.
Import OutcomeFacts StoppedFacts.

(** *** On the lenient runtime *)

Section Program.
Context {F : PyFloat}.

(** *** [_validate_prerequisites] *)


(** *** [_load_config] *)

(** *** [_get_build_args] and [_execute_build] *)

(** *** [_print_build_summary] *)

(** X7. The summary of a failed build never raises. The summary
    of a successful build returns exactly when the tag holds a
    colon; otherwise it raises [IndexError], after the lines that
    come before the hint for compose were printed. *)
Theorem print_build_summary_outcome w s c :
  config s = Some c ->
  print_build_summary false w s = (Return tt, s, failure_summary)
  /\ (fst (fst (print_build_summary true w s)) = Return tt <-> 58 ∈ tag c)
  /\ (fst (fst (print_build_summary true w s)) = Raise (Exception IndexError)
      <-> 58 ∉ tag c)
  /\ exists last, snd (print_build_summary true w s) = success_summary c ++ last.
Proof.
  intros Hc. split; [now apply (print_build_summary_failure w s c) |].
  destruct (print_build_summary_success w s c Hc) as (r & last & E & Hin & Hnot).
  rewrite E. cbn [fst snd].
  destruct (decide (58 ∈ tag c)) as [H | H].
  - destruct (Hin H) as [-> _].
    split; [tauto |]. split; [split; [discriminate | contradiction] | eauto].
  - destruct (Hnot H) as [-> _].
    split; [split; [discriminate | contradiction] |]. split; [tauto | eauto].
Qed.

(** *** [_cleanup] *)

Lemma cleanup_files_run w s files :
  exists t,
    cleanup_files files w s = (Return tt, s, t)
    /\ (forall f, In (EExists f) t <-> In f files)
    /\ (forall f, In (ERemove f) t <-> In f files /\ path_exists w f = true)
    /\ (forall f, In (EStatus WARNING (MsgCleanupFailed f)) t
                  <-> In f files /\ path_exists w f = true /\ remove_file w f = false)
    /\ (forall f, In (EStatus INFO (MsgCleanedUp f)) t
                  <-> In f files /\ path_exists w f = true /\ remove_file w f = true).
Proof.
  induction files as [| file files (t & E & H1 & H2 & H3 & H4)].
  - exists []. split; [reflexivity |]. cbn [In]. repeat split; tauto.
  - cbn [cleanup_files]. run_monad.
    destruct (path_exists w file) eqn:Hp; run_monad;
      [destruct (remove_file w file) eqn:Hr; run_monad |];
      rewrite E; eexists; (split; [reflexivity |]); cbn [In app];
      repeat split; intros;
      repeat match goal with
             | H : _ \/ _ |- _ => destruct H
             | H : _ /\ _ |- _ => destruct H
             | H : EExists _ = EExists _ |- _ => injection H as ->
             | H : ERemove _ = ERemove _ |- _ => injection H as ->
             | H : EStatus _ (MsgCleanupFailed _) = EStatus _ (MsgCleanupFailed _) |- _ =>
                 injection H as ->
             | H : EStatus _ (MsgCleanedUp _) = EStatus _ (MsgCleanedUp _) |- _ =>
                 injection H as ->
             | H : In (EExists _) t |- _ => apply H1 in H
             | H : In (ERemove _) t |- _ => apply H2 in H
             | H : In (EStatus WARNING (MsgCleanupFailed _)) t |- _ => apply H3 in H
             | H : In (EStatus INFO (MsgCleanedUp _)) t |- _ => apply H4 in H
             end;
      subst; try discriminate; try congruence; auto 6;
      try (right; first [apply H1 | apply H2 | apply H3 | apply H4]; auto; fail);
      try (do 2 right; first [apply H1 | apply H2 | apply H3 | apply H4]; auto; fail);
      try (do 3 right; first [apply H1 | apply H2 | apply H3 | apply H4]; auto; fail).
Qed.

(** X8. [_cleanup] never raises and leaves the builder as it is.
    It looks for every temporary file, removes those that exist, and
    goes on after a file that could not be removed, with a warning
    for it. *)
Theorem cleanup_never_raises w s :
  exists t,
    cleanup w s = (Return tt, s, ECleanup :: t)
    /\ (forall f, In (EExists f) t <-> In f (temp_files s))
    /\ (forall f, In (ERemove f) t <-> In f (temp_files s) /\ path_exists w f = true)
    /\ (forall f, In (EStatus WARNING (MsgCleanupFailed f)) t
                  <-> In f (temp_files s) /\ path_exists w f = true
                      /\ remove_file w f = false).
Proof.
  destruct (cleanup_files_run w s (temp_files s)) as (t & E & H1 & H2 & H3 & _).
  exists t. split; [| auto]. unfold cleanup. run_monad. now rewrite E.
Qed.

End Program.

(** *** On any runtime *)

Section Runtimes.
Context {F : PyFloat} {R : Runtime}.


(** X3. When [docker --version] does not end with return code 0,
    [_validate_prerequisites] runs no other command and looks for
    no file. *)
Theorem version_check_comes_first w s r s' t :
  (forall out, run w docker_version_cmd <> Completed 0 out) ->
  validate_prerequisites w s = (r, s', t) ->
  r <> Return true
  /\ (forall cmd, In (ERun cmd) t -> cmd = docker_version_cmd)
  /\ forall f, ~ In (EExists f) t.
Proof.
  intros Hno E.
  destruct (validate_prerequisites_checked _ _ _ _ _ E) as [_ H].
  destruct H as [t H _ | t H _ | e t H _ | out E1 _
                 | out1 out2 found f rest E1 _ _ _ _ _];
    try (now destruct (Hno _ E1)).
  - destruct H as [out1 ? E1]. now destruct (Hno out1).
  - split; [discriminate |].
    destruct H as [| | out1 ? ? E1 | out1 ? E1 | out1 ? E1 | out1 ? E1];
      try (now destruct (Hno out1));
      (split; [intros cmd Hin | intros f Hin]); in_trace;
      first [discriminate | congruence].
  - split; [discriminate |].
    destruct H as [| | out1 E1];
      try (now destruct (Hno out1));
      (split; [intros cmd Hin | intros f Hin]); in_trace;
      first [discriminate | congruence].
Qed.

(** X4. [_load_config] returns when the standard output can
    write the value of every variable of [env_mappings] that is
    set: each key of [env_mappings] then has the value of its
    variable when that is set and the value of the command line
    otherwise; the build method, the Debian base and the two
    wkhtmltopdf keys, and the four mode flags are those of the
    command line; one line is printed for each variable that is
    set. Otherwise the method raises [UnicodeEncodeError] at the
    first value that cannot be written, after it has stored that
    value, and the later variables are not looked at. *)
Theorem load_config_resolves w s :
  (env_writable (environ w) env_mappings
   /\ load_config (argv w) w s
      = (Return tt, with_config s (loaded_config w),
         env_lines (environ w) env_mappings)
   \/ exists before var key v,
        env_stops (environ w) before var key v
        /\ load_config (argv w) w s
           = (Raise (Exception UnicodeEncodeError),
              with_config s
                (config_set key v
                   (env_override (environ w) before (config_of_args (argv w)))),
              env_lines (environ w) before))
  /\ (forall var key,
        In (var, key) env_mappings ->
        config_get key (loaded_config w)
        = match environ w !! var with
          | Some v => v
          | None => config_get key (config_of_args (argv w))
          end)
  /\ build_method (loaded_config w) = args_build_method (argv w)
  /\ debian_base (loaded_config w) = args_debian_base (argv w)
  /\ wkhtmltopdf_version (loaded_config w) = args_wkhtmltopdf_version (argv w)
  /\ wkhtmltopdf_distro (loaded_config w) = args_wkhtmltopdf_distro (argv w)
  /\ same_flags (config_of_args (argv w)) (loaded_config w)
  /\ forall e, In e (env_lines (environ w) env_mappings)
               <-> exists var key v,
                     In (var, key) env_mappings /\ environ w !! var = Some v
                     /\ e = EStatus INFO (MsgFromEnvironment key v).
Proof.
  split; [apply load_config_on |].
  split.
  { intros var key Hin. unfold loaded_config.
    destruct (environ w !! var) as [v |] eqn:Hv.
    - now apply (env_override_get _ var).
    - now apply (env_override_unset _ var). }
  assert (forall c,
            build_method (env_override (environ w) env_mappings c) = build_method c
            /\ debian_base (env_override (environ w) env_mappings c) = debian_base c
            /\ wkhtmltopdf_version (env_override (environ w) env_mappings c)
               = wkhtmltopdf_version c
            /\ wkhtmltopdf_distro (env_override (environ w) env_mappings c)
               = wkhtmltopdf_distro c) as Hkeep.
  { intros c. unfold env_mappings. cbn [env_override].
    repeat match goal with
           | |- context [environ w !! ?k] => destruct (environ w !! k)
           end;
      repeat split. }
  destruct (Hkeep (config_of_args (argv w))) as (H1 & H2 & H3 & H4).
  repeat (split; [assumption || apply loaded_flags |]).
  intros e. split; [apply in_env_lines |].
  intros (var & key & v & Hin & Hv & ->). now apply (env_lines_in _ _ var).
Qed.


End Runtimes.

(** *** The methods on concrete worlds *)

#[local] Existing Instance FloatLaws.floats.

Lemma version_check_comes_first_witness :
  fst (fst (validate_prerequisites no_docker (initial_state no_docker))) <> Return true
  /\ forall f, ~ In (EExists f)
                   (snd (validate_prerequisites no_docker (initial_state no_docker))).
Proof.
  destruct (validate_prerequisites no_docker (initial_state no_docker))
    as [[r s'] t] eqn:E.
  destruct (version_check_comes_first no_docker (initial_state no_docker) r s' t)
    as (Hr & _ & Hf).
  - intros out. discriminate.
  - exact E.
  - split; [exact Hr | exact Hf].
Defined.

Lemma print_build_summary_outcome_witness :
  fst (fst (print_build_summary true dry_no_colon
              {| config := Some (config_of_args (argv dry_no_colon));
                 temp_files := []; unread := [] |}))
  = Raise (Exception IndexError).
Proof.
  destruct (print_build_summary_outcome dry_no_colon
              {| config := Some (config_of_args (argv dry_no_colon));
                 temp_files := []; unread := [] |}
              (config_of_args (argv dry_no_colon)) eq_refl) as (_ & _ & Hraise & _).
  apply Hraise. apply (proj1 (bool_decide_eq_false _)). vm_compute. reflexivity.
Defined.


End Methods.

(** ** The program as a whole *)

Module Exits.
Import Json Builder.
Import Logic LogicFacts Spec Spec2 Observe Traces Traces2 Traces3 Worlds.
Import StageFacts StageFacts2 StageFacts3 RunFacts RunFacts2.
Import General SetupFacts GeneralFacts RuntimeFacts SessionFacts.
Import OutcomeFacts StoppedFacts.

(** *** On the lenient runtime *)

Section Program.
Context {F : PyFloat}.





End Program.

(** *** On any runtime *)

Section Runtimes.
Context {F : PyFloat} {R : Runtime}.

(** X5. No run reports as an unexpected error the [KeyError]
    of [_get_build_args], since [build] stores the payload before
    it composes the command; nor a [TypeError], a
    [FileNotFoundError] or a [JSONDecodeError], which are
    handled where they arise. *)
Theorem handled_errors w :
  ~ In (EStatus ERROR (MsgUnexpectedError KeyError)) (events (main w))
  /\ ~ In (EStatus ERROR (MsgUnexpectedError TypeError)) (events (main w))
  /\ ~ In (EStatus ERROR (MsgUnexpectedError FileNotFoundError)) (events (main w))
  /\ ~ In (EStatus ERROR (MsgUnexpectedError JSONDecodeError)) (events (main w)).
Proof.
  repeat split; intros Hin;
    destruct (unexpected_only w _ Hin) as [_ [? | [? | [? | [? | ?]]]]];
    discriminate.
Qed.


(** X10. A run ends with status 0 only when the command line
    asked for the help text, which is all that the run prints;
    or after all checks passed and the apps file was accepted,
    with the payload stored in the configuration, and either in
    a dry run that printed the command or after the command it
    spawned ended with return code 0; and the run is quiet or
    its tag holds a colon. *)
Theorem exit_status_0 w :
  status (main w) = 0 ->
  (command_line = HelpRequested /\ events (main w) = [EPrint HelpText; ECleanup])
  \/ exists c apps,
       final_config (main w) = Some c
       /\ apps_json_base64 c = Some (apps_payload apps)
       /\ accepted_apps w (apps_file c) apps
       /\ checks_passed w (events (main w))
       /\ (quiet c = true \/ 58 ∈ tag c)
       /\ (dry_run c = true
           /\ In (dry_run_line (docker_command c (apps_payload apps)))
                (events (main w))
           \/ dry_run c = false
              /\ In (EPopen (docker_command c (apps_payload apps))) (events (main w))
              /\ exists lines,
                   popen w (docker_command c (apps_payload apps))
                   = BuildExited lines 0).
Proof.
  destruct (main_on w)
    as [Hh | Hu | pre c e Hs | pre c checks Hs Hc | pre c checks e Hs Hc
        | pre c checks loaded e Hs Hc Hl
        | pre c checks apps shown Hs Hc Ha Hq Hsh
        | pre c checks apps shown did e Hs Hc Ha c' Hsh Hq Hx
        | pre c checks apps shown success did tail e Hs Hc Ha c' Hsh Hq Hx Hr];
    intros Hst.
  - left. now split.
  - discriminate Hst.
  - exfalso. destruct (set_up_raised _ _ _ _ Hs) as [-> | [-> | ->]]; discriminate.
  - discriminate.
  - exfalso. inversion Hc as [| | e' t' Habort _ | |]; subst;
      [destruct Habort | ..]; discriminate.
  - exfalso. destruct Hl; discriminate.
  - discriminate.
  - exfalso. inversion Hx; subst; discriminate.
  - right. subst c'. exists (set_apps_json_base64 (apps_payload apps) c), apps.
    destruct Ha as (_ & Hacc & _).
    split; [reflexivity |]. split; [reflexivity |]. split; [exact Hacc |].
    split.
    { apply executed_checks_passed; [now apply checked_passed | exact Hacc]. }
    destruct Hr as [success' tail' e' Hrep _ |]; [| discriminate Hst].
    inversion Hrep; subst; try discriminate.
    + destruct success'; [| discriminate].
      split; [now left |].
      inversion Hx as [success' did' Hdid _ | | |]; subst.
      inversion Hdid; subst.
      * left. split; [assumption | unfold dry_run_line; in_run].
      * right. split; [assumption |]. split; [in_run | eauto].
    + split; [now right |].
      inversion Hx as [success' did' Hdid _ | | |]; subst.
      inversion Hdid; subst.
      * left. split; [assumption | unfold dry_run_line; in_run].
      * right. split; [assumption |]. split; [in_run | eauto].
Qed.

(** X11. A run ends with status 130 only when the user interrupted
    a prompt, one of the two docker commands of the checks, or the
    reading of the apps file; the warning for the interruption is
    then the last line before [_cleanup], and nothing was
    spawned. *)
Theorem exit_status_130 w :
  status (main w) = 130 ->
  (exists t, events (main w) = t ++ [EStatus WARNING MsgInterrupted; ECleanup])
  /\ (forall cmd, ~ In (EPopen cmd) (events (main w)))
  /\ (args_interactive (argv w) = true /\ In InputInterrupted (stdin w)
      \/ run w docker_version_cmd = RunInterrupted
      \/ run w docker_info_cmd = RunInterrupted
      \/ exists c, final_config (main w) = Some c
                   /\ read_file w (apps_file c) = ReadInterrupted).
Proof.
  destruct (main_cases_on w) as [Hrun | Hstop];
    [exact (status_130 w _ Hrun) |].
  intros Hs. exfalso. stopped_cases Hstop; try discriminate Hs.
  inversion Hrep; subst; discriminate Hs.
Qed.

(** X13. The command that a run spawns is the one composed from
    the final configuration and the accepted apps list; it is
    spawned in no dry run and only after all checks passed, and the
    build file it names after [--file] is one of the two files
    whose existence was checked. *)
Theorem spawned_command w cmd :
  In (EPopen cmd) (events (main w)) ->
  exists c apps,
    final_config (main w) = Some c
    /\ dry_run c = false
    /\ accepted_apps w (apps_file c) apps
    /\ cmd = docker_command c (apps_payload apps)
    /\ checks_passed w (events (main w))
    /\ exists (i : nat) f,
         cmd !! i = Some (py "--file") /\ cmd !! S i = Some f
         /\ In f required_files /\ path_exists w f = true.
Proof.
  destruct (main_cases_on w) as [Hrun | Hstop];
    [exact (spawned w _ cmd Hrun) |].
  intros Hin. stopped_cases Hstop;
    try (exfalso; try destruct Hpass; in_stopped; discriminate).
  exists c', apps.
  pose proof (executed_checks_passed w c' pre checks (apps_file c0) apps
                (shown
                 ++ (starting cmd0 ++ build_lines printed
                     ++ [EStatus ERROR (MsgBuildError UnicodeEncodeError)])
                 ++ tail) e Hpass Hacc) as Hchecks.
  assert (cmd = cmd0) as ->.
  { destruct Hpass. inversion Hrep; subst; in_stopped; try discriminate;
      match goal with
      | H : EPopen _ = EPopen _ |- _ => now injection H as <-
      end. }
  split; [reflexivity |]. split; [exact Hd |]. split; [exact Hacc |].
  split; [reflexivity |]. split; [exact Hchecks |].
  apply (command_names_file w c' (apps_payload apps) checks Hpass).
Qed.

(** X15. A run prints the line that a key was taken from the
    environment exactly when the command line was parsed, the
    variable of the key is set, and the values of the variables
    that [env_mappings] visits up to this one can be written. *)
Theorem environment_is_reported w key v :
  In (EStatus INFO (MsgFromEnvironment key v)) (events (main w))
  <-> command_line = Parsed
      /\ exists before var after,
           env_mappings = before ++ (var, key) :: after
           /\ environ w !! var = Some v
           /\ env_writable (environ w) (before ++ [(var, key)]).
Proof.
  destruct (run_on_shape w _ (main_on w))
    as [[HP ->] | [[HP ->] | (r & pre & c0 & rest & e & c & Hs & -> & Hrest & He
                               & _ & _)]].
  - split; [intros [[=] | [[=] | []]] | intros [E _]; congruence].
  - split; [intros [[=] | [[=] | []]] | intros [E _]; congruence].
  - assert (In (EStatus INFO (MsgFromEnvironment key v))
              (events (ended c (pre ++ rest) e))
            <-> In (EStatus INFO (MsgFromEnvironment key v)) pre) as ->.
    { cbn [events ended]. rewrite <- app_assoc, !in_app_iff.
      split; [| tauto]. intros [Hin | [Hin | [Hin | Hin]]]; [exact Hin | exfalso ..].
      - rewrite List.Forall_forall in Hrest. destruct (Hrest _ Hin).
      - destruct e; cbn in Hin; intuition discriminate.
      - destruct Hin as [[=] | []]. }
    destruct (set_up_cases _ _ _ _ Hs)
      as [HP [[Hall Hcfg] | (before0 & var0 & key0 & v0 & Hstop & _ & -> & _)]].
    + destruct (configured_events _ _ _ _ Hcfg) as (asked & -> & Hasked & _).
      split.
      * intros Hin. split; [exact HP |].
        apply in_app_or in Hin. destruct Hin as [Hin | Hin];
          [in_setup_trace; discriminate |].
        apply in_app_or in Hin. destruct Hin as [Hin | Hin];
          [| in_setup_trace; discriminate].
        destruct (env_lines_split _ _ _ _ Hin) as (before & var & after & E & Hv).
        exists before, var, after. split; [exact E |]. split; [exact Hv |].
        rewrite E in Hall.
        change ((var, key) :: after) with ([(var, key)] ++ after) in Hall.
        rewrite app_assoc in Hall. now apply env_writable_app in Hall.
      * intros (_ & before & var & after & E & Hv & _).
        apply in_or_app. right. apply in_or_app. left.
        apply (env_lines_in _ _ var); [| exact Hv]. rewrite E. apply in_elt.
    + split.
      * intros Hin. split; [exact HP |].
        apply in_app_or in Hin. destruct Hin as [Hin | Hin];
          [in_setup_trace; discriminate |].
        destruct (env_lines_split _ _ _ _ Hin) as (before & var & after & E & Hv).
        destruct Hstop as ((after0 & E0) & Hw0 & _).
        exists before, var, (after ++ (var0, key0) :: after0).
        split; [rewrite E0, E, <- app_assoc; reflexivity |].
        split; [exact Hv |]. rewrite E in Hw0.
        change ((var, key) :: after) with ([(var, key)] ++ after) in Hw0.
        rewrite app_assoc in Hw0. now apply env_writable_app in Hw0.
      * intros (_ & before & var & after & E & Hv & Hw).
        apply env_writable_app in Hw. destruct Hw as [Hw Hline].
        destruct (env_stops_later _ _ _ _ _ _ _ _ _ _ E Hw Hv Hstop)
          as [(-> & -> & -> & ->) | [between ->]].
        -- exfalso. destruct Hstop as (_ & _ & _ & Hn).
           unfold env_writable in Hline. cbn [env_lines] in Hline.
           rewrite Hv in Hline. inversion_clear Hline as [| ? ? Hc _].
           cbn [calm message_texts] in Hc. congruence.
        -- apply in_or_app. right.
           apply (env_lines_in _ _ var); [apply in_elt | exact Hv].
Qed.

(** X18. An [OSError] other than [FileNotFoundError] from
    [docker --version] is not caught by [_validate_prerequisites]:
    the run reports an unexpected error, logs the exception and
    ends with status 1 without running [docker info]. *)
Theorem unexpected_docker_error w :
  In (ERun docker_version_cmd) (events (main w)) ->
  run w docker_version_cmd = RunError ->
  status (main w) = 1
  /\ In (EStatus ERROR (MsgUnexpectedError OSError)) (events (main w))
  /\ In (ELog LogException) (events (main w))
  /\ forall cmd, In (ERun cmd) (events (main w)) -> cmd = docker_version_cmd.
Proof.
  intros Hin Hrun0.
  destruct (main_on w)
    as [Hh | Hu | pre c e Hs | pre c checks Hs Hc | pre c checks e Hs Hc
        | pre c checks loaded e Hs Hc Hl
        | pre c checks apps shown Hs Hc Ha Hq Hsh
        | pre c checks apps shown did e Hs Hc Ha c' Hsh Hq Hx
        | pre c checks apps shown success did tail e Hs Hc Ha c' Hsh Hq Hx Hr];
    try (destruct (checked_run_error _ _ _ Hrun0 Hc) as [[=] _]; fail).
  - exfalso. destruct Hin as [[=] | [[=] | []]].
  - exfalso. destruct Hin as [[=] | [[=] | []]].
  - exfalso. pose proof (set_up_setup _ _ _ _ Hs) as Hpre.
    cbn [events ended] in Hin. rewrite !in_app_iff in Hin.
    destruct Hin as [Hin | [Hin | [[=] | []]]].
    + rewrite List.Forall_forall in Hpre. destruct (Hpre _ Hin).
    + destruct e; cbn in Hin; intuition discriminate.
  - destruct (checked_run_error _ _ _ Hrun0 Hc) as [[= ->] ->].
    pose proof (set_up_setup _ _ _ _ Hs) as Hpre.
    split; [reflexivity |]. split; [in_run |]. split; [in_run |].
    intros cmd Hcmd. in_trace; first [discriminate | congruence].
Qed.

(** X29. On every runtime, an interruption that arrives while the
    output of [docker build] is read ends the run with status
    1, and no return code is reported; the run reports the
    interruption, or, when a line of the output could not be
    written to the standard output, the error of that line. *)
Theorem interrupted_build_on w cmd output :
  In (EPopen cmd) (events (main w)) ->
  popen w cmd = BuildInterrupted output ->
  status (main w) = 1
  /\ (In (EStatus WARNING MsgInterrupted) (events (main w))
      \/ In (EStatus ERROR (MsgBuildError UnicodeEncodeError)) (events (main w)))
  /\ forall rc, ~ In (EStatus ERROR (MsgBuildFailed rc)) (events (main w)).
Proof.
  destruct (main_cases_on w) as [Hrun | Hstop].
  { intros Hin Hp.
    destruct (interrupted_build w _ cmd output Hrun Hin Hp) as (H1 & H2 & H3).
    auto. }
  intros Hin Hp0. stopped_cases Hstop;
    try (exfalso; try destruct Hpass; in_stopped; discriminate).
  destruct Hpass.
  split; [inversion Hrep; subst; reflexivity |].
  split; [right; inversion Hrep; subst; in_run |].
  intros rc Hbad. inversion Hrep; subst; in_stopped; discriminate.
Qed.


End Runtimes.

(** *** The program on concrete worlds *)

#[local] Existing Instance FloatLaws.floats.

Lemma exit_status_130_witness :
  run interrupted_check docker_info_cmd = RunInterrupted
  /\ forall cmd, ~ In (EPopen cmd) (events (main interrupted_check)).
Proof.
  destruct (exit_status_130 interrupted_check) as (_ & Hnone & _).
  - vm_compute. reflexivity.
  - split; [vm_compute; reflexivity | exact Hnone].
Defined.


Lemma spawned_command_witness :
  exists c apps,
    final_config (main plain) = Some c
    /\ accepted_apps plain (apps_file c) apps
    /\ In (EPopen (docker_command c (apps_payload apps))) (events (main plain)).
Proof.
  pose (c0 := set_apps_json_base64 (apps_payload [erpnext]) (config_of_args plain_args)).
  assert (In (EPopen (docker_command c0 (apps_payload [erpnext]))) (events (main plain)))
    as Hin by (vm_compute; find_in).
  destruct (spawned_command plain _ Hin) as (c & apps & Hc & _ & Hacc & Hcmd & _).
  exists c, apps. split; [exact Hc |]. split; [exact Hacc |]. now rewrite <- Hcmd.
Defined.



Lemma exit_status_0_witness :
  events (main (R := asking_help) plain) = [EPrint HelpText; ECleanup]
  \/ exists c, final_config (main (R := asking_help) plain) = Some c.
Proof.
  destruct (exit_status_0 (R := asking_help) plain eq_refl)
    as [[_ E] | (c & apps & Hc & _)]; [now left | right; now exists c].
Defined.

Lemma unexpected_docker_error_witness :
  status (main (R := cpython) broken_docker) = 1
  /\ In (ELog LogException) (events (main (R := cpython) broken_docker)).
Proof.
  destruct (unexpected_docker_error (R := cpython) broken_docker) as (Hs & _ & Hl & _).
  - vm_compute. find_in.
  - reflexivity.
  - split; assumption.
Defined.

(** X27. An apps file whose [url] holds a lone surrogate passes
    the checks of the keys; on CPython with a strict standard
    output the line that lists the app cannot be written and the
    run ends with status 1, where the lenient runtime goes on to
    the dry run and ends with status 0. *)
Lemma surrogate_url_is_refused :
  status (main (R := cpython) surrogate_url) = 1
  /\ In (EStatus ERROR (MsgInvalidApps UnicodeEncodeError))
       (events (main (R := cpython) surrogate_url))
  /\ status (main (R := lenient) surrogate_url) = 0.
Proof.
  split; [vm_compute; reflexivity |].
  split; [vm_compute; find_in | vm_compute; reflexivity].
Qed.

(** X28. An integer of 4301 digits in the apps file is more than
    [int] converts on CPython: [json.load] raises [ValueError] and
    the run ends with status 1, where the runtime without the
    limit accepts the file. *)
Lemma long_integer_is_refused :
  status (main (R := cpython) long_integer) = 1
  /\ In (EStatus ERROR (MsgInvalidApps (ValueError TooManyDigits)))
       (events (main (R := cpython) long_integer))
  /\ status (main (R := lenient) long_integer) = 0.
Proof.
  split; [vm_compute; reflexivity |].
  split; [vm_compute; find_in | vm_compute; reflexivity].
Qed.

Lemma interrupted_build_on_witness :
  status (main (R := cpython) interrupted) = 1.
Proof.
  pose (c := set_apps_json_base64 (apps_payload [erpnext]) (config_of_args plain_args)).
  destruct (interrupted_build_on (R := cpython) interrupted
              (docker_command c (apps_payload [erpnext])) [py "Step 1/1"])
    as (Hstatus & _).
  - vm_compute. find_in.
  - reflexivity.
  - exact Hstatus.
Defined.


End Exits.

(** ** Strings, JSON and base64 as the program uses them *)

Module Codecs.
Import Json Builder.
Import Shapes Spec Spec2 Observe Worlds.
Import Base64Facts Utf8Facts DumpsFacts ParseFacts Traces3 StageFacts3.

(** *** [str.strip] and [str.split] *)

Lemma lstrip_nil s : Py.lstrip s = [] <-> Forall (fun c => Py.isspace c = true) s.
Proof.
  induction s as [| c s IH]; cbn [Py.lstrip].
  - split; [constructor | reflexivity].
  - destruct (Py.isspace c) eqn:E.
    + rewrite IH. split; [now constructor | now inversion 1].
    + split; [discriminate |]. inversion 1. congruence.
Qed.

Lemma lstrip_blank s :
  Forall (fun c => Py.isspace c = true) (Py.lstrip s)
  -> Forall (fun c => Py.isspace c = true) s.
Proof.
  induction s as [| c s IH]; cbn [Py.lstrip]; [constructor |].
  destruct (Py.isspace c) eqn:E; [| exact id].
  intros H. constructor; auto.
Qed.

(** X19. An answer is replaced by the default of its prompt exactly
    when it holds nothing but white space: [s.strip()] is empty
    exactly for such [s]. *)
Theorem strip_is_empty_for_blanks s :
  (Py.strip s = [] <-> Forall (fun c => Py.isspace c = true) s)
  /\ forall default,
       default <> [] ->
       (or_default (Py.strip s) default = default
        <-> Forall (fun c => Py.isspace c = true) s \/ Py.strip s = default).
Proof.
  assert (Py.strip s = [] <-> Forall (fun c => Py.isspace c = true) s) as H.
  { unfold Py.strip, Py.rstrip. split.
    - intros E. apply (f_equal (@rev Z)) in E. rewrite rev_involutive in E.
      cbn [rev] in E. apply lstrip_nil in E. apply Forall_rev in E.
      rewrite rev_involutive in E. now apply lstrip_blank.
    - intros Hs. apply lstrip_nil in Hs. rewrite Hs. reflexivity. }
  split; [exact H |]. intros default Hd. unfold or_default.
  destruct (Py.strip s) as [| c t] eqn:E.
  - split; [intros _; left; now apply H | reflexivity].
  - split; [intros <-; now right |].
    intros [Hs | Hs]; [| exact Hs]. apply H in Hs. discriminate.
Qed.

Lemma split_cons sep s : exists p ps, Py.split sep s = p :: ps.
Proof. apply split_head. Qed.

(** X20. [s.split(sep)] cuts [s] at every [sep]: joining the pieces
    with [sep] gives [s] back, no piece holds [sep], and there is a
    second piece exactly when [sep] occurs in [s]. *)
Theorem split_cuts_at_the_separator sep s :
  Py.join [sep] (Py.split sep s) = s
  /\ Forall (fun piece => sep ∉ piece) (Py.split sep s)
  /\ (Py.split sep s !! 1%nat = None <-> sep ∉ s)
  /\ Py.split sep s <> [].
Proof.
  split; [| split; [| split; [apply split_second |]]].
  - induction s as [| c s IH]; [reflexivity |].
    unfold Py.split; fold (Py.split sep s).
    destruct (split_cons sep s) as (p & ps & E). rewrite E in *.
    destruct (Z.eqb_spec c sep) as [-> | Hne].
    + change (Py.join [sep] ([] :: p :: ps)) with ([] ++ [sep] ++ Py.join [sep] (p :: ps)).
      now rewrite IH.
    + destruct ps as [| q ps].
      * change (Py.join [sep] [p]) with p in IH.
        change (Py.join [sep] [c :: p]) with (c :: p). now rewrite IH.
      * change (Py.join [sep] ((c :: p) :: q :: ps))
          with (c :: (p ++ [sep] ++ Py.join [sep] (q :: ps))).
        change (Py.join [sep] (p :: q :: ps))
          with (p ++ [sep] ++ Py.join [sep] (q :: ps)) in IH.
        now rewrite IH.
  - induction s as [| c s IH].
    + repeat constructor. intros H. now apply not_elem_of_nil in H.
    + unfold Py.split; fold (Py.split sep s).
      destruct (split_cons sep s) as (p & ps & E). rewrite E in *.
      inversion_clear IH as [| ? ? Hp Hps].
      destruct (Z.eqb_spec c sep) as [-> | Hne].
      * constructor; [intros H; now apply not_elem_of_nil in H |].
        now constructor.
      * constructor; [| assumption].
        rewrite not_elem_of_cons. split; [congruence | assumption].
  - destruct (split_cons sep s) as (p & ps & E). rewrite E. discriminate.
Qed.

(** *** [base64.b64encode] *)

Lemma b64encode_length bs :
  length (Base64.b64encode bs) = (4 * ((length bs + 2) / 3))%nat.
Proof.
  induction bs as [| a | a b | a b c r IH] using list_ind3; try reflexivity.
  change (length (Base64.b64encode (a :: b :: c :: r)))
    with (S (S (S (S (length (Base64.b64encode r)))))).
  rewrite IH. cbn [length].
  replace (S (S (S (length r))) + 2)%nat with (1 * 3 + (length r + 2))%nat by lia.
  rewrite Nat.div_add_l by lia. lia.
Qed.

(** X21. [b64encode] writes four ASCII characters for every three
    octets, the last group padded, and the decoder gives the octets
    back; so two byte strings with the same encoding are equal. *)
Theorem b64encode_is_invertible bs :
  Forall Py.is_byte bs ->
  Base64.b64decode (Base64.b64encode bs) = Some bs
  /\ length (Base64.b64encode bs) = (4 * ((length bs + 2) / 3))%nat
  /\ Forall Py.is_ascii (Base64.b64encode bs)
  /\ forall bs', Forall Py.is_byte bs' ->
                 Base64.b64encode bs = Base64.b64encode bs' -> bs = bs'.
Proof.
  intros H. split; [now apply b64decode_b64encode |].
  split; [apply b64encode_length |]. split; [now apply b64encode_ascii |].
  intros bs' H' E.
  apply b64decode_b64encode in H. apply b64decode_b64encode in H'.
  rewrite E in H. congruence.
Qed.

Section Values.
Context {F : PyFloat}.

(** *** [json.dumps] and [json.loads] *)

(** X22. What [json.dumps(v, indent=2)] writes is ASCII, whatever
    the strings of [v] hold: neither [.encode()] nor the
    [.decode()] of the base64 text can raise in [build]. *)
Theorem payload_is_ascii (v : json) :
  Forall Py.is_ascii (dumps v)
  /\ Utf8.encode (dumps v) = Some (dumps v)
  /\ Forall Py.is_ascii (Base64.b64encode (dumps v))
  /\ Utf8.decode (Base64.b64encode (dumps v)) = Some (Base64.b64encode (dumps v)).
Proof.
  assert (Forall Py.is_ascii (dumps v)) as H by apply dumps_at_ascii.
  assert (Forall Py.is_ascii (Base64.b64encode (dumps v))) as H'.
  { apply b64encode_ascii. eapply List.Forall_impl; [apply ascii_is_byte | exact H]. }
  split; [exact H |]. split; [now apply encode_ascii |].
  split; [exact H' | now apply decode_ascii].
Qed.

(** X23. Every value that [json.load] reads from a file is written
    by [json.dumps(v, indent=2)] as a text from which [json.loads]
    reads the same value. *)
Theorem loaded_values_round_trip content text (v : json) :
  Utf8.decode content = Some text ->
  loads text = Some v ->
  loads (dumps v) = Some v.
Proof.
  intros Hd Hl. apply loads_dumps.
  eapply loads_loadable; [eapply decode_scalar; exact Hd | exact Hl].
Qed.

(** X24. The payload determines the apps list: two accepted lists
    that differ give payloads that differ. *)
Theorem payloads_differ w p apps w' p' apps' :
  accepted_apps w p apps -> accepted_apps w' p' apps' ->
  apps <> apps' ->
  apps_payload apps <> apps_payload apps'.
Proof.
  intros Hacc Hacc' Hne E. apply Hne. unfold apps_payload in E.
  assert (forall a : list json, Forall Py.is_byte (dumps (JArr a))) as Hbytes.
  { intros a. eapply List.Forall_impl; [apply ascii_is_byte | apply dumps_at_ascii]. }
  pose proof (b64decode_b64encode _ (Hbytes apps)) as D.
  pose proof (b64decode_b64encode _ (Hbytes apps')) as D'.
  rewrite E in D. rewrite D in D'. injection D' as D'.
  pose proof (loads_dumps _ (accepted_loadable _ _ _ Hacc)) as L.
  pose proof (loads_dumps _ (accepted_loadable _ _ _ Hacc')) as L'.
  rewrite D' in L. rewrite L in L'. now injection L'.
Qed.

End Values.

(** *** On concrete texts *)

#[local] Existing Instance FloatLaws.floats.

Lemma b64encode_is_invertible_witness :
  Base64.b64decode (Base64.b64encode (py "Man!")) = Some (py "Man!")
  /\ length (Base64.b64encode (py "Man!")) = 8%nat.
Proof.
  destruct (b64encode_is_invertible (py "Man!")) as (Hd & Hl & _).
  - repeat (apply List.Forall_cons; [unfold Py.is_byte; vm_compute; intuition discriminate |]).
    apply List.Forall_nil.
  - split; [exact Hd | exact Hl].
Defined.

Lemma loaded_values_round_trip_witness :
  exists text v,
    Utf8.decode sample_text = Some text
    /\ loads text = Some v
    /\ loads (dumps v) = Some v.
Proof.
  destruct (Utf8.decode sample_text) as [text |] eqn:Hd;
    [| vm_compute in Hd; discriminate Hd].
  destruct (loads text) as [v |] eqn:Hl.
  - exists text, v. split; [reflexivity |]. split; [exact Hl |].
    exact (loaded_values_round_trip sample_text text v Hd Hl).
  - exfalso. vm_compute in Hd. injection Hd as <-. vm_compute in Hl. discriminate Hl.
Defined.

Lemma payloads_differ_witness :
  apps_payload [erpnext] <> apps_payload [loose_app]
  /\ accepted_apps loose (py "apps.json") [loose_app].
Proof.
  assert (accepted_apps plain (py "apps.json") [erpnext]) as H1.
  { exists (dumps (JArr [erpnext])), (dumps (JArr [erpnext])).
    split; [vm_compute; reflexivity |]. split; [vm_compute; reflexivity |].
    split; [vm_compute; reflexivity |].
    apply List.Forall_cons; [| apply List.Forall_nil].
    eexists. split; [reflexivity |]. split; vm_compute; reflexivity. }
  assert (accepted_apps loose (py "apps.json") [loose_app]) as H2.
  { exists (dumps (JArr [loose_app])), (dumps (JArr [loose_app])).
    split; [vm_compute; reflexivity |]. split; [vm_compute; reflexivity |].
    split; [vm_compute; reflexivity |].
    apply List.Forall_cons; [| apply List.Forall_nil].
    eexists. split; [reflexivity |]. split; vm_compute; reflexivity. }
  split; [| exact H2].
  apply (payloads_differ plain (py "apps.json") [erpnext]
           loose (py "apps.json") [loose_app] H1 H2).
  discriminate.
Defined.

End Codecs.

(** ** The fuel of the JSON decoder *)

Module Fuel.
Import Json Shapes NumberFacts StringFacts EscapeFacts LexFacts RoundTrip Utf8Facts.
Import LoadFacts ParseFacts Worlds.

Lemma skip_ws_length s : (length (skip_ws s) <= length s)%nat.
Proof.
  induction s as [| c s IH]; [reflexivity |].
  cbn [skip_ws]. destruct (is_ws c); cbn [length]; lia.
Qed.

Lemma skip_ws_cons_length s c r :
  skip_ws s = c :: r -> (S (length r) <= length s)%nat.
Proof. intros E. pose proof (skip_ws_length s) as H. rewrite E in H. exact H. Qed.

Lemma strip_prefix_length p s r :
  Py.strip_prefix p s = Some r -> (length r + length p = length s)%nat.
Proof.
  revert s. induction p as [| a p IH]; intros s H.
  - inversion H; subst. cbn. lia.
  - destruct s as [| b s]; [discriminate |]. cbn [Py.strip_prefix] in H.
    destruct (a =? b); [| discriminate]. apply IH in H. cbn [length]. lia.
Qed.

Lemma strip_prefix_shortens p s r :
  Py.strip_prefix p s = Some r -> (0 < length p)%nat -> (length r < length s)%nat.
Proof. intros H Hp. apply strip_prefix_length in H. lia. Qed.

Lemma match_number_length s i fr ex r :
  match_number s = Some (i, fr, ex, r) -> (length r < length s)%nat.
Proof.
  intros H. apply match_number_chars in H. destruct H as (-> & _ & Hi).
  rewrite !length_app. destruct i; [contradiction | cbn [length]; lia].
Qed.

Lemma scanstring_length_bounded n :
  forall s t r, (length s <= n)%nat -> scanstring s = Some (t, r) ->
                (length r < length s)%nat.
Proof.
  induction n as [| n IH]; intros s t r Hlen H.
  { destruct s; [discriminate | cbn in Hlen; lia]. }
  destruct s as [| c s1]; [discriminate |].
  cbn [length] in *. cbn [scanstring] in H.
  destruct (c =? dquote); [inversion H; subst; lia |].
  destruct (c =? backslash).
  2:{ destruct (c <? 32); [discriminate |].
      fold (cons_result c (scanstring s1)) in H.
      apply cons_result_some in H. destruct H as (t' & -> & H).
      apply IH in H; lia. }
  destruct s1 as [| e s2]; [discriminate |]. cbn [length] in *.
  destruct (e =? 117).
  2:{ destruct (unescape e) as [ch |]; [| discriminate].
      fold (cons_result ch (scanstring s2)) in H.
      apply cons_result_some in H. destruct H as (t' & -> & H).
      apply IH in H; lia. }
  destruct s2 as [| h1 [| h2 [| h3 [| h4 s3]]]]; try discriminate.
  cbn [length] in *.
  destruct (decode_hex4 h1 h2 h3 h4) as [uni |]; [| discriminate].
  fold (cons_result uni (scanstring s3)) in H.
  assert (cons_result uni (scanstring s3) = Some (t, r) ->
          (length r < S (S (S (S (S (S (length s3)))))))%nat) as Hsingle.
  { intros Hr. apply cons_result_some in Hr. destruct Hr as (t' & -> & Hr).
    apply IH in Hr; lia. }
  destruct (Py.is_high_surrogate uni); [| now apply Hsingle].
  destruct s3 as [| b [| u s4]]; try (now apply Hsingle).
  destruct ((b =? backslash) && (u =? 117)); [| now apply Hsingle].
  destruct s4 as [| k1 [| k2 [| k3 [| k4 s5]]]]; try discriminate.
  destruct (decode_hex4 k1 k2 k3 k4) as [uni2 |]; [| discriminate].
  destruct (Py.is_low_surrogate uni2); [| now apply Hsingle].
  fold (cons_result (join_surrogates uni uni2) (scanstring s5)) in H.
  apply cons_result_some in H. destruct H as (t' & -> & H).
  apply IH in H; cbn [length] in *; lia.
Qed.

Lemma scanstring_length s t r :
  scanstring s = Some (t, r) -> (length r < length s)%nat.
Proof. now apply (scanstring_length_bounded (length s)). Qed.

Section Values.
Context {F : PyFloat}.

(** Each scanner consumes a character. *)
Lemma scanners_shorten fuel :
  (forall s (v : json) r, scan_once fuel s = Some (v, r) -> (length r < length s)%nat)
  /\ (forall s (vs : list json) r,
         array_loop fuel s = Some (vs, r) -> (length r < length s)%nat)
  /\ (forall s (kvs : list (pystr * json)) r,
         object_loop fuel s = Some (kvs, r) -> (length r < length s)%nat).
Proof.
  induction fuel as [| n (Hscan & Harr & Hobj)].
  { split; [| split]; intros a1 a2 a3 E; discriminate. }
  split; [| split].
  - intros s v r H. destruct s as [| c s1]; [discriminate |].
    cbn [scan_once] in H. cbn [length].
    destruct (c =? dquote).
    { destruct (scanstring s1) as [[t r'] |] eqn:E; [| discriminate].
      inversion H; subst. apply scanstring_length in E. lia. }
    destruct (c =? 123).
    { destruct (skip_ws s1) as [| c1 r1] eqn:Ew; [discriminate |].
      apply skip_ws_cons_length in Ew.
      destruct (c1 =? 125); [inversion H; subst; lia |].
      destruct (c1 =? dquote); [| discriminate].
      destruct (object_loop n r1) as [[pairs r'] |] eqn:E; [| discriminate].
      inversion H; subst. apply Hobj in E. lia. }
    destruct (c =? 91).
    { destruct (skip_ws s1) as [| c1 r1] eqn:Ew; [discriminate |].
      apply skip_ws_cons_length in Ew.
      destruct (c1 =? 93); [inversion H; subst; lia |].
      destruct (array_loop n (c1 :: r1)) as [[items r'] |] eqn:E; [| discriminate].
      inversion H; subst. apply Harr in E. cbn [length] in E. lia. }
    destruct (Py.strip_prefix (py "null") (c :: s1)) eqn:E1.
    { inversion H; subst. apply strip_prefix_shortens in E1; [cbn [length] in E1; lia | vm_compute; lia]. }
    destruct (Py.strip_prefix (py "true") (c :: s1)) eqn:E2.
    { inversion H; subst. apply strip_prefix_shortens in E2; [cbn [length] in E2; lia | vm_compute; lia]. }
    destruct (Py.strip_prefix (py "false") (c :: s1)) eqn:E3.
    { inversion H; subst. apply strip_prefix_shortens in E3; [cbn [length] in E3; lia | vm_compute; lia]. }
    destruct (match_number (c :: s1)) as [[[[i fr] ex] r'] |] eqn:E4.
    { apply match_number_length in E4. cbn [length] in E4.
      destruct fr, ex; inversion H; subst; lia. }
    destruct (Py.strip_prefix (py "NaN") (c :: s1)) eqn:E5.
    { inversion H; subst. apply strip_prefix_shortens in E5; [cbn [length] in E5; lia | vm_compute; lia]. }
    destruct (Py.strip_prefix (py "Infinity") (c :: s1)) eqn:E6.
    { inversion H; subst. apply strip_prefix_shortens in E6; [cbn [length] in E6; lia | vm_compute; lia]. }
    destruct (Py.strip_prefix (py "-Infinity") (c :: s1)) eqn:E7; [| discriminate].
    inversion H; subst. apply strip_prefix_shortens in E7; [cbn [length] in E7; lia | vm_compute; lia].
  - intros s vs r H. rewrite array_loop_eq in H.
    destruct (scan_once n s) as [[v r0] |] eqn:E; [| discriminate].
    apply Hscan in E.
    destruct (skip_ws r0) as [| c r1] eqn:Ew; [discriminate |].
    apply skip_ws_cons_length in Ew.
    destruct (c =? 93); [inversion H; subst; lia |].
    destruct (c =? 44); [| discriminate].
    destruct (array_loop n (skip_ws r1)) as [[vs' r'] |] eqn:E'; [| discriminate].
    inversion H; subst. apply Harr in E'.
    pose proof (skip_ws_length r1). lia.
  - intros s kvs r H. rewrite object_loop_eq in H.
    destruct (scanstring s) as [[key r0] |] eqn:E; [| discriminate].
    apply scanstring_length in E.
    destruct (skip_ws r0) as [| c r1] eqn:Ew; [discriminate |].
    apply skip_ws_cons_length in Ew.
    destruct (c =? 58); [| discriminate].
    destruct (scan_once n (skip_ws r1)) as [[v r2] |] eqn:E2; [| discriminate].
    apply Hscan in E2. pose proof (skip_ws_length r1).
    destruct (skip_ws r2) as [| c' r3] eqn:Ew2; [discriminate |].
    apply skip_ws_cons_length in Ew2.
    destruct (c' =? 125); [inversion H; subst; lia |].
    destruct (c' =? 44); [| discriminate].
    destruct (skip_ws r3) as [| q r4] eqn:Ew3; [discriminate |].
    apply skip_ws_cons_length in Ew3.
    destruct (q =? dquote); [| discriminate].
    destruct (object_loop n r4) as [[kvs' r'] |] eqn:E'; [| discriminate].
    inversion H; subst. apply Hobj in E'. lia.
Qed.

(** With fuel above twice the length of the text, the result of a
    scanner does not depend on the fuel. *)
Lemma scanners_stable bound :
  forall s, (length s <= bound)%nat ->
    (forall n m, (2 * length s + 1 <= n)%nat -> (2 * length s + 1 <= m)%nat ->
                 scan_once n s = scan_once m s)
    /\ (forall n m, (2 * length s + 2 <= n)%nat -> (2 * length s + 2 <= m)%nat ->
                    array_loop n s = array_loop m s)
    /\ (forall n m, (2 * length s + 2 <= n)%nat -> (2 * length s + 2 <= m)%nat ->
                    object_loop n s = object_loop m s).
Proof.
  induction bound as [| bound IH]; intros s Hlen.
  { destruct s; [| cbn in Hlen; lia].
    split; [| split]; intros n m Hn Hm;
      (destruct n as [| n]; [cbn in Hn; lia |]);
      (destruct m as [| m]; [cbn in Hm; lia |]); try reflexivity.
    rewrite !array_loop_eq.
    destruct n, m; try reflexivity; cbn in Hn, Hm; lia. }
  assert (forall n m, (2 * length s + 1 <= n)%nat -> (2 * length s + 1 <= m)%nat ->
                      scan_once n s = scan_once m s) as Hscan.
  { intros n m Hn Hm.
    destruct n as [| n]; [lia |]. destruct m as [| m]; [lia |].
    destruct s as [| c s1]; [reflexivity |].
    cbn [length] in *. cbn [scan_once].
    destruct (c =? dquote); [reflexivity |].
    destruct (c =? 123).
    { destruct (skip_ws s1) as [| c1 r1] eqn:Ew; [reflexivity |].
      apply skip_ws_cons_length in Ew.
      destruct (c1 =? 125); [reflexivity |].
      destruct (c1 =? dquote); [| reflexivity].
      destruct (IH r1) as (_ & _ & Ho); [lia |].
      rewrite (Ho n m) by lia. reflexivity. }
    destruct (c =? 91); [| reflexivity].
    destruct (skip_ws s1) as [| c1 r1] eqn:Ew; [reflexivity |].
    apply skip_ws_cons_length in Ew.
    destruct (c1 =? 93); [reflexivity |].
    destruct (IH (c1 :: r1)) as (_ & Ha & _); [cbn [length]; lia |].
    rewrite (Ha n m) by (cbn [length]; lia). reflexivity. }
  split; [exact Hscan |]. split.
  - intros n m Hn Hm.
    destruct n as [| n]; [lia |]. destruct m as [| m]; [lia |].
    rewrite !array_loop_eq. rewrite (Hscan n m) by lia.
    destruct (scan_once m s) as [[v r0] |] eqn:E; [| reflexivity].
    apply (proj1 (scanners_shorten m)) in E.
    destruct (skip_ws r0) as [| c r1] eqn:Ew; [reflexivity |].
    apply skip_ws_cons_length in Ew.
    destruct (c =? 93); [reflexivity |].
    destruct (c =? 44); [| reflexivity].
    pose proof (skip_ws_length r1).
    destruct (IH (skip_ws r1)) as (_ & Ha & _); [lia |].
    rewrite (Ha n m) by lia. reflexivity.
  - intros n m Hn Hm.
    destruct n as [| n]; [lia |]. destruct m as [| m]; [lia |].
    rewrite !object_loop_eq.
    destruct (scanstring s) as [[key r0] |] eqn:E; [| reflexivity].
    apply scanstring_length in E.
    destruct (skip_ws r0) as [| c r1] eqn:Ew; [reflexivity |].
    apply skip_ws_cons_length in Ew.
    destruct (c =? 58); [| reflexivity].
    pose proof (skip_ws_length r1).
    destruct (IH (skip_ws r1)) as (Hs & _ & _); [lia |].
    rewrite (Hs n m) by lia.
    destruct (scan_once m (skip_ws r1)) as [[v r2] |] eqn:E2; [| reflexivity].
    apply (proj1 (scanners_shorten m)) in E2.
    destruct (skip_ws r2) as [| c' r3] eqn:Ew2; [reflexivity |].
    apply skip_ws_cons_length in Ew2.
    destruct (c' =? 125); [reflexivity |].
    destruct (c' =? 44); [| reflexivity].
    destruct (skip_ws r3) as [| q r4] eqn:Ew3; [reflexivity |].
    apply skip_ws_cons_length in Ew3.
    destruct (q =? dquote); [| reflexivity].
    destruct (IH r4) as (_ & _ & Ho); [lia |].
    rewrite (Ho n m) by lia. reflexivity.
Qed.

(** X25. [json.loads] is embedded with a bound on the depth of the
    recursion, [fuel_for]; the bound is never reached: with any
    larger bound the decoder returns the same value or rejects the
    same text, and a value it returns leaves less text than it was
    given. *)
Theorem loads_has_enough_fuel s n :
  (fuel_for s <= n)%nat ->
  scan_once n (skip_ws s) = scan_once (fuel_for s) (skip_ws s)
  /\ forall (v : json) r,
       scan_once n (skip_ws s) = Some (v, r) -> (length r < length s)%nat.
Proof.
  intros Hn. unfold fuel_for in *. pose proof (skip_ws_length s) as Hw.
  split.
  - destruct (scanners_stable (length (skip_ws s)) (skip_ws s)) as (Hs & _);
      [lia |].
    apply Hs; lia.
  - intros v r H. apply (proj1 (scanners_shorten n)) in H. lia.
Qed.

End Values.

#[local] Existing Instance FloatLaws.floats.

Lemma loads_has_enough_fuel_witness :
  scan_once 1000 (skip_ws sample_text) = scan_once (fuel_for sample_text) (skip_ws sample_text).
Proof.
  apply (loads_has_enough_fuel sample_text 1000). vm_compute. lia.
Defined.

End Fuel.

(** ** UTF-8 *)

Module Utf8RoundTrip.
Import Utf8 Shapes Utf8Facts Worlds.

Ltac arith := Z.div_mod_to_equations; lia.

(** Decides the comparisons of the goal. *)
Ltac compare :=
  repeat match goal with
         | |- context [?a <=? ?b] => destruct (Z.leb_spec a b)
         | |- context [?a <? ?b] => destruct (Z.ltb_spec a b)
         end;
  cbn [andb negb orb]; try (exfalso; arith).

(** Proves a comparison true or false. *)
Ltac bool_eq :=
  repeat match goal with
         | |- context [?a <=? ?b] => destruct (Z.leb_spec a b)
         | |- context [?a <? ?b] => destruct (Z.ltb_spec a b)
         end;
  cbn [andb negb orb]; first [reflexivity | exfalso; arith].

(** Takes the branch of a conditional whose test can be decided. *)
Ltac step_if :=
  match goal with
  | |- context [if ?b then _ else _] =>
      first [ replace b with true by (symmetry; bool_eq)
            | replace b with false by (symmetry; bool_eq) ]
  end;
  cbv beta iota.

Lemma cont_byte x : 0 <= x < 64 -> cont (128 + x) = Some x.
Proof.
  intros Hx. unfold cont. rewrite (Bits.land_mask 6 64 _ 63) by easy.
  compare. f_equal. arith.
Qed.

(** The bytes of a character, as sums. *)
Lemma encode_char_eq c bs :
  encode_char c = Some bs ->
  (0 <= c < 128 /\ bs = [c])
  \/ (128 <= c < 2048 /\ bs = [192 + c / 64; 128 + c mod 64])
  \/ (2048 <= c < 65536 /\ Py.is_surrogate c = false
      /\ bs = [224 + c / 4096; 128 + c / 64 mod 64; 128 + c mod 64])
  \/ (65536 <= c < 1114112
      /\ bs = [240 + c / 262144; 128 + c / 4096 mod 64; 128 + c / 64 mod 64;
               128 + c mod 64]).
Proof.
  unfold encode_char.
  destruct (Z.ltb_spec c 0); [discriminate |].
  destruct (Z.ltb_spec c 128); [intros [= <-]; left; split; [lia | reflexivity] |].
  rewrite !(Bits.land_mask 6 64 _ 63) by easy.
  rewrite (Bits.shiftr_div 6 64), (Bits.shiftr_div 12 4096), (Bits.shiftr_div 18 262144)
    by easy.
  destruct (Z.ltb_spec c 2048).
  { intros [= <-]. right. left. split; [lia |].
    rewrite (Bits.lor_const 5 32 192), (Bits.lor_const 6 64 128) by (easy || arith).
    reflexivity. }
  destruct (Py.is_surrogate c) eqn:Hs; [discriminate |].
  destruct (Z.ltb_spec c 65536).
  { intros [= <-]. right. right. left. split; [lia |]. split; [reflexivity |].
    rewrite (Bits.lor_const 4 16 224), !(Bits.lor_const 6 64 128) by (easy || arith).
    reflexivity. }
  destruct (Z.ltb_spec c 1114112); [| discriminate].
  intros [= <-]. do 3 right. split; [lia |].
  rewrite (Bits.lor_const 3 8 240), !(Bits.lor_const 6 64 128) by (easy || arith).
  reflexivity.
Qed.

(** Compares two byte strings byte by byte. *)
Ltac bytes :=
  repeat match goal with
         | |- Some _ = Some _ => apply f_equal
         | |- _ :: _ = _ :: _ => apply (f_equal2 cons)
         end;
  try reflexivity; arith.

(** Reads the bounds out of a test that holds. *)
Ltac bounds E :=
  apply andb_true_iff in E;
  let lo := fresh "Hlo" in
  let hi := fresh "Hhi" in
  destruct E as [lo hi]; apply Z.leb_le in lo; apply Z.ltb_lt in hi.

(** One step of the encoder. *)
Lemma encode_cons c r :
  encode (c :: r)
  = match encode_char c, encode r with
    | Some bs, Some rs => Some (bs ++ rs)
    | _, _ => None
    end.
Proof. reflexivity. Qed.

(** One step of the decoder. *)
Lemma decode_cons b0 r :
  decode (b0 :: r)
  = if (0 <=? b0) && (b0 <? 128) then
      match decode r with Some s => Some (b0 :: s) | None => None end
    else if (192 <=? b0) && (b0 <? 224) then
      match r with
      | b1 :: r1 =>
          match cont b1 with
          | Some c1 =>
              let cp := glue (Z.land b0 31) c1 in
              if 128 <=? cp then
                match decode r1 with Some s => Some (cp :: s) | None => None end
              else None
          | None => None
          end
      | _ => None
      end
    else if (224 <=? b0) && (b0 <? 240) then
      match r with
      | b1 :: b2 :: r2 =>
          match cont b1, cont b2 with
          | Some c1, Some c2 =>
              let cp := glue (glue (Z.land b0 15) c1) c2 in
              if (2048 <=? cp) && negb (Py.is_surrogate cp) then
                match decode r2 with Some s => Some (cp :: s) | None => None end
              else None
          | _, _ => None
          end
      | _ => None
      end
    else if (240 <=? b0) && (b0 <? 248) then
      match r with
      | b1 :: b2 :: b3 :: r3 =>
          match cont b1, cont b2, cont b3 with
          | Some c1, Some c2, Some c3 =>
              let cp := glue (glue (glue (Z.land b0 7) c1) c2) c3 in
              if (65536 <=? cp) && (cp <? 1114112) then
                match decode r3 with Some s => Some (cp :: s) | None => None end
              else None
          | _, _, _ => None
          end
      | _ => None
      end
    else None.
Proof. reflexivity. Qed.

Lemma decode_encode_char c bs rest :
  encode_char c = Some bs ->
  decode (bs ++ rest)
  = match decode rest with Some s => Some (c :: s) | None => None end.
Proof.
  intros H. apply encode_char_eq in H.
  destruct H as [[Hc ->] | [[Hc ->] | [(Hc & Hs & ->) | [Hc ->]]]]; cbn [app];
    rewrite decode_cons.
  - step_if. reflexivity.
  - do 2 step_if. rewrite cont_byte by arith. cbv beta iota zeta.
    rewrite glue_eq by arith. rewrite (Bits.land_mask 5 32 _ 31) by easy.
    replace ((192 + c / 64) mod 32 * 64 + c mod 64) with c by arith.
    step_if. reflexivity.
  - do 3 step_if. rewrite !cont_byte by arith. cbv beta iota zeta.
    rewrite !glue_eq by arith. rewrite (Bits.land_mask 4 16 _ 15) by easy.
    replace (((224 + c / 4096) mod 16 * 64 + c / 64 mod 64) * 64 + c mod 64)
      with c by arith.
    rewrite Hs. cbn [negb]. step_if. reflexivity.
  - do 4 step_if. rewrite !cont_byte by arith. cbv beta iota zeta.
    rewrite !glue_eq by arith. rewrite (Bits.land_mask 3 8 _ 7) by easy.
    replace ((((240 + c / 262144) mod 8 * 64 + c / 4096 mod 64) * 64
              + c / 64 mod 64) * 64 + c mod 64) with c by arith.
    step_if. reflexivity.
Qed.

Lemma decode_encode s : forall bs, encode s = Some bs -> decode bs = Some s.
Proof.
  induction s as [| c s IH]; intros bs H; [now inversion H |].
  rewrite encode_cons in H.
  destruct (encode_char c) as [b |] eqn:Ec; [| discriminate].
  destruct (encode s) as [rs |] eqn:Es; [| discriminate].
  inversion H; subst. rewrite (decode_encode_char _ _ _ Ec).
  now rewrite (IH rs eq_refl).
Qed.

Lemma cont_inv b x : cont b = Some x -> 0 <= x < 64 /\ b = 128 + x.
Proof.
  unfold cont. destruct (Z.leb_spec 128 b), (Z.leb_spec b 191); try discriminate.
  cbn [andb]. intros [= <-]. rewrite (Bits.land_mask 6 64 b 63) by easy. arith.
Qed.

Lemma encode_char_bytes c :
  (0 <= c < 128 -> encode_char c = Some [c])
  /\ (128 <= c < 2048 -> encode_char c = Some [192 + c / 64; 128 + c mod 64])
  /\ (2048 <= c < 65536 -> Py.is_surrogate c = false ->
      encode_char c = Some [224 + c / 4096; 128 + c / 64 mod 64; 128 + c mod 64])
  /\ (65536 <= c < 1114112 ->
      encode_char c
      = Some [240 + c / 262144; 128 + c / 4096 mod 64; 128 + c / 64 mod 64;
              128 + c mod 64]).
Proof.
  unfold encode_char.
  rewrite !(Bits.land_mask 6 64 _ 63) by easy.
  rewrite (Bits.shiftr_div 6 64), (Bits.shiftr_div 12 4096), (Bits.shiftr_div 18 262144)
    by easy.
  repeat split.
  - intros Hc. compare. reflexivity.
  - intros Hc. compare.
    rewrite (Bits.lor_const 5 32 192), (Bits.lor_const 6 64 128) by (easy || arith).
    reflexivity.
  - intros Hc Hs. rewrite Hs. compare.
    rewrite (Bits.lor_const 4 16 224), !(Bits.lor_const 6 64 128) by (easy || arith).
    reflexivity.
  - intros Hc.
    assert (Py.is_surrogate c = false) as -> by (unfold Py.is_surrogate; lia).
    compare.
    rewrite (Bits.lor_const 3 8 240), !(Bits.lor_const 6 64 128) by (easy || arith).
    reflexivity.
Qed.

Lemma encode_decode_bounded n :
  forall bs s, (length bs <= n)%nat -> decode bs = Some s -> encode s = Some bs.
Proof.
  induction n as [| n IH]; intros bs s Hlen H.
  - destruct bs; [| cbn in Hlen; lia]. now inversion H.
  - destruct bs as [| b0 r]; [now inversion H |].
    cbn [length] in Hlen. rewrite decode_cons in H.
    destruct ((0 <=? b0) && (b0 <? 128)) eqn:E0.
    { bounds E0.
      destruct (decode r) as [s' |] eqn:Er; [| discriminate]. inversion H; subst.
      rewrite encode_cons, (IH r s') by (lia || assumption).
      rewrite (proj1 (encode_char_bytes b0)) by lia. reflexivity. }
    destruct ((192 <=? b0) && (b0 <? 224)) eqn:E1.
    { bounds E1.
      destruct r as [| b1 r1]; [discriminate |].
      destruct (cont b1) as [c1 |] eqn:C1; [| discriminate].
      apply cont_inv in C1. destruct C1 as [C1 ->]. cbv zeta in H.
      rewrite glue_eq in H by assumption.
      rewrite (Bits.land_mask 5 32 b0 31) in H by easy.
      destruct (Z.leb_spec 128 (b0 mod 32 * 64 + c1)); [| discriminate].
      destruct (decode r1) as [s' |] eqn:Er; [| discriminate]. inversion H; subst.
      cbn [length] in Hlen.
      rewrite encode_cons, (IH r1 s') by (lia || assumption).
      rewrite (proj1 (proj2 (encode_char_bytes _))) by arith.
      cbn [app]. bytes. }
    destruct ((224 <=? b0) && (b0 <? 240)) eqn:E2.
    { bounds E2.
      destruct r as [| b1 [| b2 r2]]; try discriminate.
      destruct (cont b1) as [c1 |] eqn:C1; [| discriminate].
      destruct (cont b2) as [c2 |] eqn:C2; [| discriminate].
      apply cont_inv in C1, C2. destruct C1 as [C1 ->], C2 as [C2 ->].
      cbv zeta in H. rewrite !glue_eq in H by assumption.
      rewrite (Bits.land_mask 4 16 b0 15) in H by easy.
      destruct (Z.leb_spec 2048 ((b0 mod 16 * 64 + c1) * 64 + c2));
        [| discriminate].
      destruct (Py.is_surrogate ((b0 mod 16 * 64 + c1) * 64 + c2)) eqn:Hs;
        [discriminate |].
      cbn [andb negb] in H.
      destruct (decode r2) as [s' |] eqn:Er; [| discriminate]. inversion H; subst.
      cbn [length] in Hlen.
      rewrite encode_cons, (IH r2 s') by (lia || assumption).
      rewrite (proj1 (proj2 (proj2 (encode_char_bytes _)))) by (arith || assumption).
      cbn [app]. bytes. }
    destruct ((240 <=? b0) && (b0 <? 248)) eqn:E3; [| discriminate].
    bounds E3.
    destruct r as [| b1 [| b2 [| b3 r3]]]; try discriminate.
    destruct (cont b1) as [c1 |] eqn:C1; [| discriminate].
    destruct (cont b2) as [c2 |] eqn:C2; [| discriminate].
    destruct (cont b3) as [c3 |] eqn:C3; [| discriminate].
    apply cont_inv in C1, C2, C3.
    destruct C1 as [C1 ->], C2 as [C2 ->], C3 as [C3 ->].
    cbv zeta in H. rewrite !glue_eq in H by assumption.
    rewrite (Bits.land_mask 3 8 b0 7) in H by easy.
    destruct (Z.leb_spec 65536 (((b0 mod 8 * 64 + c1) * 64 + c2) * 64 + c3));
      [| discriminate].
    destruct (Z.ltb_spec (((b0 mod 8 * 64 + c1) * 64 + c2) * 64 + c3) 1114112);
      [| discriminate].
    cbn [andb] in H.
    destruct (decode r3) as [s' |] eqn:Er; [| discriminate]. inversion H; subst.
    cbn [length] in Hlen.
    rewrite encode_cons, (IH r3 s') by (lia || assumption).
    rewrite (proj2 (proj2 (proj2 (encode_char_bytes _)))) by lia.
    cbn [app]. bytes.
Qed.

(** X26. The UTF-8 decoder that reads the apps file and the encoder
    of [str.encode] are inverse to each other: the bytes of a text
    decode to that text, and a byte string that can be decoded is the
    encoding of its text; so no text has two encodings. The decoded
    text holds no surrogate. *)
Theorem utf8_is_a_bijection bs s :
  (decode bs = Some s <-> encode s = Some bs)
  /\ (decode bs = Some s -> Forall is_scalar s).
Proof.
  split; [split |].
  - now apply (encode_decode_bounded (length bs)).
  - apply decode_encode.
  - apply decode_scalar.
Qed.

End Utf8RoundTrip.
